(* ===== verification/_CoqProject ===== *)
-Q . S2P
Prelude.v
GoLib.v
Float.v
Crypto.v
Money.v
Ticket.v
Effects.v
History.v
RedisServer.v
RedisQueue.v
OrderState.v
CatalogEvent.v
World.v
Auth.v
Frame.v
OrderDB.v
Locker.v
Ledger.v
Inventory.v
InventoryRedis.v
InventoryPG.v
Catalog.v
Outbox.v
Payment.v
OrderRequest.v
OrderService.v
OrderPayment.v
OrderRefund.v
OrderTickets.v
OrderExpiry.v
OrderBooks.v
OrderRefine.v
PaymentRefine.v
System.v
Guarantees.v
Flows.v
PaymentFlow.v
CreateFlow.v
Background.v
Consumer.v
Delivery.v
Pipeline.v
Notifier.v
Buyers.v
Queue.v
Worker.v
Waiting.v
Place.v
Admission.v
Http.v
Middleware.v
Fakepay.v
Stream.v
Seed.v
Text.v
Settings.v
Deployed.v
Caches.v
Booking.v
Endpoints.v
Router.v
Routes.v
Gate.v
WaitServer.v
Door.v
Loops.v
Pace.v
Expiring.v
Platform.v
Wiring.v
Checkout.v
Scenario.v
Lobby.v
