(* ===== verification/Prelude.v ===== *)
(** * TicketRush: a verification of the ticket shop

    TicketRush sells numbered seats under heavy load. Buyers queue in a waiting
    room (Redis) and are admitted with a signed token; booking holds their seats
    (Redis or PostgreSQL decides who gets them) and stores an order in
    PostgreSQL; a payment gateway calls back; tickets are issued, and every
    change is announced on Kafka through an outbox, from where consumers issue
    tickets, pay refunds and notify. This library models the Go code under
    [src/] as executable definitions and proves what makes it correct: no seat
    is sold twice, the money balances, no message is lost, nobody loses a place
    in the queue, whatever the interleaving, the failing calls and the crashes.

    ** The program and where its parts are modelled

    Foundations.
    - [GoLib] (int64, strings, UUIDs), [Float] (float64, time.ParseDuration),
      [Text] (strings.Split and the like), [Crypto] (SHA-256, HMAC, hex,
      base64, with published test vectors), [Money] (internal/money).
    - Handlers are trees of atomic actions ([Effects.prog]): one action is one
      transaction, statement, Lua script, Redis command, HTTP call, produced
      record or pause. [run] executes one handler alone; [sys_step] interleaves
      any number of them with crashes, new requests and an arbitrary
      environment ([System]); [History] looks back along an execution.
    - The outside: [World] has the PostgreSQL tables of [migrations/], the
      clocks, the gateway's memory and log, the Kafka log, the notifier's chat and the
      list of faults the next calls meet; Redis is the classes [RedisServer]
      and [RedisQueue] (documented laws, with the instances [MapRedis] and
      [MapQueue]). [Frame] says what a program leaves alone.

    Orders.
    - [OrderState]: internal/order/state.go. [OrderDB]: orderdb and the
      constraints of the schema. [OrderRequest], [OrderService]: request.go,
      service.go (Create, CreateAdmitted, Get, Cancel). [OrderPayment]:
      payment.go (ApplyPayment). [OrderRefund]: refund.go with the gateway's
      refund endpoint. [OrderTickets]: tickets.go. [OrderExpiry]: expiry.go.
    - [Inventory]: internal/inventory/inventory.go, the interface with its
      abstract contract (a map from seats to owners); [InventoryRedis] and
      [InventoryPG]: the two backends, proved to implement it.
    - [Locker], [Ledger]: internal/platform/redisx/lock.go and
      internal/queue/ledger.go, each an interface and its Redis
      implementation.
    - [CatalogEvent], [Catalog], [Seed]: internal/catalog. [Outbox]:
      internal/outbox, internal/events. [Payment]: internal/payment. [Ticket]:
      internal/ticket/qr.go.
    - [Consumer]: internal/platform/kafka/consume.go, the event handlers, and
      the services of cmd/ticket and cmd/refunder as subscriptions;
      [Notifier]: internal/notifier and cmd/notifier. [Loops]: Run of the
      relay, the expirer and the worker.

    The waiting room.
    - [Auth]: internal/auth over the class [JwtLib]. [Queue], [Worker]:
      internal/queue/queue.go and worker.go. [Stream]: the API with its event
      stream (cmd/waitingroom/api.go).

    HTTP and deployment.
    - [Http], [Middleware]: internal/httpx. [Caches], [Booking], [Router]:
      cmd/booking. [Fakepay]: internal/fakepay's handlers and deliveries;
      [Gate]: its routes and page (with cmd/fakepay), and the client of
      internal/payment over the HTTP exchange. [WaitServer]: the routes of
      cmd/waitingroom. [Routes]: the class [MuxFinds], what the routers use of
      chi, with the instance [Segments]. [Settings]: internal/platform/config.
      [Deployed], [Wiring]: what cmd/fakepay, cmd/booking, cmd/waitingroom and
      cmd/expiry build from a configuration. [Platform]: creating topics (and
      cmd/relay's wait for them), timing, log attributes.

    ** What is proved

    - Component theorems, next to each component: the state machine, the seat
      index, request validation and its hash, signatures and QR payloads, the
      catalog cache, locks and admission claims under interleaving, the
      inventory contract of both backends under every fault, amounts, seeding,
      the reading of the environment, error responses, caches.
    - [OrderBooks] is the abstract specification of the order tables: business
      events ([book_step]), each with its announcement, and the invariant
      [books_ok] they keep. [OrderRefine] and [PaymentRefine] show that every
      committed transaction of the handlers is a sequence of such events, each
      together with the outbox row that announces it.
    - [System] puts all handlers together: the world invariant [winv], what one
      atomic action may do ([world_step]) and what no action undoes
      ([progress]). [Guarantees] states the consequences for every reachable
      world.
    - [Flows], [PaymentFlow], [CreateFlow], [Background]: what Cancel, Issue,
      ApplyPayment, Create, the relay, the expirer and the cleanup do, branch by
      branch; [Expiring] follows the expirer's loop against any inventory that
      answers, until nothing is overdue and the seats are free.
    - [Delivery], [Pipeline] and [Buyers] compose relay, log and services: the
      status of every order and refund is announced, on its type's topic; paid
      orders get tickets, owed refunds are paid, buyers are told of both.
    - [Waiting], [Place], [Admission], [Pace]: nobody overtakes, no place is
      lost, the worker admits in turn and at its pace, whatever sales are open; [Door] and [Wiring] carry the token from the queue
      to the order.
    - [Endpoints] and [Router]: what the HTTP responses say of the tables, whose
      orders and tickets they show, who may change and see what, and the
      gateway's deliveries. [Gate] and
      [WaitServer] do the same for the other two servers; in [Gate] the
      client's call through the gateway's routes is the one step the other
      files take it for. [Checkout] leads from the link in booking's response
      over the gateway's page and webhook to booking's tables.
    - [Scenario] (orders) and [Lobby] (the waiting room and the endpoints) run
      the program end to end on concrete worlds; they hold the witnesses that
      the theorems' hypotheses can be met.

    ** Assumptions and bounds

    A transaction is atomic: its row locks and constraints make it
    serializable, SKIP LOCKED leaves out the rows of [locked]. A call may fail
    without effect or lose its answer after taking effect ([Fault]), COMMIT
    included. PostgreSQL's now() does not change within an action. Go errors
    are the innermost error of a wrapped chain; contexts, timeouts and logging
    are left out (a timed-out call is a fault). Integers are unbounded except
    where the code's arithmetic can wrap ([add64], [wrap64], [wrap32]).

    The gateway forgets everything when it is restarted, which the environment
    of [System] does at any time; its log, the record of the money paid back,
    stays. Nobody but the refunder asks it for refunds.

    Loops without a structural measure take fuel, with a lemma that it is
    enough: [Outbox.Cleanup] (one unit per deleted batch), [Seed.rowLabel] (the
    number itself), [Seed.drain] (the rows), [Float.ParseDuration] (the text's
    length). Loops that only end with the process ([Loops], [Consumer],
    [Stream], the gateway's resends) run over a list of turns, which says what
    happens around each of them.

    Code outside the repository is an argument: the JWT and UUID libraries, url
    parsing, JSON, gzip and PNG encoding, chi's matching of paths, the order in
    which Go visits a map. What is used of it is a law of its class or a named
    hypothesis, and the witnesses have concrete instances.

    ** Not modelled

    Signals, flag parsing, connections and listening of the processes; the
    database, Kafka and HTTP clients and the generated plumbing around the
    queries; the tracers that feed the timing statistics; the web frontend;
    test support. These are glue around library calls. *)

From stdpp Require Export gmap strings list sorting numbers sets.
From Stdlib Require Export Ascii Lia.

#[global] Open Scope Z_scope.
#[global] Set Default Goal Selector "!".

(** ** Results: Go's [(value, error)] pairs *)

(** A Go function returning [(T, error)] either returns a value with a nil
    error or an error; the one that returns both, the relay's Cleanup, has a pair
    of its own. *)
Inductive res (E A : Type) : Type :=
| Ok (a : A)
| Err (e : E).
Arguments Ok {E A} a.
Arguments Err {E A} e.

Definition is_ok {E A} (r : res E A) : bool :=
  match r with Ok _ => true | Err _ => false end.

Lemma is_ok_true {E A} (r : res E A) : is_ok r = true <-> exists a, r = Ok a.
Proof. destruct r; naive_solver. Qed.

Declare Scope tr_scope.
Delimit Scope tr_scope with tr.

(** ** Tactics *)

(** Case analysis on the scrutinee of the first [match] of the goal, or of a
    hypothesis, keeping the equation. *)
Ltac case_goal :=
  match goal with
  | |- context [match ?x with _ => _ end] =>
      lazymatch x with context [match _ with _ => _ end] => fail | _ => destruct x eqn:? end
  end.

Ltac case_hyp H :=
  match type of H with
  | context [match ?x with _ => _ end] =>
      lazymatch x with context [match _ with _ => _ end] => fail | _ => destruct x eqn:? end
  end.

(** Split boolean conjunctions, disjunctions and reflected comparisons of the
    context into propositions. *)
Ltac bool_to_prop :=
  repeat match goal with
  | H : (_ && _)%bool = true |- _ => apply andb_true_iff in H as [? ?]
  | H : (_ || _)%bool = false |- _ => apply orb_false_iff in H as [? ?]
  | H : negb _ = true |- _ => apply negb_true_iff in H
  | H : negb _ = false |- _ => apply negb_false_iff in H
  | H : bool_decide _ = true |- _ => apply bool_decide_eq_true in H
  | H : bool_decide _ = false |- _ => apply bool_decide_eq_false in H
  | H : (_ =? _) = true |- _ => apply Z.eqb_eq in H
  | H : (_ =? _) = false |- _ => apply Z.eqb_neq in H
  | H : (_ <? _) = true |- _ => apply Z.ltb_lt in H
  | H : (_ <? _) = false |- _ => apply Z.ltb_ge in H
  | H : (_ <=? _) = true |- _ => apply Z.leb_le in H
  | H : (_ <=? _) = false |- _ => apply Z.leb_gt in H
  end.

(** The hint databases of the development: [tr] closes side conditions shared
    by the components, [tr_inv] the preservation goals of the invariants. *)
Create HintDb tr discriminated.
Create HintDb tr_inv discriminated.

(** ** Lists *)

Section lists.
Context {A B : Type}.
Implicit Types l : list A.

Lemma fold_left_inv (P : B -> Prop) (f : B -> A -> B) l b :
  P b -> (forall b x, x ∈ l -> P b -> P (f b x)) -> P (fold_left f l b).
Proof.
  revert b; induction l as [|x l IH]; intros b Hb Hf; simpl; [done|].
  apply IH; [apply Hf; [constructor|done]|].
  intros b' y Hy. apply Hf. by constructor.
Qed.

Lemma NoDup_fmap_fst_lookup (l : list (A * B)) i j k x y :
  NoDup l.*1 -> l !! i = Some (k, x) -> l !! j = Some (k, y) -> i = j.
Proof.
  intros Hnd Hi Hj. apply (NoDup_lookup l.*1 i j k Hnd).
  - by rewrite list_lookup_fmap, Hi.
  - by rewrite list_lookup_fmap, Hj.
Qed.

Lemma filter_nil_Forall (P : A -> Prop) `{forall x, Decision (P x)} l :
  filter P l = [] <-> Forall (fun x => ~ P x) l.
Proof.
  induction l as [|x l IH]; [split; [constructor|done]|].
  rewrite Forall_cons. destruct (decide (P x)).
  - rewrite filter_cons_True by done. naive_solver.
  - rewrite filter_cons_False by done. naive_solver.
Qed.

Lemma filter_none (P : A -> Prop) `{forall x, Decision (P x)} l : Forall (fun x => ~ P x) l -> filter P l = [].
Proof. induction 1 as [|x l Hx Hl IH]; [done|]. by rewrite filter_cons_False. Qed.

Lemma filter_all (P : A -> Prop) `{forall x, Decision (P x)} l : Forall P l -> filter P l = l.
Proof. induction 1 as [|x l Hx Hl IH]; [done|]. by rewrite filter_cons_True, IH. Qed.
End lists.

(** Inserting a list of entries with distinct keys. *)
Lemma fold_insert_Some {A V} `{Countable K} (key : A -> K) (val : A -> V) (l : list A) (m : gmap K V) k v :
  NoDup (key <$> l) ->
  fold_left (fun m a => <[key a := val a]> m) l m !! k = Some v <->
    (exists a, a ∈ l /\ key a = k /\ val a = v) \/ k ∉ key <$> l /\ m !! k = Some v.
Proof.
  revert m. induction l as [|a l IH]; intros m Hnd; cbn [fold_left].
  { split; [intros Hm; right; split; [apply not_elem_of_nil|done]|]. intros [(a & Ha & _)|[_ ?]]; [by apply elem_of_nil in Ha|done]. }
  rewrite fmap_cons in Hnd. apply NoDup_cons in Hnd as [Ha Hnd]. rewrite (IH _ Hnd), fmap_cons, not_elem_of_cons. split.
  - intros [(x & Hx & Hk & Hv)|[Hk Hm]]; [left; exists x; split; [by constructor|done]|].
    apply lookup_insert_Some in Hm as [[<- <-]|[Hne Hm]]; [left; exists a; split; [constructor|done]|right; done].
  - intros [(x & Hx & Hk & Hv)|[[Hne Hk] Hm]].
    + apply elem_of_cons in Hx as [->|Hx]; [|left; eauto]. right. rewrite <- Hk, <- Hv. split; [done|]. apply lookup_insert_eq.
    + right. split; [done|]. by rewrite lookup_insert_ne.
Qed.

(** Strictly increasing lists with the same elements are equal: the rows of a
    query ordered by a unique column do not depend on how the table is
    stored. *)
Lemma sorted_elem_eq {A} (R : relation A) `{!AntiSymm (=) R, !Transitive R} (l k : list A) :
  StronglySorted R l -> StronglySorted R k -> l ≡ₚ k -> l = k.
Proof. intros Hl Hk Hp. by apply (StronglySorted_unique R). Qed.
