(* ===== verification/GoLib.v ===== *)
(** * The Go standard library the program uses

    Fixed-width integers, [strconv], [strings] and [slices] as far as the
    modelled packages call them, and the interface of [github.com/google/uuid],
    a third-party package the model takes as a parameter. *)

From Stdlib Require Import Decimal DecimalString DecimalZ DecimalN.
From S2P Require Import Prelude.

(** ** int64 *)

Definition wrap64 (z : Z) : Z := (z + 2 ^ 63) mod 2 ^ 64 - 2 ^ 63.
Definition int64_min : Z := - 2 ^ 63.
Definition int64_max : Z := 2 ^ 63 - 1.
Definition in_int64 (z : Z) : bool := (int64_min <=? z) && (z <=? int64_max).
Definition add64 (a b : Z) : Z := wrap64 (a + b).

Lemma wrap64_id z : in_int64 z = true -> wrap64 z = z.
Proof.
  unfold in_int64, int64_min, int64_max, wrap64. intros H; bool_to_prop.
  rewrite Z.mod_small; lia.
Qed.

Lemma wrap64_in z : in_int64 (wrap64 z) = true.
Proof.
  unfold in_int64, int64_min, int64_max, wrap64.
  pose proof (Z.mod_pos_bound (z + 2 ^ 63) (2 ^ 64) ltac:(lia)).
  apply andb_true_iff; rewrite !Z.leb_le; lia.
Qed.

(** [int32(n)] *)
Definition wrap32 (z : Z) : Z := (z + 2 ^ 31) mod 2 ^ 32 - 2 ^ 31.

Lemma wrap32_id n : 0 <= n < 2 ^ 31 -> wrap32 n = n.
Proof. intros Hn. unfold wrap32. rewrite Z.mod_small; lia. Qed.

(** [time.Duration] is an int64 count of nanoseconds; [Milliseconds()] and the
    microseconds PostgreSQL intervals have both truncate toward zero. *)
Definition Milliseconds (d : Z) : Z := Z.quot d 1000000.
Definition Microseconds (d : Z) : Z := Z.quot d 1000.
Definition Second : Z := 1000000000.

(** ** strconv *)

(** [strconv.FormatInt(z, 10)] *)
Definition FormatInt (z : Z) : string := NilZero.string_of_int (Z.to_int z).

(** [strconv.ParseInt(s, 10, 64)]: an optional sign, at least one digit, and
    the int64 range; [None] is any error. *)
Definition ParseInt (s : string) : option Z :=
  let parsed :=
    match s with
    | String "-"%char t => (fun d => - Z.of_N (N.of_uint d)) <$> NilZero.uint_of_string t
    | String "+"%char t => (fun d => Z.of_N (N.of_uint d)) <$> NilZero.uint_of_string t
    | _ => (fun d => Z.of_N (N.of_uint d)) <$> NilZero.uint_of_string s
    end in
  z ← parsed; if in_int64 z then Some z else None.

Lemma to_int_not_nil z : Z.to_int z <> Pos Nil /\ Z.to_int z <> Neg Nil.
Proof.
  destruct z as [|p|p]; split; try done; simpl; intros [= Hp].
  - by apply (DecimalPos.Unsigned.to_uint_nonnil p).
  - by apply (DecimalPos.Unsigned.to_uint_nonnil p).
Qed.

#[global] Instance FormatInt_inj : Inj (=) (=) FormatInt.
Proof.
  intros a b Hab. unfold FormatInt in Hab.
  destruct (to_int_not_nil a), (to_int_not_nil b).
  assert (Some (Z.to_int a) = Some (Z.to_int b)) as [= He]; [|by apply DecimalZ.to_int_inj].
  rewrite <- (NilZero.isi (Z.to_int a)), <- (NilZero.isi (Z.to_int b)) by done. by rewrite Hab.
Qed.

(** The characters a formatted integer is made of. *)
Definition int_char (c : ascii) : bool :=
  match uint_of_char c (Some Nil) with Some _ => true | None => bool_decide (c = "-"%char) end.

Fixpoint all_chars (P : ascii -> bool) (s : string) : bool :=
  match s with EmptyString => true | String c t => P c && all_chars P t end.

Lemma string_of_uint_chars d : all_chars int_char (NilEmpty.string_of_uint d) = true.
Proof. induction d; simpl; try done; rewrite IHd; reflexivity. Qed.

Lemma FormatInt_chars z : all_chars int_char (FormatInt z) = true.
Proof.
  unfold FormatInt, NilZero.string_of_int, NilZero.string_of_uint.
  destruct (Z.to_int z) as [d|d]; destruct d; try done; simpl;
    rewrite ?string_of_uint_chars; reflexivity.
Qed.

(** The first character of the text of a natural number is a digit. *)
Lemma string_of_uint_head d : exists c t, NilZero.string_of_uint d = String c t /\ c <> "-"%char /\ c <> "+"%char.
Proof. destruct d; simpl; eexists _, _; (split; [reflexivity|split; intros [=]]). Qed.

Lemma FormatInt_nonneg z c t : 0 <= z -> FormatInt z = String c t -> c <> "-"%char /\ c <> "+"%char.
Proof.
  intros Hz. assert (exists d, FormatInt z = NilZero.string_of_uint d) as [d ->].
  { destruct z as [|p|p]; [by exists (Nat.to_uint 0)|by exists (Pos.to_uint p)|lia]. }
  destruct (string_of_uint_head d) as (c' & t' & -> & H1 & H2). intros [= <- <-]. done.
Qed.

Lemma ParseInt_FormatInt z : in_int64 z = true -> ParseInt (FormatInt z) = Some z.
Proof.
  intros Hz. assert (Hu : forall p, NilZero.uint_of_string (NilZero.string_of_uint (Pos.to_uint p)) = Some (Pos.to_uint p)).
  { intros p. apply NilZero.usu, DecimalPos.Unsigned.to_uint_nonnil. }
  assert (Hn : forall p, Z.of_N (N.of_uint (Pos.to_uint p)) = Zpos p).
  { intros p. unfold N.of_uint. by rewrite DecimalPos.Unsigned.of_to. }
  unfold ParseInt. destruct z as [|p|p]; [done|..].
  - change (FormatInt (Zpos p)) with (NilZero.string_of_uint (Pos.to_uint p)).
    destruct (string_of_uint_head (Pos.to_uint p)) as (c & t & Hs & H1 & H2). specialize (Hu p). rewrite Hs in *.
    assert (forall (A : Type) (x y k : A), match c with "-"%char => x | "+"%char => y | _ => k end = k) as Hc.
    { intros A x y k. repeat case_match; simplify_eq; done. }
    rewrite Hc, Hu. simpl. by rewrite Hn, Hz.
  - change (FormatInt (Zneg p)) with (String "-" (NilZero.string_of_uint (Pos.to_uint p))). cbv beta iota. rewrite Hu. cbn [fmap option_fmap option_map mbind option_bind]. rewrite Hn. change (- Z.pos p) with (Z.neg p). by rewrite Hz.
Qed.

(** A text of [P] characters followed by a separator outside [P] is uniquely
    decodable: this is what makes the program's composed keys unambiguous. *)
Lemma sep_unique (P : ascii -> bool) c (s1 s2 t1 t2 : string) :
  P c = false -> all_chars P s1 = true -> all_chars P s2 = true ->
  (s1 +:+ String c t1 = s2 +:+ String c t2)%string -> s1 = s2 /\ t1 = t2.
Proof.
  intros Hc. revert s2. induction s1 as [|a s1 IH]; intros [|b s2] H1 H2 He; simpl in *.
  - by simplify_eq.
  - simplify_eq. bool_to_prop. congruence.
  - simplify_eq. bool_to_prop. congruence.
  - bool_to_prop. injection He as -> He. destruct (IH s2) as [-> ->]; done.
Qed.

Lemma string_app_assoc (a b c : string) : ((a +:+ b) +:+ c = a +:+ (b +:+ c))%string.
Proof. induction a as [|x a IH]; [done|]. exact (f_equal (String x) IH). Qed.
Lemma string_app_nil_r (s : string) : (s +:+ EmptyString)%string = s.
Proof. induction s as [|c s IH]; [done|]. exact (f_equal (String c) IH). Qed.

Lemma string_app_inv_head (p s t : string) : (p +:+ s = p +:+ t)%string -> s = t.
Proof. induction p as [|c p IH]; simpl; [done|]. intros [= H]. auto. Qed.

(** ** strings *)

(** [strings.CutPrefix]: the rest of [s] after [p], if [s] starts with [p]. *)
Fixpoint CutPrefix (p s : string) : option string :=
  match p, s with
  | EmptyString, _ => Some s
  | String a p', String b s' => if bool_decide (a = b) then CutPrefix p' s' else None
  | String _ _, EmptyString => None
  end.
Definition HasPrefix (p s : string) : bool :=
  match CutPrefix p s with Some _ => true | None => false end.
Definition TrimPrefix (p s : string) : string :=
  match CutPrefix p s with Some t => t | None => s end.

Lemma CutPrefix_app p s : CutPrefix p (p +:+ s) = Some s.
Proof. induction p as [|c p IH]; simpl; [done|]. by rewrite bool_decide_eq_true_2. Qed.

Lemma CutPrefix_Some p s t : CutPrefix p s = Some t -> s = p +:+ t.
Proof.
  revert s. induction p as [|c p IH]; intros s; simpl; [naive_solver|].
  destruct s as [|b s]; [done|]. case_bool_decide; [|done]. intros H'. subst. by rewrite (IH s).
Qed.

Lemma HasPrefix_app p s : HasPrefix p (p +:+ s) = true.
Proof. unfold HasPrefix. by rewrite CutPrefix_app. Qed.

Lemma TrimPrefix_app p s : TrimPrefix p (p +:+ s) = s.
Proof. unfold TrimPrefix. by rewrite CutPrefix_app. Qed.

(** ** slices *)

#[global] Instance string_le_total : Total String.le.
Proof.
  intros s t. unfold String.le. destruct (String.leb_total s t) as [->| ->]; [left|right]; done.
Qed.

(** [slices.Sort] on strings, in byte order. *)
Definition Sort (l : list string) : list string := merge_sort String.le l.

Lemma Sort_Permutation l : Sort l ≡ₚ l.
Proof. apply merge_sort_Permutation. Qed.

Lemma Sort_sorted l : StronglySorted String.le (Sort l).
Proof. apply StronglySorted_merge_sort; apply _. Qed.

Lemma Sort_unique l k : l ≡ₚ k -> Sort l = Sort k.
Proof.
  intros Hlk. apply (sorted_elem_eq String.le); [apply Sort_sorted..|].
  by rewrite !Sort_Permutation.
Qed.

Lemma elem_of_Sort x l : x ∈ Sort l <-> x ∈ l.
Proof. by rewrite Sort_Permutation. Qed.

(** ** github.com/google/uuid *)

(** A UUID is a 128-bit number; [bytea] order in PostgreSQL is the order of
    that number. *)
Notation UUID := N (only parsing).
Definition uuid_Nil : UUID := 0%N.

(** 0-9, a-f and the dash. *)
Definition uuid_char (c : ascii) : bool :=
  let n := N_of_ascii c in
  ((48 <=? n) && (n <=? 57) || (97 <=? n) && (n <=? 102) || (n =? 45))%N.

(** What the program relies on: [String] is a canonical text that [Parse]
    reads back, made of hexadecimal digits and dashes. *)
Class UuidLib := {
  uuid_String : UUID -> string;
  uuid_Parse : string -> option UUID;
  uuid_Parse_String u : uuid_Parse (uuid_String u) = Some u;
  uuid_String_nonempty u : uuid_String u <> EmptyString;
  uuid_String_chars u : all_chars uuid_char (uuid_String u) = true;
}.

#[global] Instance uuid_String_inj `{UuidLib} : Inj (=) (=) uuid_String.
Proof.
  intros a b Hab. apply (inj Some). by rewrite <- !uuid_Parse_String, Hab.
Qed.

(** A concrete instance, used by the witnesses: the number in decimal. *)
Module DecimalUuid.
Definition to_string (u : UUID) : string := NilZero.string_of_uint (N.to_uint u).
Definition parse (s : string) : option UUID := N.of_uint <$> NilZero.uint_of_string s.

Lemma digits d : all_chars uuid_char (NilEmpty.string_of_uint d) = true.
Proof. induction d; simpl; try done; rewrite IHd; reflexivity. Qed.

Lemma to_uint_not_nil u : N.to_uint u <> Decimal.Nil.
Proof. destruct u as [|p]; [done|]. apply DecimalPos.Unsigned.to_uint_nonnil. Qed.

#[export] Program Instance decimal_uuid : UuidLib := {| uuid_String := to_string; uuid_Parse := parse |}.
Next Obligation.
  intros u. unfold parse, to_string. rewrite NilZero.usu by apply to_uint_not_nil. simpl.
  by rewrite DecimalN.Unsigned.of_to.
Qed.
Next Obligation.
  intros u. unfold to_string. pose proof (to_uint_not_nil u). destruct (N.to_uint u); done.
Qed.
Next Obligation.
  intros u. unfold to_string, NilZero.string_of_uint. pose proof (to_uint_not_nil u).
  destruct (N.to_uint u) eqn:He; [done|rewrite <- ?He; apply digits..].
Qed.
End DecimalUuid.
