(* ===== verification/Float.v ===== *)
(** * float64 and package time

    IEEE 754 doubles, as the standard library's [SpecFloat] computes them, and
    the two functions of package time that go through them: [Duration.Seconds]
    and [time.ParseDuration]. *)

From Stdlib Require Import SpecFloat.
From S2P Require Import Prelude GoLib.
Local Open Scope tr_scope.

Definition float64 : Type := spec_float.
Definition float64_of (z : Z) : float64 := binary_normalize 53 1024 z 0 false.
Definition fdiv : float64 -> float64 -> float64 := SFdiv 53 1024.
Definition fmul : float64 -> float64 -> float64 := SFmul 53 1024.
Definition fadd : float64 -> float64 -> float64 := SFadd 53 1024.

(** [math.Ceil] *)
Definition math_Ceil (f : float64) : float64 :=
  match f with
  | S754_finite s m e =>
      let z := if s then Zneg m else Zpos m in
      if 0 <=? e then f else binary_normalize 53 1024 (- ((- z) / 2 ^ (- e))) 0 s
  | f => f
  end.

(** [int64(f)]: what Go leaves to the implementation is [None]. *)
Definition int64_of (f : float64) : option Z :=
  match f with
  | S754_zero _ => Some 0
  | S754_finite s m e =>
      let n := if 0 <=? e then Zpos m * 2 ^ e else Zpos m / 2 ^ (- e) in
      let z := if s then - n else n in
      if in_int64 z then Some z else None
  | _ => None
  end.

(** [Duration.Seconds()] *)
Definition Seconds (d : Z) : float64 :=
  fadd (float64_of (Z.quot d Second)) (fdiv (float64_of (Z.rem d Second)) (float64_of Second)).

(** ** [time.ParseDuration] *)

Definition is_digit (c : ascii) : bool := let n := N_of_ascii c in ((48 <=? n) && (n <=? 57))%N.
Definition digit_value (c : ascii) : Z := Z.of_N (N_of_ascii c) - 48.

(** The digits at the front as a uint64 of at most 2^63. *)
Fixpoint leadingInt (x : Z) (s : string) : option (Z * string) :=
  match s with
  | String c t =>
      if is_digit c then
        if 2 ^ 63 / 10 <? x then None
        else let x := x * 10 + digit_value c in if 2 ^ 63 <? x then None else leadingInt x t
      else Some (x, s)
  | EmptyString => Some (x, s)
  end.

(** The digits after the dot and their scale; those that do not fit are
    dropped. *)
Fixpoint leadingFraction (x : Z) (scale : float64) (overflow : bool) (s : string) : Z * float64 * string :=
  match s with
  | String c t =>
      if is_digit c then
        if overflow then leadingFraction x scale true t
        else if (2 ^ 63 - 1) / 10 <? x then leadingFraction x scale true t
        else
          let y := x * 10 + digit_value c in
          if 2 ^ 63 <? y then leadingFraction x scale true t else leadingFraction y (fmul scale (float64_of 10)) false t
      else (x, scale, s)
  | EmptyString => (x, scale, s)
  end.

(** An optional fraction: its digits, their scale, the rest, and whether there
    was a digit. *)
Definition fraction (s : string) : Z * float64 * string * bool :=
  match s with
  | String c t =>
      if bool_decide (c = "."%char) then let '(f, scale, s2) := leadingFraction 0 (float64_of 1) false t in (f, scale, s2, negb (bool_decide (s2 = t)))
      else (0, float64_of 1, s, false)
  | EmptyString => (0, float64_of 1, s, false)
  end.

(** The characters up to the next dot or digit. *)
Fixpoint unit_name (s : string) : string * string :=
  match s with
  | String c t => if bool_decide (c = "."%char) || is_digit c then (EmptyString, s) else let '(u, r) := unit_name t in (String c u, r)
  | EmptyString => (EmptyString, s)
  end.

Definition unitMap : gmap string Z :=
  list_to_map [("ns", 1); ("us", 1000); ("µs", 1000); ("μs", 1000); ("ms", 1000000); ("s", Second); ("m", 60 * Second); ("h", 3600 * Second)].

(** One round of the loop: a number and its unit, as uint64 nanoseconds. The
    fraction is at most an hour, so its conversion is always defined. *)
Definition duration_part (s : string) : option (Z * string) :=
  match s with
  | EmptyString => None
  | String c _ =>
      if negb (bool_decide (c = "."%char) || is_digit c) then None
      else
        '(v, s1) ← leadingInt 0 s;
        let pre := negb (bool_decide (s1 = s)) in
        let '(f, scale, s2, post) := fraction s1 in
        if negb pre && negb post then None
        else
          let '(u, s3) := unit_name s2 in
          if bool_decide (u = EmptyString) then None
          else
            unit ← unitMap !! u;
            if 2 ^ 63 / unit <? v then None
            else
              let v := v * unit in
              if 0 <? f then
                let v := v + default 0 (int64_of (fmul (float64_of f) (fdiv (float64_of unit) scale))) in
                if 2 ^ 63 <? v then None else Some (v, s3)
              else Some (v, s3)
  end.

Fixpoint duration_parts (fuel : nat) (d : Z) (s : string) : option Z :=
  match s, fuel with
  | EmptyString, _ => Some d
  | _, O => None
  | _, S fuel =>
      '(v, s) ← duration_part s;
      let d := (d + v) mod 2 ^ 64 in
      if 2 ^ 63 <? d then None else duration_parts fuel d s
  end.

(** An optional sign. *)
Definition sign (s : string) : bool * string :=
  match s with
  | String c t => if bool_decide (c = "-"%char) then (true, t) else if bool_decide (c = "+"%char) then (false, t) else (false, s)
  | EmptyString => (false, s)
  end.

Definition ParseDuration (s : string) : option Z :=
  let '(neg, s) := sign s in
  if bool_decide (s = "0") then Some 0
  else if bool_decide (s = EmptyString) then None
  else
    d ← duration_parts (String.length s) 0 s;
    if neg : bool then Some (wrap64 (- wrap64 d)) else if 2 ^ 63 - 1 <? d then None else Some d.

Example durations :
  ParseDuration <$> ["10m"; "30s"; "1h15m30.918s"; "1.5h"; "-1.5s"; "0"; "+0"; "100"; "1d"; ""; ".5s"; "9223372036854775807ns"; "9223372036854775808ns"; "µs"; "3µs"]
  = [Some (600 * Second); Some (30 * Second); Some 4530918000000; Some 5400000000000; Some (-1500000000); Some 0; Some 0; None; None; None;
     Some 500000000; Some 9223372036854775807; None; None; Some 3000].
Proof. vm_compute. reflexivity. Qed.

(** Every round uses up text, so the length of the text is enough fuel. *)
Lemma leadingInt_shorter x s x' s' : leadingInt x s = Some (x', s') -> (String.length s' <= String.length s)%nat.
Proof.
  revert x. induction s as [|c s IH]; intros x; cbn [leadingInt]; [by intros [= <- <-]|]. repeat case_match; try done.
  - intros Hs%IH. cbn. lia.
  - by intros [= <- <-].
Qed.

Lemma leadingFraction_shorter x scale o s : (String.length (leadingFraction x scale o s).2 <= String.length s)%nat.
Proof.
  revert x scale o. induction s as [|c s IH]; intros x scale o; cbn [leadingFraction]; [done|].
  repeat case_match; cbn [String.length snd]; [etrans; [apply IH|lia]..|done].
Qed.

Lemma fraction_shorter s : (String.length (fraction s).1.2 <= String.length s)%nat.
Proof.
  unfold fraction. destruct s as [|c t]; [done|]. case_bool_decide; [|done].
  pose proof (leadingFraction_shorter 0 (float64_of 1) false t) as Hf. destruct (leadingFraction _ _ _ _) as [[f sc] s2]. cbn in *. lia.
Qed.

Lemma unit_name_length s : (String.length (unit_name s).1 + String.length (unit_name s).2 = String.length s)%nat.
Proof. induction s as [|c s IH]; [done|]. cbn [unit_name]. case_match; [done|]. destruct (unit_name s) as [u r]. cbn in *. lia. Qed.

Lemma duration_part_shorter s v s' : duration_part s = Some (v, s') -> (String.length s' < String.length s)%nat.
Proof.
  unfold duration_part. destruct s as [|c s0]; [done|]. set (s := String c s0). destruct (negb _); [done|].
  destruct (leadingInt 0 s) as [[x s1]|] eqn:H1; [|done]. apply leadingInt_shorter in H1. cbn [mbind option_bind].
  pose proof (fraction_shorter s1) as Hs2. destruct (fraction s1) as [[[f scale] s2] post]. cbn [fst snd] in Hs2.
  destruct (_ && _); [done|]. pose proof (unit_name_length s2) as Hu. destruct (unit_name s2) as [u s3]. cbn [fst snd] in Hu.
  case_bool_decide as Hne; [done|]. assert (0 < String.length u)%nat by (destruct u; [done|cbn; lia]).
  destruct (unitMap !! u) as [unit|]; [|done]. cbn [mbind option_bind]. repeat case_match; try done; intros [= _ <-]; lia.
Qed.

Lemma duration_parts_fuel f g d s :
  (String.length s <= f)%nat -> (String.length s <= g)%nat -> duration_parts f d s = duration_parts g d s.
Proof.
  revert g d s. induction f as [|f IH]; intros [|g] d s Hf Hg; destruct s as [|c s]; try done; try (cbn in Hf, Hg; lia).
  cbn [duration_parts]. destruct (duration_part (String c s)) as [[v s']|] eqn:Hp; [|done]. cbn [mbind option_bind].
  apply duration_part_shorter in Hp. case_match; [done|]. apply IH; lia.
Qed.

Lemma duration_parts_range f d s d' : 0 <= d <= 2 ^ 63 -> duration_parts f d s = Some d' -> 0 <= d' <= 2 ^ 63.
Proof.
  revert d s. induction f as [|f IH]; intros d s Hd; (destruct s as [|c s]; [by intros [= <-]|]); cbn [duration_parts]; [done|].
  destruct (duration_part _) as [[v s']|]; [|done]. cbn [mbind option_bind]. pose proof (Z.mod_pos_bound (d + v) (2 ^ 64) ltac:(lia)).
  destruct (Z.ltb_spec (2 ^ 63) ((d + v) mod 2 ^ 64)); [done|]. apply IH. lia.
Qed.

(** What is parsed fits a [time.Duration]. *)
Lemma ParseDuration_range s d : ParseDuration s = Some d -> in_int64 d = true.
Proof.
  unfold ParseDuration. destruct (sign s) as [neg t].
  case_bool_decide; [by intros [= <-]|]. case_bool_decide; [done|].
  destruct (duration_parts _ _ _) as [d'|] eqn:Hd; [|done]. cbn [mbind option_bind]. apply duration_parts_range in Hd; [|lia].
  destruct neg; [intros [= <-]; apply wrap64_in|]. destruct (Z.ltb_spec (2 ^ 63 - 1) d'); [done|]. intros [= <-].
  unfold in_int64, int64_min, int64_max. lia.
Qed.
