(* ===== verification/Crypto.v ===== *)
(** * Hashes, MACs and text encodings of the Go standard library

    crypto/sha256, crypto/hmac, encoding/hex and encoding/base64 (RawURLEncoding, StdEncoding)
    as far as the program calls them: request hashes, webhook signatures and
    ticket QR payloads. Byte strings are lists of integers 0..255; a Go string
    is the same bytes as a Rocq [string]. *)

From S2P Require Import Prelude GoLib.

Definition byte_ok (b : Z) : Prop := 0 <= b < 256.
Abbreviation Bytes := (list Z).

Definition bytes_of (s : string) : Bytes :=
  (fun c => Z.of_N (N_of_ascii c)) <$> String.list_ascii_of_string s.
Definition string_of (b : Bytes) : string :=
  String.string_of_list_ascii ((fun z => ascii_of_N (Z.to_N z)) <$> b).

Lemma bytes_of_ok s : Forall byte_ok (bytes_of s).
Proof.
  apply Forall_fmap, Forall_true. intros c. unfold byte_ok, compose. pose proof (N_ascii_bounded c). lia.
Qed.

Lemma string_of_bytes_of s : string_of (bytes_of s) = s.
Proof.
  unfold string_of, bytes_of. rewrite <- list_fmap_compose.
  rewrite (list_fmap_ext _ id); [by rewrite list_fmap_id, String.string_of_list_ascii_of_string|].
  intros i c _. simpl. by rewrite N2Z.id, ascii_N_embedding.
Qed.

Lemma bytes_of_string_of b : Forall byte_ok b -> bytes_of (string_of b) = b.
Proof.
  intros Hb. unfold string_of, bytes_of. rewrite String.list_ascii_of_string_of_list_ascii, <- list_fmap_compose.
  induction Hb as [|x b Hx Hb IH]; [done|]. rewrite fmap_cons, IH. simpl. f_equal.
  rewrite N_ascii_embedding; unfold byte_ok in *; lia.
Qed.

#[global] Instance bytes_of_inj : Inj (=) (=) bytes_of.
Proof. intros s t H. by rewrite <- (string_of_bytes_of s), <- (string_of_bytes_of t), H. Qed.

(** ** SHA-256 (FIPS 180-4) *)

Module Sha256.
Definition w32 (x : Z) : Z := x mod 2 ^ 32.
Definition add32 (x y : Z) : Z := w32 (x + y).
Definition rotr (n x : Z) : Z := Z.lor (Z.shiftr x n) (w32 (Z.shiftl x (32 - n))).
Definition not32 (x : Z) : Z := Z.lxor x (2 ^ 32 - 1).

Definition Ch (x y z : Z) : Z := Z.lxor (Z.land x y) (Z.land (not32 x) z).
Definition Maj (x y z : Z) : Z := Z.lxor (Z.lxor (Z.land x y) (Z.land x z)) (Z.land y z).
Definition S0 (x : Z) : Z := Z.lxor (Z.lxor (rotr 2 x) (rotr 13 x)) (rotr 22 x).
Definition S1 (x : Z) : Z := Z.lxor (Z.lxor (rotr 6 x) (rotr 11 x)) (rotr 25 x).
Definition s0 (x : Z) : Z := Z.lxor (Z.lxor (rotr 7 x) (rotr 18 x)) (Z.shiftr x 3).
Definition s1 (x : Z) : Z := Z.lxor (Z.lxor (rotr 17 x) (rotr 19 x)) (Z.shiftr x 10).

(** The constants of the standard are computed from its definition: the first
    32 bits of the fractional parts of the cube roots of the first 64 primes,
    and of the square roots of the first eight. *)
Definition is_prime (n : Z) : bool :=
  forallb (fun d => negb (n mod d =? 0)) (map Z.of_nat (seq 2 (Z.to_nat n - 2))).
Definition primes (n : nat) : list Z := take n (List.filter is_prime (map Z.of_nat (seq 2 310))).

(** The largest r below 2^(bits) with r^k <= n. *)
Fixpoint root (k : Z) (bits : nat) (n r : Z) : Z :=
  match bits with
  | O => r
  | S bits => let r' := r + 2 ^ Z.of_nat bits in root k bits n (if r' ^ k <=? n then r' else r)
  end.
Definition frac32 (k p : Z) : Z := root k 40 (p * 2 ^ (32 * k)) 0 mod 2 ^ 32.

Definition K : list Z := Eval vm_compute in map (frac32 3) (primes 64).

Record state := mkState { sa : Z; sb : Z; sc : Z; sd : Z; se : Z; sf : Z; sg : Z; sh : Z }.
Definition init : state := Eval vm_compute in
  match map (frac32 2) (primes 8) with
  | [a; b; c; d; e; f; g; h] => mkState a b c d e f g h
  | _ => mkState 0 0 0 0 0 0 0 0
  end.

Fixpoint be (n : nat) (x : Z) : Bytes :=
  match n with O => [] | S n => Z.shiftr x (8 * Z.of_nat n) mod 256 :: be n x end.

Definition pad (m : Bytes) : Bytes :=
  let len := Z.of_nat (length m) in
  m ++ [0x80] ++ replicate (Z.to_nat ((55 - len) mod 64)) 0 ++ be 8 (8 * len).

Fixpoint words (b : Bytes) : list Z :=
  match b with
  | x1 :: x2 :: x3 :: x4 :: b => x1 * 2 ^ 24 + x2 * 2 ^ 16 + x3 * 2 ^ 8 + x4 :: words b
  | _ => []
  end.

(** The message schedule: the window holds the last sixteen words. *)
Fixpoint schedule (n : nat) (window : list Z) : list Z :=
  match n with
  | O => []
  | S n =>
      let w := nth 0 window 0 in
      let new := w32 (s1 (nth 14 window 0) + nth 9 window 0 + s0 (nth 1 window 0) + w) in
      w :: schedule n (drop 1 window ++ [new])
  end.

Definition round (s : state) (kw : Z * Z) : state :=
  let t1 := w32 (sh s + S1 (se s) + Ch (se s) (sf s) (sg s) + kw.1 + kw.2) in
  let t2 := w32 (S0 (sa s) + Maj (sa s) (sb s) (sc s)) in
  mkState (add32 t1 t2) (sa s) (sb s) (sc s) (add32 (sd s) t1) (se s) (sf s) (sg s).

Definition compress (h : state) (block : Bytes) : state :=
  let s := fold_left round (zip K (schedule 64 (words block))) h in
  mkState (add32 (sa h) (sa s)) (add32 (sb h) (sb s)) (add32 (sc h) (sc s)) (add32 (sd h) (sd s))
    (add32 (se h) (se s)) (add32 (sf h) (sf s)) (add32 (sg h) (sg s)) (add32 (sh h) (sh s)).

Fixpoint blocks (fuel : nat) (b : Bytes) : list Bytes :=
  match fuel, b with
  | S fuel, _ :: _ => take 64 b :: blocks fuel (drop 64 b)
  | _, _ => []
  end.

Definition Sum256 (m : Bytes) : Bytes :=
  let p := pad m in
  let s := fold_left compress (blocks (length p) p) init in
  concat (be 4 <$> [sa s; sb s; sc s; sd s; se s; sf s; sg s; sh s]).

Lemma be_ok n x : Forall byte_ok (be n x).
Proof.
  induction n as [|n IH]; simpl; [constructor|]. constructor; [|done].
  unfold byte_ok. apply Z.mod_pos_bound. lia.
Qed.

Lemma Sum256_ok m : Forall byte_ok (Sum256 m).
Proof.
  unfold Sum256. cbn zeta. generalize (fold_left compress (blocks (length (pad m)) (pad m)) init). intros s.
  generalize [sa s; sb s; sc s; sd s; se s; sf s; sg s; sh s]. intros l.
  induction l as [|x l IH]; [constructor|]. rewrite fmap_cons. cbn [concat]. apply Forall_app. split; [apply be_ok|done].
Qed.
End Sha256.

(** ** HMAC-SHA256 (RFC 2104) *)

Definition hmac_sha256 (key msg : Bytes) : Bytes :=
  let key := if Nat.ltb 64 (length key) then Sha256.Sum256 key else key in
  let key := key ++ replicate (64 - length key) 0 in
  Sha256.Sum256 ((Z.lxor 0x5c <$> key) ++ Sha256.Sum256 ((Z.lxor 0x36 <$> key) ++ msg)).

Lemma hmac_ok key msg : Forall byte_ok (hmac_sha256 key msg).
Proof. apply Sha256.Sum256_ok. Qed.

#[global] Arguments Sha256.Sum256 : simpl never.
#[global] Arguments hmac_sha256 : simpl never.

(** ** encoding/hex *)

Definition hex_digit (n : Z) : Z := if n <? 10 then 48 + n else 87 + n.
Definition unhex (c : Z) : option Z :=
  if (48 <=? c) && (c <=? 57) then Some (c - 48)
  else if (97 <=? c) && (c <=? 102) then Some (c - 87)
  else if (65 <=? c) && (c <=? 70) then Some (c - 55)
  else None.

Fixpoint hex_encode (b : Bytes) : Bytes :=
  match b with [] => [] | x :: b => hex_digit (x / 16) :: hex_digit (x mod 16) :: hex_encode b end.
Fixpoint hex_decode (b : Bytes) : option Bytes :=
  match b with
  | [] => Some []
  | [_] => None
  | x :: y :: b => h ← unhex x; l ← unhex y; t ← hex_decode b; Some (16 * h + l :: t)
  end.

Definition hex_EncodeToString (b : Bytes) : string := string_of (hex_encode b).
Definition hex_DecodeString (s : string) : option Bytes := hex_decode (bytes_of s).

(** The bytes 0..15 and 0..255, for proofs by evaluation. *)
Definition range (n : nat) : list Z := Z.of_nat <$> seq 0 n.

Lemma range_forall n (P : Z -> bool) : forallb P (range n) = true -> forall x, 0 <= x < Z.of_nat n -> P x = true.
Proof.
  intros Hf x Hx. rewrite forallb_forall in Hf. apply Hf. apply in_map_iff. exists (Z.to_nat x).
  split; [lia|]. apply in_seq. lia.
Qed.

Lemma unhex_hex_digit n : 0 <= n < 16 -> unhex (hex_digit n) = Some n.
Proof.
  intros Hn.
  assert (forallb (fun n => bool_decide (unhex (hex_digit n) = Some n)) (range 16) = true) as Hr by (vm_compute; reflexivity).
  pose proof (range_forall 16 _ Hr n ltac:(lia)) as Hb. by apply bool_decide_eq_true in Hb.
Qed.

Lemma hex_digit_ok n : 0 <= n < 16 -> byte_ok (hex_digit n).
Proof. intros. unfold hex_digit, byte_ok. case_match; bool_to_prop; lia. Qed.

Lemma nibbles x : byte_ok x -> 0 <= x / 16 < 16 /\ 0 <= x mod 16 < 16.
Proof. unfold byte_ok. intros. Z.to_euclidean_division_equations. lia. Qed.

Lemma hex_encode_ok b : Forall byte_ok b -> Forall byte_ok (hex_encode b).
Proof.
  induction 1 as [|x b Hx Hb IH]; simpl; [constructor|]. destruct (nibbles x Hx).
  apply Forall_cons; split; [by apply hex_digit_ok|]. apply Forall_cons; split; [by apply hex_digit_ok|done].
Qed.

Lemma hex_roundtrip b : Forall byte_ok b -> hex_decode (hex_encode b) = Some b.
Proof.
  induction 1 as [|x b Hx Hb IH]; [done|]. destruct (nibbles x Hx). cbn [hex_encode hex_decode].
  rewrite !unhex_hex_digit by done. simpl. rewrite IH. simpl. do 2 f_equal. pose proof (Z.div_mod x 16). lia.
Qed.

(** ** encoding/base64

    RawURLEncoding, with - and _ and no padding; StdEncoding, with + and /,
    padded to whole groups of four. *)

Definition b64_char (n : Z) : Z :=
  if n <? 26 then 65 + n else if n <? 52 then 71 + n else if n <? 62 then n - 4 else if n =? 62 then 45 else 95.
Definition unb64 (c : Z) : option Z :=
  if (65 <=? c) && (c <=? 90) then Some (c - 65)
  else if (97 <=? c) && (c <=? 122) then Some (c - 71)
  else if (48 <=? c) && (c <=? 57) then Some (c + 4)
  else if c =? 45 then Some 62
  else if c =? 95 then Some 63
  else None.

Definition std_char (n : Z) : Z := if n =? 62 then 43 else if n =? 63 then 47 else b64_char n.

Fixpoint encode64 (char : Z -> Z) (pad : Bytes) (b : Bytes) : Bytes :=
  match b with
  | [] => []
  | [x] => char (x / 4) :: char (x mod 4 * 16) :: pad ++ pad
  | [x; y] => char (x / 4) :: char (x mod 4 * 16 + y / 16) :: char (y mod 16 * 4) :: pad
  | x :: y :: z :: b =>
      char (x / 4) :: char (x mod 4 * 16 + y / 16) :: char (y mod 16 * 4 + z / 64) :: char (z mod 64) :: encode64 char pad b
  end.
Definition b64_encode : Bytes -> Bytes := encode64 b64_char [].
Definition std_encode : Bytes -> Bytes := encode64 std_char [61].

(** The decoder skips CR and LF and, not being strict, ignores the unused low
    bits of the last character. *)
Fixpoint b64_decode_clean (b : Bytes) : option Bytes :=
  match b with
  | [] => Some []
  | [_] => None
  | [p; q] => p ← unb64 p; q ← unb64 q; Some [p * 4 + q / 16]
  | [p; q; r] => p ← unb64 p; q ← unb64 q; r ← unb64 r; Some [p * 4 + q / 16; q mod 16 * 16 + r / 4]
  | p :: q :: r :: t :: b =>
      p ← unb64 p; q ← unb64 q; r ← unb64 r; t ← unb64 t; rest ← b64_decode_clean b;
      Some (p * 4 + q / 16 :: q mod 16 * 16 + r / 4 :: r mod 4 * 64 + t :: rest)
  end.
Definition b64_decode (b : Bytes) : option Bytes :=
  b64_decode_clean (filter (fun c => c <> 10 /\ c <> 13) b).

Definition base64_EncodeToString (b : Bytes) : string := string_of (b64_encode b).
Definition base64_StdEncodeToString (b : Bytes) : string := string_of (std_encode b).
Definition base64_DecodeString (s : string) : option Bytes := b64_decode (bytes_of s).

Definition b64_char_good (n : Z) : bool :=
  bool_decide (unb64 (b64_char n) = Some n) && negb (b64_char n =? 10) && negb (b64_char n =? 13) &&
  (0 <=? b64_char n) && (b64_char n <? 256).

Lemma b64_char_spec n :
  0 <= n < 64 -> unb64 (b64_char n) = Some n /\ b64_char n <> 10 /\ b64_char n <> 13 /\ byte_ok (b64_char n).
Proof.
  intros Hn. assert (b64_char_good n = true) as Hg.
  { apply (range_forall 64 b64_char_good); [by vm_compute|lia]. }
  unfold b64_char_good in Hg. bool_to_prop. unfold byte_ok. split_and!; done || lia.
Qed.

(** Every character of an encoding carries six bits. *)
Lemma sextets x y z :
  byte_ok x -> byte_ok y -> byte_ok z ->
  0 <= x / 4 < 64 /\ 0 <= x mod 4 * 16 + y / 16 < 64 /\ 0 <= y mod 16 * 4 + z / 64 < 64 /\ 0 <= z mod 64 < 64.
Proof. unfold byte_ok. intros. Z.to_euclidean_division_equations. lia. Qed.

Lemma three_bytes_ind (P : Bytes -> Prop) :
  P [] -> (forall x, P [x]) -> (forall x y, P [x; y]) -> (forall x y z b, P b -> P (x :: y :: z :: b)) -> forall b, P b.
Proof.
  intros H0 H1 H2 H3 b. assert (P b /\ (forall x, P (x :: b)) /\ (forall x y, P (x :: y :: b))) as [? _]; [|done].
  induction b as [|z b (IH0 & IH1 & IH2)]; [auto|]. auto.
Qed.

Lemma b64_encode_spec b :
  Forall byte_ok b ->
  b64_decode_clean (b64_encode b) = Some b /\
  Forall (fun c => (c <> 10 /\ c <> 13) /\ byte_ok c) (b64_encode b).
Proof.
  assert (byte_ok 0) as Hz by (unfold byte_ok; lia). unfold b64_encode.
  induction b as [|x|x y|x y z b IH] using three_bytes_ind; intros Hb; cbn [encode64 app b64_decode_clean].
  - split; [done|constructor].
  - inversion_clear Hb. destruct (sextets x 0 0) as (A1 & A2 & _); [done..|]. rewrite Z.div_0_l, Z.add_0_r in A2 by done.
    destruct (b64_char_spec _ A1) as (-> & ? & ? & ?), (b64_char_spec _ A2) as (-> & ? & ? & ?).
    split; [simpl; do 2 f_equal; unfold byte_ok in *; Z.to_euclidean_division_equations; lia|].
    repeat constructor; try done; unfold byte_ok in *; lia.
  - inversion_clear Hb as [|?? Hx Hb']. inversion_clear Hb'. destruct (sextets x y 0) as (A1 & A2 & A3 & _); [done..|].
    rewrite Z.div_0_l, Z.add_0_r in A3 by done.
    destruct (b64_char_spec _ A1) as (-> & ? & ? & ?), (b64_char_spec _ A2) as (-> & ? & ? & ?),
      (b64_char_spec _ A3) as (-> & ? & ? & ?).
    split; [simpl; repeat f_equal; unfold byte_ok in *; Z.to_euclidean_division_equations; lia|].
    repeat constructor; try done; unfold byte_ok in *; lia.
  - inversion_clear Hb as [|?? Hx Hb']. inversion_clear Hb' as [|?? Hy Hb'']. inversion_clear Hb'' as [|?? Hzz Hb3].
    destruct (IH Hb3) as [-> HF]. destruct (sextets x y z) as (A1 & A2 & A3 & A4); [done..|].
    destruct (b64_char_spec _ A1) as (-> & ? & ? & ?), (b64_char_spec _ A2) as (-> & ? & ? & ?),
      (b64_char_spec _ A3) as (-> & ? & ? & ?), (b64_char_spec _ A4) as (-> & ? & ? & ?).
    split; [simpl; repeat f_equal; unfold byte_ok in *; Z.to_euclidean_division_equations; lia|].
    repeat constructor; try done; unfold byte_ok in *; lia.
Qed.

Lemma base64_roundtrip b : Forall byte_ok b -> base64_DecodeString (base64_EncodeToString b) = Some b.
Proof.
  intros Hb. destruct (b64_encode_spec b Hb) as [Hd HF]. unfold base64_DecodeString, base64_EncodeToString.
  rewrite bytes_of_string_of by (eapply Forall_impl; [exact HF|by intros ? [? ?]]).
  unfold b64_decode. rewrite filter_all; [done|]. eapply Forall_impl; [exact HF|by intros ? [? ?]].
Qed.

(** The standard encoding has whole groups of four. *)
Lemma std_encode_length b : Z.of_nat (length (std_encode b)) = 4 * ((Z.of_nat (length b) + 2) / 3).
Proof.
  unfold std_encode. induction b as [|x|x y|x y z b IH] using three_bytes_ind; [done..|]. cbn [encode64 length] in *.
  rewrite !Nat2Z.inj_succ, IH. rewrite (Z.add_comm (Z.succ _)). Z.to_euclidean_division_equations. lia.
Qed.

Lemma hex_string_roundtrip b : Forall byte_ok b -> hex_DecodeString (hex_EncodeToString b) = Some b.
Proof.
  intros Hb. unfold hex_DecodeString, hex_EncodeToString.
  rewrite bytes_of_string_of by (by apply hex_encode_ok). by apply hex_roundtrip.
Qed.

(** The standard's test vectors. *)
Example sha256_abc :
  hex_EncodeToString (Sha256.Sum256 (bytes_of "abc")) =
  "ba7816bf8f01cfea414140de5dae2223b00361a396177a9cb410ff61f20015ad".
Proof. vm_compute. reflexivity. Qed.

Example hmac_rfc4231_2 :
  hex_EncodeToString (hmac_sha256 (bytes_of "Jefe") (bytes_of "what do ya want for nothing?")) =
  "5bdcc146bf60754e6a042426089575c75a003f089d2739839dec58b964ec3843".
Proof. vm_compute. reflexivity. Qed.

(** RFC 4648, and four bytes 0xFF. *)
Example base64_std_vectors :
  base64_StdEncodeToString <$> [bytes_of "f"; bytes_of "fo"; bytes_of "foobar"; [255; 255; 255; 255]] =
    ["Zg=="; "Zm8="; "Zm9vYmFy"; "/////w=="].
Proof. by vm_compute. Qed.
