(* ===== verification/Money.v ===== *)
(** * Amounts as text (internal/money/money.go) *)

From S2P Require Import Prelude GoLib.
Local Open Scope string_scope.

(** [uint64(n)] *)
Definition uint64 (n : Z) : Z := n mod 2 ^ 64.

(** The loop of [group]: [len(s) - i] is the length of what is left. *)
Fixpoint group_from (i : nat) (s : string) : string :=
  match s with
  | EmptyString => EmptyString
  | String c t =>
      (if Nat.ltb 0 i && Nat.eqb (String.length s mod 3) 0 then String "." EmptyString else EmptyString)
        +:+ String c (group_from (S i) t)
  end.
Definition group (s : string) : string := group_from 0 s.

Definition FormatVND (n : Z) : string :=
  let '(sign, abs) := if (n <? 0)%Z then ("-", uint64 (- uint64 n)) else (EmptyString, uint64 n) in
  sign +:+ group (FormatInt abs).

(** ** Reading it back *)

(** The text without its dots, and the number of dots. *)
Fixpoint undot (s : string) : string :=
  match s with
  | EmptyString => EmptyString
  | String c t => if bool_decide (c = "."%char) then undot t else String c (undot t)
  end.
Fixpoint dots (s : string) : nat :=
  match s with
  | EmptyString => 0
  | String c t => (if bool_decide (c = "."%char) then 1 else 0) + dots t
  end.

Lemma undot_app s t : undot (s +:+ t) = undot s +:+ undot t.
Proof. induction s as [|c s IH]; [done|]. simpl. case_bool_decide; simpl; by rewrite IH. Qed.
Lemma dots_app s t : dots (s +:+ t) = (dots s + dots t)%nat.
Proof. induction s as [|c s IH]; [done|]. simpl. rewrite IH. lia. Qed.

Lemma undot_cons c t : c <> "."%char -> undot (String c t) = String c (undot t).
Proof. intros Hc. simpl. by rewrite bool_decide_eq_false_2. Qed.
Lemma dots_cons c t : c <> "."%char -> dots (String c t) = dots t.
Proof. intros Hc. simpl. by rewrite bool_decide_eq_false_2. Qed.
Lemma dots_0 c t : dots (String c t) = 0%nat -> c <> "."%char /\ dots t = 0%nat.
Proof. simpl. case_bool_decide; [done|]. done. Qed.

Lemma undot_id s : dots s = 0%nat -> undot s = s.
Proof. induction s as [|c s IH]; [done|]. cbn. case_bool_decide; [done|]. intros Hd. by rewrite IH. Qed.

Lemma int_chars_dots s : all_chars int_char s = true -> dots s = 0%nat.
Proof. induction s as [|c s IH]; [done|]. cbn. intros Hc. bool_to_prop. rewrite IH by done. by case_bool_decide; subst. Qed.

Lemma group_from_undot i s : dots s = 0%nat -> undot (group_from i s) = s.
Proof.
  revert i. induction s as [|c s IH]; intros i Hd; [done|]. cbn [group_from]. rewrite undot_app.
  apply dots_0 in Hd as [Hc Hd].
  assert (undot (String c (group_from (S i) s)) = String c s) as Hr by (by rewrite undot_cons, IH).
  destruct (_ && _); by rewrite Hr.
Qed.

(** A dot stands exactly where the number of digits to its right is a
    multiple of three. *)
Lemma group_from_split i a b s :
  dots s = 0%nat -> group_from i s = (a +:+ String "." b)%string ->
  (String.length (undot b) mod 3 = 0 /\ 0 < String.length (undot b) /\ (0 < i \/ a <> EmptyString))%nat.
Proof.
  revert i a. induction s as [|c s IH]; intros i a Hd Hg; cbn [group_from] in Hg; [by destruct a|].
  apply dots_0 in Hd as [Hc Hd2]. destruct (Nat.ltb 0 i && _) eqn:Hi.
  - bool_to_prop. apply Nat.ltb_lt in H. apply Nat.eqb_eq in H0. destruct a as [|x a].
    + simpl in Hg. injection Hg as <-.
      change (EmptyString +:+ String c (group_from (S i) s)) with (String c (group_from (S i) s)).
      rewrite undot_cons, group_from_undot by done. split_and!; [done|simpl; lia|by left].
    + simpl in Hg. injection Hg as <- Hg. destruct a as [|y a]; simpl in Hg; injection Hg as Hy Hg; [by destruct Hc|].
      destruct (IH (S i) a Hd2 Hg) as (? & ? & _). auto.
  - destruct a as [|x a]; simpl in Hg; injection Hg as Hx Hg; [by destruct Hc|].
    destruct (IH (S i) a Hd2 Hg) as (? & ? & _). auto.
Qed.

Lemma group_from_dots i s :
  dots s = 0%nat ->
  dots (group_from i s) = (if Nat.eqb i 0 then (String.length s - 1) / 3 else String.length s / 3)%nat.
Proof.
  revert i. induction s as [|c s IH]; intros i Hd; [by destruct (Nat.eqb i 0)|].
  apply dots_0 in Hd as [Hc Hd2]. cbn [group_from]. rewrite dots_app, dots_cons, IH by done. cbn [Nat.eqb]. set (n := String.length s). change (String.length (String c s)) with (S n).
  destruct (Nat.eqb i 0) eqn:Hi; [apply Nat.eqb_eq in Hi as ->; cbn [Nat.ltb Nat.leb andb]|apply Nat.eqb_neq in Hi; assert (Nat.ltb 0 i = true) as -> by (apply Nat.ltb_lt; lia); cbn [andb]].
  - change (dots EmptyString) with 0%nat. by replace (S n - 1)%nat with n by lia.
  - destruct (Nat.eqb (S n mod 3) 0) eqn:Hm; [apply Nat.eqb_eq in Hm|apply Nat.eqb_neq in Hm]; 
      change (dots (String "." EmptyString)) with 1%nat; change (dots EmptyString) with 0%nat; pose proof (Nat.div_mod_eq (S n) 3); pose proof (Nat.div_mod_eq n 3);
      pose proof (Nat.mod_upper_bound n 3); pose proof (Nat.mod_upper_bound (S n) 3); lia.
Qed.

(** ** Properties *)

Lemma FormatVND_neg n : in_int64 n = true -> n < 0 -> uint64 (- uint64 n) = - n.
Proof.
  unfold in_int64, int64_min, int64_max, uint64. intros Hn Hneg. bool_to_prop.
  rewrite <- (Z.mod_unique n (2 ^ 64) (-1) (n + 2 ^ 64)) by lia.
  symmetry. apply (Z.mod_unique _ _ (-1)); lia.
Qed.

Lemma FormatInt_neg n : n < 0 -> FormatInt n = "-" +:+ FormatInt (- n).
Proof. by destruct n. Qed.

(** An amount is shown so that it can be read back, for every int64, the
    smallest included: without its dots the text is the decimal notation of
    the amount, there is one dot per three digits beyond the first, and every
    dot has a digit before it and a positive multiple of three digits behind. *)
Theorem format_vnd_roundtrip (n : Z) (Hn : in_int64 n = true) :
  undot (FormatVND n) = FormatInt n /\ ParseInt (undot (FormatVND n)) = Some n /\
  dots (FormatVND n) = ((String.length (FormatInt (Z.abs n)) - 1) / 3)%nat /\
  forall a b, FormatVND n = (a +:+ String "." b)%string ->
    a <> EmptyString /\ a <> "-" /\ (String.length (undot b) mod 3 = 0 /\ 0 < String.length (undot b))%nat.
Proof.
  assert (Habs : FormatVND n = (if (n <? 0)%Z then "-" else EmptyString) +:+ group (FormatInt (Z.abs n))).
  { unfold FormatVND. destruct (Z.ltb_spec n 0).
    - rewrite FormatVND_neg by done. by rewrite Z.abs_neq by lia.
    - unfold uint64, in_int64, int64_min, int64_max in *. bool_to_prop. rewrite Z.mod_small by lia. by rewrite Z.abs_eq by lia. }
  assert (Hd : dots (FormatInt (Z.abs n)) = 0%nat) by apply int_chars_dots, FormatInt_chars.
  assert (Hu : undot (FormatVND n) = FormatInt n).
  { rewrite Habs, undot_app. unfold group. rewrite group_from_undot by done. destruct (Z.ltb_spec n 0).
    - rewrite Z.abs_neq by lia. symmetry. by apply FormatInt_neg.
    - by rewrite Z.abs_eq by lia. }
  split_and!; [done|rewrite Hu; by apply ParseInt_FormatInt|..].
  - rewrite Habs, dots_app. unfold group. rewrite group_from_dots by done. by destruct (n <? 0)%Z.
  - intros a b Hab. rewrite Habs in Hab. destruct (n <? 0)%Z.
    + destruct a as [|x a]; [by injection Hab|]. simpl in Hab. injection Hab as <- Hab.
      destruct (group_from_split 0 a b _ Hd Hab) as (? & ? & [?|Ha]); [lia|].
      split; [done|]. split; [|done]. intros Ha'. apply Ha. by injection Ha'.
    + simpl in Hab. destruct (group_from_split 0 a b _ Hd Hab) as (? & ? & [?|Ha]); [lia|].
      split; [done|]. split; [|done]. intros ->.
      pose proof (FormatInt_nonneg (Z.abs n)) as Hm.
      destruct (FormatInt (Z.abs n)) as [|c s]; [done|]. unfold group in Hab. simpl in Hab. injection Hab as -> _.
      by destruct (Hm _ _ (Z.abs_nonneg n) eq_refl).
Qed.

Lemma format_vnd_roundtrip_witness :
  FormatVND (- 2 ^ 63) = "-9.223.372.036.854.775.808" /\
  ParseInt (undot (FormatVND (- 2 ^ 63))) = Some (- 2 ^ 63).
Proof.
  split; [by vm_compute|]. by apply (proj1 (proj2 (format_vnd_roundtrip (- 2 ^ 63) eq_refl))).
Defined.
