(* ===== verification/Ticket.v ===== *)
(** * Ticket QR payloads (internal/ticket/qr.go)

    [Payload] vouches for a ticket id with an HMAC; [Verify] checks a scanned
    payload. [Ticket_PNG] is not modelled: it hands the payload to the
    third-party QR encoder. *)

From S2P Require Import Prelude GoLib Crypto.

Section qr.
Context `{UuidLib}.

Definition mac (secret id : string) : string := hex_EncodeToString (hmac_sha256 (bytes_of secret) (bytes_of id)).

Definition Payload (secret : string) (ticketID : UUID) : string :=
  let id := uuid_String ticketID in
  base64_EncodeToString (bytes_of (id +:+ "." +:+ mac secret id)).

(** [strings.Cut(s, ".")]: the text before and after the first dot. *)
Fixpoint cut_dot (s : string) : option (string * string) :=
  match s with
  | EmptyString => None
  | String c t =>
      if bool_decide (c = "."%char) then Some (EmptyString, t)
      else '(a, b) ← cut_dot t; Some (String c a, b)
  end.

Definition Verify (secret payload : string) : option UUID :=
  raw ← base64_DecodeString payload;
  '(id, sig) ← cut_dot (string_of raw);
  if bool_decide (sig = mac secret id) then uuid_Parse id else None.

(** ** Lemmas *)

Lemma cut_dot_app a b : all_chars uuid_char a = true -> cut_dot (a +:+ String "."%char b) = Some (a, b).
Proof.
  induction a as [|c a IH]; intros Ha; [done|]. cbn [all_chars] in Ha. bool_to_prop.
  change (String c a +:+ String "." b) with (String c (a +:+ String "." b)). cbn [cut_dot].
  rewrite bool_decide_eq_false_2 by (by intros ->). by rewrite IH.
Qed.

Lemma cut_dot_Some s a b : cut_dot s = Some (a, b) -> s = a +:+ String "."%char b.
Proof.
  revert a. induction s as [|c s IH]; intros a Hc; [done|]. cbn [cut_dot] in Hc.
  case_bool_decide; simplify_eq; [done|]. destruct (cut_dot s) as [[a' b']|] eqn:Hs; simplify_option_eq.
  by rewrite (IH a').
Qed.

Lemma Verify_Payload secret id : Verify secret (Payload secret id) = Some id.
Proof.
  unfold Verify, Payload. cbn zeta. rewrite base64_roundtrip by apply bytes_of_ok. unfold mbind, option_bind at 1.
  rewrite string_of_bytes_of.
  change ("." +:+ mac secret (uuid_String id)) with (String "."%char (mac secret (uuid_String id))).
  rewrite cut_dot_app by apply uuid_String_chars. unfold mbind, option_bind.
  rewrite bool_decide_eq_true_2 by reflexivity. apply uuid_Parse_String.
Qed.

#[global] Instance Payload_inj secret : Inj (=) (=) (Payload secret).
Proof. intros a b Hab. apply (inj Some). by rewrite <- !(Verify_Payload secret), Hab. Qed.
End qr.

(** ** Properties *)

(** A ticket's QR payload verifies back to exactly that ticket, two tickets
    never share a payload, and conversely whatever verifies is a base64url text
    of "<id>.<mac>" whose mac is the HMAC of that very id under the secret:
    Verify accepts nothing else. *)
Theorem ticket_qr_roundtrip `{UuidLib} (secret : string) (id : UUID) :
  Verify secret (Payload secret id) = Some id /\
  (forall id', Payload secret id' = Payload secret id -> id' = id) /\
  (forall payload, Verify secret payload = Some id ->
     exists text, uuid_Parse text = Some id /\
       base64_DecodeString payload ≫= (fun raw => Some (string_of raw)) = Some (text +:+ "." +:+ mac secret text)).
Proof.
  split; [apply Verify_Payload|split; [intros id'; apply (inj (Payload secret))|]].
  intros payload Hv. unfold Verify in Hv.
  destruct (base64_DecodeString payload) as [raw|]; [|done]. unfold mbind, option_bind in *.
  destruct (cut_dot (string_of raw)) as [[text sig]|] eqn:Hc; [|done].
  case_bool_decide as Hs; [|done]. exists text. split; [done|].
  apply cut_dot_Some in Hc. rewrite Hc, Hs. reflexivity.
Qed.
