(* ===== verification/Effects.v ===== *)
(** * Handlers as sequences of atomic actions

    A Go handler of this system is a sequence of calls to PostgreSQL, Redis,
    Kafka and the payment gateway. Each call (a transaction, a statement, a
    Lua script) is atomic; between two calls of one handler any other handler
    may run, and the process may die. [prog] is such a handler: a tree of
    atomic actions on a world [W]. [run] executes one handler alone, [sys_step]
    interleaves any number of them. *)

From S2P Require Import Prelude.

Inductive prog (W A : Type) : Type :=
| Ret (a : A)
| Act (X : Type) (f : W -> X * W) (k : X -> prog W A).
Arguments Ret {W A} a.
Arguments Act {W A X} f k.

Section prog.
Context {W : Type}.

Fixpoint pbind {A B} (p : prog W A) (q : A -> prog W B) : prog W B :=
  match p with
  | Ret a => q a
  | Act f k => Act f (fun x => pbind (k x) q)
  end.

Definition act {X} (f : W -> X * W) : prog W X := Act f Ret.

(** Execution of one handler with nothing in between. *)
Fixpoint run {A} (p : prog W A) (w : W) : A * W :=
  match p with
  | Ret a => (a, w)
  | Act f k => let '(x, w') := f w in run (k x) w'
  end.

Lemma run_bind {A B} (p : prog W A) (q : A -> prog W B) w :
  run (pbind p q) w = run (q (run p w).1) (run p w).2.
Proof.
  revert w. induction p as [a|X f k IH]; intros w; simpl; [done|].
  destruct (f w) as [x w']. apply IH.
Qed.

Lemma run_act {X} (f : W -> X * W) w : run (act f) w = f w.
Proof. unfold act. simpl. by destruct (f w). Qed.

(** [forM_ l body]: a Go [for range] loop whose body cannot leave it. *)
Fixpoint forM_ {A} (l : list A) (body : A -> prog W unit) : prog W unit :=
  match l with
  | [] => Ret tt
  | x :: l => pbind (body x) (fun _ => forM_ l body)
  end.

Definition discard {A} (p : prog W A) : prog W unit := pbind p (fun _ => Ret tt).

(** ** Rely-guarantee

    [respects I G p]: every atomic action of [p], started in a world
    satisfying [I], whatever happened before it, keeps [I] and takes a step
    allowed by [G]. *)
Fixpoint respects {A} (I : W -> Prop) (G : W -> W -> Prop) (p : prog W A) : Prop :=
  match p with
  | Ret _ => True
  | Act f k => (forall w, I w -> I (f w).2 /\ G w (f w).2) /\ forall x, respects I G (k x)
  end.

Lemma respects_bind {A B} I G (p : prog W A) (q : A -> prog W B) :
  respects I G p -> (forall a, respects I G (q a)) -> respects I G (pbind p q).
Proof.
  induction p as [a|X f k IH]; intros Hp Hq; simpl in *; [apply Hq|].
  destruct Hp as [Hf Hk]. split; [done|]. intros x. apply IH; auto.
Qed.

Lemma respects_act {X} I G (f : W -> X * W) :
  (forall w, I w -> I (f w).2 /\ G w (f w).2) -> respects I G (act f).
Proof. intros Hf. by split. Qed.

Lemma respects_forM_ {A} I G (l : list A) (body : A -> prog W unit) :
  (forall x, x ∈ l -> respects I G (body x)) -> respects I G (forM_ l body).
Proof.
  induction l as [|x l IH]; intros Hb; simpl; [done|].
  apply respects_bind; [apply Hb; constructor|].
  intros _. apply IH. intros y Hy. apply Hb. by constructor.
Qed.

Lemma respects_mono {A} I (G G' : W -> W -> Prop) (p : prog W A) :
  (forall w w', G w w' -> G' w w') -> respects I G p -> respects I G' p.
Proof.
  intros HG. induction p as [a|X f k IH]; intros Hp; simpl in *; [done|].
  destruct Hp as [Hf Hk]. split; [|auto]. intros w Hw. destruct (Hf w Hw). auto.
Qed.

Lemma respects_run {A} (I : W -> Prop) (G : W -> W -> Prop) `{!PreOrder G} (p : prog W A) w :
  respects I G p -> I w -> I (run p w).2 /\ G w (run p w).2.
Proof.
  revert w. induction p as [a|X f k IH]; intros w Hp Hw; simpl in *; [done|].
  destruct Hp as [Hf Hk]. destruct (Hf w Hw) as [HI HG]. destruct (f w) as [x w'].
  destruct (IH x w' (Hk x) HI). split; [done|]. by transitivity w'.
Qed.

(** ** Interleaving *)

(** A configuration is the pool of running handlers and the world. Requests
    of the class [Req] arrive at any time; the environment [Env] changes the
    world on its own (clocks, other systems); a process may die, taking a
    handler away between two of its actions. *)
Inductive sys_step (Req : prog W unit -> Prop) (Env : W -> W -> Prop) :
  list (prog W unit) * W -> list (prog W unit) * W -> Prop :=
| step_act X (f : W -> X * W) k l r w :
    sys_step Req Env (l ++ Act f k :: r, w) (l ++ k (f w).1 :: r, (f w).2)
| step_crash p l r w : sys_step Req Env (l ++ p :: r, w) (l ++ r, w)
| step_request p l w : Req p -> sys_step Req Env (l, w) (p :: l, w)
| step_env l w w' : Env w w' -> sys_step Req Env (l, w) (l, w').

(** *** Handlers that rely on what they did before

    [safe p w]: in every world satisfying [I] reached from [w] by the steps of
    others ([Rel]), each action of [p] takes a step allowed by [S]; what an
    action established may be used by the next ones as far as [Rel] keeps
    it. *)
Section interleaving.
Context (I : W -> Prop) (S Rel : W -> W -> Prop) `{!PreOrder Rel}.

Fixpoint safe {A} (p : prog W A) (w : W) : Prop :=
  match p with
  | Ret _ => True
  | Act f k => forall w', I w' -> Rel w w' -> S w' (f w').2 /\ safe (k (f w').1) (f w').2
  end.

Lemma safe_later {A} (p : prog W A) w w' : safe p w -> Rel w w' -> safe p w'.
Proof. destruct p as [a|X f k]; [done|]. intros Hp Hw w2 Hi H2. apply Hp; [done|]. by transitivity w'. Qed.

Lemma respects_safe {A} (p : prog W A) w : respects I S p -> safe p w.
Proof.
  revert w. induction p as [a|X f k IH]; intros w Hp; [done|]. destruct Hp as [Hf Hk].
  intros w' Hi _. split; [by apply Hf|]. by apply IH.
Qed.

(** A safe handler run alone. *)
Lemma safe_run {A} (p : prog W A) w :
  (forall v v', I v -> S v v' -> I v' /\ Rel v v') -> safe p w -> I w -> I (run p w).2 /\ Rel w (run p w).2.
Proof.
  intros Hstep. revert w. induction p as [a|X f k IH]; intros w Hp Hw; cbn [run]; [done|].
  destruct (Hp w Hw) as [Hs Hk]; [reflexivity|]. destruct (Hstep _ _ Hw Hs) as [Hw1 H1]. destruct (f w) as [x w1]. cbn [fst snd] in *.
  destruct (IH x w1 Hk Hw1) as [Hw2 H2]. split; [done|]. by transitivity w1.
Qed.

Lemma safe_keeps {A} (K : W -> Prop) (p : prog W A) w :
  (forall v v', I v -> S v v' -> I v' /\ Rel v v') -> (forall v v', I v -> S v v' -> K v -> K v') ->
  safe p w -> I w -> K w -> K (run p w).2.
Proof.
  intros Hstep HK. revert w. induction p as [a|X f k IH]; intros w Hp Hw Hk; cbn [run]; [done|].
  destruct (Hp w Hw) as [Hs Hn]; [reflexivity|]. destruct (Hstep _ _ Hw Hs) as [Hw1 _]. specialize (HK _ _ Hw Hs Hk).
  destruct (f w) as [x w1]. by apply IH.
Qed.

Lemma safe_bind {A B} (p : prog W A) (q : A -> prog W B) w :
  safe p w -> (forall a w', safe (q a) w') -> safe (pbind p q) w.
Proof.
  intros Hp Hq. revert w Hp. induction p as [a|X f k IH]; intros w Hp; cbn [pbind]; [apply Hq|].
  intros w' Hi Hw'. destruct (Hp w' Hi Hw') as [Hs Hk]. split; [done|]. by apply IH.
Qed.

Context (Req : prog W unit -> Prop) (Env : W -> W -> Prop).
Hypothesis HS : forall w w', I w -> S w w' -> I w' /\ Rel w w'.
Hypothesis Srefl : forall w, S w w.
Hypothesis Henv : forall w w', I w -> Env w w' -> S w w'.
Hypothesis Hreq : forall p w, Req p -> safe p w.

Let ok (c : list (prog W unit) * W) := Forall (fun p => safe p c.2) c.1 /\ I c.2.

Lemma sys_step_ok c c' : sys_step Req Env c c' -> ok c -> ok c' /\ S c.2 c'.2.
Proof.
  unfold ok. intros Hs. destruct Hs as [X f k l r w|p l r w|p l w Hp|l w w' He]; intros [Hl Hw]; cbn [fst snd] in *.
  - apply Forall_app in Hl as [Hl Hr]. apply Forall_cons in Hr as [Hf Hr].
    destruct (Hf w Hw) as [Hstep Hk]; [reflexivity|]. destruct (HS _ _ Hw Hstep) as [Hi Hrel].
    split; [split; [|done]|done]. apply Forall_app. split; [|apply Forall_cons; split; [done|]].
    + eapply Forall_impl; [exact Hl|]. intros q Hq. exact (safe_later _ _ _ Hq Hrel).
    + eapply Forall_impl; [exact Hr|]. intros q Hq. exact (safe_later _ _ _ Hq Hrel).
  - apply Forall_app in Hl as [Hl Hr]. apply Forall_cons in Hr as [_ Hr].
    split; [split; [by apply Forall_app|done]|apply Srefl].
  - split; [split; [apply Forall_cons; auto|done]|apply Srefl].
  - pose proof (Henv w w' Hw He) as Hstep. destruct (HS _ _ Hw Hstep) as [Hi Hrel].
    split; [split; [|done]|done]. eapply Forall_impl; [exact Hl|]. intros q Hq. exact (safe_later _ _ _ Hq Hrel).
Qed.

(** Whatever the schedule, the crashes and the requests: from a world that
    satisfies the invariant every reachable world does, every step is an [S]
    step, and [Rel] relates earlier to later worlds. *)
Lemma sys_steps_ok c c' : rtc (sys_step Req Env) c c' -> ok c -> ok c' /\ Rel c.2 c'.2.
Proof.
  induction 1 as [c|c c1 c2 Hs Hr IH]; intros Hok; [done|].
  destruct (sys_step_ok _ _ Hs Hok) as [Hok1 Hstep]. destruct (IH Hok1) as [Hok2 Hrel].
  split; [done|]. transitivity c1.2; [|done]. apply HS; [apply Hok|done].
Qed.
End interleaving.

(** Under a stronger invariant and a smaller [Rel], more is safe. *)
Lemma safe_mono {A} (I S Rel I' S' Rel' : _) (p : prog W A) w :
  (forall w, I' w -> I w) -> (forall w w', I' w -> S w w' -> S' w w') -> (forall w w', Rel' w w' -> Rel w w') ->
  safe I S Rel p w -> safe I' S' Rel' p w.
Proof.
  intros HI HS HR. revert w. induction p as [a|X f k IH]; intros w Hp; [done|]. intros w' Hi Hw'.
  destruct (Hp w' (HI _ Hi) (HR _ _ Hw')) as [Hs Hk]. split; [by apply HS|by apply IH].
Qed.

(** The special case of handlers that rely on nothing but the invariant. *)
Lemma sys_reachable_ok (Req : prog W unit -> Prop) (Env : W -> W -> Prop) (I : W -> Prop) (G : W -> W -> Prop) w c :
  (forall p, Req p -> respects I G p) -> (forall w w', I w -> Env w w' -> I w' /\ G w w') ->
  rtc (sys_step Req Env) ([], w) c -> I w -> I c.2.
Proof.
  intros Hreq Henv Hr Hw.
  assert (PreOrder (fun _ _ : W => True)) as Hpre by (by split).
  destruct (sys_steps_ok I (fun a b => I a -> I b) (fun _ _ => True) Req Env) with (c := (@nil (prog W unit), w)) (c' := c) as [[_ Hc] _]; auto.
  - intros w1 w2 H1 H2 _. by apply (Henv w1 w2).
  - intros p w' Hp. apply respects_safe. specialize (Hreq p Hp). clear -Hreq.
    induction p as [a|X f k IH]; [done|]. destruct Hreq as [Hf Hk]. split; [|by intros x; apply IH].
    intros w Hw. split; [by apply Hf|]. intros _. by apply Hf.
Qed.
End prog.

#[export] Hint Resolve respects_bind respects_act respects_forM_ : tr_inv.

(** [let! x := p in q] sequences two handlers; [let? x := p in q] adds Go's
    [if err != nil { return ..., err }]. *)
Notation "'let!' x := p 'in' q" := (pbind p (fun x => q))
  (at level 200, x name, p at level 100, q at level 200, right associativity) : tr_scope.
Notation "'let!' ' pat := p 'in' q" := (pbind p (fun x => match x with pat => q end))
  (at level 200, pat strict pattern, p at level 100, q at level 200, right associativity) : tr_scope.
Notation "'let?' x := p 'in' q" :=
  (pbind p (fun r => match r with Ok x => q | Err e => Ret (Err e) end))
  (at level 200, x name, p at level 100, q at level 200, right associativity) : tr_scope.
