(* ===== verification/History.v ===== *)
(** * Executions with their history

    Some promises relate a world to an earlier one ("a buyer leaves the queue
    only after a token was stored"), and what happened in between need not be
    visible any more. [hist_step] is [sys_step] with the worlds visited so far,
    newest first; [hsafe] is the rely-guarantee condition for handlers under an
    invariant of the history. *)

From S2P Require Import Prelude Effects.

(** ** Handlers under an invariant of the history *)

Section safe.
Context {W : Type} (I : list W -> Prop).
Implicit Types (l r : list (prog W unit)) (past : list W).

Fixpoint hsafe {A} (p : prog W A) past : Prop :=
  match p with
  | Ret _ => True
  | Act f k => forall more w, I (w :: more) -> past ⊆ w :: more ->
      I ((f w).2 :: w :: more) /\ hsafe (k (f w).1) ((f w).2 :: w :: more)
  end.

Lemma hsafe_later {A} (p : prog W A) past past' : hsafe p past -> past ⊆ past' -> hsafe p past'.
Proof. destruct p as [a|X f k]; [done|]. intros Hp Hs more w Hi Hm. apply Hp; [done|]. by transitivity past'. Qed.

(** What holds after a handler in every history it can end in. *)
Fixpoint hpost {A} (p : prog W A) past (Q : A -> list W -> Prop) : Prop :=
  match p with
  | Ret a => Q a past
  | Act f k => forall more w, I (w :: more) -> past ⊆ w :: more ->
      hpost (k (f w).1) ((f w).2 :: w :: more) Q
  end.

Lemma hpost_mono {A} (p : prog W A) past (Q Q' : A -> list W -> Prop) :
  hpost p past Q -> (forall a past', past ⊆ past' -> Q a past' -> Q' a past') -> hpost p past Q'.
Proof.
  revert past. induction p as [a|X f k IH]; intros past Hp HQ; simpl in *; [by apply HQ|].
  intros more w Hi Hm. apply IH; [by apply Hp|]. intros a past' Hs. apply HQ. set_solver.
Qed.

Lemma hsafe_bind {A B} (p : prog W A) (q : A -> prog W B) past (Q : A -> list W -> Prop) :
  hsafe p past -> hpost p past Q -> (forall a past', past ⊆ past' -> Q a past' -> hsafe (q a) past') ->
  hsafe (pbind p q) past.
Proof.
  revert past. induction p as [a|X f k IH]; intros past Hp HQ Hq; simpl in *; [by apply Hq|].
  intros more w Hi Hm. destruct (Hp more w Hi Hm) as [Hi' Hk]. split; [done|].
  apply IH; [done|by apply HQ|]. intros a past' Hs. apply Hq. set_solver.
Qed.

Lemma hpost_bind {A B} (p : prog W A) (q : A -> prog W B) past (Q : A -> list W -> Prop) (Q' : B -> list W -> Prop) :
  hpost p past Q -> (forall a past', past ⊆ past' -> Q a past' -> hpost (q a) past' Q') -> hpost (pbind p q) past Q'.
Proof.
  revert past. induction p as [a|X f k IH]; intros past HQ Hq; simpl in *; [by apply Hq|].
  intros more w Hi Hm. apply IH; [by apply HQ|]. intros a past' Hs. apply Hq. set_solver.
Qed.

Lemma hpost_true {A} (p : prog W A) past : hpost p past (fun _ past' => past ⊆ past').
Proof.
  revert past. induction p as [a|X f k IH]; intros past; simpl; [done|].
  intros more w _ Hm. eapply hpost_mono; [apply IH|]. intros a past' _ Hs. set_solver.
Qed.

End safe.

(** ** Executions *)

Section history.
Context {W : Type} (Req : prog W unit -> Prop) (Env : W -> W -> Prop).
Implicit Types (l r : list (prog W unit)) (past : list W).

Inductive hist_step : list (prog W unit) * list W -> list (prog W unit) * list W -> Prop :=
| hist_act X (f : W -> X * W) k l r w past :
    hist_step (l ++ Act f k :: r, w :: past) (l ++ k (f w).1 :: r, (f w).2 :: w :: past)
| hist_crash p l r past : hist_step (l ++ p :: r, past) (l ++ r, past)
| hist_request p l past : Req p -> hist_step (l, past) (p :: l, past)
| hist_env l w w' past : Env w w' -> hist_step (l, w :: past) (l, w' :: w :: past).

(** Histories are the executions of [sys_step]. *)
Lemma hist_sys ps w past ps' past' :
  rtc hist_step (ps, w :: past) (ps', past') ->
  exists w' more, past' = w' :: more ++ past /\ rtc (sys_step Req Env) (ps, w) (ps', w').
Proof.
  intros Hr. remember (ps, w :: past) as c eqn:Hc. remember (ps', past') as c' eqn:Hc'.
  revert ps w past Hc. induction Hr as [c|c c1 c2 Hs Hr IH]; intros ps w past Hc; subst.
  - simplify_eq. exists w, []. split; [done|]. apply rtc_refl.
  - inversion Hs; simplify_eq; subst.
    + destruct (IH eq_refl _ (f w).2 (w :: past) eq_refl) as (w' & more & -> & Hw). exists w', (more ++ [w]).
      rewrite <- app_assoc. split; [done|]. eapply rtc_l; [|exact Hw]. apply step_act.
    + destruct (IH eq_refl _ w past eq_refl) as (w' & more & -> & Hw). exists w', more. split; [done|].
      eapply rtc_l; [|exact Hw]. apply step_crash.
    + destruct (IH eq_refl _ w past eq_refl) as (w' & more & -> & Hw). exists w', more. split; [done|].
      eapply rtc_l; [|exact Hw]. by apply step_request.
    + destruct (IH eq_refl _ w' (w :: past) eq_refl) as (v & more & -> & Hw). exists v, (more ++ [w]).
      rewrite <- app_assoc. split; [done|]. eapply rtc_l; [|exact Hw]. by apply step_env.
Qed.

(** *** Histories that keep the invariant *)

Context (I : list W -> Prop).
Context (Henv : forall w w' past, I (w :: past) -> Env w w' -> I (w' :: w :: past)).
Context (Hreq : forall p past, Req p -> hsafe I p past).

Let ok (c : list (prog W unit) * list W) := Forall (fun p => hsafe I p c.2) c.1 /\ I c.2.

Lemma hist_step_ok c c' : hist_step c c' -> ok c -> ok c'.
Proof.
  assert (forall w w' past (ps : list (prog W unit)),
    Forall (fun p => hsafe I p (w :: past)) ps -> Forall (fun p => hsafe I p (w' :: w :: past)) ps) as Hw.
  { intros w w' past ps Hps. eapply Forall_impl; [exact Hps|]. intros q Hq. eapply hsafe_later; [exact Hq|]. set_solver. }
  intros Hs. destruct Hs as [X f k l r w past|p l r past|p l past Hp|l w w' past He]; intros [Hl Hi]; unfold ok; cbn [fst snd] in *.
  - apply Forall_app in Hl as [Hl Hr]. apply Forall_cons in Hr as [Hf Hr]. destruct (Hf past w Hi) as [Hi' Hk]; [done|].
    split; [|done]. apply Forall_app. split; [by apply Hw|]. apply Forall_cons. split; [done|by apply Hw].
  - apply Forall_app in Hl as [Hl Hr]. apply Forall_cons in Hr as [_ Hr]. split; [by apply Forall_app|done].
  - split; [|done]. apply Forall_cons. auto.
  - split; [by apply Hw|by apply Henv].
Qed.

Lemma hist_ok w ps past : rtc hist_step ([], [w]) (ps, past) -> I [w] -> I past.
Proof.
  intros Hr Hi. cut (ok (ps, past)); [by intros [_ ?]|].
  assert (ok ([], [w])) as Hok by (by split; [constructor|]).
  revert Hok. induction Hr as [c|c c1 c2 Hs Hr IH]; [done|]. intros Hok. apply IH. by eapply hist_step_ok.
Qed.
End history.

(** ** Requests one after the other *)

Section run.
Context {W : Type} (Req : prog W unit -> Prop) (Env : W -> W -> Prop).

(** A request run on its own is a schedule of the system. *)
Lemma run_reaches (c : list (prog W unit) * W) (p : prog W unit) :
  Req p -> exists l, rtc (sys_step Req Env) c (l, (run p c.2).2).
Proof.
  intros Hp. destruct c as [l0 w]. cbn [snd].
  assert (forall l w, exists l', rtc (sys_step Req Env) (p :: l, w) (l', (run p w).2)) as Hrun.
  { clear. induction p as [a|X f k IH]; intros l w; [exists (Ret a :: l); constructor|].
    destruct (IH (f w).1 l (f w).2) as (l' & Hl'). exists l'. etrans; [apply rtc_once, (step_act _ _ X f k [] l w)|].
    cbn [run]. destruct (f w) as [x w']. exact Hl'. }
  destruct (Hrun l0 w) as (l' & Hl'). exists l'. etrans; [apply rtc_once, step_request, Hp|exact Hl'].
Qed.

(** A list of requests, one after the other. *)
Fixpoint run_all (ps : list (prog W unit)) (w : W) : W :=
  match ps with [] => w | p :: ps => run_all ps (run p w).2 end.

Lemma run_all_reaches ps c : Forall Req ps -> exists l, rtc (sys_step Req Env) c (l, run_all ps c.2).
Proof.
  intros Hps. revert c. induction Hps as [|p ps Hp Hps IH]; intros c.
  { exists c.1. destruct c. constructor. }
  destruct (run_reaches c p Hp) as (l & Hl). destruct (IH (l, (run p c.2).2)) as (l' & Hl'). exists l'. etrans; [exact Hl|exact Hl'].
Qed.

(** The same with the worlds visited on the way. *)
Lemma run_hist (p : prog W unit) l w past :
  Req p -> exists l' past', rtc (hist_step Req Env) (l, w :: past) (l', (run p w).2 :: past').
Proof.
  intros Hp.
  assert (forall l w past, exists l' past', rtc (hist_step Req Env) (p :: l, w :: past) (l', (run p w).2 :: past')) as Hrun.
  { clear. induction p as [a|X f k IH]; intros l w past; [exists (Ret a :: l), past; constructor|].
    destruct (IH (f w).1 l (f w).2 (w :: past)) as (l' & past' & Hl'). exists l', past'.
    etrans; [apply rtc_once, (hist_act _ _ X f k [] l w past)|]. cbn [run]. destruct (f w) as [x w']. exact Hl'. }
  destruct (Hrun l w past) as (l' & past' & Hl'). exists l', past'. etrans; [by apply rtc_once, hist_request|exact Hl'].
Qed.
End run.

(** ** One handler among others *)

(** [among others p w a w']: [p] runs from [w] to [w'] and returns [a]; before
    each of its actions, and at the end, the others take any number of
    steps. *)
Fixpoint among {W A : Type} (others : W -> W -> Prop) (p : prog W A) (w : W) (a : A) (w' : W) : Prop :=
  match p with
  | Ret x => a = x /\ rtc others w w'
  | Act f k => exists w1, rtc others w w1 /\ among others (k (f w1).1) (f w1).2 a w'
  end.

Lemma among_bind {W A B} (others : W -> W -> Prop) (p : prog W A) (q : A -> prog W B) w b w' :
  among others (pbind p q) w b w' -> exists a w1, among others p w a w1 /\ among others (q a) w1 b w'.
Proof.
  revert w. induction p as [a|X f k IH]; intros w; cbn [pbind among].
  - intros Hq. exists a, w. by split.
  - intros (w1 & H1 & Hk). destruct (IH _ _ Hk) as (a & w2 & Ha & Hq). exists a, w2. split; [by exists w1|done].
Qed.

(** Running alone is one way. *)
Lemma run_among {W A} (others : W -> W -> Prop) (p : prog W A) w : among others p w (run p w).1 (run p w).2.
Proof.
  revert w. induction p as [a|X f k IH]; intros w; cbn [run among]; [done|].
  exists w. split; [done|]. specialize (IH (f w).1 (f w).2). by destruct (f w).
Qed.
