(* ===== verification/RedisServer.v ===== *)
(** * Redis as the program sees it

    Redis is a service outside the repository: the model takes it as a
    parameter, a type of server states with the commands the Lua scripts and
    the Go code issue, and the documented laws the program relies on. Times
    are Redis' clock in milliseconds. [MapRedis] is a concrete server (a finite
    map with expiry times), used by the witnesses to show that the laws can
    hold. *)

From S2P Require Import Prelude GoLib.

Class RedisServer (R : Type) := {
  (** [GET k] at time [now]: an expired key is absent. *)
  GET : R -> Z -> string -> option string;
  (** [SET k v] (no expiry) and [SET k v PX ttl]. *)
  SET : R -> Z -> string -> string -> option Z -> R;
  DEL : R -> Z -> string -> R;
  PEXPIRE : R -> Z -> string -> Z -> R;
  (** [INCR k]; [None] when the value is not an integer. *)
  INCR : R -> Z -> string -> option R;

  GET_SET_ne r now k v px t k' : k <> k' -> GET (SET r now k v px) t k' = GET r t k';
  GET_SET_forever r now k v t : GET (SET r now k v None) t k = Some v;
  GET_SET_live r now k v ttl t : 0 < ttl -> t < now + ttl -> GET (SET r now k v (Some ttl)) t k = Some v;
  GET_SET_dead r now k v ttl t : now + ttl < t -> GET (SET r now k v (Some ttl)) t k = None;
  GET_SET_val r now k v px t v' : GET (SET r now k v px) t k = Some v' -> v' = v;
  GET_DEL_eq r now k t : GET (DEL r now k) t k = None;
  GET_DEL_ne r now k t k' : k <> k' -> GET (DEL r now k) t k' = GET r t k';
  GET_PEXPIRE_ne r now k ttl t k' : k <> k' -> GET (PEXPIRE r now k ttl) t k' = GET r t k';
  GET_PEXPIRE_live r now k ttl t v :
    GET r now k = Some v -> now <= t -> 0 < ttl -> t < now + ttl -> GET (PEXPIRE r now k ttl) t k = Some v;
  GET_INCR_ne r now k r' t k' : INCR r now k = Some r' -> k <> k' -> GET r' t k' = GET r t k';
  GET_INCR_eq r now k r' :
    INCR r now k = Some r' ->
    exists n, (GET r now k = None /\ n = 0 \/ exists v, GET r now k = Some v /\ ParseInt v = Some n) /\
      GET r' now k = Some (FormatInt (n + 1));
  INCR_absent r now k : GET r now k = None -> is_Some (INCR r now k);
  (** Time only takes keys away. *)
  GET_mono r t t' k v : t <= t' -> GET r t' k = Some v -> GET r t k = Some v;
}.

Section derived.
Context `{RedisServer R}.

Lemma GET_SET_now r now k v px :
  (forall ttl, px = Some ttl -> 0 < ttl) -> GET (SET r now k v px) now k = Some v.
Proof.
  destruct px as [ttl|]; intros Hpx; [|apply GET_SET_forever].
  specialize (Hpx ttl eq_refl). apply GET_SET_live; lia.
Qed.

(** [for _, k in ipairs(KEYS) do redis.call('SET', k, v, ...) end] *)
Definition SET_all (r : R) (now : Z) (ks : list string) (v : string) (px : option Z) : R :=
  fold_left (fun r k => SET r now k v px) ks r.

Lemma GET_SET_all_ne r now ks v px t k : k ∉ ks -> GET (SET_all r now ks v px) t k = GET r t k.
Proof.
  unfold SET_all. revert r. induction ks as [|k' ks IH]; intros r Hk; simpl; [done|].
  rewrite IH by set_solver. apply GET_SET_ne. set_solver.
Qed.

Lemma GET_SET_all_in r now ks v px k :
  (forall ttl, px = Some ttl -> 0 < ttl) -> k ∈ ks -> GET (SET_all r now ks v px) now k = Some v.
Proof.
  intros Hpx. unfold SET_all. revert r. induction ks as [|k' ks IH]; intros r Hk; simpl; [set_solver|].
  destruct (decide (k ∈ ks)); [by apply IH|].
  assert (k = k') as -> by set_solver.
  fold (SET_all (SET r now k' v px) now ks v px). rewrite GET_SET_all_ne by done.
  by apply GET_SET_now.
Qed.

Lemma GET_SET_all_live r now ks v ttl t k :
  0 < ttl -> t < now + ttl -> k ∈ ks -> GET (SET_all r now ks v (Some ttl)) t k = Some v.
Proof.
  intros Hpx Ht. unfold SET_all. revert r. induction ks as [|k' ks IH]; intros r Hk; simpl; [set_solver|].
  destruct (decide (k ∈ ks)); [by apply IH|].
  assert (k = k') as -> by set_solver.
  fold (SET_all (SET r now k' v (Some ttl)) now ks v (Some ttl)). rewrite GET_SET_all_ne by done.
  by apply GET_SET_live.
Qed.
End derived.

(** ** A concrete server *)

Module MapRedis.
(** A key holds a value and, optionally, the time it expires at. *)
Abbreviation store := (gmap string (string * option Z)).

Definition live (e : option Z) (t : Z) : bool := match e with None => true | Some e => t <=? e end.

Definition get (r : store) (t : Z) (k : string) : option string :=
  match r !! k with
  | Some (v, e) => if live e t then Some v else None
  | None => None
  end.

Definition set (r : store) (now : Z) (k v : string) (px : option Z) : store :=
  <[k := (v, (fun ttl => now + ttl) <$> px)]> r.

Definition pexpire (r : store) (now : Z) (k : string) (ttl : Z) : store :=
  match get r now k with Some v => set r now k v (Some ttl) | None => r end.

Definition incr (r : store) (now : Z) (k : string) : option store :=
  match get r now k with
  | None => Some (set r now k (FormatInt 1) None)
  | Some v => n ← ParseInt v; Some (<[k := (FormatInt (n + 1), r !! k ≫= snd)]> r)
  end.

#[export] Program Instance map_redis : RedisServer store := {|
  GET := get; SET := set; DEL r _ k := delete k r; PEXPIRE := pexpire; INCR := incr;
|}.
Next Obligation. intros. unfold get, set. by rewrite lookup_insert_ne. Qed.
Next Obligation. intros. unfold get, set. by rewrite lookup_insert_eq. Qed.
Next Obligation.
  intros. unfold get, set. rewrite lookup_insert_eq. simpl.
  by rewrite (proj2 (Z.leb_le _ _)) by lia.
Qed.
Next Obligation.
  intros. unfold get, set. rewrite lookup_insert_eq. simpl.
  by rewrite (proj2 (Z.leb_gt _ _)) by lia.
Qed.
Next Obligation.
  intros r now k v px t v'. unfold get, set. rewrite lookup_insert_eq. simpl. case_match; naive_solver.
Qed.
Next Obligation. intros. unfold get. by rewrite lookup_delete_eq. Qed.
Next Obligation. intros. unfold get. by rewrite lookup_delete_ne. Qed.
Next Obligation.
  intros r now k ttl t k' Hk. unfold pexpire. case_match; [|done]. unfold get, set. by rewrite lookup_insert_ne.
Qed.
Next Obligation.
  intros r now k ttl t v Hg ???. unfold pexpire. rewrite Hg. unfold get, set.
  rewrite lookup_insert_eq. simpl. by rewrite (proj2 (Z.leb_le _ _)) by lia.
Qed.
Next Obligation.
  intros r now k r' t k' Hi Hk. unfold incr in Hi.
  destruct (get r now k) as [v|]; [destruct (ParseInt v) as [n|]; [|done]|];
    simplify_option_eq; unfold get, set; by rewrite lookup_insert_ne.
Qed.
Next Obligation.
  intros r now k r' Hi. unfold incr in Hi. unfold get in *.
  destruct (r !! k) as [[v e]|] eqn:Hk; [destruct (live e now) eqn:Hl|].
  - destruct (ParseInt v) as [n|] eqn:Hn; [|done]. simplify_option_eq. exists n.
    rewrite lookup_insert_eq, Hl. naive_solver.
  - simplify_eq/=. exists 0. unfold set. rewrite lookup_insert_eq. naive_solver.
  - simplify_eq/=. exists 0. unfold set. rewrite lookup_insert_eq. naive_solver.
Qed.
Next Obligation. intros r now k Hg. unfold incr. simpl in *. rewrite Hg. eauto. Qed.
Next Obligation.
  intros r t t' k v Ht. unfold get. destruct (r !! k) as [[w e]|]; [|done].
  destruct e as [e|]; simpl; [|done]. destruct (Z.leb_spec t' e); [|done].
  by rewrite (proj2 (Z.leb_le _ _)) by lia.
Qed.
End MapRedis.
