(* ===== verification/RedisQueue.v ===== *)
(** * Sorted sets and hashes of Redis

    The further commands the waiting room uses, as a class on top of
    [RedisServer] with their documented laws: a sorted set lists its members by
    score and, at equal scores, in byte order; a hash maps fields to values.
    [MapQueue] is a concrete server for the witnesses. *)

From S2P Require Import Prelude GoLib RedisServer.

(** ** Entries of a sorted set: score and member *)

Definition zleb (a b : Z * string) : bool :=
  (a.1 <? b.1) || (a.1 =? b.1) && String.leb a.2 b.2.
Definition zle (a b : Z * string) : Prop := zleb a b = true.

#[global] Instance zle_dec : RelDecision zle.
Proof. intros a b. unfold zle. apply _. Defined.
Lemma zle_spec a b : zle a b <-> a.1 < b.1 \/ a.1 = b.1 /\ String.le a.2 b.2.
Proof.
  unfold zle, zleb. rewrite orb_true_iff, andb_true_iff, Z.ltb_lt, Z.eqb_eq.
  unfold String.le. by rewrite Is_true_true.
Qed.
#[global] Instance zle_trans : Transitive zle.
Proof.
  intros a b c. rewrite !zle_spec. intros [?|[? ?]] [?|[? ?]]; [left; lia..|right].
  split; [lia|]. by transitivity b.2.
Qed.
#[global] Instance zle_total : Total zle.
Proof.
  intros a b. rewrite !zle_spec. destruct (Z.lt_trichotomy a.1 b.1) as [?|[?|?]]; [by left; left| |by right; left].
  destruct (total String.le a.2 b.2); [left|right]; auto.
Qed.

#[global] Instance zle_antisymm : AntiSymm (=) zle.
Proof.
  intros [s m] [t q]. rewrite !zle_spec. simpl. intros [?|[-> ?]] [?|[? ?]]; [lia..|]. f_equal. by apply (anti_symm String.le).
Qed.

(** [ZADD]: the member moves to the place of its new score. *)
Fixpoint zinsert (x : Z * string) (l : list (Z * string)) : list (Z * string) :=
  match l with
  | [] => [x]
  | y :: l => if decide (zle x y) then x :: y :: l else y :: zinsert x l
  end.
Definition zadd (score : Z) (m : string) (l : list (Z * string)) : list (Z * string) :=
  zinsert (score, m) (filter (fun e => e.2 <> m) l).
Definition zrem (ms : list string) (l : list (Z * string)) : list (Z * string) := filter (fun e => e.2 ∉ ms) l.

(** [ZRANGE key 0 stop]; a negative [stop] counts from the end. *)
Definition zrange (stop : Z) (l : list (Z * string)) : list string :=
  (if stop <? 0 then take (Z.to_nat (Z.of_nat (length l) + stop + 1)) l else take (Z.to_nat (stop + 1)) l).*2.

(** [ZRANK key m] *)
Definition zrank (m : string) (l : list (Z * string)) : option Z :=
  (fun p : nat * (Z * string) => Z.of_nat p.1) <$> list_find (fun e => e.2 = m) l.

Class RedisQueue (R : Type) `{RedisServer R} := {
  ZSET : R -> string -> list (Z * string);
  ZADD : R -> string -> Z -> string -> R;
  ZREM : R -> string -> list string -> R;
  HGET : R -> string -> string -> option string;
  HSET : R -> string -> string -> string -> R;
  HDEL : R -> string -> list string -> R;
  (** [PTTL k] at time [now]: -2 without the key, -1 without expiry. *)
  PTTL : R -> Z -> string -> Z;

  ZSET_sorted r k : StronglySorted zle (ZSET r k);
  ZSET_NoDup r k : NoDup (ZSET r k).*2;
  ZSET_ZADD_eq r k s m : ZSET (ZADD r k s m) k = zadd s m (ZSET r k);
  ZSET_ZADD_ne r k s m q : k <> q -> ZSET (ZADD r k s m) q = ZSET r q;
  ZSET_ZREM_eq r k ms : ZSET (ZREM r k ms) k = zrem ms (ZSET r k);
  ZSET_ZREM_ne r k ms q : k <> q -> ZSET (ZREM r k ms) q = ZSET r q;
  HGET_HSET_eq r k f v : HGET (HSET r k f v) k f = Some v;
  HGET_HSET_ne r k f v q g : (k, f) <> (q, g) -> HGET (HSET r k f v) q g = HGET r q g;
  HGET_HDEL_eq r k fs f : f ∈ fs -> HGET (HDEL r k fs) k f = None;
  HGET_HDEL_ne r k fs q g : k <> q \/ g ∉ fs -> HGET (HDEL r k fs) q g = HGET r q g;
  PTTL_absent r now k : GET r now k = None -> PTTL r now k = -2;
  PTTL_SET r t now k v ttl :
    GET (SET r t k v (Some ttl)) now k = Some v -> t <= now -> PTTL (SET r t k v (Some ttl)) now k = t + ttl - now;

  (** Keys of other types are left alone. *)
  GET_ZADD r k s m t q : k <> q -> GET (ZADD r k s m) t q = GET r t q;
  GET_ZREM r k ms t q : k <> q -> GET (ZREM r k ms) t q = GET r t q;
  GET_HSET r k f v t q : k <> q -> GET (HSET r k f v) t q = GET r t q;
  GET_HDEL r k fs t q : k <> q -> GET (HDEL r k fs) t q = GET r t q;
  ZSET_SET r now k v px q : k <> q -> ZSET (SET r now k v px) q = ZSET r q;
  ZSET_PEXPIRE r now k ttl q : k <> q -> ZSET (PEXPIRE r now k ttl) q = ZSET r q;
  ZSET_HSET r k f v q : k <> q -> ZSET (HSET r k f v) q = ZSET r q;
  ZSET_HDEL r k fs q : k <> q -> ZSET (HDEL r k fs) q = ZSET r q;
  HGET_SET r now k v px q f : k <> q -> HGET (SET r now k v px) q f = HGET r q f;
  HGET_PEXPIRE r now k ttl q f : k <> q -> HGET (PEXPIRE r now k ttl) q f = HGET r q f;
  HGET_ZADD r k s m q f : k <> q -> HGET (ZADD r k s m) q f = HGET r q f;
  HGET_ZREM r k ms q f : k <> q -> HGET (ZREM r k ms) q f = HGET r q f;
}.

(** ** Facts about sorted sets *)

Lemma zinsert_perm x l : zinsert x l ≡ₚ x :: l.
Proof.
  induction l as [|y l IH]; simpl; [done|]. case_decide; [done|]. rewrite IH. apply Permutation_swap.
Qed.
Lemma elem_of_zinsert x y l : y ∈ zinsert x l <-> y = x \/ y ∈ l.
Proof. by rewrite zinsert_perm, elem_of_cons. Qed.

Lemma zinsert_sorted x l : StronglySorted zle l -> StronglySorted zle (zinsert x l).
Proof.
  induction 1 as [|y l Hl IH Hy]; simpl; [repeat constructor|]. case_decide as Hx.
  - constructor; [by constructor|]. constructor; [done|]. eapply Forall_impl; [exact Hy|]. intros z. by apply zle_trans.
  - constructor; [done|]. rewrite zinsert_perm. constructor; [|done]. by destruct (total zle x y).
Qed.

Lemma filter_sorted (P : Z * string -> Prop) `{forall x, Decision (P x)} l :
  StronglySorted zle l -> StronglySorted zle (filter P l).
Proof.
  induction 1 as [|y l Hl IH Hy]; [constructor|]. rewrite filter_cons. case_decide; [|done].
  constructor; [done|]. rewrite Forall_forall in *. intros z Hz. apply Hy. by apply list_elem_of_filter in Hz as [_ Hz].
Qed.

Lemma NoDup_snd_filter (P : Z * string -> Prop) `{forall x, Decision (P x)} l :
  NoDup l.*2 -> NoDup (filter P l).*2.
Proof.
  induction l as [|y l IH]; [done|]. rewrite fmap_cons. intros [Hy Hl]%NoDup_cons. rewrite filter_cons.
  case_decide; [|auto]. rewrite fmap_cons. apply NoDup_cons. split; [|auto].
  intros (z & Hz & Hin)%list_elem_of_fmap. apply list_elem_of_filter in Hin as [_ Hin]. destruct Hy. rewrite Hz.
  by apply list_elem_of_fmap_2.
Qed.

Lemma zadd_NoDup s m l : NoDup l.*2 -> NoDup (zadd s m l).*2.
Proof.
  intros Hl. unfold zadd. rewrite zinsert_perm, fmap_cons. apply NoDup_cons. split; [|by apply NoDup_snd_filter].
  intros (z & Hz & Hin)%list_elem_of_fmap. apply list_elem_of_filter in Hin as [Hne _]. by destruct Hne.
Qed.

Lemma elem_of_zadd s m l e : e ∈ zadd s m l <-> e = (s, m) \/ e.2 <> m /\ e ∈ l.
Proof. unfold zadd. by rewrite elem_of_zinsert, list_elem_of_filter. Qed.
Lemma elem_of_zrem ms l e : e ∈ zrem ms l <-> e.2 ∉ ms /\ e ∈ l.
Proof. unfold zrem. by rewrite list_elem_of_filter. Qed.

(** The two relations "the member is in the set" and "it has that score". *)
Lemma members_spec (l : list (Z * string)) m : m ∈ l.*2 <-> exists s, (s, m) ∈ l.
Proof.
  rewrite list_elem_of_fmap. split; [intros ([s m'] & -> & Hin); eauto|]. intros [s Hin]. by exists (s, m).
Qed.
Lemma members_zadd s m l q : q ∈ (zadd s m l).*2 <-> q = m \/ q ∈ l.*2.
Proof.
  rewrite !members_spec. setoid_rewrite elem_of_zadd. split.
  - intros [t [Ht|[_ Ht]]]; [left; congruence|right; eauto].
  - intros [->|[t Ht]]; [eauto|]. destruct (decide (q = m)) as [->|Hne]; eauto.
Qed.
Lemma members_zrem ms l q : q ∈ (zrem ms l).*2 <-> q ∉ ms /\ q ∈ l.*2.
Proof. rewrite !members_spec. setoid_rewrite elem_of_zrem. naive_solver. Qed.

Lemma filter_agree (P Q : Z * string -> Prop) `{forall x, Decision (P x)} `{forall x, Decision (Q x)} (l : list (Z * string)) :
  (forall x, x ∈ l -> P x <-> Q x) -> filter P l = filter Q l.
Proof.
  induction l as [|y l IH]; intros HPQ; [done|]. rewrite !filter_cons, IH by (intros; apply HPQ; by constructor).
  assert (P y <-> Q y) as Hy by (apply HPQ; constructor). destruct (decide (P y)), (decide (Q y)); tauto.
Qed.

Lemma zrem_prefix n l : NoDup l.*2 -> zrem (take n l.*2) l = drop n l.
Proof.
  unfold zrem. revert n. induction l as [|y l IH]; intros n Hl; [by rewrite drop_nil|].
  rewrite fmap_cons in Hl. apply NoDup_cons in Hl as [Hy Hl]. destruct n as [|n]; cbn [take drop fmap list_fmap].
  - apply filter_all, Forall_true. intros x. apply not_elem_of_nil.
  - rewrite filter_cons_False by (intros Hn; apply Hn; constructor).
    rewrite <- (IH n Hl). apply filter_agree. intros x Hx. rewrite not_elem_of_cons.
    split; [by intros [_ ?]|]. intros Hn. split; [|done]. intros He. destruct Hy. rewrite <- He. by apply list_elem_of_fmap_2.
Qed.

(** The members ahead of [m]. *)
Definition ahead (m : string) (l : list (Z * string)) : list string := (take (Z.to_nat (default 0 (zrank m l))) l).*2.

Lemma zrank_split s m l :
  StronglySorted zle l -> NoDup l.*2 -> (s, m) ∈ l ->
  exists l1 l2, l = l1 ++ (s, m) :: l2 /\ zrank m l = Some (Z.of_nat (length l1)) /\ ahead m l = l1.*2 /\
    (forall x, x ∈ l1 <-> x ∈ l /\ zle x (s, m) /\ x <> (s, m)).
Proof.
  intros Hs Hd Hm. destruct (list_elem_of_split _ _ Hm) as (l1 & l2 & ->). exists l1, l2.
  rewrite fmap_app, fmap_cons in Hd. apply NoDup_app in Hd as (_ & Hd1 & Hd2). apply NoDup_cons in Hd2 as [Hd2 _].
  assert (zrank m (l1 ++ (s, m) :: l2) = Some (Z.of_nat (length l1))) as Hr.
  { unfold zrank. assert (list_find (fun e : Z * string => e.2 = m) (l1 ++ (s, m) :: l2) = Some (length l1, (s, m))) as ->; [|done].
    apply list_find_Some. split_and!; [by apply list_lookup_middle|done|]. intros j y Hj Hlt Hy. rewrite lookup_app_l in Hj by done.
    apply (Hd1 m); [|simpl; set_solver]. rewrite <- Hy. apply list_elem_of_fmap_2. by eapply list_elem_of_lookup_2. }
  split_and!; [done|done|unfold ahead; rewrite Hr; simpl; by rewrite Nat2Z.id, take_app_length|].
  intros x. apply StronglySorted_app in Hs as (Hs & _ & H2). apply StronglySorted_cons in H2 as [H2 _]. rewrite Forall_forall in H2.
  split.
  - intros Hx. split; [set_solver|]. split; [apply Hs; [done|constructor]|]. intros ->.
    apply (Hd1 m); [|set_solver]. by apply (list_elem_of_fmap_2 snd _ (s, m)).
  - intros (Hx & Hle & Hne). apply elem_of_app in Hx as [Hx|Hx]; [done|]. apply elem_of_cons in Hx as [?|Hx]; [done|].
    destruct Hne. apply (anti_symm zle); [done|by apply H2].
Qed.

(** ** A concrete server *)

(** Strings beside whatever else the server keeps. *)
#[export] Program Instance redis_beside `{RedisServer R} {X : Type} : RedisServer (R * X) := {|
  GET r := GET r.1; SET r now k v px := (SET r.1 now k v px, r.2); DEL r now k := (DEL r.1 now k, r.2);
  PEXPIRE r now k ttl := (PEXPIRE r.1 now k ttl, r.2);
  INCR r now k := (fun r1 => (r1, r.2)) <$> INCR r.1 now k;
|}.
Next Obligation. intros. by apply GET_SET_ne. Qed.
Next Obligation. intros. apply GET_SET_forever. Qed.
Next Obligation. intros. by apply GET_SET_live. Qed.
Next Obligation. intros. by apply GET_SET_dead. Qed.
Next Obligation. simpl. intros. eapply GET_SET_val; eassumption. Qed.
Next Obligation. intros. apply GET_DEL_eq. Qed.
Next Obligation. intros. by apply GET_DEL_ne. Qed.
Next Obligation. intros. by apply GET_PEXPIRE_ne. Qed.
Next Obligation. intros. by eapply GET_PEXPIRE_live. Qed.
Next Obligation.
  simpl. intros R0 ? X r now k r' t k' (r1 & Hr & ->)%fmap_Some Hk. by apply (GET_INCR_ne r.1 now k).
Qed.
Next Obligation. simpl. intros R0 ? X r now k r' (r1 & Hr & ->)%fmap_Some. by apply GET_INCR_eq. Qed.
Next Obligation. simpl. intros. apply fmap_is_Some. by apply INCR_absent. Qed.
Next Obligation. simpl. intros. eapply GET_mono; eassumption. Qed.

Module MapQueue.
#[export] Existing Instance MapRedis.map_redis.
Abbreviation zsets := (gmap string (list (Z * string))).
Abbreviation hashes := (gmap (string * string) string).
(** Sorted sets are kept well formed by construction: a set that is not is
    read as empty. *)
Abbreviation store := (MapRedis.store * (zsets * hashes))%type.

Definition good (l : list (Z * string)) : Prop := StronglySorted zle l /\ NoDup l.*2.
#[export] Instance good_dec l : Decision (good l).
Proof. unfold good. apply _. Defined.

Definition zset (r : store) (k : string) : list (Z * string) :=
  let l := default [] (r.2.1 !! k) in if decide (good l) then l else [].
Definition zset_upd (r : store) (k : string) (l : list (Z * string)) : store := (r.1, (<[k := l]> r.2.1, r.2.2)).
Definition hash_upd (r : store) (h : hashes) : store := (r.1, (r.2.1, h)).

Definition pttl (r : store) (now : Z) (k : string) : Z :=
  match MapRedis.get r.1 now k with
  | None => -2
  | Some _ => match r.1 !! k with Some (_, Some e) => e - now | _ => -1 end
  end.

Lemma zset_good r k : good (zset r k).
Proof. unfold zset. case_decide; [done|]. by split; [constructor|apply NoDup_nil_2]. Qed.
Lemma zset_upd_eq r k l : good l -> zset (zset_upd r k l) k = l.
Proof. intros Hl. unfold zset, zset_upd. cbn [fst snd]. rewrite lookup_insert_eq. simpl. by rewrite decide_True. Qed.
Lemma zset_upd_ne r k l q : k <> q -> zset (zset_upd r k l) q = zset r q.
Proof. intros Hk. unfold zset, zset_upd. cbn [fst snd]. by rewrite lookup_insert_ne. Qed.

#[export] Program Instance map_queue : RedisQueue store := {|
  ZSET := zset; ZADD r k s m := zset_upd r k (zadd s m (zset r k)); ZREM r k ms := zset_upd r k (zrem ms (zset r k));
  HGET r k f := r.2.2 !! (k, f); HSET r k f v := hash_upd r (<[(k, f) := v]> r.2.2);
  HDEL r k fs := hash_upd r (filter (fun e : (string * string) * string => ~ (e.1.1 = k /\ e.1.2 ∈ fs)) r.2.2);
  PTTL := pttl;
|}.
Next Obligation. intros. apply zset_good. Qed.
Next Obligation. intros. apply zset_good. Qed.
Next Obligation.
  intros. apply zset_upd_eq. destruct (zset_good r k) as [Hs Hd].
  split; [by apply zinsert_sorted, filter_sorted|by apply zadd_NoDup].
Qed.
Next Obligation. intros. by apply zset_upd_ne. Qed.
Next Obligation.
  intros. apply zset_upd_eq. destruct (zset_good r k) as [Hs Hd].
  split; [by apply filter_sorted|by apply NoDup_snd_filter].
Qed.
Next Obligation. intros. by apply zset_upd_ne. Qed.
Next Obligation. intros. simpl. by rewrite lookup_insert_eq. Qed.
Next Obligation. intros. simpl. by rewrite lookup_insert_ne. Qed.
Next Obligation.
  intros. simpl. apply map_lookup_filter_None_2. right. simpl. intros x _ Hn. by apply Hn.
Qed.
Next Obligation.
  intros r k fs q g Hne. simpl. destruct (r.2.2 !! (q, g)) as [v|] eqn:Hv.
  - apply map_lookup_filter_Some_2; [done|]. simpl. intros [-> Hg]. by destruct Hne.
  - apply map_lookup_filter_None_2. by left.
Qed.
Next Obligation. intros r now k Hg. unfold pttl. simpl in Hg. by rewrite Hg. Qed.
Next Obligation.
  intros r t now k v ttl Hg _. unfold pttl. simpl in *. rewrite Hg. unfold MapRedis.set. rewrite lookup_insert_eq. simpl. lia.
Qed.
Solve All Obligations with done.
End MapQueue.
