(* ===== verification/OrderState.v ===== *)
(** * The order state machine (internal/order/state.go) *)

From S2P Require Import Prelude.

Inductive Status :=
| StatusHeld | StatusPaid | StatusTicketed | StatusExpired
| StatusCancelled | StatusRefunding | StatusRefunded.

#[global] Instance Status_eq_dec : EqDecision Status.
Proof. solve_decision. Defined.

Definition AllStatuses : list Status :=
  [StatusHeld; StatusPaid; StatusTicketed; StatusExpired;
   StatusCancelled; StatusRefunding; StatusRefunded].

(** The text of a status, as the constants of state.go and the CHECK of
    the orders table spell it. *)
Definition status_string (s : Status) : string :=
  match s with
  | StatusHeld => "HELD" | StatusPaid => "PAID" | StatusTicketed => "TICKETED"
  | StatusExpired => "EXPIRED" | StatusCancelled => "CANCELLED"
  | StatusRefunding => "REFUNDING" | StatusRefunded => "REFUNDED"
  end.

(** The map [transitions]: the legal successors of a status. *)
Definition transitions (s : Status) : list Status :=
  match s with
  | StatusHeld => [StatusPaid; StatusCancelled; StatusExpired; StatusRefunding]
  | StatusPaid => [StatusTicketed]
  | StatusExpired => [StatusPaid; StatusRefunding]
  | StatusCancelled => [StatusRefunding]
  | StatusRefunding => [StatusRefunded]
  | StatusTicketed => []
  | StatusRefunded => []
  end.

(** [for _, s := range l { if s == to { return true } }; return false] *)
Fixpoint contains_status (l : list Status) (to : Status) : bool :=
  match l with
  | [] => false
  | s :: l => if bool_decide (s = to) then true else contains_status l to
  end.

Definition CanTransition (from to : Status) : bool := contains_status (transitions from) to.

(** ** The machine as a relation *)

(** The diagram of SPEC.md section 8, arrow by arrow. *)
Inductive arrow : Status -> Status -> Prop :=
| held_paid : arrow StatusHeld StatusPaid
| held_cancelled : arrow StatusHeld StatusCancelled
| held_expired : arrow StatusHeld StatusExpired
| held_refunding : arrow StatusHeld StatusRefunding
| paid_ticketed : arrow StatusPaid StatusTicketed
| expired_paid : arrow StatusExpired StatusPaid
| expired_refunding : arrow StatusExpired StatusRefunding
| cancelled_refunding : arrow StatusCancelled StatusRefunding
| refunding_refunded : arrow StatusRefunding StatusRefunded.

Lemma CanTransition_arrow from to : CanTransition from to = true <-> arrow from to.
Proof. split; [destruct from, to; try done; constructor|by destruct 1]. Qed.

(** The number of changes an order in this status can still make. *)
Definition fuel (s : Status) : nat :=
  match s with
  | StatusHeld => 3
  | StatusPaid => 1
  | StatusExpired => 2
  | StatusCancelled => 2
  | StatusRefunding => 1
  | StatusTicketed | StatusRefunded => 0
  end.

Lemma arrow_fuel from to : arrow from to -> (fuel to < fuel from)%nat.
Proof. destruct 1; simpl; lia. Qed.

(** Statuses an order that has received its money and given seats never
    leaves, and those where its money goes back. *)
Definition is_sold (s : Status) : bool :=
  match s with StatusPaid | StatusTicketed => true | _ => false end.
Definition is_refund (s : Status) : bool :=
  match s with StatusRefunding | StatusRefunded => true | _ => false end.

Lemma nsteps_fuel n from to : nsteps arrow n from to -> (n + fuel to <= fuel from)%nat.
Proof.
  induction 1 as [s|n s1 s2 s3 H12 H IH]; [lia|].
  pose proof (arrow_fuel _ _ H12). lia.
Qed.

Lemma rtc_sold from to : rtc arrow from to -> is_sold from = true -> is_sold to = true.
Proof. induction 1 as [|s1 s2 s3 H12 H IH]; [done|]. intros Hs. apply IH. by destruct H12. Qed.

Lemma rtc_refund from to : rtc arrow from to -> is_refund from = true -> is_refund to = true.
Proof. induction 1 as [|s1 s2 s3 H12 H IH]; [done|]. intros Hs. apply IH. by destruct H12. Qed.

(** ** Properties *)

(** [CanTransition] is exactly the diagram of SPEC.md section 8, and every
    run of the machine is short and one-way: an order changes status at most
    three times, an order that is sold stays sold, and one whose money is
    going back never comes to be sold. *)
Theorem state_machine_sound (from to : Status) :
  (CanTransition from to = true <-> arrow from to) /\
  (forall n, nsteps (fun a b => CanTransition a b = true) n from to -> (n <= 3)%nat) /\
  (rtc (fun a b => CanTransition a b = true) from to -> is_sold from = true -> is_sold to = true) /\
  (rtc (fun a b => CanTransition a b = true) from to -> is_refund from = true -> is_refund to = true).
Proof.
  split; [apply CanTransition_arrow|split; [|split]].
  - intros n Hn. assert (nsteps arrow n from to) as Ha.
    { clear -Hn. induction Hn; econstructor; [by apply CanTransition_arrow|done]. }
    apply nsteps_fuel in Ha. destruct from; simpl in Ha; lia.
  - intros Hr. apply rtc_sold. eapply rtc_subrel; [|done]. intros ??. apply CanTransition_arrow.
  - intros Hr. apply rtc_refund. eapply rtc_subrel; [|done]. intros ??. apply CanTransition_arrow.
Qed.

(** The terminal statuses are TICKETED and REFUNDED, and from every status
    one of them can be reached: no order can get stuck. *)
Theorem state_machine_live (s : Status) :
  (transitions s = [] <-> s = StatusTicketed \/ s = StatusRefunded) /\
  exists t, (t = StatusTicketed \/ t = StatusRefunded) /\
    rtc (fun a b => CanTransition a b = true) s t.
Proof.
  split; [destruct s; simpl; split; intros H; try done; try (by left); try (by right); naive_solver|].
  destruct s.
  - exists StatusTicketed. split; [by left|]. eapply (rtc_l _ _ StatusPaid); [done|]. by eapply rtc_once.
  - exists StatusTicketed. split; [by left|]. by eapply rtc_once.
  - exists StatusTicketed. split; [by left|]. done.
  - exists StatusTicketed. split; [by left|]. eapply (rtc_l _ _ StatusPaid); [done|]. by eapply rtc_once.
  - exists StatusRefunded. split; [by right|]. eapply (rtc_l _ _ StatusRefunding); [done|]. by eapply rtc_once.
  - exists StatusRefunded. split; [by right|]. by eapply rtc_once.
  - exists StatusRefunded. split; [by right|]. done.
Qed.
