(* ===== verification/CatalogEvent.v ===== *)
(** * Events and their seat layout (internal/catalog/catalog.go)

    The data of an event as a process keeps it in memory, and the index and
    zone summary [setSeats] builds over it. *)

From S2P Require Import Prelude.

Record Seat := mkSeat {
  Seat_ID : string; Seat_Zone : string; Seat_Row : string; Seat_No : Z; Seat_PriceVND : Z;
}.

Record Zone := mkZone { Zone_Name : string; Zone_PriceVND : Z; Zone_Seats : nat }.

Record Event := mkEvent {
  Event_ID : Z; Event_Name : string; Event_Venue : string;
  Event_StartsAt : Z; Event_SaleOpensAt : Z; Event_MaxSeatsPerOrder : Z;
  Event_Zones : list Zone; Event_Seats : list Seat;
  Event_seatIDs : list string; Event_byID : gmap string nat;
}.

(** [e.byID[id]], then [e.Seats[i]]. *)
Definition Event_Seat (e : Event) (id : string) : option Seat :=
  i ← Event_byID e !! id; Event_Seats e !! i.

(** ** setSeats *)

Definition bump (z : Zone) : Zone := mkZone (Zone_Name z) (Zone_PriceVND z) (S (Zone_Seats z)).

(** The zone part of the loop body: open a new zone when the name or the price
    differs from the last one's, then count the seat in the last zone. *)
Definition zone_step (zones : list Zone) (st : Seat) : list Zone :=
  let zones :=
    match last zones with
    | Some z =>
        if negb (bool_decide (Zone_Name z = Seat_Zone st)) || negb (bool_decide (Zone_PriceVND z = Seat_PriceVND st))
        then zones ++ [mkZone (Seat_Zone st) (Seat_PriceVND st) 0] else zones
    | None => zones ++ [mkZone (Seat_Zone st) (Seat_PriceVND st) 0]
    end in
  alter bump (length zones - 1)%nat zones.

Fixpoint index_seats (i : nat) (seats : list Seat) (byID : gmap string nat) : gmap string nat :=
  match seats with
  | [] => byID
  | st :: seats => index_seats (S i) seats (<[Seat_ID st := i]> byID)
  end.

Definition setSeats (seats : list Seat) (e : Event) : Event :=
  mkEvent (Event_ID e) (Event_Name e) (Event_Venue e) (Event_StartsAt e) (Event_SaleOpensAt e)
    (Event_MaxSeatsPerOrder e) (fold_left zone_step seats []) seats (Seat_ID <$> seats)
    (index_seats 0 seats ∅).

(** ** The index *)

Lemma index_seats_notin i seats m id :
  id ∉ Seat_ID <$> seats -> index_seats i seats m !! id = m !! id.
Proof.
  revert i m. induction seats as [|st seats IH]; intros i m Hid; simpl; [done|].
  rewrite fmap_cons in Hid. rewrite IH by set_solver. apply lookup_insert_ne. set_solver.
Qed.

Lemma index_seats_in i seats m id :
  id ∈ Seat_ID <$> seats ->
  exists j st, index_seats i seats m !! id = Some (i + j)%nat /\ seats !! j = Some st /\ Seat_ID st = id.
Proof.
  revert i m. induction seats as [|st seats IH]; intros i m Hid; simpl; [set_solver|].
  destruct (decide (id ∈ Seat_ID <$> seats)) as [Hin|Hnin].
  - destruct (IH (S i) (<[Seat_ID st := i]> m) Hin) as (j & st' & -> & Hj & Hs).
    exists (S j), st'. by rewrite Nat.add_succ_r.
  - rewrite fmap_cons in Hid. assert (id = Seat_ID st) as -> by set_solver.
    exists 0%nat, st. rewrite index_seats_notin, lookup_insert_eq, Nat.add_0_r; done.
Qed.

(** Looking up an id finds a seat with that id exactly when the layout has
    one. *)
Lemma Event_Seat_setSeats seats e id :
  match Event_Seat (setSeats seats e) id with
  | Some st => st ∈ seats /\ Seat_ID st = id
  | None => id ∉ Seat_ID <$> seats
  end.
Proof.
  unfold Event_Seat. simpl. destruct (decide (id ∈ Seat_ID <$> seats)) as [Hin|Hnin].
  - destruct (index_seats_in 0 seats ∅ id Hin) as (j & st & -> & Hj & Hs). simpl. rewrite Hj.
    split; [by eapply list_elem_of_lookup_2|done].
  - by rewrite index_seats_notin.
Qed.

Lemma Event_Seat_unique seats e st :
  NoDup (Seat_ID <$> seats) -> st ∈ seats -> Event_Seat (setSeats seats e) (Seat_ID st) = Some st.
Proof.
  intros Hnd Hst. pose proof (Event_Seat_setSeats seats e (Seat_ID st)) as H.
  destruct (Event_Seat (setSeats seats e) (Seat_ID st)) as [st'|].
  - destruct H as [Hin Heq]. f_equal.
    apply list_elem_of_lookup in Hin as [i Hi], Hst as [j Hj].
    assert (i = j) as ->; [|congruence].
    eapply NoDup_lookup; [done|..]; rewrite list_lookup_fmap, ?Hi, ?Hj; simpl; by rewrite ?Heq.
  - destruct H. by apply list_elem_of_fmap_2.
Qed.

(** ** The zones *)

(** The zone summary is the run-length encoding of the seats' zones. *)
Definition expand (zones : list Zone) : list (string * Z) :=
  mjoin ((fun z => replicate (Zone_Seats z) (Zone_Name z, Zone_PriceVND z)) <$> zones).

Definition zone_of (st : Seat) : string * Z := (Seat_Zone st, Seat_PriceVND st).

Lemma expand_app l k : expand (l ++ k) = expand l ++ expand k.
Proof. unfold expand. by rewrite fmap_app, join_app. Qed.

Lemma zone_step_snoc l z st :
  zone_step (l ++ [z]) st =
    if bool_decide ((Zone_Name z, Zone_PriceVND z) = zone_of st)
    then l ++ [bump z] else l ++ [z; mkZone (Seat_Zone st) (Seat_PriceVND st) 1].
Proof.
  assert (Ha : forall (k : list Zone) y, alter bump (length (k ++ [y]) - 1)%nat (k ++ [y]) = k ++ [bump y]).
  { intros k y. rewrite length_app. simpl. replace (length k + 1 - 1)%nat with (length k + 0)%nat by lia.
    by rewrite alter_app_r. }
  unfold zone_step, zone_of. rewrite last_snoc.
  destruct (decide (Zone_Name z = Seat_Zone st)) as [Hn|Hn];
    destruct (decide (Zone_PriceVND z = Seat_PriceVND st)) as [Hp|Hp].
  - rewrite !bool_decide_eq_true_2 by congruence. simpl. apply Ha.
  - rewrite (bool_decide_eq_false_2 (Zone_PriceVND z = _)), (bool_decide_eq_false_2 ((_, _) = _)) by congruence.
    rewrite orb_true_r. by rewrite Ha, <- app_assoc.
  - rewrite (bool_decide_eq_false_2 (Zone_Name z = _)), (bool_decide_eq_false_2 ((_, _) = _)) by congruence.
    simpl. by rewrite Ha, <- app_assoc.
  - rewrite (bool_decide_eq_false_2 (Zone_Name z = _)), (bool_decide_eq_false_2 ((_, _) = _)) by congruence.
    simpl. by rewrite Ha, <- app_assoc.
Qed.

(** Every zone has a seat and neighbouring zones differ. *)
Definition runs (zones : list Zone) : Prop :=
  Forall (fun z => 0 < Zone_Seats z)%nat zones /\
  forall i z z', zones !! i = Some z -> zones !! S i = Some z' ->
    (Zone_Name z, Zone_PriceVND z) <> (Zone_Name z', Zone_PriceVND z').

Lemma zone_step_runs zones st :
  runs zones -> runs (zone_step zones st) /\ expand (zone_step zones st) = expand zones ++ [zone_of st].
Proof.
  intros [Hpos Hne]. destruct zones as [|z l _] using rev_ind.
  { split; [split|done]; [constructor; [simpl; lia|constructor]|].
    intros [|i] z z'; unfold zone_step; simpl; naive_solver. }
  rewrite zone_step_snoc. apply Forall_app in Hpos as [Hl Hz]. apply Forall_cons in Hz as [Hz _].
  case_bool_decide as Hd.
  - split; [split|].
    + apply Forall_app; split; [done|]. constructor; [simpl; lia|constructor].
    + intros i y y' Hi Hi'. destruct (decide (S i = length l)) as [He|He].
      * rewrite lookup_app_l in Hi by lia. rewrite He, list_lookup_middle in Hi' by done. simplify_eq.
        apply (Hne i y z); [by rewrite lookup_app_l by lia|by rewrite He, list_lookup_middle].
      * assert (S i < length l)%nat.
        { apply lookup_lt_Some in Hi'. rewrite length_app in Hi'. simpl in Hi'. lia. }
        rewrite lookup_app_l in Hi, Hi' by lia.
        apply (Hne i y y'); by rewrite lookup_app_l by lia.
    + rewrite !expand_app. unfold expand. simpl. rewrite <- Hd, !app_nil_r, <- app_assoc.
      f_equal. by rewrite <- replicate_cons_app.
  - split; [split|].
    + apply Forall_app; split; [done|]. repeat constructor; simpl; lia.
    + intros i y y' Hi Hi'. destruct (decide (S i = S (length l))) as [He|He].
      * assert (i = length l) as -> by lia. rewrite list_lookup_middle in Hi by done.
        rewrite lookup_app_r in Hi' by lia. replace (S (length l) - length l)%nat with 1%nat in Hi' by lia.
        simplify_eq/=. done.
      * assert (S i < S (length l))%nat.
        { apply lookup_lt_Some in Hi'. rewrite length_app in Hi'. simpl in Hi'. lia. }
        assert (forall j, (j < S (length l))%nat -> (l ++ [z; mkZone (Seat_Zone st) (Seat_PriceVND st) 1]) !! j = (l ++ [z]) !! j) as Hj.
        { intros j ?. change [z; mkZone (Seat_Zone st) (Seat_PriceVND st) 1]
            with ([z] ++ [mkZone (Seat_Zone st) (Seat_PriceVND st) 1]).
          rewrite app_assoc, lookup_app_l by (rewrite length_app; simpl; lia). done. }
        rewrite Hj in Hi, Hi' by lia. by apply (Hne i y y').
    + rewrite !expand_app. unfold expand. simpl. by rewrite !app_nil_r, <- app_assoc.
Qed.

Lemma zones_runs seats zones :
  runs zones ->
  runs (fold_left zone_step seats zones) /\
  expand (fold_left zone_step seats zones) = expand zones ++ (zone_of <$> seats).
Proof.
  revert zones. induction seats as [|st seats IH]; intros zones Hr; simpl; [by rewrite app_nil_r|].
  destruct (zone_step_runs zones st Hr) as [Hr' He].
  destruct (IH _ Hr') as [Hr'' He']. split; [done|]. by rewrite He', He, <- app_assoc.
Qed.

(** ** Properties *)

(** An event's seats are looked up correctly: the index finds, for every
    seat id, a seat of the layout with that id, none exactly when the layout
    has no such seat, and each seat itself when the ids are distinct (as the
    key of the seats table makes them). The zone summary is the run-length
    encoding of the layout: expanding each zone to its number of seats gives
    back the zone and price of every seat in display order, no zone is empty
    and no two neighbouring zones are the same. *)
Theorem setSeats_correct (seats : list Seat) (e : Event) :
  (forall id, match Event_Seat (setSeats seats e) id with
              | Some st => st ∈ seats /\ Seat_ID st = id
              | None => id ∉ Seat_ID <$> seats
              end) /\
  (NoDup (Seat_ID <$> seats) ->
   forall st, st ∈ seats -> Event_Seat (setSeats seats e) (Seat_ID st) = Some st) /\
  expand (Event_Zones (setSeats seats e)) = zone_of <$> seats /\
  runs (Event_Zones (setSeats seats e)).
Proof.
  split; [intros id; apply Event_Seat_setSeats|].
  split; [intros Hnd st; by apply Event_Seat_unique|].
  simpl. destruct (zones_runs seats []) as [Hr He]; [split; [constructor|done]|].
  by rewrite He.
Qed.
