(* ===== verification/World.v ===== *)
(** * The world the services act on

    The PostgreSQL tables of migrations/, Redis, the gateway, the Kafka log, the
    notifier's chat, the clocks, and the failures a call to any of them can have; then the two ways the Go code reaches
    PostgreSQL: one statement ([stmt]) and [pgx.BeginFunc] ([BeginFunc]). *)

From S2P Require Import Prelude GoLib OrderState RedisServer CatalogEvent.

(** ** Errors

    Go wraps errors with context ([fmt.Errorf("...: %w", err)]); callers only
    look through the wrapping with [errors.Is] and [errors.As], so an error
    value here is the innermost one. *)

Inductive PgErr :=
| UniqueViolation (constraint : string)  (* SQLSTATE 23505 *)
| ForeignKeyViolation (constraint : string)
| CheckViolation (constraint : string)
| NoRows                                 (* pgx.ErrNoRows *)
| Infra.                                 (* connection lost, timeout *)

Inductive GoErr :=
| EPg (e : PgErr)
| EInfra                                 (* Redis, Kafka or the gateway did not answer *)
| ErrValidation (field reason : string)
| ErrSeatsUnavailable (seatIDs : list string)
| ErrActiveOrderExists
| ErrIdempotencyKeyReused
| ErrNotFound
| ErrNotCancellable (status : Status)
| ErrIdempotencyKeyInProgress
| ErrTemporarilyUnavailable
| ErrAdmissionRequired
| ErrAdmissionAlreadyUsed
| ErrEventNotFound
| ErrUnknownSeat
| ErrConfirmMismatch
| ErrRefundNotFound
| ErrBadRequest
| ErrUnauthorized
| ErrBadSignature
| ErrInvalidWebhook
| ErrInvalidAdmission
| ErrNotQueued
| EIllegalTransition (from to : Status)
| EOther (msg : string).

#[global] Instance PgErr_eq_dec : EqDecision PgErr.
Proof. solve_decision. Defined.
#[global] Instance GoErr_eq_dec : EqDecision GoErr.
Proof. solve_decision. Defined.

(** Case analysis on an error: what PostgreSQL said, or anything else. *)
Ltac case_err e := destruct e; [match goal with pe : PgErr |- _ => destruct pe end|..].

(** ** Tables *)

(** orderdb.Order: a row of [orders]. Times are the database clock in
    microseconds. *)
Record OrderRow := mkOrderRow {
  r_ID : UUID; r_EventID : Z; r_UserID : Z; r_Status : Status; r_TotalVnd : Z;
  r_IdempotencyKey : string; r_RequestHash : string;
  r_HoldExpiresAt : Z; r_CreatedAt : Z; r_UpdatedAt : Z;
}.

(** A row of [order_seats], without its key (order_id, seat_id). *)
Record OrderSeatRow := mkOrderSeatRow { os_EventID : Z; os_PriceVnd : Z }.

(** A row of [tickets], without its key id. *)
Record TicketRow := mkTicketRow {
  t_OrderID : UUID; t_EventID : Z; t_SeatID : string;
  t_QrPayload : option string; t_IssuedAt : option Z;
}.

(** The values of payments.outcome that ApplyPayment reports; the column holds
    the empty string ([None]) until the transaction knows the outcome. *)
Inductive Outcome :=
| OutcomeApplied | OutcomeRefundRequired | OutcomeIgnoredFailed
| OutcomeDuplicate | OutcomeUnknownOrder.

#[global] Instance Outcome_eq_dec : EqDecision Outcome.
Proof. solve_decision. Defined.

(** A row of [payments], without its key provider_txn_id. *)
Record PaymentRow := mkPaymentRow {
  p_OrderID : UUID; p_AmountVnd : Z; p_Status : string; p_Outcome : option Outcome;
}.

(** orderdb.Refund: a row of [refunds], without its key provider_txn_id. *)
Record RefundRow := mkRefundRow {
  f_OrderID : UUID; f_AmountVnd : Z; f_Reason : string; f_Status : string;
  f_CreatedAt : Z; f_CompletedAt : option Z;
}.

(** events.OrderEvent: the payload of every message. *)
Record OrderEvent := mkOrderEvent {
  ev_EventID : Z; ev_EventType : string; ev_OccurredAt : Z;
  ev_OrderID : UUID; ev_Event : Z; ev_UserID : Z; ev_SeatIDs : list string; ev_TotalVND : Z;
  ev_ProviderTxnID : string; ev_AmountVND : Z; ev_Reason : string;
}.

(** A row of [outbox], without its key id. The payload column is the JSON text
    of an [OrderEvent]; the model keeps the value it encodes. *)
Record OutboxRow := mkOutboxRow {
  ob_Topic : string; ob_MsgKey : string; ob_EventType : string;
  ob_Payload : OrderEvent; ob_PublishedAt : option Z;
}.

(** Rows of [events] and [seats] (keys id and (event_id, seat_id)). *)
Record EventRow := mkEventRow {
  e_Name : string; e_Venue : string; e_StartsAt : Z; e_SaleOpensAt : Z; e_MaxSeatsPerOrder : Z;
}.
Record SeatRow := mkSeatRow { s_Zone : string; s_RowLabel : string; s_SeatNo : Z; s_PriceVnd : Z }.

(** A row of [seat_holds], without its key (event_id, seat_id). *)
Record HoldRow := mkHoldRow { h_OrderID : UUID; h_ExpiresAt : Z }.

(** The tables the order transactions read and write. *)
Record PG := mkPG {
  orders : gmap UUID OrderRow;
  order_seats : gmap (UUID * string) OrderSeatRow;
  tickets : gmap UUID TicketRow;
  payments : gmap string PaymentRow;
  refunds : gmap string RefundRow;
  outbox : gmap Z OutboxRow;
  db_events : gmap Z EventRow;
  db_seats : gmap (Z * string) SeatRow;
  (** The ids of [users]. *)
  db_users : gset Z;
}.

Definition set_orders (f : gmap UUID OrderRow) (d : PG) : PG :=
  mkPG f (order_seats d) (tickets d) (payments d) (refunds d) (outbox d) (db_events d) (db_seats d) (db_users d).
Definition set_order_seats (f : gmap (UUID * string) OrderSeatRow) (d : PG) : PG :=
  mkPG (orders d) f (tickets d) (payments d) (refunds d) (outbox d) (db_events d) (db_seats d) (db_users d).
Definition set_tickets (f : gmap UUID TicketRow) (d : PG) : PG :=
  mkPG (orders d) (order_seats d) f (payments d) (refunds d) (outbox d) (db_events d) (db_seats d) (db_users d).
Definition set_payments (f : gmap string PaymentRow) (d : PG) : PG :=
  mkPG (orders d) (order_seats d) (tickets d) f (refunds d) (outbox d) (db_events d) (db_seats d) (db_users d).
Definition set_refunds (f : gmap string RefundRow) (d : PG) : PG :=
  mkPG (orders d) (order_seats d) (tickets d) (payments d) f (outbox d) (db_events d) (db_seats d) (db_users d).
Definition set_outbox (f : gmap Z OutboxRow) (d : PG) : PG :=
  mkPG (orders d) (order_seats d) (tickets d) (payments d) (refunds d) f (db_events d) (db_seats d) (db_users d).

Definition empty_PG : PG := mkPG ∅ ∅ ∅ ∅ ∅ ∅ ∅ ∅ ∅.

Definition set_users (u : gset Z) (d : PG) : PG :=
  mkPG (orders d) (order_seats d) (tickets d) (payments d) (refunds d) (outbox d) (db_events d) (db_seats d) u.

(** ** Failures of a call *)

(** A call to another system answers ([FOk]), fails without effect ([FErr]),
    or takes effect and loses its answer ([FLost]). *)
Inductive Fault := FOk | FErr | FLost.
#[global] Instance Fault_eq_dec : EqDecision Fault.
Proof. solve_decision. Defined.

(** ** The other systems *)

(** The fakepay gateway (fakepay.Server). Its memory: registered payments by
    order, refunds and transactions by provider_txn_id. And its log, oldest
    line first, as far as it is about refunds and starts of the process: the
    money a refund pays back is in the line that is not a repeat. *)
Record CreatePaymentRequest := mkCreatePayment { cp_OrderID : UUID; cp_AmountVND : Z; cp_CallbackURL : string }.
Record RefundRequest := mkRefundRequest { rq_OrderID : UUID; rq_ProviderTxnID : string; rq_AmountVND : Z }.
#[global] Instance RefundRequest_eq_dec : EqDecision RefundRequest.
Proof. solve_decision. Defined.
Inductive GatewayLine :=
| GatewayStarted
| RefundUnknown (r : RefundRequest)
| Refunded (r : RefundRequest) (repeat : bool).
#[global] Instance GatewayLine_eq_dec : EqDecision GatewayLine.
Proof. solve_decision. Defined.
Record Gateway := mkGateway {
  gw_payments : gmap UUID CreatePaymentRequest;
  gw_refunds : gmap string RefundRequest;
  gw_txns : gmap string UUID;
  gw_log : list GatewayLine;
}.

(** A Kafka record as the relay produces it: topic, key, headers, value. *)
Record KRecord := mkKRecord {
  k_Topic : string; k_Key : string; k_Headers : list (string * string); k_Value : OrderEvent;
}.

(** catalog.Service: what a process has loaded so far. *)
Record Catalog := mkCatalog { c_events : gmap Z Event; c_saleOpen : gmap Z bool }.
Definition empty_Catalog : Catalog := mkCatalog ∅ ∅.

(** ** World *)

Record World (R : Type) := mkWorld {
  pg : PG;
  (** The table seat_holds (INVENTORY_BACKEND=pg): only the inventory writes
      it, in transactions of its own. *)
  seat_holds : gmap (Z * string) HoldRow;
  (** The sequence of outbox.id; a rollback does not take a number back. *)
  outbox_seq : Z;
  rds : R;
  (** now() of PostgreSQL (microseconds) and of Redis (milliseconds). *)
  pg_now : Z;
  redis_now : Z;
  (** Orders whose row another transaction has locked. *)
  locked : gset UUID;
  gateway : Gateway;
  (** The records Kafka has acknowledged, oldest first. *)
  klog : list KRecord;
  (** The catalog of each process, by process id. *)
  catalogs : gmap nat Catalog;
  (** How the next calls go (all well once the list is used up), and what
      uuid.NewV7 and rand.Text return next. *)
  faults : list Fault;
  ids : list (option UUID);
  rands : list string;
  (** The messages in the Telegram chat, oldest first. *)
  chat : list string;
}.
Arguments mkWorld {R}.
Arguments pg {R}.
Arguments seat_holds {R}.
Arguments outbox_seq {R}.
Arguments rds {R}.
Arguments pg_now {R}.
Arguments redis_now {R}.
Arguments locked {R}.
Arguments gateway {R}.
Arguments klog {R}.
Arguments catalogs {R}.
Arguments faults {R}.
Arguments ids {R}.
Arguments rands {R}.
Arguments chat {R}.

Section world.
Context {R : Type}.
Implicit Types w : World R.

Definition set_pg (p : PG) w : World R :=
  mkWorld p (seat_holds w) (outbox_seq w) (rds w) (pg_now w) (redis_now w) (locked w) (gateway w) (klog w) (catalogs w) (faults w) (ids w) (rands w) (chat w).
Definition set_seat_holds (h : gmap (Z * string) HoldRow) w : World R :=
  mkWorld (pg w) h (outbox_seq w) (rds w) (pg_now w) (redis_now w) (locked w) (gateway w) (klog w) (catalogs w) (faults w) (ids w) (rands w) (chat w).
Definition set_outbox_seq (n : Z) w : World R :=
  mkWorld (pg w) (seat_holds w) n (rds w) (pg_now w) (redis_now w) (locked w) (gateway w) (klog w) (catalogs w) (faults w) (ids w) (rands w) (chat w).
Definition set_rds (r : R) w : World R :=
  mkWorld (pg w) (seat_holds w) (outbox_seq w) r (pg_now w) (redis_now w) (locked w) (gateway w) (klog w) (catalogs w) (faults w) (ids w) (rands w) (chat w).
Definition set_faults (f : list Fault) w : World R :=
  mkWorld (pg w) (seat_holds w) (outbox_seq w) (rds w) (pg_now w) (redis_now w) (locked w) (gateway w) (klog w) (catalogs w) f (ids w) (rands w) (chat w).
Definition set_ids (i : list (option UUID)) w : World R :=
  mkWorld (pg w) (seat_holds w) (outbox_seq w) (rds w) (pg_now w) (redis_now w) (locked w) (gateway w) (klog w) (catalogs w) (faults w) i (rands w) (chat w).
Definition set_rands (s : list string) w : World R :=
  mkWorld (pg w) (seat_holds w) (outbox_seq w) (rds w) (pg_now w) (redis_now w) (locked w) (gateway w) (klog w) (catalogs w) (faults w) (ids w) s (chat w).
Definition set_clocks (p r : Z) w : World R :=
  mkWorld (pg w) (seat_holds w) (outbox_seq w) (rds w) p r (locked w) (gateway w) (klog w) (catalogs w) (faults w) (ids w) (rands w) (chat w).
Definition set_locked (l : gset UUID) w : World R :=
  mkWorld (pg w) (seat_holds w) (outbox_seq w) (rds w) (pg_now w) (redis_now w) l (gateway w) (klog w) (catalogs w) (faults w) (ids w) (rands w) (chat w).
Definition set_gateway (g : Gateway) w : World R :=
  mkWorld (pg w) (seat_holds w) (outbox_seq w) (rds w) (pg_now w) (redis_now w) (locked w) g (klog w) (catalogs w) (faults w) (ids w) (rands w) (chat w).
Definition set_klog (k : list KRecord) w : World R :=
  mkWorld (pg w) (seat_holds w) (outbox_seq w) (rds w) (pg_now w) (redis_now w) (locked w) (gateway w) k (catalogs w) (faults w) (ids w) (rands w) (chat w).
Definition set_catalogs (c : gmap nat Catalog) w : World R :=
  mkWorld (pg w) (seat_holds w) (outbox_seq w) (rds w) (pg_now w) (redis_now w) (locked w) (gateway w) (klog w) c (faults w) (ids w) (rands w) (chat w).
Definition set_chat (l : list string) w : World R :=
  mkWorld (pg w) (seat_holds w) (outbox_seq w) (rds w) (pg_now w) (redis_now w) (locked w) (gateway w) (klog w) (catalogs w) (faults w) (ids w) (rands w) l.

(** ** Computations inside one atomic action *)

Definition M (A : Type) : Type := World R -> res GoErr A * World R.

Definition mret {A} (a : A) : M A := fun w => (Ok a, w).
Definition mfail {A} (e : GoErr) : M A := fun w => (Err e, w).
Definition mbind {A B} (m : M A) (k : A -> M B) : M B := fun w =>
  let '(r, w') := m w in
  match r with Ok a => k a w' | Err e => (Err e, w') end.
Definition mcatch {A B} (m : M A) (k : res GoErr A -> M B) : M B := fun w =>
  let '(r, w') := m w in k r w'.

Definition pop_fault w : Fault * World R :=
  match faults w with
  | [] => (FOk, w)
  | f :: fs => (f, set_faults fs w)
  end.

(** A call that may fail: with [FErr] it has no effect, with [FLost] it has,
    and both report [err]. *)
Definition call {A} (err : GoErr) (f : M A) : M A := fun w =>
  match pop_fault w with
  | (FOk, w) => f w
  | (FErr, w) => (Err err, w)
  | (FLost, w) => (Err err, (f w).2)
  end.

(** One SQL statement: its effect on the tables, given now(). *)
Definition stmt {A} (q : Z -> PG -> res GoErr (A * PG)) : M A :=
  call (EPg Infra) (fun w =>
    match q (pg_now w) (pg w) with
    | Ok (a, d) => (Ok a, set_pg d w)
    | Err e => (Err e, w)
    end).

(** [pgx.BeginFunc]: an error of the body, or of COMMIT, undoes what the body
    wrote; a COMMIT whose answer is lost reports an error although it took
    effect. [undo w0 w1] is [w1] with the tables of this transaction as they
    were in [w0]. *)
Definition Transaction {A} (undo : World R -> World R -> World R) (body : M A) : M A := fun w =>
  match pop_fault w with
  | (FOk, w0) =>
      let '(r, w1) := body w0 in
      match r with
      | Err e => (Err e, undo w0 w1)
      | Ok a =>
          match pop_fault w1 with
          | (FOk, w2) => (Ok a, w2)
          | (FErr, w2) => (Err (EPg Infra), undo w0 w2)
          | (FLost, w2) => (Err (EPg Infra), w2)
          end
      end
  | (_, w0) => (Err (EPg Infra), w0)
  end.

(** A transaction on the order tables, and one on seat_holds (the inventory
    uses a connection of its own). *)
Definition BeginFunc {A} (body : M A) : M A := Transaction (fun w0 w1 => set_pg (pg w0) w1) body.
Definition BeginFuncHolds {A} (body : M A) : M A :=
  Transaction (fun w0 w1 => set_seat_holds (seat_holds w0) w1) body.

(** [uuid.NewV7()] *)
Definition NewV7 : M UUID := fun w =>
  match ids w with
  | Some u :: l => (Ok u, set_ids l w)
  | None :: l => (Err (EOther "generate id"), set_ids l w)
  | [] => (Err (EOther "generate id"), w)
  end.

(** [crypto/rand.Text()]: it cannot fail. *)
Definition rand_Text : M string := fun w =>
  match rands w with
  | s :: l => (Ok s, set_rands l w)
  | [] => (Ok EmptyString, w)
  end.
End world.
Arguments M R A : clear implicits.

Notation "'let*' x := m 'in' k" := (mbind m (fun x => k))
  (at level 200, x name, m at level 100, k at level 200, right associativity) : tr_scope.
Notation "'let*' ' pat := m 'in' k" := (mbind m (fun x => match x with pat => k end))
  (at level 200, pat strict pattern, m at level 100, k at level 200, right associativity) : tr_scope.
Notation "'try' x := m 'in' k" := (mcatch m (fun x => k))
  (at level 200, x name, m at level 100, k at level 200, right associativity) : tr_scope.

(** ** Reasoning about atomic actions *)

Section facts.
Context {R : Type}.
Implicit Types w : World R.

(** [w'] differs from [w] at most in the tables, the sequence and the supplies
    of faults and random values. *)
Definition env_eq w w' : Prop :=
  seat_holds w' = seat_holds w /\ rds w' = rds w /\ pg_now w' = pg_now w /\
  redis_now w' = redis_now w /\ locked w' = locked w /\ gateway w' = gateway w /\
  klog w' = klog w /\ catalogs w' = catalogs w.

#[global] Instance env_eq_preorder : PreOrder env_eq.
Proof. split; [done|]. unfold env_eq. intros x y z ??. intuition congruence. Qed.

Lemma set_pg_id w : set_pg (pg w) w = w.
Proof. by destruct w. Qed.

Lemma pop_fault_spec w f w' :
  pop_fault w = (f, w') -> pg w' = pg w /\ outbox_seq w' = outbox_seq w /\ ids w' = ids w /\ env_eq w w'.
Proof. unfold pop_fault, env_eq. destruct (faults w); naive_solver. Qed.

Lemma pop_fault_nil w : faults w = [] -> pop_fault w = (FOk, w).
Proof. unfold pop_fault. by intros ->. Qed.

Lemma mbind_ok {A B} (m : M R A) (k : A -> M R B) w b w' :
  mbind m k w = (Ok b, w') <-> exists a w1, m w = (Ok a, w1) /\ k a w1 = (Ok b, w').
Proof.
  unfold mbind. destruct (m w) as [[a|e] w1]; [|naive_solver].
  split; [eauto|]. naive_solver.
Qed.

Lemma call_ok {A} err (f : M R A) w a w' :
  call err f w = (Ok a, w') ->
  exists w0, f w0 = (Ok a, w') /\ pg w0 = pg w /\ outbox_seq w0 = outbox_seq w /\ ids w0 = ids w /\ env_eq w w0.
Proof.
  unfold call. destruct (pop_fault w) as [[] w0] eqn:Hp; [|done..].
  intros Hf. exists w0. split; [done|]. by eapply pop_fault_spec.
Qed.

Lemma stmt_ok {A} (q : Z -> PG -> res GoErr (A * PG)) w a w' :
  stmt q w = (Ok a, w') ->
  q (pg_now w) (pg w) = Ok (a, pg w') /\ outbox_seq w' = outbox_seq w /\ ids w' = ids w /\ env_eq w w'.
Proof.
  intros H. apply call_ok in H as (w0 & H & Hpg & Hs & Hi & He).
  assert (pg_now w0 = pg_now w) as Hn by apply He. rewrite Hpg, Hn in H.
  destruct (q (pg_now w) (pg w)) as [[a' d]|e]; simplify_eq. split; [done|]. simpl. by split.
Qed.

Lemma stmt_nofault {A} (q : Z -> PG -> res GoErr (A * PG)) w :
  faults w = [] ->
  stmt q w = match q (pg_now w) (pg w) with
             | Ok (a, d) => (Ok a, set_pg d w)
             | Err e => (Err e, w)
             end.
Proof. intros Hf. unfold stmt, call. by rewrite (pop_fault_nil w Hf). Qed.

(** A transaction either leaves the tables alone or ran its whole body
    successfully. *)
Lemma BeginFunc_cases {A} (body : M R A) w :
  pg (BeginFunc body w).2 = pg w \/
  exists w0 a w1, body w0 = (Ok a, w1) /\ pg w0 = pg w /\ outbox_seq w0 = outbox_seq w /\
    ids w0 = ids w /\ env_eq w w0 /\ pg (BeginFunc body w).2 = pg w1 /\ env_eq w1 (BeginFunc body w).2.
Proof.
  unfold BeginFunc, Transaction. destruct (pop_fault w) as [f w0] eqn:Hp.
  destruct (pop_fault_spec _ _ _ Hp) as (Hpg & Hs & Hi & He).
  destruct f; [|by left..].
  destruct (body w0) as [[a|e] w1] eqn:Hb; [|by left].
  destruct (pop_fault w1) as [f' w2] eqn:Hp2.
  destruct (pop_fault_spec _ _ _ Hp2) as (Hpg2 & _ & _ & He2).
  destruct f'; [right|by left|right];
    by exists w0, a, w1; rewrite ?Hpg2.
Qed.

(** A transaction that reports success committed its body. *)
Lemma BeginFunc_ok {A} (body : M R A) w a w' :
  BeginFunc body w = (Ok a, w') ->
  exists w0 w1, body w0 = (Ok a, w1) /\ pg w0 = pg w /\ outbox_seq w0 = outbox_seq w /\
    ids w0 = ids w /\ env_eq w w0 /\ pg w' = pg w1 /\ env_eq w1 w'.
Proof.
  unfold BeginFunc, Transaction. destruct (pop_fault w) as [f w0] eqn:Hp.
  destruct (pop_fault_spec _ _ _ Hp) as (Hpg & Hs & Hi & He).
  destruct f; [|done..].
  destruct (body w0) as [[a'|e] w1] eqn:Hb; [|done].
  destruct (pop_fault w1) as [f' w2] eqn:Hp2.
  destruct (pop_fault_spec _ _ _ Hp2) as (Hpg2 & _ & _ & He2).
  destruct f'; [|done..]. intros [= <- <-]. by exists w0, w1.
Qed.

Lemma BeginFunc_nofault {A} (body : M R A) w :
  faults w = [] -> faults (body w).2 = [] ->
  BeginFunc body w = match (body w).1 with
                     | Ok a => (Ok a, (body w).2)
                     | Err e => (Err e, set_pg (pg w) (body w).2)
                     end.
Proof.
  intros Hf Hb. unfold BeginFunc, Transaction. rewrite (pop_fault_nil w Hf).
  destruct (body w) as [[a|e] w1]; simpl in *; [|done]. by rewrite (pop_fault_nil w1 Hb).
Qed.
End facts.

(** Decompose a successful run of a computation into its steps. *)
Ltac m_inv :=
  repeat match goal with
  | H : mbind _ _ _ = (Ok _, _) |- _ => apply mbind_ok in H as (? & ? & ? & H)
  | H : mret _ _ = (Ok _, _) |- _ => unfold mret in H; injection H as <- <-
  | H : (Ok _, _) = (Ok _, _) |- _ => injection H as <- <-
  | H : (Err _, _) = (Ok _, _) |- _ => discriminate H
  | H : mfail _ _ = (Ok _, _) |- _ => discriminate H
  | H : stmt _ _ = (Ok _, _) |- _ => apply stmt_ok in H as (? & ? & ? & ?)
  end.
