(* ===== verification/Auth.v ===== *)
(** * Tokens (internal/auth/auth.go, internal/auth/admission.go)

    The JWT library is outside the repository: [JwtLib] is what the code relies
    on. Times of a process' clock are nanoseconds since 1970; a NumericDate has
    whole seconds. [EnsureUser] is the row of a user of the development login. *)

From S2P Require Import Prelude GoLib World.
Local Open Scope tr_scope.

(** jwt.RegisteredClaims with the two claims of an admission token; user
    tokens leave those two out. *)
Record Claims := mkClaims {
  cl_Subject : string; cl_ID : string; cl_IssuedAt : option Z; cl_ExpiresAt : option Z;
  cl_EventID : Z; cl_QueueID : string;
}.

(** What a verified admission token grants. *)
Record Admission := mkAdmission { adm_UserID : Z; adm_EventID : Z; adm_QueueID : UUID; adm_JTI : UUID; adm_ExpiresAt : Z }.

(** [NewNumericDate], in seconds. *)
Definition NumericDate (t : Z) : Z := t / Second.

Class JwtLib := {
  (** [jwt.NewWithClaims(HS256, claims).SignedString(secret)] *)
  SignedString : string -> Claims -> res GoErr string;
  (** [jwt.ParseWithClaims] with that secret, only HS256, an expiry required
      and the given time. *)
  ParseWithClaims : string -> Z -> string -> option Claims;
  parse_signed secret c token now exp :
    SignedString secret c = Ok token -> cl_ExpiresAt c = Some exp -> now < exp * Second ->
    ParseWithClaims secret now token = Some c;
  (** A token has two dots at least. *)
  signed_nonempty secret c token : SignedString secret c = Ok token -> token <> EmptyString;
  (** What a token says does not depend on when it is read. *)
  parse_same secret now now' token c c' :
    ParseWithClaims secret now token = Some c -> ParseWithClaims secret now' token = Some c' -> c = c';
  parse_unexpired secret now token c :
    ParseWithClaims secret now token = Some c -> exists exp, cl_ExpiresAt c = Some exp /\ now < exp * Second;
}.

Definition AccessTokenTTL : Z := 24 * 3600 * Second.

Section tokens.
Context `{JwtLib}.

(** ** User tokens *)

Record Tokens := mkTokens { tk_secret : string; tk_ttl : Z }.

Definition Tokens_Issue (t : Tokens) (now : Z) (userID : Z) : res GoErr string :=
  SignedString (tk_secret t)
    (mkClaims (FormatInt userID) EmptyString (Some (NumericDate now)) (Some (NumericDate (now + tk_ttl t))) 0 EmptyString).

Definition Tokens_Verify (t : Tokens) (now : Z) (token : string) : res GoErr Z :=
  match ParseWithClaims (tk_secret t) now token with
  | None => Err ErrUnauthorized
  | Some claims =>
      match ParseInt (cl_Subject claims) with
      | Some userID => if userID <=? 0 then Err ErrUnauthorized else Ok userID
      | None => Err ErrUnauthorized
      end
  end.

(** ** Admission tokens *)

Record AdmissionTokens := mkAdmissionTokens { at_secret : string; at_ttl : Z }.

Context `{UuidLib}.

Section issue.
Context {R : Type}.

(** [uuid.NewRandom()] draws from the same supply as [uuid.NewV7()]. *)
Definition AdmissionTokens_Issue (t : AdmissionTokens) (now : Z) (userID eventID : Z) (queueID : UUID) : M R (string * Admission) :=
  let* jti := NewV7 in
  let exp := (now + at_ttl t) / Second * Second in
  match SignedString (at_secret t)
          (mkClaims (FormatInt userID) (uuid_String jti) None (Some (NumericDate exp)) eventID (uuid_String queueID)) with
  | Err e => mfail e
  | Ok signed => mret (signed, mkAdmission userID eventID queueID jti exp)
  end.
End issue.

Definition AdmissionTokens_Verify (t : AdmissionTokens) (now : Z) (token : string) : res GoErr Admission :=
  match ParseWithClaims (at_secret t) now token with
  | None => Err ErrInvalidAdmission
  | Some claims =>
      match ParseInt (cl_Subject claims) with
      | None => Err ErrInvalidAdmission
      | Some userID =>
          if userID <=? 0 then Err ErrInvalidAdmission
          else
            match uuid_Parse (cl_ID claims) with
            | None => Err ErrInvalidAdmission
            | Some jti =>
                match uuid_Parse (cl_QueueID claims) with
                | None => Err ErrInvalidAdmission
                | Some queueID =>
                    if cl_EventID claims <=? 0 then Err ErrInvalidAdmission
                    else Ok (mkAdmission userID (cl_EventID claims) queueID jti (default 0 (cl_ExpiresAt claims) * Second))
                end
            end
      end
  end.

Lemma NumericDate_seconds t : NumericDate (t / Second * Second) * Second = t / Second * Second.
Proof. unfold NumericDate. by rewrite Z.div_mul. Qed.

(** An issued token, for as long as it is valid. *)
Lemma issue_verify {R} (t : AdmissionTokens) now userID eventID queueID (w w' : World R) token a :
  in_int64 userID = true -> 0 < userID -> 0 < eventID ->
  AdmissionTokens_Issue t now userID eventID queueID w = (Ok (token, a), w') ->
  (adm_UserID a = userID /\ adm_EventID a = eventID /\ adm_QueueID a = queueID /\
   now + at_ttl t - Second < adm_ExpiresAt a <= now + at_ttl t) /\
  (exists c, SignedString (at_secret t) c = Ok token) /\
  forall now', now' < adm_ExpiresAt a -> AdmissionTokens_Verify t now' token = Ok a.
Proof.
  intros Hu Hu0 He0 Hissue. unfold AdmissionTokens_Issue, mbind in Hissue. destruct (NewV7 w) as [[jti|] w1]; [|done].
  destruct (SignedString _ _) as [signed|] eqn:Hs; [|done]. injection Hissue as -> <- <-. cbn [adm_UserID adm_EventID adm_QueueID adm_ExpiresAt].
  split; [|split].
  - split_and!; try done; unfold Second; pose proof (Z.div_mod (now + at_ttl t) 1000000000); pose proof (Z.mod_pos_bound (now + at_ttl t) 1000000000); lia.
  - by eexists.
  - intros now' Hlt. unfold AdmissionTokens_Verify. erewrite parse_signed; [|exact Hs|reflexivity|by rewrite NumericDate_seconds].
    cbn [cl_Subject cl_ID cl_QueueID cl_EventID cl_ExpiresAt default from_option].
    rewrite ParseInt_FormatInt by done. destruct (Z.leb_spec userID 0); [lia|]. rewrite !uuid_Parse_String.
    destruct (Z.leb_spec eventID 0); [lia|]. unfold id. by rewrite NumericDate_seconds.
Qed.
End tokens.

(** ** Users *)

(** INSERT ... ON CONFLICT (id) DO NOTHING *)
Definition insert_user (id : Z) (now : Z) (d : PG) : res GoErr (unit * PG) := Ok (tt, set_users ({[id]} ∪ db_users d) d).
Definition EnsureUser {R} (userID : Z) : M R unit := stmt (insert_user userID).

(** ** Properties *)

(** C30. An admission token grants what it was issued for until it expires: as
    long as the clock is before the expiry [Issue] reported, the token
    verifies to exactly the admission [Issue] returned; from then on, and for
    whatever else is presented, [Verify] answers [ErrInvalidAdmission] or an
    admission with a positive user and event that has not expired. *)
Theorem admission_token_roundtrip {R : Type} `{JwtLib} `{UuidLib} (t : AdmissionTokens) (now userID eventID : Z) (queueID : UUID)
    (w w' : World R) (token : string) (a : Admission)
    (Hu : in_int64 userID = true) (Hu0 : 0 < userID) (He0 : 0 < eventID)
    (Hissue : AdmissionTokens_Issue t now userID eventID queueID w = (Ok (token, a), w')) :
  (adm_UserID a = userID /\ adm_EventID a = eventID /\ adm_QueueID a = queueID /\
   now + at_ttl t - Second < adm_ExpiresAt a <= now + at_ttl t) /\
  (forall now', now' < adm_ExpiresAt a -> AdmissionTokens_Verify t now' token = Ok a) /\
  (now < adm_ExpiresAt a -> forall now', adm_ExpiresAt a <= now' -> AdmissionTokens_Verify t now' token = Err ErrInvalidAdmission) /\
  (forall now' other, match AdmissionTokens_Verify t now' other with
     | Ok b => 0 < adm_UserID b /\ 0 < adm_EventID b /\ now' < adm_ExpiresAt b
     | Err e => e = ErrInvalidAdmission
     end).
Proof.
  destruct (issue_verify t now userID eventID queueID w w' token a Hu Hu0 He0 Hissue) as (Ha & _ & Hok).
  split; [done|]. split; [done|]. split.
  - intros Hnow now' Hle. specialize (Hok now Hnow). unfold AdmissionTokens_Verify in *.
    destruct (ParseWithClaims _ now' token) as [c'|] eqn:Hp'; [|done]. destruct (ParseWithClaims _ now token) as [c0|] eqn:Hp; [|done].
    pose proof (parse_same _ _ _ _ _ _ Hp Hp') as <-. apply parse_unexpired in Hp' as (x & Hx & Hlt).
    repeat case_match; try done. injection Hok as <-. cbn in Hle. rewrite Hx in Hle. cbn in Hle. lia.
  - intros now' other. unfold AdmissionTokens_Verify. destruct (ParseWithClaims _ now' other) as [x|] eqn:Hp; [|done].
    apply parse_unexpired in Hp as (y & Hy & Hlt). destruct (ParseInt _) as [u|]; [|done]. destruct (Z.leb_spec u 0); [done|].
    destruct (uuid_Parse (cl_ID x)); [|done]. destruct (uuid_Parse (cl_QueueID x)); [|done]. destruct (Z.leb_spec (cl_EventID x) 0); [done|].
    cbn. rewrite Hy. cbn. done.
Qed.
