(* ===== verification/Frame.v ===== *)
(** * What leaves the order books alone

    Most calls of a handler touch Redis, a cache or the inventory, not the order
    tables. [books_kept] is that frame; [redis_call] is one call to Redis. *)

From S2P Require Import Prelude GoLib Effects RedisServer World.

Definition books_kept {R} (w w' : World R) : Prop :=
  pg w' = pg w /\ outbox_seq w' = outbox_seq w /\ gateway w' = gateway w /\ klog w' = klog w /\
  pg_now w' = pg_now w.

#[global] Instance books_kept_preorder {R} : PreOrder (@books_kept R).
Proof. split; [done|]. unfold books_kept. intros x y z Hxy Hyz. destruct_and!. split_and!; congruence. Qed.

Notation keeps_books p := (respects (fun _ => True) books_kept p).

Lemma keeps_books_run {R A} (p : prog (World R) A) w : keeps_books p -> books_kept w (run p w).2.
Proof. intros Hp. by apply (respects_run (fun _ => True) books_kept p w Hp). Qed.

(** A program that only touches the inventory respects every invariant of the
    books. *)
Lemma keeps_books_respects {R A} (I : World R -> Prop) G (p : prog (World R) A) :
  (forall w w', books_kept w w' -> I w -> I w' /\ G w w') -> keeps_books p -> respects I G p.
Proof.
  intros HI. induction p as [a|X f k IH]; intros Hp; simpl in *; [done|].
  destruct Hp as [Hf Hk]. split; [|by intros x; apply IH].
  intros w Hw. by apply HI; [apply Hf|].
Qed.

Section frame.
Context {R : Type}.
Implicit Types w : World R.

(** [m] leaves the order tables alone. *)
Definition mkeeps {A} (m : M R A) : Prop := forall w, books_kept w (m w).2.

Lemma mkeeps_bind {A B} (m : M R A) (k : A -> M R B) : mkeeps m -> (forall a, mkeeps (k a)) -> mkeeps (mbind m k).
Proof.
  intros Hm Hk w. unfold mbind. specialize (Hm w). destruct (m w) as [[a|e] w']; [|done].
  etrans; [apply Hm|apply Hk].
Qed.

Lemma pop_fault_books w fl w' : pop_fault w = (fl, w') -> books_kept w w' /\ seat_holds w' = seat_holds w.
Proof.
  intros Hp. destruct (pop_fault_spec _ _ _ Hp) as (H1 & H2 & _ & (H3 & H4 & H5 & H6 & H7 & H8 & H9 & H10)).
  unfold books_kept. by split_and!.
Qed.

(** ** Calls to Redis *)

(** One call to Redis. *)
Definition redis_call {A} (f : Z -> R -> A * R) : M R A :=
  call EInfra (fun w => let '(x, r) := f (redis_now w) (rds w) in (Ok x, set_rds r w)).

Lemma redis_call_frame {A} (f : Z -> R -> A * R) w : books_kept w (redis_call f w).2.
Proof.
  unfold redis_call, call. destruct (pop_fault w) as [fl w0] eqn:Hp.
  destruct (pop_fault_spec _ _ _ Hp) as (H1 & H2 & _ & H3).
  assert (books_kept w w0) as Hk by (unfold books_kept, env_eq in *; intuition).
  destruct fl; simpl; try done; destruct (f (redis_now w0) (rds w0)); simpl; exact Hk.
Qed.

Lemma act_redis_call_frame {A} (f : Z -> R -> A * R) : keeps_books (act (redis_call f)).
Proof. apply respects_act. intros w _. split; [done|apply redis_call_frame]. Qed.

(** A call to Redis answers with the script's reply and effect, or fails with
    the effect or without it. *)
Lemma redis_call_cases {A} (f : Z -> R -> A * R) w :
  let '(x, r') := f (redis_now w) (rds w) in
  let '(res, w') := redis_call f w in
  redis_now w' = redis_now w /\
  match res with
  | Ok y => y = x /\ rds w' = r'
  | Err e => e = EInfra /\ (rds w' = rds w \/ rds w' = r')
  end.
Proof.
  unfold redis_call, call. destruct (pop_fault w) as [fl w0] eqn:Hp.
  destruct (pop_fault_spec _ _ _ Hp) as (_ & _ & _ & (_ & Hr & _ & Hn & _)).
  destruct fl; rewrite ?Hr, ?Hn; destruct (f (redis_now w) (rds w)) as [x r']; simpl; auto.
Qed.

Lemma redis_call_calm {A} (f : Z -> R -> A * R) w :
  faults w = [] -> redis_call f w = (Ok (f (redis_now w) (rds w)).1, set_rds (f (redis_now w) (rds w)).2 w).
Proof. intros Hf. unfold redis_call, call. rewrite pop_fault_nil by done. by destruct (f _ _). Qed.

(** ** Keys other requests leave alone *)

Context `{RedisServer R}.

(** The key [k] has the value [v] until [T]. *)
Definition fixed_until (k v : string) (T : Z) w : Prop :=
  redis_now w < T -> forall t, t < T -> GET (rds w) t k = Some v.

Definition same_clock w w' : Prop := redis_now w' = redis_now w.
#[global] Instance same_clock_preorder : PreOrder same_clock.
Proof. unfold same_clock. split; [done|]. intros x y z ??. congruence. Qed.

Lemma redis_call_fixed {A} (f : Z -> R -> A * R) k v T :
  (forall now r, GET r now k = Some v -> forall t, GET (f now r).2 t k = GET r t k) ->
  respects (fixed_until k v T) same_clock (act (redis_call f)).
Proof.
  intros Hf. apply respects_act. intros w Hk. pose proof (redis_call_cases f w) as Hc.
  specialize (Hf (redis_now w) (rds w)). unfold fixed_until in *.
  destruct (redis_call f w) as [res w']. destruct (f (redis_now w) (rds w)) as [x r'].
  destruct Hc as [Hn Hc]. split; [|done]. simpl in *. rewrite Hn. intros Hlt t Ht.
  specialize (Hf (Hk Hlt _ Hlt)).
  destruct res; [destruct Hc as [_ ->]|destruct Hc as [_ [-> | ->]]]; rewrite ?Hf; auto.
Qed.

(** Time passes. *)
Definition redis_tick w w' : Prop := exists p n, w' = set_clocks p n w /\ redis_now w <= n.

Lemma fixed_reachable (Req : prog (World R) unit -> Prop) k v T w c :
  (forall p, Req p -> respects (fixed_until k v T) same_clock p) ->
  fixed_until k v T w -> rtc (sys_step Req redis_tick) ([], w) c -> fixed_until k v T c.2.
Proof.
  intros HReq Hw Hc. eapply (sys_reachable_ok Req redis_tick (fixed_until k v T) (fun _ _ => True)); [..|exact Hc|exact Hw].
  - intros p Hp. eapply respects_mono; [|by apply HReq]. done.
  - intros w0 w0' Hw0 (p & n & -> & Hn). split; [|done]. intros Hlt t Htt. apply Hw0; [simpl in Hlt; lia|done].
Qed.
End frame.

#[export] Hint Resolve act_redis_call_frame : tr_inv.

(** Frame of a handler: bind by bind. *)
Ltac frame :=
  repeat (apply respects_bind; [auto with tr_inv|intros ?]; repeat case_match); try done;
  auto with tr_inv.

