(* ===== verification/OrderDB.v ===== *)
(** * The SQL of the order package (internal/order/orderdb, migrations/)

    One definition per query of queries.sql.go: its effect on the tables and
    the rows it returns, with the constraints the schema declares. Unique
    indexes are checked in the order they were created, foreign keys at the
    end of the statement. *)

From S2P Require Import Prelude GoLib OrderState World.

Definition select {A} (a : A) (d : PG) : res GoErr (A * PG) := Ok (a, d).
Definition no_rows {A} : res GoErr (A * PG) := Err (EPg NoRows).

(** ** orders *)

Definition set_status (s : Status) (updatedAt : Z) (r : OrderRow) : OrderRow :=
  mkOrderRow (r_ID r) (r_EventID r) (r_UserID r) s (r_TotalVnd r) (r_IdempotencyKey r)
    (r_RequestHash r) (r_HoldExpiresAt r) (r_CreatedAt r) updatedAt.

Definition same_key (userID : Z) (key : string) (kv : UUID * OrderRow) : Prop :=
  r_UserID kv.2 = userID /\ r_IdempotencyKey kv.2 = key.
#[global] Instance same_key_dec u k kv : Decision (same_key u k kv).
Proof. unfold same_key. apply _. Defined.

Definition same_held (eventID userID : Z) (kv : UUID * OrderRow) : Prop :=
  r_EventID kv.2 = eventID /\ r_UserID kv.2 = userID /\ r_Status kv.2 = StatusHeld.
#[global] Instance same_held_dec e u kv : Decision (same_held e u kv).
Proof. unfold same_held. apply _. Defined.

Definition GetOrder (id : UUID) (now : Z) (d : PG) : res GoErr (OrderRow * PG) :=
  match orders d !! id with Some r => select r d | None => no_rows end.

(** [SELECT ... FOR UPDATE]: the lock is the atomicity of the transaction. *)
Definition GetOrderForUpdate (id : UUID) (now : Z) (d : PG) : res GoErr (OrderRow * PG) :=
  match orders d !! id with Some r => select r d | None => no_rows end.

Definition GetOrderByKey (userID : Z) (key : string) (now : Z) (d : PG) : res GoErr (OrderRow * PG) :=
  match map_to_list (filter (same_key userID key) (orders d)) with
  | (_, r) :: _ => select r d
  | [] => no_rows
  end.

(** Returns the row and whether the hold is still running by the database
    clock. *)
Definition LockOrderForPayment (id : UUID) (now : Z) (d : PG) : res GoErr (OrderRow * bool * PG) :=
  match orders d !! id with
  | Some r => Ok (r, now <=? r_HoldExpiresAt r, d)
  | None => no_rows
  end.

Record InsertHeldOrderParams := mkInsertHeldOrder {
  ih_OrderID : UUID; ih_EventID : Z; ih_UserID : Z; ih_TotalVnd : Z;
  ih_IdempotencyKey : string; ih_RequestHash : string; ih_HoldTtl : Z;
}.

Definition held_row (a : InsertHeldOrderParams) (now : Z) : OrderRow :=
  mkOrderRow (ih_OrderID a) (ih_EventID a) (ih_UserID a) StatusHeld (ih_TotalVnd a)
    (ih_IdempotencyKey a) (ih_RequestHash a) (now + Microseconds (ih_HoldTtl a)) now now.

Definition InsertHeldOrder (a : InsertHeldOrderParams) (now : Z) (d : PG) : res GoErr (OrderRow * PG) :=
  if bool_decide (is_Some (orders d !! ih_OrderID a)) then Err (EPg (UniqueViolation "orders_pkey"))
  else if negb (bool_decide (filter (same_key (ih_UserID a) (ih_IdempotencyKey a)) (orders d) = ∅))
  then Err (EPg (UniqueViolation "orders_user_id_idempotency_key_key"))
  else if negb (bool_decide (filter (same_held (ih_EventID a) (ih_UserID a)) (orders d) = ∅))
  then Err (EPg (UniqueViolation "orders_one_held_per_user"))
  else if negb (bool_decide (is_Some (db_events d !! ih_EventID a)))
  then Err (EPg (ForeignKeyViolation "orders_event_id_fkey"))
  else Ok (held_row a now, set_orders (<[ih_OrderID a := held_row a now]> (orders d)) d).

(** The conditional update behind every status change. The unique index on HELD
    orders cannot fire: no caller moves an order to HELD. *)
Definition TransitionOrder (id : UUID) (from to : Status) (now : Z) (d : PG) : res GoErr (OrderRow * PG) :=
  match orders d !! id with
  | Some r =>
      if bool_decide (r_Status r = from)
      then Ok (set_status to now r, set_orders (<[id := set_status to now r]> (orders d)) d)
      else no_rows
  | None => no_rows
  end.

Definition due (now : Z) (locked : gset UUID) (kv : UUID * OrderRow) : Prop :=
  r_Status kv.2 = StatusHeld /\ r_HoldExpiresAt kv.2 < now /\ kv.1 ∉ locked.
#[global] Instance due_dec now l kv : Decision (due now l kv).
Proof. unfold due. apply _. Defined.

Definition by_expiry (a b : UUID * OrderRow) : Prop := r_HoldExpiresAt a.2 <= r_HoldExpiresAt b.2.
#[global] Instance by_expiry_dec : RelDecision by_expiry.
Proof. intros a b. unfold by_expiry. apply _. Defined.

(** The common table expression [due]: SKIP LOCKED leaves out the rows other
    transactions have locked. *)
Definition due_orders (batch : nat) (locked : gset UUID) (now : Z) (d : PG) : list (UUID * OrderRow) :=
  take batch (merge_sort by_expiry (map_to_list (filter (due now locked) (orders d)))).

Definition expire_all (now : Z) (l : list (UUID * OrderRow)) (m : gmap UUID OrderRow) : gmap UUID OrderRow :=
  fold_left (fun m kv => <[kv.1 := set_status StatusExpired now kv.2]> m) l m.

Definition ExpireDueOrders (batch : nat) (locked : gset UUID) (now : Z) (d : PG) : res GoErr (list OrderRow * PG) :=
  let l := due_orders batch locked now d in
  Ok (snd <$> l, set_orders (expire_all now l (orders d)) d).

(** [SELECT id, status ... WHERE id = ANY(...) ORDER BY id FOR UPDATE] *)
Definition LockOrderStatuses (ids : list UUID) (now : Z) (d : PG) : res GoErr (list (UUID * Status) * PG) :=
  select (omap (fun id => (fun r => (id, r_Status r)) <$> orders d !! id) (merge_sort N.le (remove_dups ids))) d.

(** ** order_seats *)

Definition by_seat {X} (a b : string * X) : Prop := String.le a.1 b.1.
#[global] Instance by_seat_dec {X} : RelDecision (@by_seat X).
Proof. intros a b. unfold by_seat. apply _. Defined.

(** The rows of an order, [ORDER BY seat_id]. *)
Definition seats_of (m : gmap (UUID * string) OrderSeatRow) (id : UUID) : list (string * OrderSeatRow) :=
  merge_sort by_seat
    (omap (fun kv : (UUID * string) * OrderSeatRow => if decide (kv.1.1 = id) then Some (kv.1.2, kv.2) else None)
       (map_to_list m)).

Definition ListOrderSeats (id : UUID) (now : Z) (d : PG) : res GoErr (list (string * Z) * PG) :=
  select ((fun kv => (kv.1, os_PriceVnd kv.2)) <$> seats_of (order_seats d) id) d.

Definition ListSeatsOfOrders (ids : list UUID) (now : Z) (d : PG) : res GoErr (list (UUID * string * Z) * PG) :=
  select (mjoin ((fun id => (fun kv : string * OrderSeatRow => (id, kv.1, os_PriceVnd kv.2)) <$> seats_of (order_seats d) id)
                   <$> merge_sort N.le (remove_dups ids))) d.

Definition insert_seat (orderID : UUID) (eventID : Z) (d : PG) (sp : string * Z)
  : res GoErr PG :=
  if bool_decide (is_Some (order_seats d !! (orderID, sp.1))) then Err (EPg (UniqueViolation "order_seats_pkey"))
  else if negb (bool_decide (is_Some (db_seats d !! (eventID, sp.1))))
  then Err (EPg (ForeignKeyViolation "order_seats_event_id_seat_id_fkey"))
  else Ok (set_order_seats (<[(orderID, sp.1) := mkOrderSeatRow eventID sp.2]> (order_seats d)) d).

Fixpoint insert_seats (orderID : UUID) (eventID : Z) (l : list (string * Z)) (d : PG) : res GoErr PG :=
  match l with
  | [] => Ok d
  | sp :: l => match insert_seat orderID eventID d sp with
               | Ok d' => insert_seats orderID eventID l d'
               | Err e => Err e
               end
  end.

(** The two unnests are zipped; a shorter one would be padded with NULLs, which
    the columns refuse. *)
Definition InsertOrderSeats (orderID : UUID) (eventID : Z) (seatIds : list string) (prices : list Z)
  (now : Z) (d : PG) : res GoErr (unit * PG) :=
  if negb (bool_decide (length seatIds = length prices)) then Err (EPg (CheckViolation "not_null"))
  else if negb (bool_decide (is_Some (orders d !! orderID)))
  then Err (EPg (ForeignKeyViolation "order_seats_order_id_fkey"))
  else match insert_seats orderID eventID (zip seatIds prices) d with
       | Ok d' => Ok (tt, d')
       | Err e => Err e
       end.

(** ** payments *)

Definition StatusSucceeded : string := "SUCCEEDED".
Definition StatusFailed : string := "FAILED".

(** [ON CONFLICT (provider_txn_id) DO NOTHING]: no row comes back for a
    transaction already recorded. *)
Definition InsertPayment (txn : string) (orderID : UUID) (amount : Z) (status : string) (now : Z) (d : PG)
  : res GoErr (string * PG) :=
  if negb (bool_decide (status = StatusSucceeded)) && negb (bool_decide (status = StatusFailed))
  then Err (EPg (CheckViolation "payments_status_check"))
  else if bool_decide (is_Some (payments d !! txn)) then no_rows
  else if negb (bool_decide (is_Some (orders d !! orderID)))
  then Err (EPg (ForeignKeyViolation "payments_order_id_fkey"))
  else Ok (txn, set_payments (<[txn := mkPaymentRow orderID amount status None]> (payments d)) d).

Definition set_outcome (o : Outcome) (p : PaymentRow) : PaymentRow :=
  mkPaymentRow (p_OrderID p) (p_AmountVnd p) (p_Status p) (Some o).

Definition SetPaymentOutcome (txn : string) (o : Outcome) (now : Z) (d : PG) : res GoErr (unit * PG) :=
  Ok (tt, set_payments (alter (set_outcome o) txn (payments d)) d).

(** ** refunds *)

Definition RefundPending : string := "PENDING".
Definition RefundSucceeded : string := "SUCCEEDED".

Definition InsertRefund (txn : string) (orderID : UUID) (amount : Z) (reason : string) (now : Z) (d : PG)
  : res GoErr (unit * PG) :=
  if bool_decide (is_Some (refunds d !! txn)) then Err (EPg (UniqueViolation "refunds_pkey"))
  else if negb (bool_decide (is_Some (payments d !! txn)))
  then Err (EPg (ForeignKeyViolation "refunds_provider_txn_id_fkey"))
  else if negb (bool_decide (is_Some (orders d !! orderID)))
  then Err (EPg (ForeignKeyViolation "refunds_order_id_fkey"))
  else Ok (tt, set_refunds (<[txn := mkRefundRow orderID amount reason RefundPending now None]> (refunds d)) d).

Definition GetRefund (txn : string) (now : Z) (d : PG) : res GoErr (RefundRow * PG) :=
  match refunds d !! txn with Some f => select f d | None => no_rows end.

Definition completed (now : Z) (f : RefundRow) : RefundRow :=
  mkRefundRow (f_OrderID f) (f_AmountVnd f) (f_Reason f) RefundSucceeded (f_CreatedAt f) (Some now).

Definition CompleteRefund (txn : string) (now : Z) (d : PG) : res GoErr (RefundRow * PG) :=
  match refunds d !! txn with
  | Some f =>
      if bool_decide (f_Status f = RefundPending)
      then Ok (completed now f, set_refunds (<[txn := completed now f]> (refunds d)) d)
      else no_rows
  | None => no_rows
  end.

(** ** tickets *)

Definition same_seat (eventID : Z) (seatID : string) (kv : UUID * TicketRow) : Prop :=
  t_EventID kv.2 = eventID /\ t_SeatID kv.2 = seatID.
#[global] Instance same_seat_dec e s kv : Decision (same_seat e s kv).
Proof. unfold same_seat. apply _. Defined.

Definition insert_ticket (orderID : UUID) (eventID : Z) (d : PG) (t : UUID * string) : res GoErr PG :=
  if bool_decide (is_Some (tickets d !! t.1)) then Err (EPg (UniqueViolation "tickets_pkey"))
  else if negb (bool_decide (filter (same_seat eventID t.2) (tickets d) = ∅))
  then Err (EPg (UniqueViolation "tickets_event_id_seat_id_key"))
  else Ok (set_tickets (<[t.1 := mkTicketRow orderID eventID t.2 None None]> (tickets d)) d).

Fixpoint insert_tickets (orderID : UUID) (eventID : Z) (l : list (UUID * string)) (d : PG) : res GoErr PG :=
  match l with
  | [] => Ok d
  | t :: l => match insert_ticket orderID eventID d t with
              | Ok d' => insert_tickets orderID eventID l d'
              | Err e => Err e
              end
  end.

Definition InsertTickets (ids : list UUID) (orderID : UUID) (eventID : Z) (seatIds : list string)
  (now : Z) (d : PG) : res GoErr (unit * PG) :=
  if negb (bool_decide (length ids = length seatIds)) then Err (EPg (CheckViolation "not_null"))
  else match insert_tickets orderID eventID (zip ids seatIds) d with
       | Err e => Err e
       | Ok d' =>
           if negb (bool_decide (is_Some (orders d !! orderID)))
           then Err (EPg (ForeignKeyViolation "tickets_order_id_fkey"))
           else Ok (tt, d')
       end.

Definition by_ticket_seat (a b : UUID * TicketRow) : Prop := String.le (t_SeatID a.2) (t_SeatID b.2).
#[global] Instance by_ticket_seat_dec : RelDecision by_ticket_seat.
Proof. intros a b. unfold by_ticket_seat. apply _. Defined.

Definition of_order (id : UUID) (kv : UUID * TicketRow) : Prop := t_OrderID kv.2 = id.
#[global] Instance of_order_dec id kv : Decision (of_order id kv).
Proof. unfold of_order. apply _. Defined.

Definition ListOrderTickets (id : UUID) (now : Z) (d : PG) : res GoErr (list (UUID * TicketRow) * PG) :=
  select (merge_sort by_ticket_seat (map_to_list (filter (of_order id) (tickets d)))) d.

Definition issue_qr (qr : string) (now : Z) (t : TicketRow) : TicketRow :=
  match t_QrPayload t with
  | None => mkTicketRow (t_OrderID t) (t_EventID t) (t_SeatID t) (Some qr) (Some now)
  | Some _ => t
  end.

(** [WHERE id = ... AND qr_payload IS NULL] *)
Definition SetTicketQR (ticketID : UUID) (qr : string) (now : Z) (d : PG) : res GoErr (unit * PG) :=
  Ok (tt, set_tickets (alter (issue_qr qr now) ticketID (tickets d)) d).

(** ** The rows of an order *)

#[global] Instance by_seat_total {X} : Total (@by_seat X).
Proof. intros a b. apply string_le_total. Qed.
#[global] Instance by_seat_trans {X} : Transitive (@by_seat X).
Proof. intros a b c. unfold by_seat. apply transitivity. Qed.

Section seats_of.
Context (m : gmap (UUID * string) OrderSeatRow) (id : UUID).

Lemma seats_of_elem s x : (s, x) ∈ seats_of m id <-> m !! (id, s) = Some x.
Proof.
  unfold seats_of. rewrite merge_sort_Permutation, list_elem_of_omap. split.
  - intros ([[i t] y] & Hin & Hd). apply elem_of_map_to_list in Hin. cbn [fst snd] in Hd. case_decide; naive_solver.
  - intros Hm. exists ((id, s), x). split; [by apply elem_of_map_to_list|]. cbn [fst snd]. by rewrite decide_True.
Qed.

Lemma seats_of_sorted : StronglySorted String.le (seats_of m id).*1.
Proof.
  unfold seats_of. set (l := omap _ _). pose proof (StronglySorted_merge_sort by_seat l) as Hs.
  induction Hs as [|x k Hk IH Hx]; [constructor|]. rewrite fmap_cons. constructor; [done|].
  apply Forall_fmap. eapply Forall_impl; [exact Hx|done].
Qed.

Lemma seats_of_NoDup : NoDup (seats_of m id).*1.
Proof.
  unfold seats_of. rewrite merge_sort_Permutation.
  pose proof (NoDup_map_to_list m) as Hnd.
  assert (Hel : forall a b x y, (a, x) ∈ map_to_list m -> (b, y) ∈ map_to_list m -> a = b -> x = y).
  { intros a b x y Ha Hb ->. apply elem_of_map_to_list in Ha, Hb. congruence. }
  induction (map_to_list m) as [|[[i s] x] l IH]; [constructor|].
  apply NoDup_cons in Hnd as [Hn Hnd]. cbn [omap list_omap fst snd].
  assert (NoDup (omap (fun kv : UUID * string * OrderSeatRow =>
    if decide (kv.1.1 = id) then Some (kv.1.2, kv.2) else None) l).*1) as IH'.
  { apply IH; [done|]. intros a b y z Ha Hb. apply (Hel a b); by constructor. }
  destruct (decide (i = id)) as [->|]; [|done]. rewrite fmap_cons. apply NoDup_cons. split; [|done].
  rewrite list_elem_of_fmap. intros ([s' y] & He & Hin). simpl in He. subst s'.
  apply list_elem_of_omap in Hin as ([[j s'] y'] & Hin & Hd). cbn [fst snd] in Hd. case_decide; [|done]. simplify_eq.
  apply Hn. rewrite (Hel (id, s) (id, s) x y); [done|constructor|by constructor|done].
Qed.

(** A sorted list of an order's rows is the list the query returns. *)
Lemma seats_of_unique (l : list (string * OrderSeatRow)) :
  StronglySorted String.le l.*1 -> NoDup l.*1 -> (forall s x, (s, x) ∈ l <-> m !! (id, s) = Some x) -> seats_of m id = l.
Proof.
  intros Hs Hnd Hin.
  assert (Hp : seats_of m id ≡ₚ l).
  { apply NoDup_Permutation; [by apply (NoDup_fmap_1 fst), seats_of_NoDup|by apply (NoDup_fmap_1 fst)|].
    intros [s x]. by rewrite seats_of_elem, Hin. }
  assert (Hk : (seats_of m id).*1 = l.*1).
  { apply (sorted_elem_eq String.le); [apply seats_of_sorted|done|]. by rewrite Hp. }
  assert (Hf : forall k : list (string * OrderSeatRow), (forall s x, (s, x) ∈ k -> m !! (id, s) = Some x) ->
    k = omap (fun s => (fun x => (s, x)) <$> m !! (id, s)) k.*1).
  { induction k as [|[s x] k IH]; intros Hkk; [done|]. cbn. rewrite (Hkk s x) by constructor. simpl. f_equal.
    apply IH. intros. apply Hkk. by constructor. }
  rewrite (Hf (seats_of m id)) by (intros s x; apply seats_of_elem). rewrite Hk. symmetry. apply Hf.
  intros s x. apply Hin.
Qed.
End seats_of.

(** Rows of other orders do not matter. *)
Lemma seats_of_ext m m' id :
  (forall s, m' !! (id, s) = m !! (id, s)) -> seats_of m' id = seats_of m id.
Proof.
  intros Hm. apply seats_of_unique; [apply seats_of_sorted|apply seats_of_NoDup|].
  intros s x. by rewrite seats_of_elem, Hm.
Qed.
