(* ===== verification/Locker.v ===== *)
(** * Redis locks (internal/platform/redisx/lock.go and unlock.lua)

    [Locker] is the interface the order service uses (order.Locker): the
    returned unlock closure is its key and token. *)

From S2P Require Import Prelude GoLib Effects RedisServer World Frame.
Local Open Scope tr_scope.

Record Locker (R : Type) := mkLocker {
  TryLock : string -> Z -> prog (World R) (res GoErr (option string));
  Unlock : string -> string -> prog (World R) (res GoErr unit);
}.
Arguments TryLock {R}. Arguments Unlock {R}.

Class LockerFrame {R} (l : Locker R) : Prop := {
  TryLock_frame key ttl : keeps_books (TryLock l key ttl);
  Unlock_frame key token : keeps_books (Unlock l key token);
}.
#[export] Hint Resolve TryLock_frame Unlock_frame : tr_inv.

Section locker.
Context {R : Type} `{RedisServer R}.
Implicit Types (w : World R) (r : R).

(** SET key token NX PX ttl *)
Definition setnx (key token : string) (ttl_ms : Z) (now : Z) r : bool * R :=
  match GET r now key with
  | Some _ => (false, r)
  | None => (true, SET r now key token (Some ttl_ms))
  end.

Definition unlock_lua (key token : string) (now : Z) r : unit * R :=
  if bool_decide (GET r now key = Some token) then (tt, DEL r now key) else (tt, r).

Definition redis_TryLock (key : string) (ttl : Z) : prog (World R) (res GoErr (option string)) :=
  let? token := act rand_Text in
  let? ok := act (redis_call (setnx key token (Milliseconds ttl))) in
  if ok : bool then Ret (Ok (Some token)) else Ret (Ok None).

Definition redis_Unlock (key token : string) : prog (World R) (res GoErr unit) :=
  act (redis_call (unlock_lua key token)).

Definition RedisLocker : Locker R := mkLocker R redis_TryLock redis_Unlock.

Lemma rand_Text_kept w : books_kept w (rand_Text w).2 /\ redis_now (rand_Text w).2 = redis_now w /\ rds (rand_Text w).2 = rds w.
Proof. unfold rand_Text. by destruct (rands w). Qed.

#[global] Instance redis_locker_frame : LockerFrame RedisLocker.
Proof.
  split; intros; cbn [RedisLocker TryLock Unlock]; [|apply act_redis_call_frame].
  apply respects_bind; [apply respects_act; intros w _; split; [done|apply rand_Text_kept]|intros [token|]; [|done]].
  frame.
Qed.

(** ** Mutual exclusion *)

(** What requests that do not hold the token may do to locks. *)
Inductive other_lock (token : string) : prog (World R) unit -> Prop :=
| other_trylock key ttl : other_lock token (discard (redis_TryLock key ttl))
| other_unlock key token' : token' <> token -> other_lock token (discard (redis_Unlock key token')).

Lemma setnx_other key token' ms k v now r t :
  GET r now k = Some v -> GET (setnx key token' ms now r).2 t k = GET r t k.
Proof.
  intros Hk. unfold setnx. destruct (GET r now key) eqn:Hg; [done|]. simpl.
  apply GET_SET_ne. intros ->. congruence.
Qed.

Lemma unlock_other key token' k v now r t :
  GET r now k = Some v -> token' <> v -> GET (unlock_lua key token' now r).2 t k = GET r t k.
Proof.
  intros Hk Hv. unfold unlock_lua. case_bool_decide as Hg; [|done]. simpl.
  apply GET_DEL_ne. intros ->. congruence.
Qed.

Lemma other_lock_fixed token k T p :
  other_lock token p -> respects (fixed_until k token T) same_clock p.
Proof.
  intros Hp; destruct Hp as [key ttl|key token' Hne]; (apply respects_bind; [|done]).
  - apply respects_bind; [|intros [tok|]; [|done]].
    + apply respects_act. intros w Hw. destruct (rand_Text_kept w) as (_ & Hn & Hr).
      unfold fixed_until, same_clock. by rewrite Hn, Hr.
    + apply respects_bind; [|by intros [[]|]]. apply redis_call_fixed. intros. by eapply setnx_other.
  - apply redis_call_fixed. intros. by eapply unlock_other.
Qed.
End locker.

(** ** Properties *)

(** C22. A lock excludes everyone else until it expires: once TryLock has
    returned a token for a key, under any interleaving of other requests'
    TryLock calls and unlocks (with tokens of their own), crashes and clock
    advances, as long as Redis' clock is before the lock's end the key still
    carries the token, so another TryLock of the key gets no lock; and unlocking
    with the token frees the key. *)
Theorem lock_exclusive `{RedisServer R} (w w1 : World R) (key token : string) (ttl : Z) (Httl : 1000000 <= ttl)
    (Hlock : run (redis_TryLock key ttl) w = (Ok (Some token), w1))
    (c : list (prog (World R) unit) * World R)
    (Hc : rtc (sys_step (other_lock token) redis_tick) ([], w1) c)
    (Ht : redis_now c.2 < redis_now w + Milliseconds ttl) :
  GET (rds c.2) (redis_now c.2) key = Some token /\
  (forall ttl', faults c.2 = [] -> (run (redis_TryLock key ttl') c.2).1 = Ok None) /\
  (faults c.2 = [] -> GET (rds (run (redis_Unlock key token) c.2).2) (redis_now c.2) key = None).
Proof.
  set (T := redis_now w + _) in *.
  assert (1 <= Milliseconds ttl) by (unfold Milliseconds; apply Z.quot_le_lower_bound; lia).
  assert (fixed_until key token T w1) as Hw1.
  { unfold redis_TryLock in Hlock. rewrite run_bind, run_act in Hlock.
    destruct (rand_Text_kept w) as (_ & Hn & Hr).
    destruct (rand_Text w) as [[tok|] w0]; cbn [fst snd] in *; [|done].
    rewrite run_bind, run_act in Hlock. pose proof (redis_call_cases (setnx key tok (Milliseconds ttl)) w0) as Hcs.
    destruct (redis_call _ w0) as [res w2]. destruct (setnx _ _ _ _ _) as [b r'] eqn:Hs.
    destruct Hcs as [Hn2 Hcs]. cbn [fst snd] in *. destruct res as [b'|]; [|done]. destruct Hcs as [-> Hr2].
    destruct b; cbn [run] in Hlock; [|done]. injection Hlock as -> ->.
    intros _ t Hlt. unfold setnx in Hs. destruct (GET _ _ _); simplify_eq.
    rewrite <- Hs. apply GET_SET_live; [lia|unfold T in Hlt; lia]. }
  assert (GET (rds c.2) (redis_now c.2) key = Some token) as Hg.
  { eapply (fixed_reachable (other_lock token)); [intros p Hp; by apply other_lock_fixed|exact Hw1|exact Hc|done|done]. }
  split_and!; [done|..].
  - intros ttl' Hf. unfold redis_TryLock. rewrite run_bind, run_act.
    destruct (rand_Text_kept c.2) as (_ & Hn & Hr).
    assert (faults (rand_Text c.2).2 = []) as Hf' by (unfold rand_Text; by destruct (rands c.2)).
    assert (exists tok, (rand_Text c.2).1 = Ok tok) as [tok Htok] by (unfold rand_Text; destruct (rands c.2); eauto).
    rewrite Htok, run_bind, run_act. unfold redis_call, call. rewrite pop_fault_nil by done. rewrite Hn, Hr.
    unfold setnx. by rewrite Hg.
  - intros Hf. unfold redis_Unlock. rewrite run_act. unfold redis_call, call. rewrite pop_fault_nil by done.
    unfold unlock_lua. rewrite bool_decide_eq_true_2 by done. simpl. apply GET_DEL_eq.
Qed.
