(* ===== verification/Ledger.v ===== *)
(** * The admission ledger (internal/queue/ledger.go, claim.lua, unclaim.lua)

    [AdmissionLedger] is the interface the order service uses: which order each
    admission token created. *)

From S2P Require Import Prelude GoLib Effects RedisServer World Frame.
Local Open Scope tr_scope.

Record AdmissionLedger (R : Type) := mkLedger {
  Claim : UUID -> UUID -> prog (World R) (res GoErr bool);
  Unclaim : UUID -> UUID -> prog (World R) (res GoErr unit);
}.
Arguments Claim {R}. Arguments Unclaim {R}.

Class LedgerFrame {R} (l : AdmissionLedger R) : Prop := {
  Claim_frame jti o : keeps_books (Claim l jti o);
  Unclaim_frame jti o : keeps_books (Unclaim l jti o);
}.
#[export] Hint Resolve Claim_frame Unclaim_frame : tr_inv.

Section ledger.
Context {R : Type} `{RedisServer R} `{UuidLib}.
Implicit Types (w : World R) (r : R).

Definition UsedKey (jti : UUID) : string := "admission:used:" +:+ uuid_String jti.

Definition claim_lua (key orderId : string) (ttl_ms : Z) (now : Z) r : Z * R :=
  match GET r now key with
  | None => (1, SET r now key orderId (Some ttl_ms))
  | Some v => if bool_decide (v = orderId) then (1, r) else (0, r)
  end.

Definition unclaim_lua (key orderId : string) (now : Z) r : Z * R :=
  if bool_decide (GET r now key = Some orderId) then (1, DEL r now key) else (0, r).

Definition redis_Claim (ttl : Z) (jti orderID : UUID) : prog (World R) (res GoErr bool) :=
  let? n := act (redis_call (claim_lua (UsedKey jti) (uuid_String orderID) (Milliseconds ttl))) in
  Ret (Ok (n =? 1)).

Definition redis_Unclaim (jti orderID : UUID) : prog (World R) (res GoErr unit) :=
  let? _ := act (redis_call (unclaim_lua (UsedKey jti) (uuid_String orderID))) in
  Ret (Ok tt).

Definition RedisLedger (ttl : Z) : AdmissionLedger R := mkLedger R (redis_Claim ttl) redis_Unclaim.

#[global] Instance redis_ledger_frame ttl : LedgerFrame (RedisLedger ttl).
Proof. split; intros; cbn [RedisLedger Claim Unclaim]; unfold redis_Claim, redis_Unclaim; frame. Qed.

#[global] Instance UsedKey_inj : Inj (=) (=) UsedKey.
Proof. intros a b Hab. by apply string_app_inv_head, (inj uuid_String) in Hab. Qed.

(** ** Single use *)

(** Other orders' claims (of any token) and the handing back of tokens they
    hold. *)
Inductive other_claim (o : UUID) : prog (World R) unit -> Prop :=
| other_Claim ttl jti o' : o' <> o -> other_claim o (discard (redis_Claim ttl jti o'))
| other_Unclaim jti o' : o' <> o -> other_claim o (discard (redis_Unclaim jti o')).

Lemma claim_keeps key oid ms k v now r t :
  GET r now k = Some v -> GET (claim_lua key oid ms now r).2 t k = GET r t k.
Proof.
  intros Hk. unfold claim_lua. destruct (GET r now key) eqn:Hg; [by case_bool_decide|]. simpl.
  apply GET_SET_ne. intros ->. congruence.
Qed.

Lemma unclaim_keeps key oid k v now r t :
  GET r now k = Some v -> oid <> v -> GET (unclaim_lua key oid now r).2 t k = GET r t k.
Proof.
  intros Hk Hv. unfold unclaim_lua. case_bool_decide as Hg; [|done]. simpl.
  apply GET_DEL_ne. intros ->. congruence.
Qed.

Lemma other_claim_fixed o k T p :
  other_claim o p -> respects (fixed_until k (uuid_String o) T) same_clock p.
Proof.
  intros Hp; destruct Hp as [ttl jti o' Hne|jti o' Hne]; (apply respects_bind; [|done]);
    (apply respects_bind; [apply redis_call_fixed; intros|by intros []]).
  - by eapply claim_keeps.
  - eapply unclaim_keeps; [done|]. intros He. by apply (inj uuid_String) in He.
Qed.
End ledger.

(** ** Properties *)

(** C23. An admission token creates one order: once an order has claimed a token,
    under any interleaving of claims and hand-backs by other orders, crashes and
    clock advances, until the claim expires the token stays with that order; so
    a claim by any other order is refused, a repeated claim by the same order
    succeeds, and handing the token back frees it. *)
Theorem admission_single_use `{RedisServer R} `{UuidLib} (ttl : Z) (w w1 : World R) (jti o : UUID)
    (Httl : 1000000 <= ttl) (Hfresh : GET (rds w) (redis_now w) (UsedKey jti) = None)
    (Hclaim : run (redis_Claim ttl jti o) w = (Ok true, w1))
    (c : list (prog (World R) unit) * World R)
    (Hc : rtc (sys_step (other_claim o) redis_tick) ([], w1) c)
    (Ht : redis_now c.2 < redis_now w + Milliseconds ttl) (Hf : faults c.2 = []) :
  (forall o', (run (redis_Claim ttl jti o') c.2).1 = Ok (bool_decide (o' = o))) /\
  GET (rds (run (redis_Unclaim jti o) c.2).2) (redis_now c.2) (UsedKey jti) = None.
Proof.
  set (T := redis_now w + _) in *.
  assert (1 <= Milliseconds ttl) by (unfold Milliseconds; apply Z.quot_le_lower_bound; lia).
  assert (fixed_until (UsedKey jti) (uuid_String o) T w1) as Hw1.
  { unfold redis_Claim in Hclaim. rewrite run_bind, run_act in Hclaim.
    pose proof (redis_call_cases (claim_lua (UsedKey jti) (uuid_String o) (Milliseconds ttl)) w) as Hcs.
    unfold claim_lua in Hcs at 1. rewrite Hfresh in Hcs. destruct (redis_call _ w) as [res w2].
    destruct Hcs as [Hn Hcs]. cbn [fst snd] in *. destruct res as [n|]; [|done]. destruct Hcs as [-> Hr].
    injection Hclaim as ->. intros _ t Hlt. rewrite Hr. apply GET_SET_live; [lia|unfold T in Hlt; lia]. }
  assert (GET (rds c.2) (redis_now c.2) (UsedKey jti) = Some (uuid_String o)) as Hg.
  { eapply (fixed_reachable (other_claim o)); [intros p Hp; by apply other_claim_fixed|exact Hw1|exact Hc|done|done]. }
  split.
  - intros o'. unfold redis_Claim. rewrite run_bind, run_act. unfold redis_call, call. rewrite pop_fault_nil by done.
    unfold claim_lua. rewrite Hg. destruct (decide (o = o')) as [->|Hne].
    + by rewrite !bool_decide_eq_true_2.
    + rewrite !bool_decide_eq_false_2; [done|congruence|]. intros He. by apply (inj uuid_String) in He.
  - unfold redis_Unclaim. rewrite run_bind, run_act. unfold redis_call, call. rewrite pop_fault_nil by done.
    unfold unclaim_lua. rewrite bool_decide_eq_true_2 by done. simpl. apply GET_DEL_eq.
Qed.
