(* ===== verification/Inventory.v ===== *)
(** * The inventory interface (internal/inventory/inventory.go)

    [Inventory] is the Go interface: who holds or owns each seat. Its clients
    (the order service, payment, expiry, the catalog) are proved against two
    classes the backends discharge:
    - [InventoryFrame]: no operation touches the order tables;
    - [InventorySpec]: every operation acts on an abstract map from seats to
      owners, the contract of the interface's comments and SPEC.md 9.2,
      whatever fails on the way. *)

From S2P Require Import Prelude GoLib Effects World Frame.

Inductive SeatStatus := Available | Held | Sold.
#[global] Instance SeatStatus_eq_dec : EqDecision SeatStatus.
Proof. solve_decision. Defined.

Record Inventory (R : Type) := mkInventory {
  Hold : Z -> list string -> UUID -> Z -> prog (World R) (res GoErr (list string));
  Release : Z -> list string -> UUID -> prog (World R) (res GoErr unit);
  Confirm : Z -> list string -> UUID -> prog (World R) (res GoErr unit);
  SeatStatuses : Z -> list string -> prog (World R) (res GoErr (gmap string SeatStatus));
}.
Arguments Hold {R}. Arguments Release {R}. Arguments Confirm {R}. Arguments SeatStatuses {R}.

(** ** What the order tables need of an inventory: to be left alone *)

Class InventoryFrame {R} (inv : Inventory R) : Prop := {
  Hold_frame e ss o ttl : keeps_books (Hold inv e ss o ttl);
  Release_frame e ss o : keeps_books (Release inv e ss o);
  Confirm_frame e ss o : keeps_books (Confirm inv e ss o);
  SeatStatuses_frame e ss : keeps_books (SeatStatuses inv e ss);
}.

#[export] Hint Resolve Hold_frame Release_frame Confirm_frame SeatStatuses_frame : tr_inv.

(** ** The contract *)

(** Who has a seat: no one, an order holding it, an order that bought it. *)
Inductive Owner := HeldBy (o : UUID) | SoldTo (o : UUID) | Unreadable.
#[global] Instance Owner_eq_dec : EqDecision Owner.
Proof. solve_decision. Defined.

Abbreviation Owners := (Z -> string -> option Owner).

(** A seat [o] may not hold. *)
Definition taken_for (o : UUID) (x : option Owner) : bool :=
  match x with None => false | Some (HeldBy o') => negb (bool_decide (o' = o)) | Some _ => true end.

Definition taken_seats (v : Owners) (e : Z) (ss : list string) (o : UUID) : list string :=
  filter (fun s => taken_for o (v e s) = true) ss.

(** The seats [ss] of event [e] go to [x]; the others stay. *)
Definition assign (v : Owners) (e : Z) (ss : list string) (x : option Owner) : Owners :=
  fun e' s => if decide (e' = e /\ s ∈ ss) then x else v e' s.

Definition release_own (v : Owners) (e : Z) (ss : list string) (o : UUID) : Owners :=
  fun e' s => if decide (e' = e /\ s ∈ ss /\ v e' s = Some (HeldBy o)) then None else v e' s.

Definition same_owners (v v' : Owners) : Prop := forall e s, v e s = v' e s.

#[global] Instance same_owners_equiv : Equivalence same_owners.
Proof.
  split; [done|by intros v v' H e s|]. intros v1 v2 v3 H1 H2 e s. by rewrite (H1 e s), (H2 e s).
Qed.

(** [hold_spec], [release_spec], [confirm_spec]: how an operation may change
    the owners, with its answer. An error means the operation happened
    entirely, or not at all (for [Confirm]: seat by seat). *)
Definition hold_spec (v v' : Owners) (e : Z) (ss : list string) (o : UUID) (r : res GoErr (list string)) : Prop :=
  let taken := taken_seats v e ss o in
  match r with
  | Ok t => t ≡ₚ taken /\
            same_owners v' (if bool_decide (taken = []) then assign v e ss (Some (HeldBy o)) else v)
  | Err _ => same_owners v' v \/ taken = [] /\ same_owners v' (assign v e ss (Some (HeldBy o)))
  end.

Definition release_spec (v v' : Owners) (e : Z) (ss : list string) (o : UUID) (r : res GoErr unit) : Prop :=
  match r with
  | Ok _ => same_owners v' (release_own v e ss o)
  | Err _ => same_owners v' v \/ same_owners v' (release_own v e ss o)
  end.

Definition confirm_spec (v v' : Owners) (e : Z) (ss : list string) (o : UUID) (r : res GoErr unit) : Prop :=
  (forall e' s, v' e' s = v e' s \/
     e' = e /\ s ∈ ss /\ (v e s = None \/ v e s = Some (HeldBy o)) /\ v' e s = Some (SoldTo o)) /\
  match r with Ok _ => forall s, s ∈ ss -> v' e s = Some (SoldTo o) | Err _ => True end.

Definition status_of_owner (x : option Owner) : SeatStatus :=
  match x with None | Some Unreadable => Available | Some (HeldBy _) => Held | Some (SoldTo _) => Sold end.

Definition status_spec (v v' : Owners) (e : Z) (ss : list string) (r : res GoErr (gmap string SeatStatus)) : Prop :=
  same_owners v' v /\
  match r with
  | Ok m => forall s, if decide (s ∈ ss)
                      then v e s <> Some Unreadable -> m !! s = Some (status_of_owner (v e s))
                      else m !! s = None
  | Err _ => True
  end.

(** A backend implements the contract on the worlds satisfying [inv_ok], for
    requests without duplicate seats and holds of a microsecond or more. *)
Class InventorySpec {R} (inv : Inventory R) (inv_ok : World R -> Prop) := {
  owners : World R -> Owners;
  Hold_spec e ss o ttl w : inv_ok w -> NoDup ss -> 1000 <= ttl ->
    hold_spec (owners w) (owners (run (Hold inv e ss o ttl) w).2) e ss o (run (Hold inv e ss o ttl) w).1;
  Release_spec e ss o w : inv_ok w -> NoDup ss ->
    release_spec (owners w) (owners (run (Release inv e ss o) w).2) e ss o (run (Release inv e ss o) w).1;
  Confirm_spec e ss o w : inv_ok w -> NoDup ss ->
    confirm_spec (owners w) (owners (run (Confirm inv e ss o) w).2) e ss o (run (Confirm inv e ss o) w).1;
  Status_spec e ss w : inv_ok w -> NoDup ss ->
    status_spec (owners w) (owners (run (SeatStatuses inv e ss) w).2) e ss (run (SeatStatuses inv e ss) w).1;
}.

(** ** Consequences of the contract *)

Lemma taken_seats_nil v e ss o :
  taken_seats v e ss o = [] <-> forall s, s ∈ ss -> v e s = None \/ v e s = Some (HeldBy o).
Proof.
  unfold taken_seats. rewrite filter_nil_Forall, Forall_forall. split; intros H s Hs; specialize (H s Hs).
  - destruct (v e s) as [[o'|o'|]|]; simpl in *; [|by destruct H..|by left].
    destruct (decide (o' = o)) as [->|]; [by right|]. rewrite bool_decide_eq_false_2 in H by done. by destruct H.
  - destruct H as [-> | ->]; simpl; [done|]. by rewrite bool_decide_eq_true_2.
Qed.

Lemma elem_of_taken v e ss o s :
  s ∈ taken_seats v e ss o <-> taken_for o (v e s) = true /\ s ∈ ss.
Proof. unfold taken_seats. by rewrite list_elem_of_filter. Qed.
