(* ===== verification/InventoryRedis.v ===== *)
(** * The Redis inventory (internal/inventory/redis.go and lua/)

    A seat is one Redis key: absent when available, "held:<orderId>" with an
    expiry while held, "sold:<orderId>" for good. Each operation is one Lua
    script, which Redis runs atomically, then a separate INCR of the event's
    seat map version. *)

From S2P Require Import Prelude GoLib Effects RedisServer World Frame Inventory.
Local Open Scope tr_scope.

(** ** Keys *)

Definition seatKeyPrefix (eventID : Z) : string := "seat:{" +:+ FormatInt eventID +:+ "}:".
Definition seatKey (eventID : Z) (seatID : string) : string := seatKeyPrefix eventID +:+ seatID.
Definition seatKeys (eventID : Z) (seatIDs : list string) : list string := seatKey eventID <$> seatIDs.
Definition versionKey (eventID : Z) : string := "seatmap:{" +:+ FormatInt eventID +:+ "}:version".

Lemma seatKey_inj e s e' s' : seatKey e s = seatKey e' s' -> e = e' /\ s = s'.
Proof.
  unfold seatKey, seatKeyPrefix. rewrite !string_app_assoc. intros H.
  apply string_app_inv_head in H.
  apply (sep_unique int_char "}"%char) in H as [He Hs]; [|done|apply FormatInt_chars..].
  apply (inj FormatInt) in He. simpl in Hs. by injection Hs as ->.
Qed.

Lemma seatKey_versionKey e s e' : seatKey e s <> versionKey e'.
Proof. done. Qed.

Lemma elem_of_seatKeys e ss e' s : seatKey e' s ∈ seatKeys e ss <-> e' = e /\ s ∈ ss.
Proof.
  unfold seatKeys. rewrite list_elem_of_fmap. split.
  - intros (s' & Hk & Hs'). apply seatKey_inj in Hk as [-> ->]. done.
  - intros [-> Hs]. eauto.
Qed.

Section redis.
Context {R : Type} `{RedisServer R} `{UuidLib}.
Implicit Types (w : World R) (r : R).

(** ** The Lua scripts *)

(** A script's table reply: {1}, or {0, ...}. *)
Inductive Reply := One | Zero (rest : list string).

(** [v and v ~= held] *)
Definition other_value (held : string) (v : option string) : bool :=
  match v with Some v => negb (bool_decide (v = held)) | None => false end.

Definition hold_lua (KEYS : list string) (orderId : string) (ttl_ms : Z) (now : Z) r : Reply * R :=
  let held := "held:" +:+ orderId in
  let taken := filter (fun k => other_value held (GET r now k) = true) KEYS in
  match taken with
  | _ :: _ => (Zero taken, r)
  | [] => (One, SET_all r now KEYS held (Some ttl_ms))
  end.

Fixpoint release_loop (KEYS : list string) (held : string) (now : Z) (n : Z) r : Z * R :=
  match KEYS with
  | [] => (n, r)
  | k :: KEYS =>
      if bool_decide (GET r now k = Some held)
      then release_loop KEYS held now (n + 1) (DEL r now k)
      else release_loop KEYS held now n r
  end.
Definition release_lua (KEYS : list string) (orderId : string) (now : Z) r : Z * R :=
  release_loop KEYS ("held:" +:+ orderId) now 0 r.

Fixpoint confirm_lua (KEYS : list string) (orderId : string) (now : Z) r : Reply * R :=
  match KEYS with
  | [] => (One, r)
  | k :: KEYS =>
      match GET r now k with
      | None => confirm_lua KEYS orderId now (SET r now k ("sold:" +:+ orderId) None)
      | Some v =>
          if bool_decide (v = "held:" +:+ orderId) || bool_decide (v = "sold:" +:+ orderId)
          then confirm_lua KEYS orderId now (SET r now k ("sold:" +:+ orderId) None)
          else (Zero [k; v], r)
      end
  end.

(** ** The Go methods *)

(** INCR answers an error when the value is not an integer; either way the
    failure is only logged. *)
Definition bumpVersion (eventID : Z) : prog (World R) unit :=
  discard (act (redis_call (fun now r =>
    match INCR r now (versionKey eventID) with Some r' => (tt, r') | None => (tt, r) end))).

Definition redis_Hold (eventID : Z) (seatIDs : list string) (orderID : UUID) (ttl : Z)
  : prog (World R) (res GoErr (list string)) :=
  let ttlMs := Z.max (Milliseconds ttl) 1 in
  let? reply := act (redis_call (hold_lua (seatKeys eventID seatIDs) (uuid_String orderID) ttlMs)) in
  match reply with
  | One => let! _ := bumpVersion eventID in Ret (Ok [])
  | Zero ks => Ret (Ok (TrimPrefix (seatKeyPrefix eventID) <$> ks))
  end.

Definition redis_Release (eventID : Z) (seatIDs : list string) (orderID : UUID)
  : prog (World R) (res GoErr unit) :=
  let? n := act (redis_call (release_lua (seatKeys eventID seatIDs) (uuid_String orderID))) in
  if 0 <? n then let! _ := bumpVersion eventID in Ret (Ok tt) else Ret (Ok tt).

Definition redis_Confirm (eventID : Z) (seatIDs : list string) (orderID : UUID)
  : prog (World R) (res GoErr unit) :=
  let? reply := act (redis_call (confirm_lua (seatKeys eventID seatIDs) (uuid_String orderID))) in
  match reply with
  | One => let! _ := bumpVersion eventID in Ret (Ok tt)
  | Zero _ => Ret (Err ErrConfirmMismatch)
  end.

Definition statusOf (v : option string) : SeatStatus :=
  match v with
  | Some s => if HasPrefix "sold:" s then Sold else if HasPrefix "held:" s then Held else Available
  | None => Available
  end.

Definition statusBatchSize : nat := 500.

(** [for start := 0; start < len(keys); start += size]: the slices
    keys[start:min(start+size, len)]. *)
Fixpoint batches {A} (fuel size : nat) (keys : list A) : list (list A) :=
  match fuel, keys with
  | S fuel, _ :: _ => take size keys :: batches fuel size (drop size keys)
  | _, _ => []
  end.

Definition mget (now : Z) r (keys : list string) : list (option string) := GET r now <$> keys.

(** The pipeline of MGETs is one round trip; its replies are read in order
    into out[seatIDs[i]]. *)
Definition redis_Status (eventID : Z) (seatIDs : list string)
  : prog (World R) (res GoErr (gmap string SeatStatus)) :=
  let keys := seatKeys eventID seatIDs in
  let? vals := act (redis_call (fun now r =>
                 (map (mget now r) (batches (length keys) statusBatchSize keys), r))) in
  Ret (Ok (fold_left (fun (out : gmap string SeatStatus) sv => <[sv.1 := statusOf sv.2]> out)
             (zip seatIDs (concat vals)) ∅)).

(** GET of a counter that is absent is 0; a value that is no integer is an
    error of the client. *)
Definition SeatMapVersion (eventID : Z) : prog (World R) (res GoErr Z) :=
  let? v := act (redis_call (fun now r => (GET r now (versionKey eventID), r))) in
  match v with
  | None => Ret (Ok 0)
  | Some s => match ParseInt s with Some n => Ret (Ok n) | None => Ret (Err EInfra) end
  end.

Definition RedisInventory : Inventory R := mkInventory R redis_Hold redis_Release redis_Confirm redis_Status.

(** ** Frame *)

Lemma bumpVersion_frame e : keeps_books (bumpVersion e).
Proof. unfold bumpVersion, discard. apply respects_bind; [apply act_redis_call_frame|done]. Qed.

#[local] Hint Resolve bumpVersion_frame : tr_inv.

#[global] Instance redis_frame : InventoryFrame RedisInventory.
Proof.
  split; intros; cbn [RedisInventory Hold Release Confirm SeatStatuses]; unfold redis_Hold, redis_Release, redis_Confirm, redis_Status; frame.
Qed.

(** ** The owners of the seats *)

(** A value owns a seat exactly when it is the text the scripts write. *)
Definition owner_of_value (v : string) : Owner :=
  match CutPrefix "held:" v, CutPrefix "sold:" v with
  | Some t, _ => match uuid_Parse t with
                 | Some u => if bool_decide (t = uuid_String u) then HeldBy u else Unreadable
                 | None => Unreadable
                 end
  | None, Some t => match uuid_Parse t with
                    | Some u => if bool_decide (t = uuid_String u) then SoldTo u else Unreadable
                    | None => Unreadable
                    end
  | None, None => Unreadable
  end.

Lemma owner_held v o : owner_of_value v = HeldBy o <-> v = "held:" +:+ uuid_String o.
Proof.
  unfold owner_of_value. split.
  - destruct (CutPrefix "held:" v) as [t|] eqn:Hh.
    + apply CutPrefix_Some in Hh as ->. repeat case_match; bool_to_prop; naive_solver.
    + repeat case_match; naive_solver.
  - intros ->. rewrite CutPrefix_app, uuid_Parse_String, bool_decide_eq_true_2 by done. done.
Qed.

Lemma owner_sold v o : owner_of_value v = SoldTo o <-> v = "sold:" +:+ uuid_String o.
Proof.
  unfold owner_of_value. split.
  - destruct (CutPrefix "held:" v) as [t|] eqn:Hh; [repeat case_match; naive_solver|].
    destruct (CutPrefix "sold:" v) as [t|] eqn:Hs; [|done].
    apply CutPrefix_Some in Hs as ->. repeat case_match; bool_to_prop; naive_solver.
  - intros ->.
    assert (CutPrefix "held:" ("sold:" +:+ uuid_String o) = None) as -> by reflexivity.
    rewrite CutPrefix_app, uuid_Parse_String, bool_decide_eq_true_2 by done. done.
Qed.

Definition r_owner r (now : Z) : Owners := fun e s => owner_of_value <$> GET r now (seatKey e s).
Definition redis_owners w : Owners := r_owner (rds w) (redis_now w).

Lemma r_owner_held r now e s o :
  r_owner r now e s = Some (HeldBy o) <-> GET r now (seatKey e s) = Some ("held:" +:+ uuid_String o).
Proof.
  unfold r_owner. destruct (GET r now (seatKey e s)) as [v|]; simpl; [|done].
  rewrite !(inj_iff Some). apply owner_held.
Qed.

Lemma r_owner_sold r now e s o :
  r_owner r now e s = Some (SoldTo o) <-> GET r now (seatKey e s) = Some ("sold:" +:+ uuid_String o).
Proof.
  unfold r_owner. destruct (GET r now (seatKey e s)) as [v|]; simpl; [|done].
  rewrite !(inj_iff Some). apply owner_sold.
Qed.

Lemma r_owner_none r now e s : r_owner r now e s = None <-> GET r now (seatKey e s) = None.
Proof. unfold r_owner. apply fmap_None. Qed.

Lemma other_value_taken r now e s o :
  other_value ("held:" +:+ uuid_String o) (GET r now (seatKey e s)) = taken_for o (r_owner r now e s).
Proof.
  unfold other_value, r_owner. destruct (GET r now (seatKey e s)) as [v|]; simpl; [|done].
  pose proof (owner_held v o) as Ho. case_bool_decide as Hv.
  - rewrite (proj2 Ho Hv). simpl. by rewrite bool_decide_eq_true_2.
  - destruct (owner_of_value v) as [o'|o'|]; simpl; try done.
    rewrite bool_decide_eq_false_2; [done|]. intros ->. by apply Hv, Ho.
Qed.

(** ** The scripts implement the contract *)

Lemma hold_taken r now e ss o :
  filter (fun k => other_value ("held:" +:+ uuid_String o) (GET r now k) = true) (seatKeys e ss)
  = seatKeys e (taken_seats (r_owner r now) e ss o).
Proof.
  unfold seatKeys, taken_seats. induction ss as [|s ss IH]; [done|].
  rewrite fmap_cons. destruct (taken_for o (r_owner r now e s)) eqn:Ht.
  - rewrite !filter_cons_True by (rewrite ?other_value_taken; done). by rewrite IH.
  - rewrite !filter_cons_False by (rewrite ?other_value_taken, Ht; done). done.
Qed.

Lemma hold_lua_spec r now e ss o ttl :
  0 < ttl ->
  let taken := taken_seats (r_owner r now) e ss o in
  hold_lua (seatKeys e ss) (uuid_String o) ttl now r =
    match taken with
    | [] => (One, SET_all r now (seatKeys e ss) ("held:" +:+ uuid_String o) (Some ttl))
    | _ :: _ => (Zero (seatKeys e taken), r)
    end /\
  same_owners (r_owner (hold_lua (seatKeys e ss) (uuid_String o) ttl now r).2 now)
    (if bool_decide (taken = []) then assign (r_owner r now) e ss (Some (HeldBy o)) else r_owner r now).
Proof.
  intros Httl taken. unfold hold_lua. rewrite hold_taken. fold taken.
  destruct taken as [|x l]; [|by simpl].
  split; [done|]. rewrite bool_decide_eq_true_2 by done. simpl. intros e' s. unfold assign.
  destruct (decide (e' = e /\ s ∈ ss)) as [[-> Hs]|Hn].
  - apply r_owner_held. apply GET_SET_all_in; [naive_solver|]. by apply elem_of_seatKeys.
  - unfold r_owner. rewrite GET_SET_all_ne; [done|]. by rewrite elem_of_seatKeys.
Qed.

Lemma release_loop_GET KEYS held now n r k :
  GET (release_loop KEYS held now n r).2 now k =
    if decide (k ∈ KEYS /\ GET r now k = Some held) then None else GET r now k.
Proof.
  revert n r. induction KEYS as [|k' KEYS IH]; intros n r; cbn [release_loop].
  { rewrite decide_False by set_solver. done. }
  destruct (decide (k = k')) as [->|Hne].
  - case_bool_decide as Hg; rewrite IH.
    + rewrite GET_DEL_eq, (decide_True _ (P := k' ∈ k' :: KEYS /\ _)) by (split; [constructor|done]).
      by case_decide.
    + rewrite !decide_False; [done|naive_solver..].
  - case_bool_decide as Hg; rewrite IH, ?GET_DEL_ne by done;
      apply decide_ext; set_solver.
Qed.

Lemma release_lua_spec r now e ss o :
  same_owners (r_owner (release_lua (seatKeys e ss) (uuid_String o) now r).2 now)
    (release_own (r_owner r now) e ss o).
Proof.
  intros e' s. unfold release_own. unfold r_owner at 1, release_lua. rewrite release_loop_GET.
  destruct (decide (e' = e /\ s ∈ ss /\ r_owner r now e' s = Some (HeldBy o))) as [(-> & Hs & Ho)|Hn].
  - rewrite decide_True; [done|]. split; [by apply elem_of_seatKeys|]. by apply r_owner_held.
  - rewrite decide_False; [done|]. intros [Hk Hg]. apply Hn.
    apply elem_of_seatKeys in Hk as [-> Hs]. split_and!; [done..|]. by apply r_owner_held.
Qed.

Lemma confirm_lua_GET KEYS oid now r :
  let '(reply, r') := confirm_lua KEYS oid now r in
  (forall k, GET r' now k = GET r now k \/
     k ∈ KEYS /\ (GET r now k = None \/ GET r now k = Some ("held:" +:+ oid)) /\
     GET r' now k = Some ("sold:" +:+ oid)) /\
  (reply = One -> forall k, k ∈ KEYS -> GET r' now k = Some ("sold:" +:+ oid)).
Proof.
  revert r. induction KEYS as [|k0 KEYS IH]; intros r; simpl; [split; [auto|set_solver]|].
  assert (Hgo : GET r now k0 = None \/ GET r now k0 = Some ("held:" +:+ oid) \/ GET r now k0 = Some ("sold:" +:+ oid) ->
    let '(reply, r') := confirm_lua KEYS oid now (SET r now k0 ("sold:" +:+ oid) None) in
    (forall k, GET r' now k = GET r now k \/
       k ∈ k0 :: KEYS /\ (GET r now k = None \/ GET r now k = Some ("held:" +:+ oid)) /\
       GET r' now k = Some ("sold:" +:+ oid)) /\
    (reply = One -> forall k, k ∈ k0 :: KEYS -> GET r' now k = Some ("sold:" +:+ oid))).
  { intros Hk0. specialize (IH (SET r now k0 ("sold:" +:+ oid) None)).
    destruct (confirm_lua KEYS oid now _) as [reply r']. destruct IH as [IH1 IH2].
    assert (GET r' now k0 = Some ("sold:" +:+ oid)) as Hk0'.
    { destruct (IH1 k0) as [->|(_ & _ & ->)]; [apply GET_SET_forever|done]. }
    split.
    - intros k. destruct (decide (k = k0)) as [->|Hne].
      + destruct Hk0 as [Hk0|[Hk0|Hk0]]; [right|right|left; congruence]; (split; [constructor|auto]).
      + specialize (IH1 k). rewrite GET_SET_ne in IH1 by done. set_solver.
    - intros Hr k Hk. apply elem_of_cons in Hk as [->|Hk]; auto. }
  destruct (GET r now k0) as [v|] eqn:Hg; [|apply Hgo; auto].
  destruct (bool_decide (v = "held:" +:+ oid)) eqn:H1, (bool_decide (v = "sold:" +:+ oid)) eqn:H2;
    simpl; bool_to_prop; subst; try (apply Hgo; auto; fail).
  split; [auto|done].
Qed.

(** ** The methods implement the contract *)

Lemma bumpVersion_owners e w : same_owners (redis_owners (run (bumpVersion e) w).2) (redis_owners w).
Proof.
  unfold bumpVersion, discard. rewrite run_bind, run_act. simpl.
  set (f := fun (now : Z) r => _).
  pose proof (redis_call_cases f w) as Hc. unfold redis_owners.
  destruct (redis_call f w) as [res w']. simpl.
  assert (Hk : forall e' s, GET (f (redis_now w) (rds w)).2 (redis_now w) (seatKey e' s) = GET (rds w) (redis_now w) (seatKey e' s)).
  { intros e' s. unfold f. destruct (INCR _ _ _) as [r'|] eqn:Hi; [|done].
    eapply GET_INCR_ne; [done|]. intros Heq. by apply (seatKey_versionKey e' s e). }
  destruct (f (redis_now w) (rds w)) as [x r']. destruct Hc as [-> Hc]. intros e' s. unfold r_owner.
  destruct res as [y|er]; [destruct Hc as [_ ->]|destruct Hc as [_ [-> | ->]]]; by rewrite ?Hk.
Qed.

Lemma redis_Hold_spec e ss o ttl w :
  hold_spec (redis_owners w) (redis_owners (run (redis_Hold e ss o ttl) w).2) e ss o (run (redis_Hold e ss o ttl) w).1.
Proof.
  unfold redis_Hold. rewrite run_bind, run_act.
  set (ms := Z.max (Milliseconds ttl) 1). set (f := hold_lua _ _ _).
  pose proof (redis_call_cases f w) as Hc.
  destruct (hold_lua_spec (rds w) (redis_now w) e ss o ms ltac:(lia)) as [Hf Ho]. fold f in Hf, Ho.
  fold (redis_owners w) in Hf, Ho.
  destruct (redis_call f w) as [res w']. destruct (f (redis_now w) (rds w)) as [x r'] eqn:Hfx.
  destruct Hc as [Hn Hc]. simpl in Ho.
  assert (Hw : rds w' = r' -> redis_owners w' = r_owner r' (redis_now w)) by (intros; unfold redis_owners; congruence).
  assert (Hw0 : rds w' = rds w -> redis_owners w' = redis_owners w) by (intros; unfold redis_owners; congruence).
  unfold hold_spec. destruct res as [y|er]; cbn [run fst snd].
  - destruct Hc as [-> Hr]. rewrite <- (Hw Hr) in Ho.
    destruct (taken_seats (redis_owners w) e ss o) as [|t l] eqn:Ht; simplify_eq.
    + rewrite run_bind. cbn [run fst snd]. split; [done|]. etrans; [apply bumpVersion_owners|done].
    + cbn [run fst snd]. split; [|done]. unfold seatKeys. rewrite <- list_fmap_compose. simpl.
      unfold seatKey. rewrite TrimPrefix_app. apply Permutation_skip.
      erewrite (list_fmap_ext (TrimPrefix (seatKeyPrefix e) ∘ _) id); [by rewrite list_fmap_id|].
      intros i x _. apply TrimPrefix_app.
  - destruct Hc as [_ [Hr|Hr]]; [left; by rewrite (Hw0 Hr)|]. rewrite <- (Hw Hr) in Ho.
    case_bool_decide; [right; done|left; done].
Qed.

Lemma redis_Release_spec e ss o w :
  release_spec (redis_owners w) (redis_owners (run (redis_Release e ss o) w).2) e ss o (run (redis_Release e ss o) w).1.
Proof.
  unfold redis_Release. rewrite run_bind, run_act. set (f := release_lua _ _).
  pose proof (redis_call_cases f w) as Hc.
  pose proof (release_lua_spec (rds w) (redis_now w) e ss o) as Ho. fold f in Ho. fold (redis_owners w) in Ho.
  destruct (redis_call f w) as [res w']. destruct (f (redis_now w) (rds w)) as [x r'].
  destruct Hc as [Hn Hc]. simpl in Ho.
  assert (Hw : rds w' = r' -> redis_owners w' = r_owner r' (redis_now w)) by (intros; unfold redis_owners; congruence).
  unfold release_spec. destruct res as [y|er]; cbn [run fst snd].
  - destruct Hc as [-> Hr]. rewrite <- (Hw Hr) in Ho. destruct (0 <? x); [rewrite run_bind|]; cbn [run fst snd]; [|done].
    etrans; [apply bumpVersion_owners|done].
  - destruct Hc as [_ [Hr|Hr]]; [left; unfold redis_owners; by rewrite Hr, Hn|].
    right. by rewrite (Hw Hr).
Qed.

(** What [confirm_lua_GET] says of keys, said of owners. *)
Lemma confirm_lua_owners r now e ss o reply r' :
  confirm_lua (seatKeys e ss) (uuid_String o) now r = (reply, r') ->
  (forall e' s, r_owner r' now e' s = r_owner r now e' s \/
     e' = e /\ s ∈ ss /\ (r_owner r now e s = None \/ r_owner r now e s = Some (HeldBy o)) /\
     r_owner r' now e s = Some (SoldTo o)) /\
  (reply = One -> forall s, s ∈ ss -> r_owner r' now e s = Some (SoldTo o)).
Proof.
  intros Hc. pose proof (confirm_lua_GET (seatKeys e ss) (uuid_String o) now r) as Hg. rewrite Hc in Hg.
  destruct Hg as [H1 H2]. split.
  - intros e' s. destruct (H1 (seatKey e' s)) as [Hk|(Hk & Hv & Hs)]; [left; unfold r_owner; by rewrite Hk|].
    apply elem_of_seatKeys in Hk as [-> Hk]. right. rewrite r_owner_none, r_owner_held, r_owner_sold. done.
  - intros Hr s Hs. apply r_owner_sold. apply H2; [done|]. by apply elem_of_seatKeys.
Qed.

Lemma redis_Confirm_spec e ss o w :
  confirm_spec (redis_owners w) (redis_owners (run (redis_Confirm e ss o) w).2) e ss o (run (redis_Confirm e ss o) w).1.
Proof.
  unfold redis_Confirm. rewrite run_bind, run_act. set (f := confirm_lua _ _).
  pose proof (redis_call_cases f w) as Hc.
  destruct (redis_call f w) as [res w']. destruct (f (redis_now w) (rds w)) as [x r'] eqn:Hf.
  apply confirm_lua_owners in Hf as [H1 H2]. destruct Hc as [Hn Hc].
  assert (Hw : rds w' = r' -> redis_owners w' = r_owner r' (redis_now w)) by (intros; unfold redis_owners; congruence).
  unfold confirm_spec. destruct res as [y|er]; cbn [run fst snd].
  - destruct Hc as [-> Hr]. destruct x as [|rest]; cbn [fst snd]; [rewrite run_bind|]; cbn [run fst snd].
    + pose proof (bumpVersion_owners e w') as Hb. rewrite (Hw Hr) in Hb.
      split; intros; rewrite !Hb; [apply H1|by apply H2].
    + rewrite (Hw Hr). by split.
  - split; [|done]. intros e' s. destruct Hc as [_ [Hr|Hr]]; [left; unfold redis_owners; by rewrite Hr, Hn|].
    rewrite (Hw Hr). apply H1.
Qed.

Lemma concat_batches {A} size fuel (keys : list A) :
  (0 < size)%nat -> (length keys <= fuel)%nat -> concat (batches fuel size keys) = keys.
Proof.
  intros Hs. revert keys. induction fuel as [|fuel IH]; intros [|k keys] Hf; simpl in *; try done; [lia|].
  rewrite <- (take_drop size (k :: keys)) at 3. f_equal. apply IH. rewrite length_drop. simpl. lia.
Qed.

Lemma concat_map_map {A B} (f : A -> B) (l : list (list A)) : concat (map (fmap f) l) = f <$> concat l.
Proof. induction l as [|x l IH]; simpl; [done|]. by rewrite IH, fmap_app. Qed.

Lemma status_fold_lookup (g : string -> SeatStatus) (ss : list string) (vals : list (option string)) out s :
  (forall i x, ss !! i = Some x -> exists v, vals !! i = Some v /\ statusOf v = g x) -> length vals = length ss ->
  fold_left (fun (out : gmap string SeatStatus) sv => <[sv.1 := statusOf sv.2]> out) (zip ss vals) out !! s =
    if decide (s ∈ ss) then Some (g s) else out !! s.
Proof.
  revert vals out. induction ss as [|x ss IH]; intros [|v vals] out Hg Hl; try done.
  cbn [zip zip_with fold_left]. rewrite IH; [|intros i y Hy; apply (Hg (S i) y Hy)|by injection Hl].
  destruct (Hg 0%nat x eq_refl) as (v' & [= <-] & Hv). cbn [fst snd].
  destruct (decide (s ∈ ss)); [rewrite decide_True by set_solver; done|].
  destruct (decide (s = x)) as [->|Hne].
  - rewrite lookup_insert_eq, decide_True by set_solver. by rewrite Hv.
  - rewrite lookup_insert_ne, decide_False by set_solver. done.
Qed.

Lemma statusOf_owner v : owner_of_value v <> Unreadable -> statusOf (Some v) = status_of_owner (Some (owner_of_value v)).
Proof.
  intros Hv. destruct (owner_of_value v) as [o|o|] eqn:Ho; [|..|done].
  - apply owner_held in Ho as ->. done.
  - apply owner_sold in Ho as ->. done.
Qed.

Lemma redis_Status_spec e ss w :
  status_spec (redis_owners w) (redis_owners (run (redis_Status e ss) w).2) e ss (run (redis_Status e ss) w).1.
Proof.
  unfold redis_Status. rewrite run_bind, run_act. set (f := fun (now : Z) (r : R) => _).
  pose proof (redis_call_cases f w) as Hc. destruct (redis_call f w) as [res w']. simpl in Hc.
  destruct Hc as [Hn Hc]. unfold status_spec.
  destruct res as [vals|er]; cbn [run fst snd]; [destruct Hc as [-> Hr]|destruct Hc as [_ Hr]];
    (split; [unfold redis_owners; rewrite Hn; by destruct Hr as [-> | ->] || by rewrite Hr|]); [|done].
  intros s. change (mget (redis_now w) (rds w)) with (fmap (M := list) (GET (rds w) (redis_now w))).
  rewrite concat_map_map, concat_batches by (unfold statusBatchSize; lia).
  rewrite (status_fold_lookup (fun s => statusOf (GET (rds w) (redis_now w) (seatKey e s)))).
  - case_decide; [|done]. intros Hv. f_equal. unfold redis_owners, r_owner in *.
    destruct (GET (rds w) (redis_now w) (seatKey e s)) as [v|]; [|done]. simpl in Hv.
    rewrite statusOf_owner; [done|congruence].
  - intros i x Hi. exists (GET (rds w) (redis_now w) (seatKey e x)). split; [|done].
    unfold seatKeys. by rewrite list_lookup_fmap, list_lookup_fmap, Hi.
  - unfold seatKeys. by rewrite !length_fmap.
Qed.

#[global] Instance redis_spec : InventorySpec RedisInventory (fun _ => True).
Proof.
  refine {| owners := redis_owners |}; intros.
  - apply redis_Hold_spec.
  - apply redis_Release_spec.
  - apply redis_Confirm_spec.
  - apply redis_Status_spec.
Defined.

(** ** Exclusivity over time

    What other orders do, and the clock, leave a hold alone until it runs
    out. *)

Lemma hold_lua_other KEYS oid ttl now r k v t :
  GET r now k = Some v -> v <> "held:" +:+ oid -> GET (hold_lua KEYS oid ttl now r).2 t k = GET r t k.
Proof.
  intros Hk Hv. unfold hold_lua. destruct (filter _ KEYS) as [|x l] eqn:Hf; [|done]. simpl.
  apply GET_SET_all_ne. intros Hin. apply filter_nil_Forall in Hf. rewrite Forall_forall in Hf.
  apply (Hf k Hin). rewrite Hk. simpl. by rewrite bool_decide_eq_false_2.
Qed.

Lemma release_lua_other KEYS oid now r k v t :
  GET r now k = Some v -> v <> "held:" +:+ oid -> GET (release_lua KEYS oid now r).2 t k = GET r t k.
Proof.
  unfold release_lua. generalize 0 as n. revert r. induction KEYS as [|k' KEYS IH]; intros r n Hk Hv; simpl; [done|].
  case_bool_decide as Hg; [|by apply IH].
  assert (k' <> k) by congruence.
  rewrite IH by (rewrite ?GET_DEL_ne; done). by apply GET_DEL_ne.
Qed.

Lemma confirm_lua_other KEYS oid now r k v t :
  GET r now k = Some v -> v <> "held:" +:+ oid -> v <> "sold:" +:+ oid ->
  GET (confirm_lua KEYS oid now r).2 t k = GET r t k.
Proof.
  revert r. induction KEYS as [|k' KEYS IH]; intros r Hk Hh Hs; simpl; [done|].
  destruct (decide (k' = k)) as [->|Hne].
  - rewrite Hk, !bool_decide_eq_false_2 by done. done.
  - assert (GET (confirm_lua KEYS oid now (SET r now k' ("sold:" +:+ oid) None)).2 t k = GET r t k) as Hgo.
    { rewrite IH by (rewrite ?GET_SET_ne; done). by apply GET_SET_ne. }
    destruct (GET r now k') as [v'|]; [|done]. by destruct (_ || _)%bool.
Qed.

Lemma bumpVersion_fixed e0 e s v T : respects (fixed_until (seatKey e s) v T) same_clock (bumpVersion e0).
Proof.
  apply respects_bind; [|done]. apply redis_call_fixed. intros now r _ t.
  destruct (INCR _ _ _) as [r'|] eqn:Hi; [|done].
  eapply GET_INCR_ne; [done|]. intros Heq. by apply (seatKey_versionKey e s e0).
Qed.

Lemma other_held_ne (o o' : UUID) : o' <> o -> "held:" +:+ uuid_String o <> "held:" +:+ uuid_String o'.
Proof. intros Hne Heq. apply Hne. apply string_app_inv_head in Heq. by apply (inj uuid_String). Qed.

(** Another order's operation. *)
Inductive other_op (o : UUID) : prog (World R) unit -> Prop :=
| other_hold e ss o' ttl : o' <> o -> other_op o (discard (redis_Hold e ss o' ttl))
| other_release e ss o' : o' <> o -> other_op o (discard (redis_Release e ss o'))
| other_confirm e ss o' : o' <> o -> other_op o (discard (redis_Confirm e ss o')).

Lemma other_op_fixed o p e s T :
  other_op o p -> respects (fixed_until (seatKey e s) ("held:" +:+ uuid_String o) T) same_clock p.
Proof.
  intros Hp; destruct Hp as [e' ss o' ttl Hne|e' ss o' Hne|e' ss o' Hne]; apply other_held_ne in Hne;
    (apply respects_bind; [|done]);
    (apply respects_bind; [apply redis_call_fixed; intros now r Hk t|intros [[]|]; try done;
       repeat case_match; try done; (apply respects_bind; [apply bumpVersion_fixed|done])]).
  - by apply (hold_lua_other _ _ _ _ _ _ _ _ Hk).
  - by apply (release_lua_other _ _ _ _ _ _ _ Hk).
  - by apply (confirm_lua_other _ _ _ _ _ _ _ Hk).
Qed.

Lemma hold_fixed e ss o ttl w w1 s :
  run (redis_Hold e ss o ttl) w = (Ok [], w1) -> s ∈ ss ->
  fixed_until (seatKey e s) ("held:" +:+ uuid_String o) (redis_now w + Z.max (Milliseconds ttl) 1) w1.
Proof.
  set (T := redis_now w + _). unfold redis_Hold. rewrite run_bind, run_act. set (f := hold_lua _ _ _).
  pose proof (redis_call_cases f w) as Hc. intros Hrun Hs.
  destruct (hold_lua_spec (rds w) (redis_now w) e ss o (Z.max (Milliseconds ttl) 1) ltac:(lia)) as [Hf _]. fold f in Hf.
  destruct (redis_call f w) as [res w']. rewrite Hf in Hc. destruct (taken_seats _ _ _ _) as [|x l];
    destruct res as [y|er]; cbn [fst snd] in *; try done; destruct Hc as (Hn & -> & Hr);
    [|by unfold seatKeys in Hrun; rewrite !fmap_cons in Hrun].
  rewrite run_bind in Hrun. cbn [run fst snd] in Hrun. injection Hrun as <-.
  destruct (respects_run _ same_clock _ w' (bumpVersion_fixed e e s ("held:" +:+ uuid_String o) T)) as [H1 _]; [|done].
  intros Hlt t Ht. rewrite Hr. apply GET_SET_all_live; [lia|unfold T in Ht; lia|]. by apply elem_of_seatKeys.
Qed.
End redis.

(** ** Properties *)

(** C15. The Redis backend implements the inventory contract. Whatever the
    state of Redis and whichever call fails or loses its answer: Hold takes
    every seat for the order or none, succeeds exactly when no seat is held by
    another order or sold, answers the seats that are taken, and succeeds again
    for the same order; Release frees the seats the order holds and no other;
    Confirm turns only free seats and the order's own holds into sold seats, all
    of them when it succeeds; Status reports every seat asked for as available,
    held or sold as its owner says, batch by batch, and changes nothing. *)
Theorem redis_inventory_contract `{RedisServer R} `{UuidLib} (w : World R) (e : Z) (ss : list string) (o : UUID) (ttl : Z) :
  let hold := run (redis_Hold e ss o ttl) w in
  let release := run (redis_Release e ss o) w in
  let confirm := run (redis_Confirm e ss o) w in
  let status := run (redis_Status e ss) w in
  hold_spec (redis_owners w) (redis_owners hold.2) e ss o hold.1 /\
  release_spec (redis_owners w) (redis_owners release.2) e ss o release.1 /\
  confirm_spec (redis_owners w) (redis_owners confirm.2) e ss o confirm.1 /\
  status_spec (redis_owners w) (redis_owners status.2) e ss status.1.
Proof.
  split_and!; [apply redis_Hold_spec|apply redis_Release_spec|apply redis_Confirm_spec|apply redis_Status_spec].
Qed.

(** C16. A hold is exclusive until it runs out: once Hold has answered success,
    any interleaving, down to the single Redis call, of any number of Hold,
    Release and Confirm requests of other orders, with processes dying between
    calls and the clock advancing, leaves every seat held by that order as long
    as Redis' clock is before the end of the hold (its ttl in milliseconds, at
    least one). *)
Theorem redis_hold_exclusive `{RedisServer R} `{UuidLib} (w w1 : World R) (e : Z) (ss : list string) (o : UUID) (ttl : Z)
    (Hhold : run (redis_Hold e ss o ttl) w = (Ok [], w1)) (c : list (prog (World R) unit) * World R)
    (Hc : rtc (sys_step (other_op o) redis_tick) ([], w1) c)
    (Ht : redis_now c.2 < redis_now w + Z.max (Milliseconds ttl) 1) (s : string) (Hs : s ∈ ss) :
  redis_owners c.2 e s = Some (HeldBy o).
Proof.
  set (T := redis_now w + _) in *. apply r_owner_held.
  assert (fixed_until (seatKey e s) ("held:" +:+ uuid_String o) T c.2) as Hf; [|by apply Hf].
  eapply (fixed_reachable (other_op o)); [|by eapply hold_fixed|exact Hc].
  intros p Hp. by apply other_op_fixed.
Qed.
