(* ===== verification/InventoryPG.v ===== *)
(** * The PostgreSQL inventory (internal/inventory/pg.go and inventorydb)

    Holds are rows of seat_holds; a ticket marks its seat sold. Hold runs in a
    transaction that first locks the seats' rows, which is what makes it one
    atomic action here. *)

From S2P Require Import Prelude GoLib Effects World Frame OrderDB Inventory.
Local Open Scope tr_scope.

(** ** Queries *)

Abbreviation Holds := (gmap (Z * string) HoldRow).

Definition LockSeats (eventID : Z) (seatIds : list string) (d : PG) : list string :=
  Sort (filter (fun s => is_Some (db_seats d !! (eventID, s))) (remove_dups seatIds)).

(** The tickets of an event, and the seats they are for. *)
Definition ticketed (d : PG) (eventID : Z) : list string :=
  omap (fun kv : UUID * TicketRow => if decide (t_EventID kv.2 = eventID) then Some (t_SeatID kv.2) else None)
    (map_to_list (tickets d)).

(** [expires_at > now()] *)
Definition live_hold (now : Z) (h : HoldRow) : bool := now <? h_ExpiresAt h.

Definition held_by_other (now : Z) (h : Holds) (eventID : Z) (orderID : UUID) (s : string) : bool :=
  match h !! (eventID, s) with
  | Some r => live_hold now r && negb (bool_decide (h_OrderID r = orderID))
  | None => false
  end.

(** The UNION has no duplicates. *)
Definition TakenSeats (eventID : Z) (seatIds : list string) (orderID : UUID) (now : Z) (d : PG) (h : Holds) : list string :=
  Sort (filter (fun s => held_by_other now h eventID orderID s = true \/ s ∈ ticketed d eventID) (remove_dups seatIds)).

(** ON CONFLICT DO UPDATE refuses to touch a row twice in one statement. *)
Definition UpsertHolds (eventID : Z) (seatIds : list string) (orderID : UUID) (ttl : Z) (now : Z) (h : Holds)
  : res GoErr Holds :=
  if negb (bool_decide (NoDup seatIds)) then Err (EPg (CheckViolation "cardinality_violation"))
  else Ok (fold_left (fun h s => <[(eventID, s) := mkHoldRow orderID (now + Microseconds ttl)]> h) seatIds h).

Definition own_hold (eventID : Z) (seatIds : list string) (orderID : UUID) (kv : (Z * string) * HoldRow) : Prop :=
  kv.1.1 = eventID /\ kv.1.2 ∈ seatIds /\ h_OrderID kv.2 = orderID.
#[global] Instance own_hold_dec e ss o kv : Decision (own_hold e ss o kv).
Proof. unfold own_hold. apply _. Defined.

Definition DeleteHolds (eventID : Z) (seatIds : list string) (orderID : UUID) (h : Holds) : Holds :=
  filter (fun kv => ~ own_hold eventID seatIds orderID kv) h.

Definition order_ticket (eventID : Z) (seatIds : list string) (orderID : UUID) (kv : UUID * TicketRow) : Prop :=
  t_EventID kv.2 = eventID /\ t_SeatID kv.2 ∈ seatIds /\ t_OrderID kv.2 = orderID.
#[global] Instance order_ticket_dec e ss o kv : Decision (order_ticket e ss o kv).
Proof. unfold order_ticket. apply _. Defined.

Definition CountOrderTickets (eventID : Z) (seatIds : list string) (orderID : UUID) (d : PG) : nat :=
  size (filter (order_ticket eventID seatIds orderID) (tickets d)).

(** The rows of the UNION ALL: tickets, then live holds. *)
Definition SeatStatusRows (eventID : Z) (seatIds : list string) (now : Z) (d : PG) (h : Holds) : list (string * SeatStatus) :=
  ((fun s => (s, Sold)) <$> filter (fun s => s ∈ seatIds) (ticketed d eventID)) ++
  omap (fun kv : (Z * string) * HoldRow =>
          if decide (kv.1.1 = eventID /\ kv.1.2 ∈ seatIds /\ live_hold now kv.2 = true) then Some (kv.1.2, Held) else None)
    (map_to_list h).

Section pginv.
Context {R : Type}.
Implicit Types w : World R.

(** One statement on seat_holds. *)
Definition stmt_holds {A} (q : Z -> PG -> Holds -> res GoErr (A * Holds)) : M R A :=
  call (EPg Infra) (fun w =>
    match q (pg_now w) (pg w) (seat_holds w) with
    | Ok (a, h) => (Ok a, set_seat_holds h w)
    | Err e => (Err e, w)
    end).

(** ** The Go methods *)

Definition pg_Hold_tx (eventID : Z) (seatIDs : list string) (orderID : UUID) (ttl : Z) : M R (list string) :=
  let* locked := stmt_holds (fun _ d h => Ok (LockSeats eventID seatIDs d, h)) in
  if negb (bool_decide (length locked = length seatIDs)) then mfail ErrUnknownSeat
  else
    let* taken := stmt_holds (fun now d h => Ok (TakenSeats eventID seatIDs orderID now d h, h)) in
    match taken with
    | _ :: _ => mret taken
    | [] =>
        let* _ := stmt_holds (fun now _ h =>
          match UpsertHolds eventID seatIDs orderID ttl now h with Ok h => Ok (tt, h) | Err e => Err e end) in
        mret taken
    end.

Definition pg_Hold (eventID : Z) (seatIDs : list string) (orderID : UUID) (ttl : Z)
  : prog (World R) (res GoErr (list string)) :=
  act (BeginFuncHolds (pg_Hold_tx eventID seatIDs orderID ttl)).

Definition delete_holds (eventID : Z) (seatIDs : list string) (orderID : UUID) : M R unit :=
  stmt_holds (fun _ _ h => Ok (tt, DeleteHolds eventID seatIDs orderID h)).

Definition pg_Release (eventID : Z) (seatIDs : list string) (orderID : UUID) : prog (World R) (res GoErr unit) :=
  act (delete_holds eventID seatIDs orderID).

Definition pg_Confirm (eventID : Z) (seatIDs : list string) (orderID : UUID) : prog (World R) (res GoErr unit) :=
  let? n := act (stmt_holds (fun _ d h => Ok (CountOrderTickets eventID seatIDs orderID d, h))) in
  if negb (bool_decide (n = length seatIDs)) then Ret (Err ErrConfirmMismatch)
  else let? _ := act (delete_holds eventID seatIDs orderID) in Ret (Ok tt).

Definition status_row (out : gmap string SeatStatus) (r : string * SeatStatus) : gmap string SeatStatus :=
  if decide (out !! r.1 = Some Sold) then out else <[r.1 := r.2]> out.

Definition pg_Status (eventID : Z) (seatIDs : list string) : prog (World R) (res GoErr (gmap string SeatStatus)) :=
  let? rows := act (stmt_holds (fun now d h => Ok (SeatStatusRows eventID seatIDs now d h, h))) in
  let out := fold_left (fun (out : gmap string SeatStatus) id => <[id := Available]> out) seatIDs ∅ in
  Ret (Ok (fold_left status_row rows out)).

Definition PGInventory : Inventory R := mkInventory R pg_Hold pg_Release pg_Confirm pg_Status.

(** ** Frame *)

Lemma stmt_holds_spec {A} (q : Z -> PG -> Holds -> res GoErr (A * Holds)) w :
  let '(r, w') := stmt_holds q w in
  books_kept w w' /\
  match r with
  | Ok a => q (pg_now w) (pg w) (seat_holds w) = Ok (a, seat_holds w')
  | Err _ => seat_holds w' = seat_holds w \/
             exists a, q (pg_now w) (pg w) (seat_holds w) = Ok (a, seat_holds w')
  end.
Proof.
  unfold stmt_holds, call. destruct (pop_fault w) as [fl w0] eqn:Hp.
  destruct (pop_fault_spec _ _ _ Hp) as (H1 & H2 & _ & (H3 & H4 & H5 & H6 & H7 & H8 & H9 & H10)).
  assert (books_kept w w0) as Hk by (unfold books_kept; split_and!; done).
  rewrite <- H1, <- H3, <- H5.
  destruct fl; simpl; [| by split; [|left] |];
    destruct (q (pg_now w0) (pg w0) (seat_holds w0)) as [[a h]|e]; simpl; eauto.
Qed.

Lemma stmt_holds_frame {A} (q : Z -> PG -> Holds -> res GoErr (A * Holds)) w : books_kept w (stmt_holds q w).2.
Proof. pose proof (stmt_holds_spec q w) as H. destruct (stmt_holds q w). by destruct H. Qed.

Lemma act_stmt_holds_frame {A} (q : Z -> PG -> Holds -> res GoErr (A * Holds)) : keeps_books (act (stmt_holds q)).
Proof. apply respects_act. intros w _. split; [done|apply stmt_holds_frame]. Qed.

(** A transaction on seat_holds: its effect is that of its body, or nothing. *)
Lemma BeginFuncHolds_spec {A} (body : M R A) w :
  mkeeps body ->
  let '(r, w') := BeginFuncHolds body w in
  books_kept w w' /\
  exists w0, books_kept w w0 /\ seat_holds w0 = seat_holds w /\
  match r with
  | Ok a => exists w1, body w0 = (Ok a, w1) /\ seat_holds w' = seat_holds w1
  | Err _ => seat_holds w' = seat_holds w \/ exists a w1, body w0 = (Ok a, w1) /\ seat_holds w' = seat_holds w1
  end.
Proof.
  intros Hb. unfold BeginFuncHolds, Transaction. destruct (pop_fault w) as [fl w0] eqn:Hp.
  apply pop_fault_books in Hp as [Hk0 Hh0].
  destruct fl; [|split; [done|]; exists w0; auto..].
  specialize (Hb w0). destruct (body w0) as [[a|e] w1] eqn:Hbody; simpl in Hb.
  - destruct (pop_fault w1) as [fl' w2] eqn:Hp2. apply pop_fault_books in Hp2 as [Hk2 Hh2].
    assert (books_kept w w2) as Hk by (etrans; [exact Hk0|]; by etrans).
    destruct fl'; (split; [exact Hk|]; exists w0; split_and!; [done..|]); [eauto| |right; eauto].
    left. simpl. done.
  - split; [etrans; [exact Hk0|]; exact Hb|]. exists w0. split_and!; [done..|]. left. simpl. done.
Qed.

Lemma pg_Hold_tx_keeps e ss o ttl : mkeeps (pg_Hold_tx e ss o ttl).
Proof.
  apply mkeeps_bind; [intros w; apply stmt_holds_frame|intros l]. case_match; [by intros w|].
  apply mkeeps_bind; [intros w; apply stmt_holds_frame|intros [|]]; [|by intros w].
  apply mkeeps_bind; [intros w; apply stmt_holds_frame|by intros ? w].
Qed.

#[global] Instance pg_frame : InventoryFrame PGInventory.
Proof.
  split; intros; cbn [PGInventory Hold Release Confirm SeatStatuses].
  - apply respects_act. intros w _. split; [done|].
    pose proof (BeginFuncHolds_spec _ w (pg_Hold_tx_keeps e ss o ttl)) as H.
    destruct (BeginFuncHolds _ w). by destruct H.
  - apply act_stmt_holds_frame.
  - apply respects_bind; [apply act_stmt_holds_frame|intros [n|]; [|done]]. case_match; [done|].
    apply respects_bind; [apply act_stmt_holds_frame|by intros []].
  - apply respects_bind; [apply act_stmt_holds_frame|by intros []].
Qed.

(** ** The owners of the seats *)

Definition ticket_of (d : PG) (e : Z) (s : string) : option UUID :=
  (fun kv : UUID * TicketRow => t_OrderID kv.2) <$> head (map_to_list (filter (same_seat e s) (tickets d))).

Definition pg_owner (now : Z) (d : PG) (h : Holds) : Owners := fun e s =>
  match ticket_of d e s with
  | Some o => Some (SoldTo o)
  | None => match h !! (e, s) with
            | Some r => if live_hold now r then Some (HeldBy (h_OrderID r)) else None
            | None => None
            end
  end.
Definition pg_owners w : Owners := pg_owner (pg_now w) (pg w) (seat_holds w).

(** One ticket per seat, the invariant of the order tables the counting in
    Confirm relies on. *)
Definition tickets_unique (d : PG) : Prop :=
  forall i j t u, tickets d !! i = Some t -> tickets d !! j = Some u ->
    t_EventID t = t_EventID u -> t_SeatID t = t_SeatID u -> i = j.

Lemma elem_of_ticketed d e s :
  s ∈ ticketed d e <-> exists i t, tickets d !! i = Some t /\ t_EventID t = e /\ t_SeatID t = s.
Proof.
  unfold ticketed. rewrite list_elem_of_omap. split.
  - intros ([i t] & Hin & Ht). simpl in Ht. apply elem_of_map_to_list in Hin. case_decide; naive_solver.
  - intros (i & t & Hi & He & Hs). exists (i, t). split; [by apply elem_of_map_to_list|]. simpl.
    by rewrite decide_True, Hs.
Qed.

Lemma ticket_of_Some d e s o :
  ticket_of d e s = Some o ->
  exists i t, tickets d !! i = Some t /\ t_EventID t = e /\ t_SeatID t = s /\ t_OrderID t = o.
Proof.
  unfold ticket_of. destruct (map_to_list _) as [|[i t] l] eqn:Hl; [done|]. intros [= <-].
  assert ((i, t) ∈ map_to_list (filter (same_seat e s) (tickets d))) as Hin by (rewrite Hl; constructor).
  apply elem_of_map_to_list, map_lookup_filter_Some in Hin as [Hi [He Hs]]. naive_solver.
Qed.

Lemma ticket_of_None d e s : ticket_of d e s = None <-> s ∉ ticketed d e.
Proof.
  split.
  - intros Hn Hin. apply elem_of_ticketed in Hin as (i & t & Hi & He & Hs). unfold ticket_of in Hn.
    assert ((i, t) ∈ map_to_list (filter (same_seat e s) (tickets d))) as Hin.
    { apply elem_of_map_to_list, map_lookup_filter_Some. done. }
    destruct (map_to_list _); [by apply elem_of_nil in Hin|done].
  - intros Hn. destruct (ticket_of d e s) as [o|] eqn:Ht; [|done]. destruct Hn.
    apply ticket_of_Some in Ht as (i & t & Hi & He & Hs & _). apply elem_of_ticketed. eauto.
Qed.

Lemma pg_taken now d h e o s :
  held_by_other now h e o s = true \/ s ∈ ticketed d e <-> taken_for o (pg_owner now d h e s) = true.
Proof.
  unfold pg_owner, held_by_other. destruct (ticket_of d e s) as [o'|] eqn:Ht.
  - split; [done|]. intros _. right. destruct (decide (s ∈ ticketed d e)) as [|Hn]; [done|].
    apply ticket_of_None in Hn. congruence.
  - apply ticket_of_None in Ht. destruct (h !! (e, s)) as [r|]; [destruct (live_hold now r)|]; simpl; naive_solver.
Qed.

(** ** The methods implement the contract *)

Lemma TakenSeats_spec now d h e ss o :
  NoDup ss -> TakenSeats e ss o now d h ≡ₚ taken_seats (pg_owner now d h) e ss o.
Proof.
  intros Hnd. unfold TakenSeats, taken_seats. rewrite Sort_Permutation.
  rewrite (list_filter_iff _ (fun s => taken_for o (pg_owner now d h e s) = true)) by (intros; apply pg_taken).
  apply filter_Permutation, NoDup_Permutation; [apply NoDup_remove_dups|done|].
  intros s. apply elem_of_remove_dups.
Qed.

Definition upsert (e : Z) (ss : list string) (o : UUID) (exp : Z) (h : Holds) : Holds :=
  fold_left (fun h s => <[(e, s) := mkHoldRow o exp]> h) ss h.

Lemma upsert_lookup e ss o exp h e' s :
  upsert e ss o exp h !! (e', s) = if decide (e' = e /\ s ∈ ss) then Some (mkHoldRow o exp) else h !! (e', s).
Proof.
  unfold upsert. revert h. induction ss as [|x ss IH]; intros h; cbn [fold_left].
  { rewrite decide_False by set_solver. done. }
  rewrite IH. destruct (decide (e' = e /\ s ∈ ss)) as [|Hn]; [rewrite decide_True by set_solver; done|].
  destruct (decide ((e', s) = (e, x))) as [[= -> ->]|Hne].
  - rewrite lookup_insert_eq, decide_True by set_solver. done.
  - rewrite lookup_insert_ne, decide_False by set_solver. done.
Qed.

Lemma upsert_owners now d h e ss o ttl :
  1000 <= ttl -> taken_seats (pg_owner now d h) e ss o = [] ->
  same_owners (pg_owner now d (upsert e ss o (now + Microseconds ttl) h))
    (assign (pg_owner now d h) e ss (Some (HeldBy o))).
Proof.
  intros Httl Ht e' s. rewrite taken_seats_nil in Ht. unfold assign, pg_owner at 1. rewrite upsert_lookup.
  case_decide as Hd; [|done]. destruct Hd as [-> Hs]. specialize (Ht s Hs). unfold pg_owner in Ht.
  destruct (ticket_of d e s); [naive_solver|]. unfold live_hold. simpl.
  assert (1 <= Microseconds ttl) by (unfold Microseconds; apply Z.quot_le_lower_bound; lia).
  by rewrite (proj2 (Z.ltb_lt _ _)) by lia.
Qed.

(** A successful run of Hold's transaction. *)
Lemma pg_Hold_tx_ok e ss o ttl w t w' :
  pg_Hold_tx e ss o ttl w = (Ok t, w') ->
  t = TakenSeats e ss o (pg_now w) (pg w) (seat_holds w) /\
  seat_holds w' = match t with [] => upsert e ss o (pg_now w + Microseconds ttl) (seat_holds w) | _ => seat_holds w end.
Proof.
  unfold pg_Hold_tx. intros Hr. apply mbind_ok in Hr as (l & w1 & H1 & Hr).
  pose proof (stmt_holds_spec (fun _ d h => Ok (LockSeats e ss d, h)) w) as S1. rewrite H1 in S1.
  destruct S1 as [K1 [= _ E1]]. case_match; [done|].
  apply mbind_ok in Hr as (t' & w2 & H2 & Hr).
  pose proof (stmt_holds_spec (fun now d h => Ok (TakenSeats e ss o now d h, h)) w1) as S2. rewrite H2 in S2.
  destruct S2 as [K2 [= S2 E2]]. destruct K1 as (P1 & _ & _ & _ & N1), K2 as (P2 & _ & _ & _ & N2).
  rewrite P1, N1, <- E1 in S2.
  destruct t' as [|x t'].
  - apply mbind_ok in Hr as ([] & w3 & H3 & Hr). unfold mret in Hr. simplify_eq.
    match type of H3 with stmt_holds ?q _ = _ => pose proof (stmt_holds_spec q w2) as S3 end. rewrite H3 in S3.
    destruct S3 as [_ S3]. unfold UpsertHolds in S3. destruct (negb _) in S3; [done|]. injection S3 as S3.
    split; [done|]. rewrite <- S3, N2, N1, <- E2, <- E1. done.
  - unfold mret in Hr. simplify_eq. split; [done|]. congruence.
Qed.

Lemma pg_Hold_spec e ss o ttl w :
  NoDup ss -> 1000 <= ttl ->
  hold_spec (pg_owners w) (pg_owners (run (pg_Hold e ss o ttl) w).2) e ss o (run (pg_Hold e ss o ttl) w).1.
Proof.
  intros Hnd Httl. unfold pg_Hold. rewrite run_act.
  pose proof (BeginFuncHolds_spec _ w (pg_Hold_tx_keeps e ss o ttl)) as H.
  destruct (BeginFuncHolds _ w) as [r w']. destruct H as [K (w0 & K0 & E0 & H)]. cbn [fst snd].
  destruct K as (P & _ & _ & _ & N), K0 as (P0 & _ & _ & _ & N0).
  assert (Hok : forall t w1, pg_Hold_tx e ss o ttl w0 = (Ok t, w1) -> seat_holds w' = seat_holds w1 ->
    t ≡ₚ taken_seats (pg_owners w) e ss o /\
    same_owners (pg_owners w') (if bool_decide (taken_seats (pg_owners w) e ss o = [])
      then assign (pg_owners w) e ss (Some (HeldBy o)) else pg_owners w)).
  { intros t w1 Ht Hw1. apply pg_Hold_tx_ok in Ht as [Ht Hh]. rewrite P0, N0, E0 in *.
    pose proof (TakenSeats_spec (pg_now w) (pg w) (seat_holds w) e ss o Hnd) as Hp. rewrite <- Ht in Hp.
    split; [done|]. fold (pg_owners w) in Hp. unfold pg_owners at 1. rewrite P, N, Hw1, Hh.
    destruct t as [|x t].
    - apply Permutation_nil_l in Hp. rewrite bool_decide_eq_true_2 by done. by apply upsert_owners.
    - rewrite bool_decide_eq_false_2; [done|]. intros Hn. rewrite Hn in Hp. by apply Permutation_nil_r in Hp. }
  unfold hold_spec. destruct r as [t|er].
  - destruct H as (w1 & Ht & Hw1). by apply (Hok t w1).
  - destruct H as [Hh|(t & w1 & Ht & Hw1)].
    + left. unfold pg_owners. by rewrite P, N, Hh.
    + destruct (Hok t w1 Ht Hw1) as [_ Ho]. case_bool_decide; [right|left]; done.
Qed.

Lemma DeleteHolds_lookup (e : Z) (ss : list string) (o : UUID) (h : Holds) (e' : Z) (s : string) :
  DeleteHolds e ss o h !! (e', s) =
    match h !! (e', s) with
    | Some r => if decide (own_hold e ss o ((e', s), r)) then None else Some r
    | None => None
    end.
Proof.
  unfold DeleteHolds. rewrite map_lookup_filter. destruct (h !! (e', s)) as [r|]; simpl; [|done].
  destruct (decide (own_hold e ss o (e', s, r))); unfold guard; case_decide; naive_solver.
Qed.

Lemma DeleteHolds_owners now d h e ss o :
  same_owners (pg_owner now d (DeleteHolds e ss o h)) (release_own (pg_owner now d h) e ss o).
Proof.
  intros e' s. unfold release_own, pg_owner. rewrite DeleteHolds_lookup.
  destruct (ticket_of d e' s); [by case_decide; naive_solver|].
  destruct (h !! (e', s)) as [r|]; [|by case_decide].
  destruct (decide (own_hold e ss o (e', s, r))) as [(? & ? & ?)|Hn]; simpl in *.
  - subst. destruct (live_hold now r); case_decide; naive_solver.
  - destruct (live_hold now r); [|by case_decide]. case_decide as Hd; [|done].
    destruct Hd as (-> & Hs & [= <-]). by destruct Hn.
Qed.

Lemma delete_holds_spec e ss o w :
  let '(r, w') := delete_holds e ss o w in
  books_kept w w' /\ release_spec (pg_owners w) (pg_owners w') e ss o r.
Proof.
  unfold delete_holds. match goal with |- context [stmt_holds ?q w] => pose proof (stmt_holds_spec q w) as S end.
  destruct (stmt_holds _ w) as [r w']. destruct S as [K S]. split; [done|].
  destruct K as (P & _ & _ & _ & N). unfold release_spec, pg_owners. rewrite P, N.
  destruct r as [a|er]; [injection S as _ <-; apply DeleteHolds_owners|].
  destruct S as [->|(a & [= _ <-])]; [by left|right; apply DeleteHolds_owners].
Qed.

Lemma pg_Release_spec e ss o w :
  release_spec (pg_owners w) (pg_owners (run (pg_Release e ss o) w).2) e ss o (run (pg_Release e ss o) w).1.
Proof.
  unfold pg_Release. rewrite run_act. pose proof (delete_holds_spec e ss o w) as H.
  destruct (delete_holds e ss o w). by destruct H.
Qed.

(** When there are as many tickets of the order on the seats as seats, every
    seat has one. *)
Lemma count_all_ticketed d e ss o s :
  tickets_unique d -> NoDup ss -> CountOrderTickets e ss o d = length ss -> s ∈ ss -> ticket_of d e s = Some o.
Proof.
  intros Hu Hnd Hc Hs. set (l := map_to_list (filter (order_ticket e ss o) (tickets d))).
  assert (Hl : forall i t, (i, t) ∈ l <-> tickets d !! i = Some t /\ order_ticket e ss o (i, t)).
  { intros i t. unfold l. by rewrite elem_of_map_to_list, map_lookup_filter_Some. }
  set (seats := (fun kv : UUID * TicketRow => t_SeatID kv.2) <$> l).
  assert (NoDup seats) as Hnd'.
  { apply NoDup_fmap_2_strong; [|apply NoDup_map_to_list]. intros [i t] [j u] Hi Hj Heq.
    apply Hl in Hi as [Hi [? _]], Hj as [Hj [? _]]. simpl in *.
    assert (i = j) as -> by (eapply Hu; eauto; congruence). congruence. }
  assert (seats ≡ₚ ss) as Hp.
  { apply submseteq_length_Permutation; [|].
    - apply NoDup_submseteq; [done|]. intros x Hx. apply list_elem_of_fmap in Hx as ([i t] & -> & Hx).
      apply Hl in Hx as (_ & _ & Hx & _). done.
    - unfold seats. rewrite length_fmap. unfold l. rewrite length_map_to_list.
      unfold CountOrderTickets in Hc. lia. }
  rewrite <- Hp in Hs. apply list_elem_of_fmap in Hs as ([i t] & -> & Hx). apply Hl in Hx as (Hi & He & _ & Ho).
  simpl in *. destruct (ticket_of d e (t_SeatID t)) as [o'|] eqn:Ht.
  - apply ticket_of_Some in Ht as (j & u & Hj & ? & ? & <-). f_equal.
    assert (i = j) as -> by (eapply Hu; eauto; congruence). congruence.
  - apply ticket_of_None in Ht. destruct Ht. apply elem_of_ticketed. eauto.
Qed.

Lemma release_own_sold v e ss o :
  (forall s, s ∈ ss -> v e s = Some (SoldTo o)) -> same_owners (release_own v e ss o) v.
Proof.
  intros Hs e' s. unfold release_own. case_decide as Hd; [|done]. destruct Hd as (-> & Hin & Hh).
  rewrite Hs in Hh by done. done.
Qed.

Lemma pg_Confirm_spec e ss o w :
  tickets_unique (pg w) -> NoDup ss ->
  confirm_spec (pg_owners w) (pg_owners (run (pg_Confirm e ss o) w).2) e ss o (run (pg_Confirm e ss o) w).1.
Proof.
  intros Hu Hnd. unfold pg_Confirm. rewrite run_bind, run_act.
  match goal with |- context [stmt_holds ?q w] => pose proof (stmt_holds_spec q w) as S end.
  destruct (stmt_holds _ w) as [r w1]. destruct S as [(P & _ & _ & _ & N) S].
  assert (Hsame : seat_holds w1 = seat_holds w -> same_owners (pg_owners w1) (pg_owners w)).
  { intros Hh. unfold pg_owners. by rewrite P, N, Hh. }
  unfold confirm_spec. cbn [fst snd]. destruct r as [n|er]; cbn [run fst snd].
  - injection S as Hn Hh. specialize (Hsame (eq_sym Hh)). case_bool_decide as Hl; cbn [negb].
    + rewrite <- Hn in Hl. assert (Hsold : forall s, s ∈ ss -> pg_owners w e s = Some (SoldTo o)).
      { intros s Hs. unfold pg_owners, pg_owner. by rewrite (count_all_ticketed _ e ss o s). }
      rewrite run_bind, run_act. pose proof (delete_holds_spec e ss o w1) as Hd.
      destruct (delete_holds e ss o w1) as [r' w2]. destruct Hd as [_ Hd]. cbn [fst snd].
      assert (same_owners (pg_owners w2) (pg_owners w)) as Hall.
      { assert (same_owners (release_own (pg_owners w1) e ss o) (pg_owners w1)) as Hr.
        { apply release_own_sold. intros s Hs. rewrite (Hsame e s). auto. }
        unfold release_spec in Hd. destruct r'; [|destruct Hd as [Hd|Hd]]; rewrite Hd; [by rewrite Hr|done|by rewrite Hr]. }
      destruct r'; cbn [run fst snd]; (split; [intros e' s; left; apply Hall|]); [|done].
      intros s Hs. rewrite (Hall e s). auto.
    + cbn [run fst snd]. split; [intros e' s; left; apply Hsame|done].
  - split; [|done]. intros e' s. left. apply Hsame. destruct S as [S|(a & [= _ S])]; congruence.
Qed.

Lemma status_rows_lookup (rows : list (string * SeatStatus)) out s :
  (forall r, r ∈ rows -> r.2 = Sold \/ r.2 = Held) ->
  fold_left status_row rows out !! s =
    if decide (out !! s = Some Sold \/ (s, Sold) ∈ rows) then Some Sold
    else if decide ((s, Held) ∈ rows) then Some Held else out !! s.
Proof.
  revert out. induction rows as [|[x y] rows IH]; intros out Hr; cbn [fold_left].
  { destruct (decide (out !! s = Some Sold)) as [->|]; [by rewrite decide_True by auto|].
    rewrite decide_False by set_solver. by rewrite decide_False by set_solver. }
  rewrite IH by (intros; apply Hr; by constructor). unfold status_row. cbn [fst snd].
  assert (y = Sold \/ y = Held) as Hy by (apply (Hr (x, y)); constructor).
  destruct (decide (s = x)) as [->|Hne].
  - destruct (decide (out !! x = Some Sold)) as [Ho|Ho].
    + rewrite Ho. rewrite !decide_True by auto. done.
    + rewrite lookup_insert_eq. destruct Hy as [-> | ->].
      * rewrite !decide_True by set_solver. done.
      * destruct (decide ((x, Sold) ∈ rows)); [rewrite !decide_True by set_solver; done|].
        rewrite (decide_False (P := _ \/ _)) by naive_solver.
        rewrite (decide_False (P := _ \/ (x, Sold) ∈ (x, Held) :: rows)) by set_solver.
        rewrite (decide_True (P := (x, Held) ∈ (x, Held) :: rows)) by set_solver. by case_decide.
  - assert ((if decide (out !! x = Some Sold) then out else <[x:=y]> out) !! s = out !! s) as ->.
    { destruct (decide (out !! x = Some Sold)); [done|]. by rewrite lookup_insert_ne by congruence. }
    assert (forall z, (s, z) ∈ rows <-> (s, z) ∈ (x, y) :: rows) as Hz by set_solver.
    repeat case_decide; naive_solver.
Qed.

Lemma available_lookup (ss : list string) (out : gmap string SeatStatus) s :
  fold_left (fun (out : gmap string SeatStatus) id => <[id := Available]> out) ss out !! s =
    if decide (s ∈ ss) then Some Available else out !! s.
Proof.
  revert out. induction ss as [|x ss IH]; intros out; cbn [fold_left].
  { rewrite decide_False by set_solver. done. }
  rewrite IH. destruct (decide (s ∈ ss)); [rewrite decide_True by set_solver; done|].
  destruct (decide (s = x)) as [->|].
  - rewrite lookup_insert_eq, decide_True by set_solver. done.
  - rewrite lookup_insert_ne, decide_False by set_solver. done.
Qed.

Lemma elem_of_SeatStatusRows (e : Z) (ss : list string) (now : Z) (d : PG) (h : Holds) (s : string) (x : SeatStatus) :
  (s, x) ∈ SeatStatusRows e ss now d h <->
    s ∈ ss /\ (x = Sold /\ s ∈ ticketed d e \/
                x = Held /\ exists r, h !! (e, s) = Some r /\ live_hold now r = true).
Proof.
  unfold SeatStatusRows. rewrite elem_of_app, list_elem_of_fmap, list_elem_of_omap. split.
  - intros [(s' & [= -> ->] & Hs)|([[e' s'] r] & Hin & Hr)].
    + apply list_elem_of_filter in Hs as [? ?]. auto.
    + apply elem_of_map_to_list in Hin. cbn [fst snd] in Hr. case_decide as Hd; [|done].
      destruct Hd as (-> & Hs & Hl). injection Hr as -> ->. eauto 10.
  - intros [Hs [[-> Ht]|(-> & r & Hr & Hl)]].
    + left. exists s. split; [done|]. by apply list_elem_of_filter.
    + right. exists ((e, s), r). split; [by apply elem_of_map_to_list|]. cbn [fst snd]. by rewrite decide_True.
Qed.

Lemma pg_Status_spec e ss w :
  status_spec (pg_owners w) (pg_owners (run (pg_Status e ss) w).2) e ss (run (pg_Status e ss) w).1.
Proof.
  unfold pg_Status. rewrite run_bind, run_act.
  match goal with |- context [stmt_holds ?q w] => pose proof (stmt_holds_spec q w) as S end.
  destruct (stmt_holds _ w) as [r w']. destruct S as [(P & _ & _ & _ & N) S]. cbn [fst snd].
  assert (seat_holds w' = seat_holds w) as Hh.
  { destruct r; [by injection S|]. destruct S as [S|(a & [= _ S])]; congruence. }
  assert (same_owners (pg_owners w') (pg_owners w)) as Hsame by (unfold pg_owners; by rewrite P, N, Hh).
  unfold status_spec. destruct r as [rows|er]; cbn [run fst snd]; [|done]. split; [done|]. injection S as <- _.
  intros s. rewrite status_rows_lookup.
  2:{ intros [s' x] Hin. apply elem_of_SeatStatusRows in Hin. naive_solver. }
  rewrite available_lookup, lookup_empty.
  destruct (decide (s ∈ ss)) as [Hs|Hs].
  2:{ rewrite !decide_False; [done|rewrite ?elem_of_SeatStatusRows; naive_solver..]. }
  intros _. unfold pg_owners, pg_owner. destruct (ticket_of (pg w) e s) as [o|] eqn:Ht.
  - rewrite decide_True; [done|]. right. apply elem_of_SeatStatusRows. split; [done|]. left. split; [done|].
    destruct (decide (s ∈ ticketed (pg w) e)) as [|Hn]; [done|]. apply ticket_of_None in Hn. congruence.
  - apply ticket_of_None in Ht. rewrite decide_False by (rewrite elem_of_SeatStatusRows; by intros [?|[_ [[_ ?]|[? _]]]]).
    destruct (seat_holds w !! (e, s)) as [r|] eqn:Hr; [destruct (live_hold (pg_now w) r) eqn:Hl|].
    + rewrite decide_True by (rewrite elem_of_SeatStatusRows; eauto 10). done.
    + rewrite decide_False by (rewrite elem_of_SeatStatusRows; intros [_ [[? _]|(_ & r' & Hr' & Hl')]]; congruence). done.
    + rewrite decide_False by (rewrite elem_of_SeatStatusRows; intros [_ [[? _]|(_ & r' & Hr' & Hl')]]; congruence). done.
Qed.

#[global] Instance pg_spec : InventorySpec PGInventory (fun w => tickets_unique (pg w)).
Proof.
  refine {| owners := pg_owners |}; intros.
  - by apply pg_Hold_spec.
  - apply pg_Release_spec.
  - by apply pg_Confirm_spec.
  - apply pg_Status_spec.
Defined.
End pginv.

(** ** Properties *)

(** C17. The PostgreSQL backend implements the same contract as the Redis one,
    in every state whose tickets are one per seat and for requests without
    duplicate seats: all seats or none, taken seats reported (ticketed seats and
    live holds of other orders), holding again succeeds, Release drops only the
    order's own holds, Confirm succeeds only when every seat is ticketed for the
    order and then changes no owner, Status ranks a ticket above a stale hold. *)
Theorem pg_inventory_contract {R} (w : World R) (e : Z) (ss : list string) (o : UUID) (ttl : Z)
    (Hu : tickets_unique (pg w)) (Hnd : NoDup ss) (Httl : 1000 <= ttl) :
  let hold := run (pg_Hold e ss o ttl) w in
  let release := run (pg_Release e ss o) w in
  let confirm := run (pg_Confirm e ss o) w in
  let status := run (pg_Status e ss) w in
  hold_spec (pg_owners w) (pg_owners hold.2) e ss o hold.1 /\
  release_spec (pg_owners w) (pg_owners release.2) e ss o release.1 /\
  confirm_spec (pg_owners w) (pg_owners confirm.2) e ss o confirm.1 /\
  status_spec (pg_owners w) (pg_owners status.2) e ss status.1.
Proof.
  split_and!; [by apply pg_Hold_spec|apply pg_Release_spec|by apply pg_Confirm_spec|apply pg_Status_spec].
Qed.
