(* ===== verification/Catalog.v ===== *)
(** * The catalog service (internal/catalog/catalog.go and catalogdb)

    A process loads an event and its seats once and keeps them, and remembers
    that a sale has opened; the tables events and seats do not change after
    seeding. *)

From S2P Require Import Prelude GoLib Effects CatalogEvent World Frame OrderDB Inventory.
Local Open Scope tr_scope.

(** ** Queries *)

Definition GetEvent (id : Z) (now : Z) (d : PG) : res GoErr (EventRow * PG) :=
  match db_events d !! id with Some r => select r d | None => no_rows end.

(** ORDER BY price_vnd DESC, zone, length(row_label), row_label, seat_no *)
Definition display_leb (a b : string * SeatRow) : bool :=
  let '(x, y) := (a.2, b.2) in
  if negb (bool_decide (s_PriceVnd x = s_PriceVnd y)) then s_PriceVnd y <? s_PriceVnd x
  else if negb (bool_decide (s_Zone x = s_Zone y)) then String.leb (s_Zone x) (s_Zone y)
  else if negb (bool_decide (String.length (s_RowLabel x) = String.length (s_RowLabel y)))
  then Nat.leb (String.length (s_RowLabel x)) (String.length (s_RowLabel y))
  else if negb (bool_decide (s_RowLabel x = s_RowLabel y)) then String.leb (s_RowLabel x) (s_RowLabel y)
  else s_SeatNo x <=? s_SeatNo y.
Definition display_le (a b : string * SeatRow) : Prop := display_leb a b = true.
#[global] Instance display_le_dec : RelDecision display_le.
Proof. intros a b. unfold display_le. apply _. Defined.

Definition event_seats (d : PG) (eventID : Z) : list (string * SeatRow) :=
  omap (fun kv : (Z * string) * SeatRow => if decide (kv.1.1 = eventID) then Some (kv.1.2, kv.2) else None)
    (map_to_list (db_seats d)).

Definition ListSeats (eventID : Z) (now : Z) (d : PG) : res GoErr (list (string * SeatRow) * PG) :=
  select (merge_sort display_le (event_seats d eventID)) d.

Definition IsSaleOpen (id : Z) (now : Z) (d : PG) : res GoErr (bool * PG) :=
  match db_events d !! id with Some r => select (e_SaleOpensAt r <=? now) d | None => no_rows end.

Definition ListOpenEventIDs (now : Z) (d : PG) : res GoErr (list Z * PG) :=
  select (merge_sort Z.le (fst <$> map_to_list (filter (fun kv : Z * EventRow => e_SaleOpensAt kv.2 <= now) (db_events d)))) d.

(** ** Service *)

Section catalog.
Context {R : Type}.
Implicit Types w : World R.

Definition catalog_of (proc : nat) w : Catalog := default empty_Catalog (catalogs w !! proc).

Definition layout (rows : list (string * SeatRow)) : list Seat :=
  (fun kv : string * SeatRow => mkSeat kv.1 (s_Zone kv.2) (s_RowLabel kv.2) (s_SeatNo kv.2) (s_PriceVnd kv.2)) <$> rows.

Definition event_of (id : Z) (row : EventRow) (rows : list (string * SeatRow)) : Event :=
  setSeats (layout rows)
    (mkEvent id (e_Name row) (e_Venue row) (e_StartsAt row) (e_SaleOpensAt row) (e_MaxSeatsPerOrder row) [] [] [] ∅).

Definition load (id : Z) : prog (World R) (res GoErr Event) :=
  let! r := act (stmt (GetEvent id)) in
  match r with
  | Err (EPg NoRows) => Ret (Err ErrEventNotFound)
  | Err e => Ret (Err e)
  | Ok row =>
      let? seats := act (stmt (ListSeats id)) in
      Ret (Ok (event_of id row seats))
  end.

Definition cache_event (proc : nat) (id : Z) (ev : Event) w : unit * World R :=
  let c := catalog_of proc w in
  (tt, set_catalogs (<[proc := mkCatalog (<[id := ev]> (c_events c)) (c_saleOpen c)]> (catalogs w)) w).

Definition cache_open (proc : nat) (id : Z) w : unit * World R :=
  let c := catalog_of proc w in
  (tt, set_catalogs (<[proc := mkCatalog (c_events c) (<[id := true]> (c_saleOpen c))]> (catalogs w)) w).

(** Concurrent first requests share one load (singleflight); each of them sees
    the answer of a load, as here. *)
Definition Catalog_Event (proc : nat) (id : Z) : prog (World R) (res GoErr Event) :=
  let! hit := act (fun w => (c_events (catalog_of proc w) !! id, w)) in
  match hit with
  | Some ev => Ret (Ok ev)
  | None =>
      let? ev := load id in
      let! _ := act (cache_event proc id ev) in
      Ret (Ok ev)
  end.

Definition SaleOpen (proc : nat) (eventID : Z) : prog (World R) (res GoErr bool) :=
  let! open := act (fun w => (default false (c_saleOpen (catalog_of proc w) !! eventID), w)) in
  if open : bool then Ret (Ok true)
  else
    let! r := act (stmt (IsSaleOpen eventID)) in
    match r with
    | Err (EPg NoRows) => Ret (Err ErrEventNotFound)
    | Err e => Ret (Err e)
    | Ok true => let! _ := act (cache_open proc eventID) in Ret (Ok true)
    | Ok false => Ret (Ok false)
    end.

Definition OpenEventIDs : prog (World R) (res GoErr (list Z)) := act (stmt ListOpenEventIDs).

(** SeatMap: the version (when the backend counts one) is read before the
    statuses. *)
Record SeatMapResult := mkSeatMap { sm_Version : Z; sm_Versioned : bool; sm_Seats : list (Seat * SeatStatus) }.

Definition SeatMap (proc : nat) (inv : Inventory R) (versioner : option (Z -> prog (World R) (res GoErr Z))) (eventID : Z)
  : prog (World R) (res GoErr SeatMapResult) :=
  let? ev := Catalog_Event proc eventID in
  let? version := (match versioner with Some v => v eventID | None => Ret (Ok 0) end) in
  let? status := SeatStatuses inv eventID (Event_seatIDs ev) in
  Ret (Ok (mkSeatMap version (match versioner with Some _ => true | None => false end)
    ((fun st => (st, default Available (status !! Seat_ID st))) <$> Event_Seats ev))).

Lemma act_catalog_frame {X} (f : World R -> X * World R) :
  (forall w, pg (f w).2 = pg w /\ outbox_seq (f w).2 = outbox_seq w /\ gateway (f w).2 = gateway w /\
     klog (f w).2 = klog w /\ pg_now (f w).2 = pg_now w) -> keeps_books (act f).
Proof. intros Hf. apply respects_act. intros w _. split; [done|apply Hf]. Qed.

(** A statement that only reads. *)
Lemma act_read_frame {A} (q : Z -> PG -> res GoErr (A * PG)) :
  (forall now d a d', q now d = Ok (a, d') -> d' = d) -> keeps_books (act (stmt (R := R) q)).
Proof.
  intros Hq. apply act_catalog_frame. intros w. unfold stmt, call.
  destruct (pop_fault w) as [fl w0] eqn:Hp. apply pop_fault_books in Hp as [(H1 & H2 & H3 & H4 & H5) _].
  destruct fl; [|done|]; destruct (q (pg_now w0) (pg w0)) as [[a d]|e] eqn:Hr; simpl; try done;
    apply Hq in Hr; subst; done.
Qed.

Lemma Catalog_Event_frame proc id : keeps_books (Catalog_Event proc id).
Proof.
  unfold Catalog_Event, load. apply respects_bind; [by apply act_catalog_frame|intros [ev|]; [done|]].
  apply respects_bind; [|intros [ev|]; [|done]; apply respects_bind; [by apply act_catalog_frame|done]].
  apply respects_bind; [apply act_read_frame|intros [row|e]].
  - unfold GetEvent, select, no_rows. intros now d a d' Hq. case_match; congruence.
  - apply respects_bind; [apply act_read_frame|by intros []]. unfold ListSeats, select. intros now d a d' Hq. congruence.
  - by repeat case_match.
Qed.

Lemma SaleOpen_frame proc id : keeps_books (SaleOpen proc id).
Proof.
  unfold SaleOpen. apply respects_bind; [by apply act_catalog_frame|intros []; [done|]].
  apply respects_bind; [apply act_read_frame|intros [[]|e]].
  - unfold IsSaleOpen, select, no_rows. intros now d a d' Hq. case_match; congruence.
  - apply respects_bind; [by apply act_catalog_frame|done].
  - done.
  - by repeat case_match.
Qed.

(** ** The cache is transparent *)

(** What a load would answer. *)
Definition loaded (d : PG) (id : Z) : option Event :=
  (fun row => event_of id row (merge_sort display_le (event_seats d id))) <$> db_events d !! id.

(** Everything cached is what the tables say. *)
Definition catalog_ok w : Prop :=
  forall proc c, catalogs w !! proc = Some c ->
    (forall id ev, c_events c !! id = Some ev -> loaded (pg w) id = Some ev) /\
    (forall id, c_saleOpen c !! id = Some true ->
       exists row, db_events (pg w) !! id = Some row /\ e_SaleOpensAt row <= pg_now w).

Lemma catalog_ok_of proc w :
  catalog_ok w ->
  (forall id ev, c_events (catalog_of proc w) !! id = Some ev -> loaded (pg w) id = Some ev) /\
  (forall id, c_saleOpen (catalog_of proc w) !! id = Some true ->
     exists row, db_events (pg w) !! id = Some row /\ e_SaleOpensAt row <= pg_now w).
Proof.
  intros Hok. unfold catalog_of. destruct (catalogs w !! proc) as [c|] eqn:Hc; [by apply (Hok proc)|]. simpl.
  split; intros *; rewrite lookup_empty; done.
Qed.

Lemma cache_event_ok proc id ev w :
  catalog_ok w -> loaded (pg w) id = Some ev -> catalog_ok (cache_event proc id ev w).2.
Proof.
  intros Hok Hl p c. simpl. destruct (catalog_ok_of proc w Hok) as [He Ho].
  destruct (decide (p = proc)) as [->|Hne].
  - rewrite lookup_insert_eq. intros [= <-]. simpl. split; [|done]. intros id' ev'.
    destruct (decide (id' = id)) as [->|]; [rewrite lookup_insert_eq; naive_solver|].
    rewrite lookup_insert_ne by done. apply He.
  - rewrite lookup_insert_ne by done. apply Hok.
Qed.

Lemma cache_open_ok proc id w row :
  catalog_ok w -> db_events (pg w) !! id = Some row -> e_SaleOpensAt row <= pg_now w ->
  catalog_ok (cache_open proc id w).2.
Proof.
  intros Hok Hr Ht p c. simpl. destruct (catalog_ok_of proc w Hok) as [He Ho].
  destruct (decide (p = proc)) as [->|Hne].
  - rewrite lookup_insert_eq. intros [= <-]. simpl. split; [done|]. intros id'.
    destruct (decide (id' = id)) as [->|]; [rewrite lookup_insert_eq; eauto|].
    rewrite lookup_insert_ne by done. apply Ho.
  - rewrite lookup_insert_ne by done. apply Hok.
Qed.

Lemma load_nofault id w :
  faults w = [] ->
  run (load id) w = (match loaded (pg w) id with Some ev => Ok ev | None => Err ErrEventNotFound end, w).
Proof.
  intros Hf. unfold load, loaded. rewrite run_bind, run_act, (stmt_nofault _ w Hf). unfold GetEvent.
  destruct (db_events (pg w) !! id) as [row|]; simpl; [|done]. rewrite set_pg_id.
  by rewrite (stmt_nofault _ w Hf); simpl; rewrite set_pg_id.
Qed.

Lemma Catalog_Event_nofault proc id w :
  catalog_ok w -> faults w = [] ->
  exists w', run (Catalog_Event proc id) w =
      (match loaded (pg w) id with Some ev => Ok ev | None => Err ErrEventNotFound end, w') /\
    books_kept w w' /\ catalog_ok w' /\ faults w' = [] /\
    (forall ev, loaded (pg w) id = Some ev -> c_events (catalog_of proc w') !! id = Some ev).
Proof.
  intros Hok Hf. unfold Catalog_Event. rewrite run_bind, run_act. cbn [fst snd].
  destruct (c_events (catalog_of proc w) !! id) as [ev|] eqn:Hc.
  - exists w. rewrite (proj1 (catalog_ok_of proc w Hok) id ev Hc). split_and!; try done. naive_solver.
  - rewrite run_bind, (load_nofault id w Hf). cbn [fst snd].
    destruct (loaded (pg w) id) as [ev|] eqn:Hl; [|by exists w; split_and!].
    exists (cache_event proc id ev w).2. split_and!; try done; [by apply cache_event_ok|].
    intros ev' [= <-]. unfold catalog_of, cache_event. simpl. by rewrite lookup_insert_eq; simpl; rewrite lookup_insert_eq.
Qed.

Lemma SaleOpen_nofault proc id w :
  catalog_ok w -> faults w = [] ->
  exists w', run (SaleOpen proc id) w =
      (match db_events (pg w) !! id with Some row => Ok (e_SaleOpensAt row <=? pg_now w) | None => Err ErrEventNotFound end, w') /\
    books_kept w w' /\ catalog_ok w' /\ faults w' = [].
Proof.
  intros Hok Hf. unfold SaleOpen. rewrite run_bind, run_act. cbn [fst snd].
  destruct (c_saleOpen (catalog_of proc w) !! id) as [[]|] eqn:Hc; cbn [default from_option]; unfold Datatypes.id.
  1:{ destruct (proj2 (catalog_ok_of proc w Hok) id Hc) as (row & Hr & Ht). exists w.
      rewrite Hr, (proj2 (Z.leb_le _ _) Ht). by split_and!. }
  all: rewrite run_bind, run_act, (stmt_nofault _ w Hf); unfold IsSaleOpen;
    destruct (db_events (pg w) !! id) as [row|] eqn:Hr; cbn [select no_rows fst snd]; [|by exists w];
    rewrite set_pg_id; destruct (Z.leb_spec (e_SaleOpensAt row) (pg_now w)) as [Ht|Ht]; [|by exists w];
    exists (cache_open proc id w).2; split_and!; try done; by eapply cache_open_ok.
Qed.
End catalog.

(** ** Properties *)

(** C34. The catalog cache is transparent: while what a process has cached agrees
    with the tables (as it does in a fresh process), Event answers what the
    tables hold, whether or not it was cached, and SaleOpen answers whether the
    opening time has passed by the database clock; an unknown event is reported
    as such; both leave the cache in agreement with the tables, and an event
    once loaded is answered from memory even when the database is down. *)
Theorem catalog_cache_transparent {R} (proc : nat) (id : Z) (w : World R)
    (Hok : catalog_ok w) (Hf : faults w = []) :
  (exists w', run (Catalog_Event proc id) w =
      (match loaded (pg w) id with Some ev => Ok ev | None => Err ErrEventNotFound end, w') /\
    pg w' = pg w /\ catalog_ok w' /\
    (forall ev, loaded (pg w) id = Some ev ->
       forall fs, run (Catalog_Event proc id) (set_faults fs w') = (Ok ev, set_faults fs w'))) /\
  (exists w', run (SaleOpen proc id) w =
      (match db_events (pg w) !! id with
       | Some row => Ok (e_SaleOpensAt row <=? pg_now w)
       | None => Err ErrEventNotFound
       end, w') /\
    pg w' = pg w /\ catalog_ok w').
Proof.
  split.
  - destruct (Catalog_Event_nofault proc id w Hok Hf) as (w' & Hr & (Hp & _) & Hok' & _ & Hc).
    exists w'. split_and!; try done. intros ev Hev fs. unfold Catalog_Event. rewrite run_bind, run_act. cbn [fst snd].
    change (catalog_of proc (set_faults fs w')) with (catalog_of proc w'). by rewrite (Hc ev Hev).
  - destruct (SaleOpen_nofault proc id w Hok Hf) as (w' & Hr & (Hp & _) & Hok' & _). by exists w'.
Qed.
