(* ===== verification/Outbox.v ===== *)
(** * The transactional outbox and its relay (internal/outbox, internal/events)

    [Write] adds a message inside the transaction that makes the change it
    describes; [RunOnce] publishes a batch of messages to Kafka and marks them
    published, [Cleanup] deletes old published ones. The loop is in Loops.v. *)

From S2P Require Import Prelude GoLib Effects World.
Local Open Scope tr_scope.

(** ** Topics, event types and headers (events.go) *)

Definition TopicOrders : string := "orders.v1".
Definition TopicTickets : string := "tickets.v1".
Definition HeaderEventType : string := "event_type".
Definition HeaderEventID : string := "event_id".
Definition OrderHeld : string := "order.held".
Definition OrderPaid : string := "order.paid".
Definition OrderExpired : string := "order.expired".
Definition OrderCancelled : string := "order.cancelled".
Definition OrderRefundRequested : string := "order.refund_requested".
Definition OrderRefunded : string := "order.refunded".
Definition TicketIssued : string := "ticket.issued".

Record Message := mkMessage { m_Topic : string; m_Key : string; m_EventType : string; m_Payload : OrderEvent }.

(** [payload || jsonb_build_object('event_id', ..., 'event_type', ..., 'occurred_at', ...)] *)
Definition stamp (id : Z) (eventType : string) (now : Z) (p : OrderEvent) : OrderEvent :=
  mkOrderEvent id eventType now (ev_OrderID p) (ev_Event p) (ev_UserID p) (ev_SeatIDs p) (ev_TotalVND p)
    (ev_ProviderTxnID p) (ev_AmountVND p) (ev_Reason p).

Definition outbox_row (id now : Z) (m : Message) : OutboxRow :=
  mkOutboxRow (m_Topic m) (m_Key m) (m_EventType m) (stamp id (m_EventType m) now (m_Payload m)) None.

(** ** Queries *)

Definition unpublished (skip : gset Z) (kv : Z * OutboxRow) : Prop := ob_PublishedAt kv.2 = None /\ kv.1 ∉ skip.
#[global] Instance unpublished_dec skip kv : Decision (unpublished skip kv).
Proof. unfold unpublished. apply _. Defined.

Definition by_id {X} (a b : Z * X) : Prop := a.1 <= b.1.
#[global] Instance by_id_dec {X} : RelDecision (@by_id X).
Proof. intros a b. unfold by_id. apply _. Defined.

(** ORDER BY id LIMIT batchSize FOR UPDATE SKIP LOCKED; [skip] are the rows
    another relay has locked. *)
Definition LockUnpublished (batchSize : nat) (skip : gset Z) (now : Z) (d : PG) : res GoErr (list (Z * OutboxRow) * PG) :=
  Ok (take batchSize (merge_sort by_id (map_to_list (filter (unpublished skip) (outbox d)))), d).

Definition mark (now : Z) (r : OutboxRow) : OutboxRow :=
  mkOutboxRow (ob_Topic r) (ob_MsgKey r) (ob_EventType r) (ob_Payload r) (Some now).

Definition mark_all (now : Z) (ids : list Z) (m : gmap Z OutboxRow) : gmap Z OutboxRow :=
  fold_left (fun m id => alter (mark now) id m) ids m.

Definition MarkPublished (ids : list Z) (now : Z) (d : PG) : res GoErr (unit * PG) :=
  Ok (tt, set_outbox (mark_all now ids (outbox d)) d).

Definition published_before (limit : Z) (kv : Z * OutboxRow) : Prop :=
  match ob_PublishedAt kv.2 with Some t => t < limit | None => False end.
#[global] Instance published_before_dec limit kv : Decision (published_before limit kv).
Proof. unfold published_before. destruct (ob_PublishedAt kv.2); apply _. Defined.

Definition old_rows (retention : Z) (batchSize : nat) (now : Z) (d : PG) : list (Z * OutboxRow) :=
  take batchSize (merge_sort by_id (map_to_list (filter (published_before (now - Microseconds retention)) (outbox d)))).

Definition DeletePublishedBefore (retention : Z) (batchSize : nat) (now : Z) (d : PG) : res GoErr (nat * PG) :=
  let l := old_rows retention batchSize now d in
  Ok (length l, set_outbox (fold_left (fun m kv => delete kv.1 m) l (outbox d)) d).

Definition CountUnpublished (now : Z) (d : PG) : res GoErr (nat * PG) :=
  Ok (size (filter (fun kv : Z * OutboxRow => ob_PublishedAt kv.2 = None) (outbox d)), d).

Section outbox.
Context {R : Type}.
Implicit Types w : World R.

(** nextval draws the id first; a later rollback does not give it back. *)
Definition InsertMessage (m : Message) : M R Z :=
  call (EPg Infra) (fun w =>
    let id := outbox_seq w in
    let w1 := set_outbox_seq (id + 1) w in
    if bool_decide (is_Some (outbox (pg w) !! id)) then (Err (EPg (UniqueViolation "outbox_pkey")), w1)
    else (Ok id, set_pg (set_outbox (<[id := outbox_row id (pg_now w) m]> (outbox (pg w))) (pg w)) w1)).

(** The payload always encodes. *)
Definition Write (m : Message) : M R Z := InsertMessage m.

(** ** The relay (relay.go) *)

Definition RelayBatchSize : nat := 500.
Definition Retention : Z := 7 * 24 * 3600 * Second.
Definition cleanupMaxBatch : nat := N.to_nat 10000.

Definition record_of (kv : Z * OutboxRow) : KRecord :=
  mkKRecord (ob_Topic kv.2) (ob_MsgKey kv.2)
    [(HeaderEventType, ob_EventType kv.2); (HeaderEventID, FormatInt kv.1)] (ob_Payload kv.2).

(** [ProduceSync(...).FirstErr()]: every record is tried, each is acknowledged
    or fails (with or without having been written); the first error is
    reported. *)
Definition produce (r : KRecord) : M R unit :=
  call EInfra (fun w => (Ok tt, set_klog (klog w ++ [r]) w)).

Fixpoint ProduceSync (rs : list KRecord) : M R unit :=
  match rs with
  | [] => mret tt
  | r :: rs =>
      try x := produce r in
      try y := ProduceSync rs in
      match x with Err e => mfail e | Ok _ => match y with Err e => mfail e | Ok _ => mret tt end end
  end.

Definition RunOnce_tx (skip : gset Z) : M R nat :=
  let* rows := stmt (LockUnpublished RelayBatchSize skip) in
  match rows with
  | [] => mret 0%nat
  | _ =>
      let* _ := ProduceSync (record_of <$> rows) in
      let* _ := stmt (MarkPublished rows.*1) in
      mret (length rows)
  end.

Definition Relay_RunOnce (skip : gset Z) : prog (World R) (res GoErr nat) := act (BeginFunc (RunOnce_tx skip)).

(** The loop of Cleanup, one chunk per statement; an error comes with the
    number of rows deleted before it. *)
Fixpoint cleanup_loop (fuel : nat) (total : nat) : prog (World R) (nat * option GoErr) :=
  match fuel with
  | O => Ret (total, Some (EOther "out of fuel"))
  | S fuel =>
      let! r := act (stmt (DeletePublishedBefore Retention cleanupMaxBatch)) in
      match r with
      | Err e => Ret (total, Some e)
      | Ok n =>
          let total := (total + n)%nat in
          if Nat.ltb n cleanupMaxBatch then Ret (total, None) else cleanup_loop fuel total
      end
  end.
Definition Cleanup (fuel : nat) : prog (World R) (nat * option GoErr) := cleanup_loop fuel 0.

(** ** Facts *)

Lemma Write_ok (m : Message) w id w' :
  Write m w = (Ok id, w') ->
  id = outbox_seq w /\ outbox (pg w) !! id = None /\ outbox_seq w' = id + 1 /\
  pg w' = set_outbox (<[id := outbox_row id (pg_now w) m]> (outbox (pg w))) (pg w) /\
  ids w' = ids w /\ env_eq w w'.
Proof.
  intros H. apply call_ok in H as (w0 & H & Hpg & Hs & Hi & He).
  assert (pg_now w0 = pg_now w) as Hn by apply He.
  rewrite Hpg, Hs, Hn in H. cbn zeta in H. case_bool_decide as Hk; [done|]. injection H as <- <-. simpl.
  split_and!; try done. by destruct (outbox (pg w) !! outbox_seq w) eqn:?; [destruct Hk|].
Qed.

Lemma Write_nofault (m : Message) w :
  faults w = [] -> outbox (pg w) !! outbox_seq w = None ->
  Write m w = (Ok (outbox_seq w),
    set_pg (set_outbox (<[outbox_seq w := outbox_row (outbox_seq w) (pg_now w) m]> (outbox (pg w))) (pg w))
      (set_outbox_seq (outbox_seq w + 1) w)).
Proof.
  intros Hf Hk. unfold Write, InsertMessage, call. rewrite (pop_fault_nil w Hf).
  by rewrite Hk, bool_decide_eq_false_2 by (by intros [? ?]).
Qed.

Lemma mark_all_lookup now ids (m : gmap Z OutboxRow) id :
  mark_all now ids m !! id = if decide (id ∈ ids) then mark now <$> m !! id else m !! id.
Proof.
  unfold mark_all. revert m. induction ids as [|x ids IH]; intros m; cbn [fold_left].
  { rewrite decide_False by apply not_elem_of_nil. done. }
  rewrite IH. destruct (decide (id = x)) as [->|Hne].
  - rewrite lookup_alter_eq, (decide_True (P := x ∈ x :: ids)) by set_solver.
    case_decide; [|done]. by destruct (m !! x).
  - rewrite lookup_alter_ne by done. by rewrite (decide_ext (id ∈ ids) (id ∈ x :: ids)) by set_solver.
Qed.

Lemma delete_all_lookup (l : list (Z * OutboxRow)) (m : gmap Z OutboxRow) id :
  fold_left (fun m kv => delete kv.1 m) l m !! id = if decide (id ∈ l.*1) then None else m !! id.
Proof.
  revert m. induction l as [|x l IH]; intros m; cbn [fold_left].
  { rewrite decide_False by apply not_elem_of_nil. done. }
  rewrite IH, fmap_cons. destruct (decide (id ∈ l.*1)); [rewrite decide_True by set_solver; done|].
  destruct (decide (id = x.1)) as [->|].
  - rewrite lookup_delete_eq, decide_True by set_solver. done.
  - rewrite lookup_delete_ne, decide_False by set_solver. done.
Qed.
End outbox.
