(* ===== verification/Payment.v ===== *)
(** * Payment webhooks (internal/payment/payment.go) *)

From S2P Require Import Prelude GoLib Crypto World OrderDB.

(** PaidAt is carried along and never read. *)
Record Webhook := mkWebhook {
  wh_ProviderTxnID : string; wh_OrderID : UUID; wh_AmountVND : Z; wh_Status : string;
}.

(** [None] is a valid body; the text is the reason it is not. *)
Definition Validate (w : Webhook) : option string :=
  if bool_decide (wh_ProviderTxnID w = EmptyString) || Nat.ltb 128 (String.length (wh_ProviderTxnID w))
  then Some "provider_txn_id must be 1-128 characters"
  else if bool_decide (wh_OrderID w = uuid_Nil) then Some "order_id is required"
  else if negb (bool_decide (wh_Status w = StatusSucceeded)) && negb (bool_decide (wh_Status w = StatusFailed))
  then Some "status must be SUCCEEDED or FAILED"
  else if wh_AmountVND w <? 0 then Some "amount_vnd must not be negative"
  else if bool_decide (wh_Status w = StatusSucceeded) && (wh_AmountVND w =? 0)
  then Some "a SUCCEEDED payment must have a positive amount_vnd"
  else None.

Definition Sign (secret : string) (body : Bytes) : string :=
  hex_EncodeToString (hmac_sha256 (bytes_of secret) body).

(** [hmac.Equal] compares in constant time; here only the answer counts. *)
Definition VerifySignature (secret : string) (body : Bytes) (signature : string) : bool :=
  match hex_DecodeString signature with
  | None => false
  | Some got => bool_decide (got = hmac_sha256 (bytes_of secret) body)
  end.

Lemma Validate_ok w :
  Validate w = None ->
  wh_ProviderTxnID w <> EmptyString /\ wh_OrderID w <> uuid_Nil /\
  (wh_Status w = StatusFailed \/ wh_Status w = StatusSucceeded /\ 0 < wh_AmountVND w) /\ 0 <= wh_AmountVND w.
Proof.
  unfold Validate. intros Hv.
  destruct (bool_decide (wh_ProviderTxnID w = EmptyString) || _) eqn:H1; [done|].
  destruct (bool_decide (wh_OrderID w = uuid_Nil)) eqn:H2; [done|].
  destruct (negb _ && negb _) eqn:H3; [done|].
  destruct (wh_AmountVND w <? 0) eqn:H4; [done|].
  destruct (bool_decide (wh_Status w = StatusSucceeded) && _) eqn:H5; [done|].
  bool_to_prop. split_and!; try done.
  apply andb_false_iff in H3. apply andb_false_iff in H5.
  destruct (decide (wh_Status w = StatusSucceeded)) as [Hs|Hs].
  - right. split; [done|]. destruct H5 as [H5|H5]; bool_to_prop; [done|lia].
  - left. destruct H3 as [H3|H3]; bool_to_prop; done.
Qed.

(** ** Properties *)

(** A signature made by Sign is accepted by Verify for the same body and
    secret, and Verify accepts nothing but a hexadecimal text of that body's
    HMAC. *)
Theorem webhook_signature_roundtrip (secret : string) (body : Bytes) (signature : string) :
  VerifySignature secret body (Sign secret body) = true /\
  (VerifySignature secret body signature = true <->
   hex_DecodeString signature = Some (hmac_sha256 (bytes_of secret) body)).
Proof.
  unfold VerifySignature, Sign. split.
  - rewrite hex_string_roundtrip by apply hmac_ok. by apply bool_decide_eq_true_2.
  - destruct (hex_DecodeString signature) as [got|]; [|done]. rewrite bool_decide_eq_true. naive_solver.
Qed.
