(* ===== verification/OrderRequest.v ===== *)
(** * Order requests (internal/order/request.go)

    Validation of a create request against its event, and the hash that tells
    a replay of an Idempotency-Key from its reuse with a different request.
    [json_string] is encoding/json's string encoder with its default HTML
    escaping. *)

From S2P Require Import Prelude GoLib Crypto CatalogEvent World.

Record CreateRequest := mkCreateRequest { cr_EventID : Z; cr_SeatIDs : list string }.

(** ** normalize *)

(** The loop over the sorted seats; [prev] is seats[i-1]. *)
Fixpoint check_seats (ev : Event) (prev : option string) (seats : list string) : res GoErr unit :=
  match seats with
  | [] => Ok tt
  | id :: seats =>
      if bool_decide (prev = Some id) then Err (ErrValidation "seat_ids" ("duplicate seat " +:+ id))
      else match Event_Seat ev id with
           | None => Err (ErrValidation "seat_ids" ("unknown seat " +:+ id))
           | Some _ => check_seats ev (Some id) seats
           end
  end.

Definition normalize (r : CreateRequest) (ev : Event) : res GoErr CreateRequest :=
  let n := Z.of_nat (length (cr_SeatIDs r)) in
  if n =? 0 then Err (ErrValidation "seat_ids" "at least one seat is required")
  else if Event_MaxSeatsPerOrder ev <? n
  then Err (ErrValidation "seat_ids" ("at most " +:+ FormatInt (Event_MaxSeatsPerOrder ev) +:+ " seats per order"))
  else
    let seats := Sort (cr_SeatIDs r) in
    match check_seats ev None seats with
    | Err e => Err e
    | Ok _ => Ok (mkCreateRequest (cr_EventID r) seats)
    end.

(** ** requestHash *)

(** One byte below 0x80. *)
Definition esc (b : Z) : Bytes :=
  if (b =? 34) || (b =? 92) then [92; b]
  else if b =? 8 then [92; 98]
  else if b =? 12 then [92; 102]
  else if b =? 10 then [92; 110]
  else if b =? 13 then [92; 114]
  else if b =? 9 then [92; 116]
  else if (b <? 32) || (b =? 60) || (b =? 62) || (b =? 38)
  then [92; 117; 48; 48; hex_digit (b / 16); hex_digit (b mod 16)]
  else [b].

Definition between (lo hi x : Z) : bool := (lo <=? x) && (x <=? hi).

(** The length of the UTF-8 sequence a string starts with, if it is valid. *)
Definition utf8_size (b : Bytes) : option nat :=
  match b with
  | x :: y :: _ =>
      if between 0xC2 0xDF x && between 0x80 0xBF y then Some 2%nat
      else match b with
      | _ :: _ :: z :: _ =>
          if (between 0xE0 0xE0 x && between 0xA0 0xBF y || between 0xED 0xED x && between 0x80 0x9F y
              || (between 0xE1 0xEC x || between 0xEE 0xEF x) && between 0x80 0xBF y) && between 0x80 0xBF z
          then Some 3%nat
          else match b with
          | _ :: _ :: _ :: t :: _ =>
              if (between 0xF0 0xF0 x && between 0x90 0xBF y || between 0xF1 0xF3 x && between 0x80 0xBF y
                  || between 0xF4 0xF4 x && between 0x80 0x8F y) && between 0x80 0xBF z && between 0x80 0xBF t
              then Some 4%nat else None
          | _ => None
          end
      | _ => None
      end
  | _ => None
  end.

(** Invalid bytes become the replacement character, U+2028 and U+2029 are
    escaped, everything else is copied. *)
Fixpoint json_chars (fuel : nat) (b : Bytes) : Bytes :=
  match fuel, b with
  | S fuel, x :: t =>
      if x <? 0x80 then esc x ++ json_chars fuel t
      else match utf8_size b with
           | None => [92; 117; 102; 102; 102; 100] ++ json_chars fuel t
           | Some n =>
               (if bool_decide (take 3 b = [0xE2; 0x80; 0xA8]) then [92; 117; 50; 48; 50; 56]
                else if bool_decide (take 3 b = [0xE2; 0x80; 0xA9]) then [92; 117; 50; 48; 50; 57]
                else take n b) ++ json_chars fuel (drop n b)
           end
  | _, _ => []
  end.
Definition json_string (s : string) : Bytes :=
  let b := bytes_of s in [34] ++ json_chars (length b) b ++ [34].

Fixpoint json_elems (l : list string) : Bytes :=
  match l with
  | [] => []
  | [s] => json_string s
  | s :: l => json_string s ++ [44] ++ json_elems l
  end.

(** A name between quotes. *)
Definition quoted (s : string) : Bytes := [34] ++ bytes_of s ++ [34].

(** [json.Marshal] of the struct: fields in declaration order. *)
Definition canonical (r : CreateRequest) : Bytes :=
  bytes_of "{" ++ quoted "event_id" ++ bytes_of ":" ++ bytes_of (FormatInt (cr_EventID r)) ++
  bytes_of "," ++ quoted "seat_ids" ++ bytes_of ":[" ++ json_elems (cr_SeatIDs r) ++ bytes_of "]}".

Definition requestHash (normalized : CreateRequest) : string :=
  hex_EncodeToString (Sha256.Sum256 (canonical normalized)).
#[global] Arguments requestHash : simpl never.

(** ** normalize accepts exactly the valid requests *)

Definition known_seat (ev : Event) (id : string) : Prop := is_Some (Event_Seat ev id).

Lemma check_seats_sorted ev p l :
  StronglySorted String.le (p :: l) ->
  (check_seats ev (Some p) l = Ok tt <-> NoDup (p :: l) /\ Forall (known_seat ev) l).
Proof.
  revert p. induction l as [|x l IH]; intros p Hs; cbn [check_seats].
  { split; [|done]. intros _. split; [apply NoDup_singleton|constructor]. }
  inversion_clear Hs as [|?? Hs' Hp]. apply Forall_cons in Hp as [Hpx Hpl].
  case_bool_decide as Hd.
  { simplify_eq. split; [done|]. intros [Hnd _]. apply NoDup_cons in Hnd as [Hn _]. destruct Hn. constructor. }
  assert (p ∉ l) as Hpnl.
  { intros Hin. apply Hd. f_equal. apply (anti_symm String.le); [done|].
    inversion_clear Hs' as [|?? _ Hx]. rewrite Forall_forall in Hx. by apply Hx. }
  unfold known_seat at 1. destruct (Event_Seat ev x) as [st|] eqn:Hst.
  - rewrite (IH x Hs'), (NoDup_cons p), (Forall_cons (known_seat ev) x), not_elem_of_cons. unfold known_seat.
    rewrite Hst. naive_solver.
  - rewrite Forall_cons. unfold known_seat. rewrite Hst. split; [done|]. intros (_ & [? ?] & _). done.
Qed.

Lemma check_seats_None ev l :
  StronglySorted String.le l -> (check_seats ev None l = Ok tt <-> NoDup l /\ Forall (known_seat ev) l).
Proof.
  destruct l as [|x l]; intros Hs; cbn [check_seats].
  { split; [|done]. intros _. split; constructor. }
  rewrite bool_decide_eq_false_2 by done. rewrite Forall_cons. unfold known_seat at 1.
  destruct (Event_Seat ev x) as [st|] eqn:Hst.
  - rewrite (check_seats_sorted ev x l Hs). split; [intros [? ?]; split_and!; eauto|naive_solver].
  - split; [done|]. intros (_ & [? ?] & _). done.
Qed.

Lemma normalize_Ok r ev n :
  normalize r ev = Ok n <->
    (0 < length (cr_SeatIDs r))%nat /\ Z.of_nat (length (cr_SeatIDs r)) <= Event_MaxSeatsPerOrder ev /\
    NoDup (cr_SeatIDs r) /\ Forall (known_seat ev) (cr_SeatIDs r) /\
    n = mkCreateRequest (cr_EventID r) (Sort (cr_SeatIDs r)).
Proof.
  unfold normalize. cbn zeta. pose proof (Sort_Permutation (cr_SeatIDs r)) as Hp.
  assert (check_seats ev None (Sort (cr_SeatIDs r)) = Ok tt <->
    NoDup (cr_SeatIDs r) /\ Forall (known_seat ev) (cr_SeatIDs r)) as Hc.
  { rewrite (check_seats_None ev _ (Sort_sorted _)). by rewrite Hp. }
  destruct (Z.of_nat _ =? 0) eqn:H0; bool_to_prop; [split; [done|lia]|].
  destruct (Event_MaxSeatsPerOrder ev <? _) eqn:H1; bool_to_prop; [split; [done|lia]|].
  destruct (check_seats ev None (Sort (cr_SeatIDs r))) as [[]|e].
  - destruct (proj1 Hc eq_refl). split; [intros [= <-]; split_and!; done || lia|naive_solver].
  - split; [done|]. intros (_ & _ & Hnd & Hk & _). pose proof (proj2 Hc (conj Hnd Hk)); done.
Qed.

(** ** The canonical text determines the request *)

Definition is_ascii (s : string) : Prop := Forall (fun b => b < 128) (bytes_of s).

(** No escape is a prefix of another, and none starts with a quote. *)
Definition esc_free (a b : Z) : bool :=
  (a =? b) || negb (bool_decide (esc a `prefix_of` esc b)).
Definition esc_start (a : Z) : bool := negb (bool_decide ([34] `prefix_of` esc a)).

Lemma esc_prefix a b : 0 <= a < 128 -> 0 <= b < 128 -> esc a `prefix_of` esc b -> a = b.
Proof.
  intros Ha Hb Hp.
  assert (forallb (fun a => forallb (esc_free a) (range 128)) (range 128) = true) as Hr by (vm_compute; reflexivity).
  pose proof (range_forall 128 _ (range_forall 128 _ Hr a ltac:(lia)) b ltac:(lia)) as H. clear Hr.
  unfold esc_free in H. apply orb_true_iff in H as [H|H]; bool_to_prop; done.
Qed.

Lemma esc_quote a r t : 0 <= a < 128 -> esc a ++ r <> 34 :: t.
Proof.
  intros Ha Heq. assert (forallb esc_start (range 128) = true) as Hr by (vm_compute; reflexivity).
  pose proof (range_forall 128 _ Hr a ltac:(lia)) as H. clear Hr. unfold esc_start in H. bool_to_prop. apply H.
  assert (esc a <> []) as Hne by (unfold esc; repeat case_match; done).
  destruct (esc a) as [|x l]; [done|]. injection Heq as -> _. by exists l.
Qed.

Lemma esc_inj a b r t : 0 <= a < 128 -> 0 <= b < 128 -> esc a ++ r = esc b ++ t -> a = b /\ r = t.
Proof.
  intros Ha Hb Heq. assert (a = b) as ->; [|by apply (inj (app (esc b))) in Heq].
  destruct (prefix_weak_total (esc a) (esc b) (esc a ++ r)) as [Hp|Hp];
    [by exists r|by exists t|by apply esc_prefix|symmetry; by apply esc_prefix].
Qed.

Lemma json_chars_ascii b fuel :
  Forall (fun x => x < 128) b -> (length b <= fuel)%nat -> json_chars fuel b = concat (esc <$> b).
Proof.
  intros Hb. revert fuel. induction Hb as [|x b Hx Hb IH]; intros [|fuel] Hf; try done; [simpl in Hf; lia|].
  cbn [json_chars]. rewrite (proj2 (Z.ltb_lt x 128) Hx). rewrite IH by (simpl in Hf; lia). done.
Qed.

Lemma escaped_inj a b r t :
  Forall (fun x => 0 <= x < 128) a -> Forall (fun x => 0 <= x < 128) b ->
  concat (esc <$> a) ++ 34 :: r = concat (esc <$> b) ++ 34 :: t -> a = b /\ r = t.
Proof.
  intros Ha. revert b. induction Ha as [|x a Hx Ha IH]; intros b Hb Heq; destruct Hb as [|y b Hy Hb].
  - by simplify_eq.
  - rewrite fmap_cons in Heq. cbn [concat] in Heq. rewrite <- app_assoc in Heq. by destruct (esc_quote y _ r Hy (eq_sym Heq)).
  - rewrite fmap_cons in Heq. cbn [concat] in Heq. rewrite <- app_assoc in Heq. by destruct (esc_quote x _ t Hx Heq).
  - rewrite !fmap_cons in Heq. cbn [concat] in Heq. rewrite <- !app_assoc in Heq.
    apply esc_inj in Heq as [-> Heq]; [|done..]. by destruct (IH b Hb Heq) as [-> ->].
Qed.

Lemma is_ascii_range s : is_ascii s -> Forall (fun x => 0 <= x < 128) (bytes_of s).
Proof.
  intros Hs. pose proof (bytes_of_ok s) as Hb. unfold is_ascii in Hs. rewrite Forall_forall in *.
  intros x Hx. specialize (Hs x Hx). destruct (Hb x Hx). lia.
Qed.

Lemma json_string_inj s s' r t :
  is_ascii s -> is_ascii s' -> json_string s ++ r = json_string s' ++ t -> s = s' /\ r = t.
Proof.
  intros Hs Hs' Heq. unfold json_string in Heq. cbn zeta in Heq. rewrite !json_chars_ascii in Heq by done.
  rewrite <- !app_assoc in Heq. cbn [app] in Heq. injection Heq as Heq.
  apply escaped_inj in Heq as [Hb ->]; [|by apply is_ascii_range..]. by apply (inj bytes_of) in Hb as ->.
Qed.

Lemma json_elems_inj l k r t :
  l <> [] -> k <> [] -> Forall is_ascii l -> Forall is_ascii k ->
  json_elems l ++ 93 :: r = json_elems k ++ 93 :: t -> l = k /\ r = t.
Proof.
  revert k. induction l as [|s l IH]; intros [|s' k] Hl Hk Al Ak Heq; try done.
  apply Forall_cons in Al as [As Al], Ak as [As' Ak].
  assert (Hcons : forall (x : string) m u, json_elems (x :: m) ++ 93 :: u =
    json_string x ++ match m with [] => 93 :: u | _ => 44 :: json_elems m ++ 93 :: u end).
  { intros x [|y m] u; [done|]. cbn [json_elems]. rewrite <- !app_assoc. done. }
  rewrite !Hcons in Heq. apply json_string_inj in Heq as [-> Heq]; [|done..].
  destruct l as [|x l], k as [|y k]; simplify_eq; [done|].
  apply IH in Heq as [-> ->]; done.
Qed.

Lemma bytes_sep (c : Z) (l k r t : Bytes) :
  Forall (fun x => x <> c) l -> Forall (fun x => x <> c) k -> l ++ c :: r = k ++ c :: t -> l = k /\ r = t.
Proof.
  intros Hl. revert k. induction Hl as [|x l Hx Hl IH]; intros k Hk Heq; destruct Hk as [|y k Hy Hk];
    cbn [app] in Heq.
  - by injection Heq as ->.
  - injection Heq as <- _. by destruct Hy.
  - injection Heq as -> _. by destruct Hx.
  - injection Heq as -> Heq. by destruct (IH k Hk Heq) as [-> ->].
Qed.

Lemma FormatInt_no_comma z : Forall (fun x => x <> 44) (bytes_of (FormatInt z)).
Proof.
  pose proof (FormatInt_chars z) as Hc. generalize dependent (FormatInt z). intros s.
  induction s as [|c s IH]; intros Hs; [constructor|]. cbn [all_chars] in Hs. bool_to_prop.
  unfold bytes_of. cbn [String.list_ascii_of_string]. rewrite fmap_cons. apply Forall_cons. split; [|by apply IH].
  intros Hc. assert (c = ","%char) as ->; [|done].
  rewrite <- (ascii_N_embedding c). by replace (N_of_ascii c) with 44%N by lia.
Qed.

Lemma canonical_inj r r' :
  cr_SeatIDs r <> [] -> cr_SeatIDs r' <> [] -> Forall is_ascii (cr_SeatIDs r) -> Forall is_ascii (cr_SeatIDs r') ->
  canonical r = canonical r' -> r = r'.
Proof.
  destruct r as [e l], r' as [e' l']. cbn [cr_SeatIDs]. intros Hl Hl' Al Al' Heq. unfold canonical in Heq.
  cbn [cr_EventID cr_SeatIDs] in Heq. do 3 apply (inj (app _)) in Heq.
  apply (bytes_sep 44) in Heq as [He Heq]; [|apply FormatInt_no_comma..].
  apply (inj bytes_of), (inj FormatInt) in He as ->. do 2 apply (inj (app _)) in Heq.
  apply json_elems_inj in Heq as [-> _]; done.
Qed.

(** ** Properties *)

(** A create request is accepted exactly when it names at least one seat
    and at most the event's maximum, no seat twice and only seats of the event;
    the normalized request has the same seats in byte order. *)
Theorem normalize_accepts (r : CreateRequest) (ev : Event) (n : CreateRequest) :
  normalize r ev = Ok n <->
    (0 < length (cr_SeatIDs r))%nat /\ Z.of_nat (length (cr_SeatIDs r)) <= Event_MaxSeatsPerOrder ev /\
    NoDup (cr_SeatIDs r) /\ Forall (fun id => is_Some (Event_Seat ev id)) (cr_SeatIDs r) /\
    n = mkCreateRequest (cr_EventID r) (Sort (cr_SeatIDs r)).
Proof. apply normalize_Ok. Qed.

(** The request hash identifies the order a request would create: two
    accepted requests for the same seats in any order hash the same, and two
    accepted requests (with seat ids in ASCII) have the same hashed text only
    if they are for the same event and the same seats, so a reused
    Idempotency-Key is told apart up to a SHA-256 collision. *)
Theorem request_hash_canonical (r r' : CreateRequest) (ev ev' : Event) (n n' : CreateRequest)
    (Hn : normalize r ev = Ok n) (Hn' : normalize r' ev' = Ok n') :
  (cr_EventID r = cr_EventID r' -> cr_SeatIDs r ≡ₚ cr_SeatIDs r' -> requestHash n = requestHash n') /\
  (Forall is_ascii (cr_SeatIDs r) -> Forall is_ascii (cr_SeatIDs r') -> canonical n = canonical n' ->
     cr_EventID r = cr_EventID r' /\ cr_SeatIDs r ≡ₚ cr_SeatIDs r').
Proof.
  apply normalize_Ok in Hn as (Hl & _ & _ & _ & ->), Hn' as (Hl' & _ & _ & _ & ->). split.
  - intros He Hp. f_equal. f_equal; [done|]. by apply Sort_unique.
  - intros Ha Ha' Hc. apply canonical_inj in Hc; cbn [cr_SeatIDs] in *; try by rewrite Sort_Permutation.
    + injection Hc as He Hs. split; [done|]. by rewrite <- (Sort_Permutation (cr_SeatIDs r)), Hs, Sort_Permutation.
    + intros Hs. apply (f_equal length) in Hs. rewrite Sort_Permutation in Hs. simpl in Hs. lia.
    + intros Hs. apply (f_equal length) in Hs. rewrite Sort_Permutation in Hs. simpl in Hs. lia.
Qed.
