(* ===== verification/OrderService.v ===== *)
(** * The order service (internal/order/service.go)

    Creating, reading and cancelling orders. Every status change is a
    conditional UPDATE ([transition]) plus an outbox row in the same
    transaction. *)

From S2P Require Import Prelude GoLib Effects OrderState CatalogEvent World Frame OrderDB Auth.
From S2P Require Import Inventory Locker Ledger Catalog Outbox OrderRequest.
Local Open Scope tr_scope.

Record Order := mkOrder {
  o_ID : UUID; o_EventID : Z; o_UserID : Z; o_Status : Status; o_TotalVND : Z;
  o_HoldExpiresAt : Z; o_CreatedAt : Z; o_UpdatedAt : Z; o_Seats : list (string * Z);
}.

Definition SeatIDs (o : Order) : list string := (o_Seats o).*1.

Definition fromRow (row : OrderRow) (seats : list (string * Z)) : Order :=
  mkOrder (r_ID row) (r_EventID row) (r_UserID row) (r_Status row) (r_TotalVnd row)
    (r_HoldExpiresAt row) (r_CreatedAt row) (r_UpdatedAt row) seats.

(** The event payload of an order; the outbox fills in the first three fields. *)
Definition orderEvent (o : Order) : OrderEvent :=
  mkOrderEvent 0 EmptyString 0 (o_ID o) (o_EventID o) (o_UserID o) (SeatIDs o) (o_TotalVND o) EmptyString 0 EmptyString.

Definition constraintOneHeldPerUser : string := "orders_one_held_per_user".
Definition constraintIdempotencyKey : string := "orders_user_id_idempotency_key_key".
Definition idempotencyLockTTL : Z := 30 * Second.

Definition violatedConstraint (e : GoErr) : string :=
  match e with EPg (UniqueViolation c) => c | _ => EmptyString end.

Record Service (R : Type) := mkService {
  svc_proc : nat; svc_inv : Inventory R; svc_locks : Locker R;
  svc_holdTTL : Z; svc_holdGrace : Z; svc_admissions : option (AdmissionLedger R);
}.
Arguments svc_proc {R}. Arguments svc_inv {R}. Arguments svc_locks {R}.
Arguments svc_holdTTL {R}. Arguments svc_holdGrace {R}. Arguments svc_admissions {R}.

Section service.
Context {R : Type} `{UuidLib}.
Implicit Types w : World R.

(** "idem:<userId>:<key>" *)
Definition idempotencyLockKey (userID : Z) (idemKey : string) : string :=
  "idem:" +:+ FormatInt userID +:+ ":" +:+ idemKey.

(** ** Shared steps *)

Definition writeEvent (topic eventType : string) (ev : OrderEvent) : M R unit :=
  let* _ := Write (mkMessage topic (uuid_String (ev_OrderID ev)) eventType ev) in
  mret tt.

Definition writeOrderEvent (eventType : string) (o : Order) : M R unit :=
  writeEvent TopicOrders eventType (orderEvent o).

Definition transition (id : UUID) (from to : Status) : M R OrderRow :=
  if CanTransition from to then stmt (TransitionOrder id from to) else mfail (EIllegalTransition from to).

(** Seats are given back best-effort: a failure is only logged. *)
Definition releaseSeats (inv : Inventory R) (eventID : Z) (seatIDs : list string) (orderID : UUID) : prog (World R) unit :=
  discard (Release inv eventID seatIDs orderID).

(** [if errors.Is(err, pgx.ErrNoRows) { return e }] *)
Definition on_no_rows {A} (m : M R A) (e : GoErr) : M R A :=
  try r := m in
  match r with
  | Ok a => mret a
  | Err (EPg NoRows) => mfail e
  | Err x => mfail x
  end.

(** ** Create *)

Definition findByKey (userID : Z) (idemKey : string) : prog (World R) (res GoErr (Order * string)) :=
  let? row := act (stmt (GetOrderByKey userID idemKey)) in
  let? seats := act (stmt (ListOrderSeats (r_ID row))) in
  Ret (Ok (fromRow row seats, r_RequestHash row)).

Definition price_of (ev : Event) (id : string) : Z :=
  match Event_Seat ev id with Some st => Seat_PriceVND st | None => 0 end.

Definition sum64 (l : list Z) : Z := fold_left add64 l 0.

Definition insertHeld_tx (holdTTL : Z) (orderID : UUID) (userID : Z) (idemKey hash : string) (ev : Event) (req : CreateRequest)
  : M R Order :=
  let prices := price_of ev <$> cr_SeatIDs req in
  let total := sum64 prices in
  let* row := stmt (InsertHeldOrder (mkInsertHeldOrder orderID (Event_ID ev) userID total idemKey hash holdTTL)) in
  let* _ := stmt (InsertOrderSeats orderID (Event_ID ev) (cr_SeatIDs req) prices) in
  let o := fromRow row (zip (cr_SeatIDs req) prices) in
  let* _ := writeOrderEvent OrderHeld o in
  mret o.

Definition insertHeld (holdTTL : Z) (orderID : UUID) (userID : Z) (idemKey hash : string) (ev : Event) (req : CreateRequest)
  : prog (World R) (res GoErr Order) :=
  act (BeginFunc (insertHeld_tx holdTTL orderID userID idemKey hash ev req)).

(** What findByKey says of a request: an order with the same hash is a replay,
    with another hash a conflict. [None]: no order has the key. *)
Definition replay (hash : string) (r : res GoErr (Order * string)) : option (res GoErr (Order * bool)) :=
  match r with
  | Ok (o, h) => Some (if bool_decide (h = hash) then Ok (o, false) else Err ErrIdempotencyKeyReused)
  | Err (EPg NoRows) => None
  | Err e => Some (Err e)
  end.

Section create.
Context (s : Service R) (userID : Z) (idemKey hash : string) (ev : Event) (norm : CreateRequest)
  (adm : option Admission) (orderID : UUID).

(** Claim the admission for this order unless it already is; [Ok claimed]. *)
Definition claim_step (claimed : bool) : prog (World R) (res GoErr bool) :=
  match adm, svc_admissions s with
  | Some a, Some ledger =>
      if claimed then Ret (Ok true)
      else
        let! r := Claim ledger (adm_JTI a) orderID in
        match r with
        | Err _ => Ret (Err ErrTemporarilyUnavailable)
        | Ok false => Ret (Err ErrAdmissionAlreadyUsed)
        | Ok true => Ret (Ok true)
        end
  | _, _ => Ret (Ok claimed)
  end.

(** One round of the loop after the claim: [None] is [continue]. *)
Definition place_step : prog (World R) (option (res GoErr (Order * bool))) :=
  let! h := Hold (svc_inv s) (Event_ID ev) (cr_SeatIDs norm) orderID (add64 (svc_holdTTL s) (svc_holdGrace s)) in
  match h with
  | Err e => Ret (Some (Err e))
  | Ok (_ :: _ as taken) => Ret (Some (Err (ErrSeatsUnavailable taken)))
  | Ok [] =>
      let! r := insertHeld (svc_holdTTL s) orderID userID idemKey hash ev norm in
      match r with
      | Ok o => Ret (Some (Ok (o, true)))
      | Err e =>
          let! _ := releaseSeats (svc_inv s) (Event_ID ev) (cr_SeatIDs norm) orderID in
          if bool_decide (violatedConstraint e = constraintOneHeldPerUser) then Ret (Some (Err ErrActiveOrderExists))
          else if bool_decide (violatedConstraint e = constraintIdempotencyKey) then Ret None
          else Ret (Some (Err e))
      end
  end.

(** [for range n]; the answer and whether the admission is claimed. *)
Fixpoint rounds (n : nat) (claimed : bool) : prog (World R) (res GoErr (Order * bool) * bool) :=
  match n with
  | O => Ret (Err (EOther "idempotency key still conflicting after retry"), claimed)
  | S n =>
      let! found := findByKey userID idemKey in
      match replay hash found with
      | Some r => Ret (r, claimed)
      | None =>
          let! c := claim_step claimed in
          match c with
          | Err e => Ret (Err e, claimed)
          | Ok claimed =>
              let! r := place_step in
              match r with
              | Some r => Ret (r, claimed)
              | None => rounds n claimed
              end
          end
      end
  end.
End create.

Definition is_created (r : res GoErr (Order * bool)) : bool :=
  match r with Ok (_, created) => created | Err _ => false end.

(** The flow under the idempotency lock; the deferred unclaim runs when it
    ends. *)
Definition create_locked (s : Service R) (userID : Z) (idemKey hash : string) (ev : Event) (norm : CreateRequest)
  (adm : option Admission) : prog (World R) (res GoErr (Order * bool)) :=
  let? orderID := act NewV7 in
  let! rc := rounds s userID idemKey hash ev norm adm orderID 2 false in
  let! _ :=
    match adm, svc_admissions s with
    | Some a, Some ledger =>
        if rc.2 && negb (is_created rc.1) then discard (Unclaim ledger (adm_JTI a) orderID) else Ret tt
    | _, _ => Ret tt
    end in
  Ret rc.1.

Definition create (s : Service R) (userID : Z) (key : UUID) (req : CreateRequest) (adm : option Admission)
  : prog (World R) (res GoErr (Order * bool)) :=
  let! found := Catalog_Event (svc_proc s) (cr_EventID req) in
  match found with
  | Err ErrEventNotFound => Ret (Err (ErrValidation "event_id" "unknown event"))
  | Err e => Ret (Err e)
  | Ok ev =>
      match normalize req ev with
      | Err e => Ret (Err e)
      | Ok norm =>
          let? open := SaleOpen (svc_proc s) (Event_ID ev) in
          if negb open then Ret (Err (ErrValidation "event_id" "sale has not opened yet"))
          else
            let hash := requestHash norm in
            let idemKey := uuid_String key in
            let lockKey := idempotencyLockKey userID idemKey in
            let! lock := TryLock (svc_locks s) lockKey idempotencyLockTTL in
            match lock with
            | Err _ => Ret (Err ErrTemporarilyUnavailable)
            | Ok None =>
                let! found := findByKey userID idemKey in
                match replay hash found with
                | Some r => Ret r
                | None => Ret (Err ErrIdempotencyKeyInProgress)
                end
            | Ok (Some token) =>
                let! r := create_locked s userID idemKey hash ev norm adm in
                let! _ := discard (Unlock (svc_locks s) lockKey token) in
                Ret r
            end
      end
  end.

Definition Create (s : Service R) (userID : Z) (key : UUID) (req : CreateRequest) : prog (World R) (res GoErr (Order * bool)) :=
  create s userID key req None.

Definition CreateAdmitted (s : Service R) (userID : Z) (key : UUID) (req : CreateRequest) (adm : Admission)
  : prog (World R) (res GoErr (Order * bool)) :=
  if negb (bool_decide (adm_UserID adm = userID)) || negb (bool_decide (adm_EventID adm = cr_EventID req))
  then Ret (Err ErrAdmissionRequired)
  else match svc_admissions s with
       | None => Ret (Err (EOther "no admission ledger configured"))
       | Some _ => create s userID key req (Some adm)
       end.

(** ** Get and Cancel *)

Definition Get (userID : Z) (id : UUID) : prog (World R) (res GoErr Order) :=
  let! r := act (stmt (GetOrder id)) in
  match r with
  | Err (EPg NoRows) => Ret (Err ErrNotFound)
  | Err e => Ret (Err e)
  | Ok row =>
      if negb (bool_decide (r_UserID row = userID)) then Ret (Err ErrNotFound)
      else
        let? seats := act (stmt (ListOrderSeats id)) in
        Ret (Ok (fromRow row seats))
  end.

Definition Cancel_tx (userID : Z) (id : UUID) : M R (Order * bool) :=
  let* row := on_no_rows (stmt (GetOrderForUpdate id)) ErrNotFound in
  if negb (bool_decide (r_UserID row = userID)) then mfail ErrNotFound
  else
    let* ' (row, cancelled) :=
      match r_Status row with
      | StatusCancelled => mret (row, false)
      | StatusHeld => let* row := transition id StatusHeld StatusCancelled in mret (row, true)
      | st => mfail (ErrNotCancellable st)
      end in
    let* seats := stmt (ListOrderSeats id) in
    let o := fromRow row seats in
    let* _ := if cancelled : bool then writeOrderEvent OrderCancelled o else mret tt in
    mret (o, cancelled).

Definition Cancel (s : Service R) (userID : Z) (id : UUID) : prog (World R) (res GoErr Order) :=
  let? oc := act (BeginFunc (Cancel_tx userID id)) in
  let! _ := if oc.2 : bool then releaseSeats (svc_inv s) (o_EventID oc.1) (SeatIDs oc.1) (o_ID oc.1) else Ret tt in
  Ret (Ok oc.1).
End service.
