(* ===== verification/OrderPayment.v ===== *)
(** * Payment webhooks applied to orders (internal/order/payment.go) *)

From S2P Require Import Prelude GoLib Effects OrderState World Frame OrderDB.
From S2P Require Import Inventory Outbox Payment OrderService.
Local Open Scope tr_scope.

Definition ReasonAmountMismatch : string := "AMOUNT_MISMATCH".
Definition ReasonLatePaymentSeatTaken : string := "LATE_PAYMENT_SEAT_TAKEN".
Definition ReasonPaidAfterCancel : string := "PAID_AFTER_CANCEL".
Definition ReasonDoublePayment : string := "DOUBLE_PAYMENT".
Definition ReasonSeatConflict : string := "SEAT_CONFLICT".

Definition latePaymentHoldTTL : Z := 60 * Second.

(** Status is [None] for an unknown order. *)
Record PaymentResult := mkPaymentResult { pr_Outcome : Outcome; pr_Reason : string; pr_Status : option Status }.

Record afterCommit := mkAfter { after_confirm : bool; after_release : bool }.
Definition no_after : afterCommit := mkAfter false false.

Definition with_status (o : Order) (st : Status) : Order :=
  mkOrder (o_ID o) (o_EventID o) (o_UserID o) st (o_TotalVND o) (o_HoldExpiresAt o) (o_CreatedAt o) (o_UpdatedAt o) (o_Seats o).

(** The order event of a refund names the payment. *)
Definition refundEvent (o : Order) (txn : string) (amount : Z) (reason : string) : OrderEvent :=
  mkOrderEvent 0 EmptyString 0 (o_ID o) (o_EventID o) (o_UserID o) (SeatIDs o) (o_TotalVND o) txn amount reason.

Section payment.
Context {R : Type} `{UuidLib} (inv : Inventory R).
Implicit Types w : World R.

(** ** One webhook transaction (paymentTx) *)

(** moveTo also updates the order in memory. *)
Definition moveTo (o : Order) (to : Status) : M R Order :=
  let* _ := transition (o_ID o) (o_Status o) to in
  mret (with_status o to).

Definition pay (o : Order) : M R (PaymentResult * afterCommit) :=
  let* o := moveTo o StatusPaid in
  let* _ := writeEvent TopicOrders OrderPaid (orderEvent o) in
  mret (mkPaymentResult OutcomeApplied EmptyString (Some StatusPaid), mkAfter true false).

(** [to] is [None] for a double payment, which leaves the order alone. *)
Definition refund (p : Webhook) (o : Order) (reason : string) (to : option Status) (after : afterCommit)
  : M R (PaymentResult * afterCommit) :=
  let* o := match to with Some st => moveTo o st | None => mret o end in
  let* _ := stmt (InsertRefund (wh_ProviderTxnID p) (o_ID o) (wh_AmountVND p) reason) in
  let* _ := writeEvent TopicOrders OrderRefundRequested (refundEvent o (wh_ProviderTxnID p) (wh_AmountVND p) reason) in
  mret (mkPaymentResult OutcomeRefundRequired reason (Some (o_Status o)), after).

Fixpoint new_ids (n : nat) : M R (list UUID) :=
  match n with
  | O => mret []
  | S n => let* id := NewV7 in let* l := new_ids n in mret (id :: l)
  end.

(** SAVEPOINT and RELEASE SAVEPOINT change no table. *)
Definition sql_savepoint : M R unit := stmt (fun _ d => Ok (tt, d)).

(** ROLLBACK TO SAVEPOINT when [m] fails. *)
Definition or_rollback {A} (m : M R A) : M R A := fun w =>
  let '(r, w1) := m w in
  match r with Ok _ => (r, w1) | Err _ => (r, set_pg (pg w) w1) end.

Definition insertTickets (o : Order) : M R bool :=
  let seats := SeatIDs o in
  let* ids := new_ids (length seats) in
  let* _ := sql_savepoint in
  try r := or_rollback (stmt (InsertTickets ids (o_ID o) (o_EventID o) seats)) in
  match r with
  | Err (EPg (UniqueViolation _)) => mret false
  | Err e => mfail e
  | Ok _ => let* _ := sql_savepoint in mret true
  end.

(** The tail both paid branches share: tickets, then PAID, or a refund when the
    tickets' UNIQUE constraint stopped a double sale. *)
Definition sell (p : Webhook) (o : Order) : M R (PaymentResult * afterCommit) :=
  let* ok := insertTickets o in
  if negb ok then refund p o ReasonSeatConflict (Some StatusRefunding) (mkAfter false true)
  else pay o.

Definition decide_payment (p : Webhook) (o : Order) (holdActive : bool) : M R (PaymentResult * afterCommit) :=
  let status := o_Status o in
  if bool_decide (wh_Status p = StatusFailed)
  then mret (mkPaymentResult OutcomeIgnoredFailed EmptyString (Some status), no_after)
  else if bool_decide (status = StatusPaid) || bool_decide (status = StatusTicketed) ||
          bool_decide (status = StatusRefunding) || bool_decide (status = StatusRefunded)
  then refund p o ReasonDoublePayment None no_after
  else if negb (wh_AmountVND p =? o_TotalVND o)
  then refund p o ReasonAmountMismatch (Some StatusRefunding) (mkAfter false (bool_decide (status = StatusHeld)))
  else if bool_decide (status = StatusHeld) && holdActive
  then sell p o
  else if bool_decide (status = StatusHeld) || bool_decide (status = StatusExpired)
  then
    let* taken := (run (Hold inv (o_EventID o) (SeatIDs o) (o_ID o) latePaymentHoldTTL) : M R (list string)) in
    match taken with
    | _ :: _ => refund p o ReasonLatePaymentSeatTaken (Some StatusRefunding) no_after
    | [] => sell p o
    end
  else if bool_decide (status = StatusCancelled)
  then refund p o ReasonPaidAfterCancel (Some StatusRefunding) no_after
  else mfail (EOther "payment for order in unexpected status").

Definition ApplyPayment_tx (p : Webhook) : M R (PaymentResult * option Order * afterCommit) :=
  try locked := stmt (LockOrderForPayment (wh_OrderID p)) in
  match locked with
  | Err (EPg NoRows) => mret (mkPaymentResult OutcomeUnknownOrder EmptyString None, None, no_after)
  | Err e => mfail e
  | Ok (row, holdActive) =>
      try inserted := stmt (InsertPayment (wh_ProviderTxnID p) (wh_OrderID p) (wh_AmountVND p) (wh_Status p)) in
      let duplicate := match inserted with Err (EPg NoRows) => true | _ => false end in
      match inserted, duplicate with
      | Err e, false => mfail e
      | _, _ =>
          let* seats := stmt (ListOrderSeats (wh_OrderID p)) in
          let o := fromRow row seats in
          if duplicate
          then mret (mkPaymentResult OutcomeDuplicate EmptyString (Some (o_Status o)), Some o,
                 mkAfter (bool_decide (o_Status o = StatusPaid) || bool_decide (o_Status o = StatusTicketed)) false)
          else
            let* ' (res, after) := decide_payment p o holdActive in
            let* _ := stmt (SetPaymentOutcome (wh_ProviderTxnID p) (pr_Outcome res)) in
            mret (res, Some o, after)
      end
  end.

(** ** ApplyPayment *)

Definition ApplyPayment (p : Webhook) : prog (World R) (res GoErr PaymentResult) :=
  let? x := act (BeginFunc (ApplyPayment_tx p)) in
  let '(res, o, after) := x in
  match o with
  | None => Ret (Ok res)
  | Some o =>
      let! _ := if after_confirm after then discard (Confirm inv (o_EventID o) (SeatIDs o) (o_ID o)) else Ret tt in
      let! _ := if after_release after then releaseSeats inv (o_EventID o) (SeatIDs o) (o_ID o) else Ret tt in
      Ret (Ok res)
  end.
End payment.
