(* ===== verification/OrderRefund.v ===== *)
(** * Refunds (internal/order/refund.go) and the gateway that pays them back
      (internal/fakepay/fakepay.go, handleRefund) *)

From S2P Require Import Prelude GoLib Effects OrderState World Frame OrderDB.
From S2P Require Import Outbox OrderService OrderPayment.
Local Open Scope tr_scope.

Section refund.
Context {R : Type} `{UuidLib}.
Implicit Types w : World R.

(** ** The gateway *)

(** handleRefund: a request without order, transaction or positive amount is
    refused (400). A repeated one is accepted and pays nothing back; one for a
    transaction this process did not create is honoured, with a warning. *)
Definition handleRefund (req : RefundRequest) (g : Gateway) : bool * Gateway :=
  if bool_decide (rq_ProviderTxnID req = EmptyString) || bool_decide (rq_OrderID req = uuid_Nil) || (rq_AmountVND req <=? 0)
  then (false, g)
  else
    let known := bool_decide (is_Some (gw_txns g !! rq_ProviderTxnID req)) in
    let repeat := bool_decide (is_Some (gw_refunds g !! rq_ProviderTxnID req)) in
    (true, mkGateway (gw_payments g) (if repeat then gw_refunds g else <[rq_ProviderTxnID req := req]> (gw_refunds g)) (gw_txns g)
             (gw_log g ++ (if known then [] else [RefundUnknown req]) ++ [Refunded req repeat])).

(** A new process: New's empty maps. Its standard output goes on. *)
Definition gateway_restart (g : Gateway) : Gateway := mkGateway ∅ ∅ ∅ (gw_log g ++ [GatewayStarted]).

(** payment.Client.Refund: one HTTP call. *)
Definition Gateway_Refund (req : RefundRequest) : M R unit :=
  call EInfra (fun w =>
    let '(ok, g) := handleRefund req (gateway w) in
    if ok : bool then (Ok tt, set_gateway g w) else (Err EInfra, w)).

(** ** The refunder *)

Definition complete_tx (txn : string) : M R unit :=
  try done := stmt (CompleteRefund txn) in
  match done with
  | Err (EPg NoRows) => mret tt
  | Err e => mfail e
  | Ok f =>
      let* row := stmt (GetOrderForUpdate (f_OrderID f)) in
      let* row :=
        if negb (bool_decide (f_Reason f = ReasonDoublePayment)) && bool_decide (r_Status row = StatusRefunding)
        then transition (f_OrderID f) StatusRefunding StatusRefunded
        else mret row in
      let* seats := stmt (ListOrderSeats (f_OrderID f)) in
      writeEvent TopicOrders OrderRefunded (refundEvent (fromRow row seats) txn (f_AmountVnd f) (f_Reason f))
  end.

Definition Process (txn : string) : prog (World R) (res GoErr unit) :=
  let! r := act (stmt (GetRefund txn)) in
  match r with
  | Err (EPg NoRows) => Ret (Err ErrRefundNotFound)
  | Err e => Ret (Err e)
  | Ok ref =>
      if bool_decide (f_Status ref = RefundSucceeded) then Ret (Ok tt)
      else
        let? _ := act (Gateway_Refund (mkRefundRequest (f_OrderID ref) txn (f_AmountVnd ref))) in
        act (BeginFunc (complete_tx txn))
  end.
End refund.

(** ** What the gateway's log says *)

(** The refunds a process remembers, from its log. *)
Definition recalled (m : gmap string RefundRequest) (line : GatewayLine) : gmap string RefundRequest :=
  match line with
  | GatewayStarted => ∅
  | Refunded q false => <[rq_ProviderTxnID q := q]> m
  | _ => m
  end.
Definition remembered (log : list GatewayLine) : gmap string RefundRequest := fold_left recalled log ∅.

(** The memory is what the log says, and a refund is logged as a repeat just
    when it is in the memory. *)
Record logged_ok (g : Gateway) : Prop := {
  lo_memory : gw_refunds g = remembered (gw_log g);
  lo_repeat l1 q repeat l2 : gw_log g = l1 ++ Refunded q repeat :: l2 ->
    repeat = true <-> is_Some (remembered l1 !! rq_ProviderTxnID q);
}.

(** The gateway has paid [q] back; a line about the transaction [txn]. *)
Definition paid_back (g : Gateway) (q : RefundRequest) : Prop := Refunded q false ∈ gw_log g.
Definition about_refund (txn : string) (line : GatewayLine) : Prop :=
  match line with Refunded q _ => rq_ProviderTxnID q = txn | _ => False end.
#[global] Instance about_refund_dec txn line : Decision (about_refund txn line).
Proof. destruct line; cbn; apply _. Defined.

Lemma remembered_snoc l x : remembered (l ++ [x]) = recalled (remembered l) x.
Proof. unfold remembered. by rewrite fold_left_app. Qed.

(** What is remembered has been paid back. *)
Lemma remembered_paid l txn q : remembered l !! txn = Some q -> rq_ProviderTxnID q = txn /\ Refunded q false ∈ l.
Proof.
  induction l as [|x l IH] using rev_ind; [done|]. rewrite remembered_snoc, elem_of_app. destruct x as [|r|r []]; cbn [recalled].
  - done.
  - naive_solver.
  - naive_solver.
  - intros [[<- <-]|[_ Hq]]%lookup_insert_Some; [|naive_solver]. split; [done|]. right. by constructor.
Qed.

(** It is remembered until the process ends. *)
Lemma recalled_stays l m txn :
  GatewayStarted ∉ l -> is_Some (m !! txn) -> is_Some (fold_left recalled l m !! txn).
Proof.
  revert m. induction l as [|x l IH]; intros m Hl Hm; [done|]. apply not_elem_of_cons in Hl as [Hx Hl]. cbn [fold_left]. apply IH; [done|].
  destruct x as [|r|r []]; try done. by apply lookup_insert_is_Some'; right.
Qed.

Lemma remembered_once (g : Gateway) l1 l2 l3 q q' :
  logged_ok g -> gw_log g = l1 ++ Refunded q false :: l2 ++ Refunded q' false :: l3 ->
  rq_ProviderTxnID q = rq_ProviderTxnID q' -> GatewayStarted ∈ l2.
Proof.
  intros [_ Hr] Hl Ht. destruct (decide (GatewayStarted ∈ l2)) as [|Hn]; [done|exfalso].
  specialize (Hr (l1 ++ Refunded q false :: l2) q' false l3). rewrite <- app_assoc in Hr. destruct (Hr Hl) as [_ Hx].
  assert (false = true); [|done]. apply Hx. unfold remembered. rewrite fold_left_app. cbn [fold_left recalled]. apply recalled_stays; [done|].
  rewrite Ht, lookup_insert_eq. eauto.
Qed.

(** Splitting a longer log at one of its lines. *)
Lemma snoc_split {A} (l l1 l2 : list A) x y : l ++ [x] = l1 ++ y :: l2 -> (l1 = l /\ y = x /\ l2 = []) \/ exists k, l2 = k ++ [x] /\ l = l1 ++ y :: k.
Proof.
  destruct l2 as [|z k _] using rev_ind.
  - intros [-> [= ->]]%app_inj_2; [by left|done].
  - rewrite app_comm_cons, app_assoc. intros [-> [= ->]]%app_inj_2; [right; eauto|done].
Qed.

Lemma logged_snoc g g' x :
  logged_ok g -> gw_log g' = gw_log g ++ [x] -> gw_refunds g' = recalled (gw_refunds g) x ->
  (forall q repeat, x = Refunded q repeat -> repeat = bool_decide (is_Some (gw_refunds g !! rq_ProviderTxnID q))) -> logged_ok g'.
Proof.
  intros [Hm Hr] Hl Hg Hx. split.
  - by rewrite Hl, Hg, remembered_snoc, Hm.
  - intros l1 q repeat l2. rewrite Hl. intros [(-> & <- & ->)|(k & -> & Hk)]%snoc_split; [|by eapply Hr].
    rewrite (Hx q repeat), <- Hm by done. apply bool_decide_eq_true.
Qed.

Lemma restart_logged g : logged_ok g -> logged_ok (gateway_restart g).
Proof. intros Hg. by eapply logged_snoc. Qed.

(** A request that is honoured is paid back, by this process or before. *)
Lemma handleRefund_logged `{UuidLib} req g :
  logged_ok g ->
  let r := handleRefund req g in
  logged_ok r.2 /\ (r.1 = true -> exists q, rq_ProviderTxnID q = rq_ProviderTxnID req /\ paid_back r.2 q) /\
  exists new, gw_log r.2 = gw_log g ++ new /\ forall q repeat, Refunded q repeat ∈ new -> q = req.
Proof.
  intros Hg. unfold handleRefund. destruct (_ || _ || _); cbn [fst snd].
  { split_and!; [done..|]. exists []. rewrite app_nil_r. split; [done|]. by intros q repeat Hq%not_elem_of_nil. }
  set (warn := if bool_decide (is_Some (gw_txns g !! _)) then [] else _). set (repeat := bool_decide (is_Some (gw_refunds g !! _))).
  assert (Hstep : forall g1, logged_ok g1 -> gw_refunds g1 = gw_refunds g -> gw_log g1 = gw_log g ++ warn ->
    logged_ok (mkGateway (gw_payments g) (if repeat then gw_refunds g else <[rq_ProviderTxnID req := req]> (gw_refunds g)) (gw_txns g)
      (gw_log g ++ warn ++ [Refunded req repeat]))).
  { intros g1 H1 Hr Hl. apply (logged_snoc g1 _ (Refunded req repeat)); cbn; [done|by rewrite Hl, app_assoc|rewrite Hr; by destruct repeat|].
    intros q b [= <- <-]. by rewrite Hr. }
  split; [|split].
  - subst warn. destruct (bool_decide (is_Some (gw_txns g !! _))); [apply (Hstep g); by rewrite ?app_nil_r|].
    apply (Hstep (mkGateway (gw_payments g) (gw_refunds g) (gw_txns g) (gw_log g ++ [RefundUnknown req]))); [|done..]. by eapply logged_snoc.
  - intros _. unfold paid_back. cbn [gw_log]. destruct repeat eqn:Hrep.
    + apply bool_decide_eq_true in Hrep as [q Hq]. rewrite (lo_memory _ Hg) in Hq. apply remembered_paid in Hq as [Ht Hq].
      exists q. split; [done|]. apply elem_of_app. by left.
    + exists req. split; [done|]. apply elem_of_app. right. apply elem_of_app. right. by constructor.
  - exists (warn ++ [Refunded req repeat]). split; [done|]. intros q b [Hq|Hq]%elem_of_app.
    + subst warn. destruct (bool_decide (is_Some (gw_txns g !! _))); [by apply not_elem_of_nil in Hq|]. by apply list_elem_of_singleton in Hq.
    + by apply list_elem_of_singleton in Hq as [= -> _].
Qed.
