(* ===== verification/OrderTickets.v ===== *)
(** * Issuing tickets (internal/order/tickets.go) *)

From S2P Require Import Prelude GoLib Effects OrderState Ticket World Frame OrderDB.
From S2P Require Import Outbox OrderService.
Local Open Scope tr_scope.

Section tickets.
Context {R : Type} `{UuidLib}.
Implicit Types w : World R.

(** The loop over an order's tickets: issued ones are left alone. *)
Fixpoint issue_all (secret : string) (l : list (UUID * TicketRow)) : M R unit :=
  match l with
  | [] => mret tt
  | (id, t) :: l =>
      match t_QrPayload t with
      | Some _ => issue_all secret l
      | None =>
          let* _ := stmt (SetTicketQR id (Payload secret id)) in
          issue_all secret l
      end
  end.

Definition Issue_tx (secret : string) (orderID : UUID) : M R Status :=
  let* row := on_no_rows (stmt (GetOrderForUpdate orderID)) ErrNotFound in
  if negb (bool_decide (r_Status row = StatusPaid)) then mret (r_Status row)
  else
    let* tickets := stmt (ListOrderTickets orderID) in
    match tickets with
    | [] => mfail (EOther "PAID order has no tickets")
    | _ =>
        let* _ := issue_all secret tickets in
        let* row := transition orderID StatusPaid StatusTicketed in
        let* seats := stmt (ListOrderSeats orderID) in
        let* _ := writeEvent TopicTickets TicketIssued (orderEvent (fromRow row seats)) in
        mret StatusTicketed
    end.

Definition Issue (secret : string) (orderID : UUID) : prog (World R) (res GoErr Status) :=
  act (BeginFunc (Issue_tx secret orderID)).

(** order.Ticket: QRPayload is empty and IssuedAt absent until issued. *)
Record OrderTicket := mkOrderTicket { ot_ID : UUID; ot_SeatID : string; ot_QRPayload : string; ot_IssuedAt : option Z }.

Definition Tickets (userID : Z) (orderID : UUID) : prog (World R) (res GoErr (list OrderTicket)) :=
  let? _ := Get userID orderID in
  let? rows := act (stmt (ListOrderTickets orderID)) in
  Ret (Ok (map (fun r : UUID * TicketRow =>
    mkOrderTicket r.1 (t_SeatID r.2) (default EmptyString (t_QrPayload r.2)) (t_IssuedAt r.2)) rows)).
End tickets.
