(* ===== verification/OrderExpiry.v ===== *)
(** * Expiring held orders (internal/order/expiry.go)

    One batch: the orders past their deadline change status in one transaction,
    their seats are given back afterwards. The loop is in Loops.v. *)

From S2P Require Import Prelude GoLib Effects OrderState World Frame OrderDB.
From S2P Require Import Inventory Outbox OrderService.
Local Open Scope tr_scope.

Definition ExpiryBatchSize : nat := 500.

Section expiry.
Context {R : Type} `{UuidLib} (inv : Inventory R).
Implicit Types w : World R.

(** The order the batch keeps in memory: seats are attached by order id. *)
Definition expired_order (seats : list (UUID * string * Z)) (r : OrderRow) : Order :=
  mkOrder (r_ID r) (r_EventID r) (r_UserID r) StatusExpired (r_TotalVnd r) 0 0 0
    (omap (fun x : UUID * string * Z => if decide (x.1.1 = r_ID r) then Some (x.1.2, x.2) else None) seats).

Fixpoint write_all (l : list Order) : M R unit :=
  match l with
  | [] => mret tt
  | o :: l => let* _ := writeOrderEvent OrderExpired o in write_all l
  end.

(** SKIP LOCKED: the rows other transactions have locked are those of the world. *)
Definition expire_stmt : M R (list OrderRow) := fun w =>
  stmt (ExpireDueOrders ExpiryBatchSize (locked w)) w.

Definition expire_tx : M R (list Order) :=
  let* rows := expire_stmt in
  match rows with
  | [] => mret []
  | _ =>
      let* seats := stmt (ListSeatsOfOrders (r_ID <$> rows)) in
      let expired := expired_order seats <$> rows in
      let* _ := write_all expired in
      mret expired
  end.

(** The seats of the orders no payment has meanwhile turned PAID are given
    back while the orders are locked. *)
Fixpoint release_unpaid (status : gmap UUID Status) (l : list Order) : prog (World R) unit :=
  match l with
  | [] => Ret tt
  | o :: l =>
      let! _ :=
        match status !! o_ID o with
        | Some StatusPaid | Some StatusTicketed => Ret tt
        | _ => releaseSeats inv (o_EventID o) (SeatIDs o) (o_ID o)
        end in
      release_unpaid status l
  end.

Definition releaseExpired_tx (expired : list Order) : M R unit :=
  let* rows := stmt (LockOrderStatuses (o_ID <$> expired)) in
  fun w => (Ok tt, (run (release_unpaid (list_to_map rows) expired) w).2).

Definition releaseExpired (expired : list Order) : prog (World R) (res GoErr unit) :=
  act (BeginFunc (releaseExpired_tx expired)).

Definition Expirer_RunOnce : prog (World R) (res GoErr nat) :=
  if negb (CanTransition StatusHeld StatusExpired) then Ret (Err (EIllegalTransition StatusHeld StatusExpired))
  else
    let? expired := act (BeginFunc expire_tx) in
    match expired with
    | [] => Ret (Ok 0%nat)
    | _ =>
        let! _ := discard (releaseExpired expired) in
        Ret (Ok (length expired))
    end.
End expiry.
