(* ===== verification/OrderBooks.v ===== *)
(** * The order books: what the transactions of the program may do

    The abstract specification of the order tables. [book_step] lists the
    business events (an order is held, cancelled, paid, ...) with the change
    each makes to the tables and the message that announces it; [books_ok] is
    the invariant of the books, kept by every event. The handlers are shown to
    refine this specification in OrderRefine. *)

From S2P Require Import Prelude GoLib OrderState World OrderDB Outbox OrderService OrderPayment.

(** ** Reading the books *)

Definition status_at (d : PG) (id : UUID) : option Status := r_Status <$> orders d !! id.
Definition event_at (d : PG) (id : UUID) : option Z := r_EventID <$> orders d !! id.
Definition total_at (d : PG) (id : UUID) : option Z := r_TotalVnd <$> orders d !! id.

Definition has_seat (d : PG) (id : UUID) (s : string) : Prop := is_Some (order_seats d !! (id, s)).
Definition prices_of (d : PG) (id : UUID) : list Z := (fun kv => os_PriceVnd kv.2) <$> seats_of (order_seats d) id.

(** A ticket is blank while its order is PAID and issued once it is TICKETED. *)
Definition ticket_state (st : Status) (t : TicketRow) : Prop :=
  st = StatusPaid /\ t_QrPayload t = None /\ t_IssuedAt t = None \/
  st = StatusTicketed /\ is_Some (t_QrPayload t) /\ is_Some (t_IssuedAt t).

(** A refund that moved its order is pending or paid back as the order says; a
    double payment's refund belongs to an order that is sold or refunded. *)
Definition refund_state (st : Status) (f : RefundRow) : Prop :=
  if decide (f_Reason f = ReasonDoublePayment)
  then is_sold st = true \/ is_refund st = true
  else st = StatusRefunding /\ f_Status f = RefundPending \/ st = StatusRefunded /\ f_Status f = RefundSucceeded.

Definition is_applied (p : PaymentRow) : Prop := p_Outcome p = Some OutcomeApplied.
Definition moving (f : RefundRow) : Prop := f_Reason f <> ReasonDoublePayment.

(** What the outcome of a recorded payment means. *)
Definition payment_state (d : PG) (txn : string) (st : Status) (p : PaymentRow) : Prop :=
  match p_Outcome p with
  | Some OutcomeApplied =>
      p_Status p = StatusSucceeded /\ 0 < p_AmountVnd p /\ total_at d (p_OrderID p) = Some (p_AmountVnd p) /\ is_sold st = true
  | Some OutcomeRefundRequired => p_Status p = StatusSucceeded /\ 0 < p_AmountVnd p /\ is_Some (refunds d !! txn)
  | Some OutcomeIgnoredFailed => p_Status p = StatusFailed
  | _ => False
  end.

Record books_ok (d : PG) : Prop := {
  ok_id id r : orders d !! id = Some r -> r_ID r = id;
  ok_key i j r q : orders d !! i = Some r -> orders d !! j = Some q ->
    r_UserID r = r_UserID q -> r_IdempotencyKey r = r_IdempotencyKey q -> i = j;
  ok_held i j r q : orders d !! i = Some r -> orders d !! j = Some q ->
    r_Status r = StatusHeld -> r_Status q = StatusHeld ->
    r_UserID r = r_UserID q -> r_EventID r = r_EventID q -> i = j;
  ok_seat id s x : order_seats d !! (id, s) = Some x -> event_at d id = Some (os_EventID x);
  ok_total id : is_Some (orders d !! id) -> prices_of d id <> [] /\ total_at d id = Some (sum64 (prices_of d id));
  ok_ticket i t : tickets d !! i = Some t ->
    exists st, status_at d (t_OrderID t) = Some st /\ ticket_state st t /\
      event_at d (t_OrderID t) = Some (t_EventID t) /\ has_seat d (t_OrderID t) (t_SeatID t);
  ok_unique i j t u : tickets d !! i = Some t -> tickets d !! j = Some u ->
    t_EventID t = t_EventID u -> t_SeatID t = t_SeatID u -> i = j;
  ok_sold id st s : status_at d id = Some st -> is_sold st = true -> has_seat d id s ->
    exists i t, tickets d !! i = Some t /\ t_OrderID t = id /\ t_SeatID t = s;
  ok_payment txn p : payments d !! txn = Some p ->
    exists st, status_at d (p_OrderID p) = Some st /\ payment_state d txn st p /\
      txn <> EmptyString /\ p_OrderID p <> uuid_Nil;
  ok_applied t1 t2 p q : payments d !! t1 = Some p -> payments d !! t2 = Some q ->
    is_applied p -> is_applied q -> p_OrderID p = p_OrderID q -> t1 = t2;
  ok_refund txn f : refunds d !! txn = Some f ->
    exists p st, payments d !! txn = Some p /\ p_Outcome p = Some OutcomeRefundRequired /\
      p_OrderID p = f_OrderID f /\ p_AmountVnd p = f_AmountVnd f /\
      status_at d (f_OrderID f) = Some st /\ refund_state st f /\
      (f_Status f = RefundPending \/ f_Status f = RefundSucceeded);
  ok_moving t1 t2 f g : refunds d !! t1 = Some f -> refunds d !! t2 = Some g ->
    moving f -> moving g -> f_OrderID f = f_OrderID g -> t1 = t2;
  ok_settled id st : status_at d id = Some st ->
    (is_sold st = true -> exists txn p, payments d !! txn = Some p /\ p_OrderID p = id /\ is_applied p) /\
    (is_refund st = true -> exists txn f, refunds d !! txn = Some f /\ f_OrderID f = id /\ moving f);
}.

(** The outbox and the catalog are not part of the books. *)
Definition same_books (d d' : PG) : Prop :=
  orders d' = orders d /\ order_seats d' = order_seats d /\ tickets d' = tickets d /\
  payments d' = payments d /\ refunds d' = refunds d.

#[global] Instance same_books_equiv : Equivalence same_books.
Proof.
  unfold same_books. split; [done|intros x y H; destruct_and!; split_and!; congruence|].
  intros x y z H1 H2. destruct_and!. split_and!; congruence.
Qed.

Lemma same_books_ok d d' : same_books d d' -> books_ok d -> books_ok d'.
Proof.
  intros (H1 & H2 & H3 & H4 & H5) [].
  split; unfold status_at, event_at, total_at, prices_of, has_seat, payment_state, total_at in *; rewrite ?H1, ?H2, ?H3, ?H4, ?H5; assumption.
Qed.

#[global] Instance books_ok_proper : Proper (same_books ==> iff) books_ok.
Proof. intros d d' H. split; apply same_books_ok; [done|by symmetry]. Qed.

(** ** The events *)

Definition move (id : UUID) (st : Status) (now : Z) (r : OrderRow) (d : PG) : PG :=
  set_orders (<[id := set_status st now r]> (orders d)) d.

Definition add_payment (txn : string) (p : PaymentRow) (d : PG) : PG := set_payments (<[txn := p]> (payments d)) d.
Definition add_refund (txn : string) (f : RefundRow) (d : PG) : PG := set_refunds (<[txn := f]> (refunds d)) d.

Definition add_seats (id : UUID) (ev : Z) (l : list (string * Z)) (d : PG) : PG :=
  set_order_seats (fold_left (fun m sp => <[(id, sp.1) := mkOrderSeatRow ev sp.2]> m) l (order_seats d)) d.

Definition add_tickets (id : UUID) (ev : Z) (l : list (UUID * string)) (d : PG) : PG :=
  set_tickets (fold_left (fun m (t : UUID * string) => <[t.1 := mkTicketRow id ev t.2 None None]> m) l (tickets d)) d.

(** Every blank ticket of the order gets a QR payload. *)
Definition issue_tickets (id : UUID) (qr : UUID -> string) (now : Z) (d : PG) : PG :=
  set_tickets (map_imap (fun i t => Some (if decide (t_OrderID t = id) then issue_qr (qr i) now t else t)) (tickets d)) d.

(** What a step announces: the topic, the event type, the order, and the
    payment a refund event names. *)
Record Announcement := mkAnnouncement { an_topic : string; an_type : string; an_order : UUID; an_txn : string }.

Inductive book_step (now : Z) : PG -> option Announcement -> PG -> Prop :=
| bs_held a l d :
    orders d !! ih_OrderID a = None ->
    (forall i r, orders d !! i = Some r -> ~ same_key (ih_UserID a) (ih_IdempotencyKey a) (i, r)) ->
    (forall i r, orders d !! i = Some r -> ~ same_held (ih_EventID a) (ih_UserID a) (i, r)) ->
    l <> [] -> NoDup l.*1 -> ih_TotalVnd a = sum64 l.*2 -> StronglySorted String.le l.*1 ->
    book_step now d (Some (mkAnnouncement TopicOrders OrderHeld (ih_OrderID a) EmptyString))
      (add_seats (ih_OrderID a) (ih_EventID a) l
         (set_orders (<[ih_OrderID a := held_row a now]> (orders d)) d))
| bs_cancelled id r d :
    orders d !! id = Some r -> r_Status r = StatusHeld ->
    book_step now d (Some (mkAnnouncement TopicOrders OrderCancelled id EmptyString)) (move id StatusCancelled now r d)
| bs_expired id r d :
    orders d !! id = Some r -> r_Status r = StatusHeld -> r_HoldExpiresAt r < now ->
    book_step now d (Some (mkAnnouncement TopicOrders OrderExpired id EmptyString)) (move id StatusExpired now r d)
| bs_payment_failed id txn amount d :
    is_Some (orders d !! id) -> payments d !! txn = None -> txn <> EmptyString -> id <> uuid_Nil ->
    book_step now d None (add_payment txn (mkPaymentRow id amount StatusFailed (Some OutcomeIgnoredFailed)) d)
| bs_paid id r txn l d :
    orders d !! id = Some r -> (r_Status r = StatusHeld \/ r_Status r = StatusExpired) ->
    payments d !! txn = None -> txn <> EmptyString -> id <> uuid_Nil -> 0 < r_TotalVnd r ->
    NoDup l.*1 -> NoDup l.*2 -> (forall s, s ∈ l.*2 <-> has_seat d id s) ->
    (forall i, i ∈ l.*1 -> tickets d !! i = None) ->
    (forall i t s, tickets d !! i = Some t -> t_EventID t = r_EventID r -> t_SeatID t = s -> s ∉ l.*2) ->
    book_step now d (Some (mkAnnouncement TopicOrders OrderPaid id EmptyString))
      (move id StatusPaid now r (add_tickets id (r_EventID r) l
         (add_payment txn (mkPaymentRow id (r_TotalVnd r) StatusSucceeded (Some OutcomeApplied)) d)))
| bs_refund_requested id r txn amount reason d :
    orders d !! id = Some r -> (r_Status r = StatusHeld \/ r_Status r = StatusExpired \/ r_Status r = StatusCancelled) ->
    payments d !! txn = None -> txn <> EmptyString -> id <> uuid_Nil -> 0 < amount -> reason <> ReasonDoublePayment ->
    book_step now d (Some (mkAnnouncement TopicOrders OrderRefundRequested id txn))
      (move id StatusRefunding now r (add_refund txn (mkRefundRow id amount reason RefundPending now None)
         (add_payment txn (mkPaymentRow id amount StatusSucceeded (Some OutcomeRefundRequired)) d)))
| bs_double_payment id r txn amount d :
    orders d !! id = Some r -> (is_sold (r_Status r) = true \/ is_refund (r_Status r) = true) ->
    payments d !! txn = None -> txn <> EmptyString -> id <> uuid_Nil -> 0 < amount ->
    book_step now d (Some (mkAnnouncement TopicOrders OrderRefundRequested id txn))
      (add_refund txn (mkRefundRow id amount ReasonDoublePayment RefundPending now None)
         (add_payment txn (mkPaymentRow id amount StatusSucceeded (Some OutcomeRefundRequired)) d))
| bs_refunded id r txn f d :
    refunds d !! txn = Some f -> f_OrderID f = id -> f_Status f = RefundPending -> f_Reason f <> ReasonDoublePayment ->
    orders d !! id = Some r -> r_Status r = StatusRefunding ->
    book_step now d (Some (mkAnnouncement TopicOrders OrderRefunded id txn))
      (move id StatusRefunded now r (add_refund txn (completed now f) d))
| bs_double_refunded id txn f d :
    refunds d !! txn = Some f -> f_OrderID f = id -> f_Status f = RefundPending -> f_Reason f = ReasonDoublePayment ->
    book_step now d (Some (mkAnnouncement TopicOrders OrderRefunded id txn)) (add_refund txn (completed now f) d)
| bs_ticketed id r qr d :
    orders d !! id = Some r -> r_Status r = StatusPaid ->
    book_step now d (Some (mkAnnouncement TopicTickets TicketIssued id EmptyString))
      (move id StatusTicketed now r (issue_tickets id qr now d)).

(** ** Lookups after an event *)

Lemma status_at_move id st now r d x :
  status_at (move id st now r d) x = if decide (x = id) then Some st else status_at d x.
Proof.
  unfold status_at, move. simpl. destruct (decide (x = id)) as [->|];
    [by rewrite lookup_insert_eq|by rewrite lookup_insert_ne].
Qed.

Lemma event_at_move id st now r d x : orders d !! id = Some r -> event_at (move id st now r d) x = event_at d x.
Proof.
  unfold event_at, move. simpl. intros Hr. destruct (decide (x = id)) as [->|];
    [by rewrite lookup_insert_eq, Hr|by rewrite lookup_insert_ne].
Qed.

Lemma total_at_move id st now r d x : orders d !! id = Some r -> total_at (move id st now r d) x = total_at d x.
Proof.
  unfold total_at, move. simpl. intros Hr. destruct (decide (x = id)) as [->|];
    [by rewrite lookup_insert_eq, Hr|by rewrite lookup_insert_ne].
Qed.

Lemma status_at_Some d id r : orders d !! id = Some r -> status_at d id = Some (r_Status r).
Proof. unfold status_at. by intros ->. Qed.

Lemma status_at_orders d id st : status_at d id = Some st -> exists r, orders d !! id = Some r /\ r_Status r = st.
Proof. unfold status_at. intros H. apply fmap_Some in H as (r & Hr & ->). eauto. Qed.

(** The clauses about orders alone, under a change of status. *)
Definition orders_ok (d : PG) : Prop :=
  (forall id r, orders d !! id = Some r -> r_ID r = id) /\
  (forall i j r q, orders d !! i = Some r -> orders d !! j = Some q ->
    r_UserID r = r_UserID q -> r_IdempotencyKey r = r_IdempotencyKey q -> i = j) /\
  (forall i j r q, orders d !! i = Some r -> orders d !! j = Some q ->
    r_Status r = StatusHeld -> r_Status q = StatusHeld ->
    r_UserID r = r_UserID q -> r_EventID r = r_EventID q -> i = j) /\
  (forall id s x, order_seats d !! (id, s) = Some x -> event_at d id = Some (os_EventID x)) /\
  (forall id, is_Some (orders d !! id) -> prices_of d id <> [] /\ total_at d id = Some (sum64 (prices_of d id))).

Lemma books_orders_ok d : books_ok d -> orders_ok d.
Proof. intros []. done. Qed.

Lemma orders_ok_move id st now r d :
  orders d !! id = Some r -> st <> StatusHeld -> orders_ok d -> orders_ok (move id st now r d).
Proof.
  intros Hr Hst (H1 & H2 & H3 & H4 & H5).
  assert (Hlk : forall x q, orders (move id st now r d) !! x = Some q ->
    exists q', orders d !! x = Some q' /\ r_ID q = r_ID q' /\ r_UserID q = r_UserID q' /\ r_EventID q = r_EventID q' /\
      r_IdempotencyKey q = r_IdempotencyKey q' /\ (r_Status q = StatusHeld -> q = q')).
  { intros x q. unfold move. simpl. intros Hq. apply lookup_insert_Some in Hq as [[<- <-]|[Hne Hq]].
    - exists r. simpl. naive_solver.
    - exists q. naive_solver. }
  split_and!.
  - intros x q Hq. apply Hlk in Hq as (q' & Hq & -> & _). eauto.
  - intros i j q q2 Hi Hj Hu Hk. apply Hlk in Hi as (? & Hi & _ & Hu1 & _ & Hk1 & _), Hj as (? & Hj & _ & Hu2 & _ & Hk2 & _).
    eapply H2; eauto; congruence.
  - intros i j q q2 Hi Hj Hq Hq2 Hu He. apply Hlk in Hi as (? & Hi & _ & _ & _ & _ & Hs1), Hj as (? & Hj & _ & _ & _ & _ & Hs2).
    specialize (Hs1 Hq) as <-. specialize (Hs2 Hq2) as <-. eauto.
  - intros x s y. rewrite event_at_move by done. apply H4.
  - intros x Hx. rewrite total_at_move by done. change (prices_of (move id st now r d)) with (prices_of d). apply H5.
    unfold move in Hx. simpl in Hx. destruct (decide (x = id)) as [->|]; [eauto|]. by rewrite lookup_insert_ne in Hx.
Qed.

(** Split [books_ok] of a changed book: the clauses about orders come from
    [Ho : orders_ok _]. *)
Ltac books_split Ho :=
  let A := fresh "Ho1" in let B := fresh "Ho2" in let C := fresh "Ho3" in
  let D := fresh "Ho4" in let E := fresh "Ho5" in
  destruct Ho as (A & B & C & D & E); split; try assumption; clear A B C D E.

(** The rows of sold and refunded orders do not notice that another order moves. *)
Lemma moved_kept id st now r d d1 x st' :
  orders d1 = orders d -> orders d !! id = Some r -> is_sold (r_Status r) = false -> is_refund (r_Status r) = false ->
  status_at d x = Some st' -> is_sold st' = true \/ is_refund st' = true ->
  x <> id /\ status_at (move id st now r d1) x = Some st'.
Proof.
  intros Hd Hr Hs Hf Hx Hst. rewrite status_at_move. destruct (decide (x = id)) as [->|].
  - rewrite (status_at_Some d id r Hr) in Hx. injection Hx as <-. destruct Hst; congruence.
  - split; [done|]. unfold status_at in *. by rewrite Hd.
Qed.

Lemma ticket_sold d i t :
  books_ok d -> tickets d !! i = Some t ->
  exists st, status_at d (t_OrderID t) = Some st /\ (is_sold st = true \/ is_refund st = true) /\ ticket_state st t /\
    event_at d (t_OrderID t) = Some (t_EventID t) /\ has_seat d (t_OrderID t) (t_SeatID t).
Proof.
  intros Hok Ht. destruct (ok_ticket d Hok i t Ht) as (st & H1 & H2 & H3 & H4). exists st. split_and!; try done.
  left. by destruct H2 as [[-> _]|[-> _]].
Qed.

Lemma refund_sold d txn f :
  books_ok d -> refunds d !! txn = Some f ->
  exists p st, payments d !! txn = Some p /\ p_Outcome p = Some OutcomeRefundRequired /\ p_OrderID p = f_OrderID f /\
    p_AmountVnd p = f_AmountVnd f /\ status_at d (f_OrderID f) = Some st /\ (is_sold st = true \/ is_refund st = true) /\
    refund_state st f /\ (f_Status f = RefundPending \/ f_Status f = RefundSucceeded).
Proof.
  intros Hok Hf. destruct (ok_refund d Hok txn f Hf) as (p & st & H1 & H2 & H3 & H4 & H5 & H6 & H7). exists p, st. split_and!; try done.
  unfold refund_state in H6. case_decide; [done|]. right. by destruct H6 as [[-> _]|[-> _]].
Qed.

Lemma no_refund_without_payment d txn : books_ok d -> payments d !! txn = None -> refunds d !! txn = None.
Proof.
  intros Hok Hn. destruct (refunds d !! txn) as [f|] eqn:Hf; [|done]. destruct (ok_refund d Hok txn f Hf) as (p & st & Hp & _). congruence.
Qed.

(** An order that leaves HELD for a status that is neither sold nor a refund. *)
Lemma move_plain_ok id st now r d :
  orders d !! id = Some r -> is_sold (r_Status r) = false -> is_refund (r_Status r) = false ->
  is_sold st = false -> is_refund st = false -> st <> StatusHeld ->
  books_ok d -> books_ok (move id st now r d).
Proof.
  intros Hr Hs0 Hf0 Hs Hf Hst Hok. pose proof (orders_ok_move id st now r d Hr Hst (books_orders_ok _ Hok)) as Ho.
  pose proof (status_at_Some d id r Hr) as Hst0.
  pose proof (fun x st' => moved_kept id st now r d d x st' eq_refl Hr Hs0 Hf0) as Hstat.
  books_split Ho.
  - intros i t Ht. destruct (ticket_sold d i t Hok Ht) as (st' & H1 & Hsold & H2 & H3 & H4). exists st'.
    rewrite event_at_move by done. split_and!; try done. by apply Hstat.
  - apply (ok_unique d Hok).
  - intros x st' s Hx. rewrite status_at_move in Hx. destruct (decide (x = id)); [congruence|]. by apply (ok_sold d Hok).
  - intros txn p Hp. destruct (ok_payment d Hok txn p Hp) as (st' & H1 & H2 & H3).
    unfold payment_state in *. rewrite status_at_move, total_at_move by done.
    destruct (decide (p_OrderID p = id)) as [He|]; [|eauto].
    exists st. split; [done|]. rewrite He, Hst0 in H1. injection H1 as <-. split; [|done].
    destruct (p_Outcome p) as [[]|]; try done. destruct_and!. congruence.
  - apply (ok_applied d Hok).
  - intros txn f Hf1. destruct (refund_sold d txn f Hok Hf1) as (p & st' & H1 & H2 & H3 & H4 & H5 & Hsold & H6 & H7).
    exists p, st'. split_and!; try done. by apply Hstat.
  - apply (ok_moving d Hok).
  - intros x st' Hx. rewrite status_at_move in Hx. destruct (decide (x = id)); [|by apply (ok_settled d Hok)].
    injection Hx as <-. split; congruence.
Qed.

Lemma add_tickets_lookup id ev l d i t :
  NoDup l.*1 ->
  tickets (add_tickets id ev l d) !! i = Some t <->
    (exists s, (i, s) ∈ l /\ t = mkTicketRow id ev s None None) \/ i ∉ l.*1 /\ tickets d !! i = Some t.
Proof.
  intros Hnd. unfold add_tickets. simpl.
  rewrite (fold_insert_Some fst (fun x : UUID * string => mkTicketRow id ev x.2 None None) l (tickets d) i t Hnd).
  split; (intros [Hl|Hr]; [left|right; done]).
  - destruct Hl as ([j s] & Hin & <- & <-). eauto.
  - destruct Hl as (s & Hin & ->). by exists (i, s).
Qed.

Lemma issue_tickets_lookup id qr now d i t :
  tickets (issue_tickets id qr now d) !! i = Some t <->
    exists u, tickets d !! i = Some u /\ t = if decide (t_OrderID u = id) then issue_qr (qr i) now u else u.
Proof.
  unfold issue_tickets. simpl. rewrite map_lookup_imap. destruct (tickets d !! i) as [u|]; simpl; [|naive_solver].
  split; [intros [= <-]; eauto|]. by intros (u' & [= <-] & ->).
Qed.

(** A payment recorded without touching any order. *)
Lemma payment_state_mono d d' txn st p :
  (forall x, total_at d' x = total_at d x) -> (forall t, is_Some (refunds d !! t) -> is_Some (refunds d' !! t)) ->
  payment_state d txn st p -> payment_state d' txn st p.
Proof.
  intros Ht Hr. unfold payment_state. rewrite Ht. destruct (p_Outcome p) as [[]|]; try done. naive_solver.
Qed.

Lemma payment_failed_ok id txn amount d :
  is_Some (orders d !! id) -> payments d !! txn = None -> txn <> EmptyString -> id <> uuid_Nil -> books_ok d ->
  books_ok (add_payment txn (mkPaymentRow id amount StatusFailed (Some OutcomeIgnoredFailed)) d).
Proof.
  intros [r Hr] Hfresh Ht Hn Hok. destruct Hok. split; try assumption.
  - simpl. intros t p Hp. apply lookup_insert_Some in Hp as [[<- <-]|[_ Hp]]; [|by apply ok_payment0].
    exists (r_Status r). split; [by apply status_at_Some|]. done.
  - simpl. intros t1 t2 p q Hp Hq Ha Hb. apply lookup_insert_Some in Hp as [[<- <-]|[_ Hp]]; [done|].
    apply lookup_insert_Some in Hq as [[<- <-]|[_ Hq]]; [done|]. eauto.
  - simpl. intros t f Hf. destruct (ok_refund0 t f Hf) as (p & st & Hp & Hrest). exists p, st.
    split; [|done]. rewrite lookup_insert_ne; [done|congruence].
  - intros x st Hx. destruct (ok_settled0 x st Hx) as [H1 H2]. split; [|done].
    intros Hs. destruct (H1 Hs) as (t & p & Hp & Hrest). exists t, p. split; [|done]. simpl.
    rewrite lookup_insert_ne; [done|congruence].
Qed.

(** Recording the refund of a payment of an order that keeps or gets the status
    [st], a status where the order is sold or being refunded. *)
Lemma double_payment_ok id r txn amount now d :
  orders d !! id = Some r -> (is_sold (r_Status r) = true \/ is_refund (r_Status r) = true) ->
  payments d !! txn = None -> txn <> EmptyString -> id <> uuid_Nil -> 0 < amount -> books_ok d ->
  books_ok (add_refund txn (mkRefundRow id amount ReasonDoublePayment RefundPending now None)
    (add_payment txn (mkPaymentRow id amount StatusSucceeded (Some OutcomeRefundRequired)) d)).
Proof.
  intros Hr Hst Hfresh Ht Hn Ha Hok.
  pose proof (no_refund_without_payment d txn Hok Hfresh) as Hfresh'.
  destruct Hok. split; try assumption; simpl.
  - intros t p Hp. apply lookup_insert_Some in Hp as [[<- <-]|[Hne Hp]].
    + exists (r_Status r). split; [by apply status_at_Some|]. split_and!; try done. unfold payment_state. simpl.
      rewrite lookup_insert_eq. eauto.
    + destruct (ok_payment0 t p Hp) as (st & H1 & H2 & H3). exists st. split; [done|]. split; [|done].
      eapply payment_state_mono; [..|exact H2]; [done|]. simpl. intros t' Ht'. apply lookup_insert_is_Some'. by right.
  - intros t1 t2 p q Hp Hq Hpa Hqa. apply lookup_insert_Some in Hp as [[<- <-]|[_ Hp]]; [done|].
    apply lookup_insert_Some in Hq as [[<- <-]|[_ Hq]]; [done|]. eauto.
  - intros t f Hf. apply lookup_insert_Some in Hf as [[<- <-]|[Hne Hf]].
    + eexists _, (r_Status r). rewrite lookup_insert_eq. split_and!; try done; try (by apply status_at_Some); try (by left).
    + destruct (ok_refund0 t f Hf) as (p & st & Hp & Hrest). exists p, st. split; [|done]. by rewrite lookup_insert_ne.
  - intros t1 t2 f g Hf Hg Hm1 Hm2. apply lookup_insert_Some in Hf as [[<- <-]|[_ Hf]]; [by destruct Hm1|].
    apply lookup_insert_Some in Hg as [[<- <-]|[_ Hg]]; [by destruct Hm2|]. eauto.
  - intros x st Hx. destruct (ok_settled0 x st Hx) as [H1 H2]. split.
    + intros Hs. destruct (H1 Hs) as (t & p & Hp & Hrest). exists t, p. rewrite lookup_insert_ne by congruence. done.
    + intros Hs. destruct (H2 Hs) as (t & f & Hf & Hrest). exists t, f. rewrite lookup_insert_ne by congruence. done.
Qed.

(** A payment that is not applied to its order: the order goes to REFUNDING. *)
Lemma refund_requested_ok id r txn amount reason now d :
  orders d !! id = Some r -> (r_Status r = StatusHeld \/ r_Status r = StatusExpired \/ r_Status r = StatusCancelled) ->
  payments d !! txn = None -> txn <> EmptyString -> id <> uuid_Nil -> 0 < amount -> reason <> ReasonDoublePayment ->
  books_ok d ->
  books_ok (move id StatusRefunding now r (add_refund txn (mkRefundRow id amount reason RefundPending now None)
    (add_payment txn (mkPaymentRow id amount StatusSucceeded (Some OutcomeRefundRequired)) d))).
Proof.
  intros Hr Hst Hfresh Ht Hn Ha Hreason Hok. set (d1 := add_refund _ _ _).
  pose proof (orders_ok_move id StatusRefunding now r d1 Hr ltac:(done) (books_orders_ok _ Hok)) as Ho.
  pose proof (status_at_Some d id r Hr) as Hst0.
  assert (is_sold (r_Status r) = false /\ is_refund (r_Status r) = false) as [Hs0 Hf0] by (destruct Hst as [->|[->| ->]]; done).
  pose proof (fun x st' => moved_kept id StatusRefunding now r d d1 x st' eq_refl Hr Hs0 Hf0) as Hstat.
  pose proof (no_refund_without_payment d txn Hok Hfresh) as Hfresh'.
  assert (Hnoref : forall t f, refunds d !! t = Some f -> f_OrderID f <> id).
  { intros t f Hf. destruct (refund_sold d t f Hok Hf) as (p & st & _ & _ & _ & _ & H5 & Hsold & _). by apply (Hstat _ st). }
  books_split Ho.
  - intros i t Hti. destruct (ticket_sold d i t Hok Hti) as (st' & H1 & Hsold & H2 & H3 & H4). exists st'.
    rewrite event_at_move by done. split_and!; try done. by apply Hstat.
  - apply (ok_unique d Hok).
  - intros x st' s Hx. rewrite status_at_move in Hx. destruct (decide (x = id)); [naive_solver|]. by apply (ok_sold d Hok).
  - intros t p Hp. simpl in Hp. apply lookup_insert_Some in Hp as [[<- <-]|[Hne Hp]].
    + exists StatusRefunding. rewrite status_at_move, decide_True by done. split_and!; try done.
      unfold payment_state. simpl. rewrite lookup_insert_eq. eauto.
    + destruct (ok_payment d Hok t p Hp) as (st' & H1 & H2 & H3).
      destruct (decide (p_OrderID p = id)) as [He|He].
      * exists StatusRefunding. rewrite status_at_move, decide_True by done. split_and!; try done; [|apply H3..].
        rewrite He, Hst0 in H1. injection H1 as <-. unfold payment_state in *. rewrite total_at_move by done.
        destruct (p_Outcome p) as [[]|]; try done; [destruct_and!; congruence|]. destruct H2 as (? & ? & Hx).
        split_and!; try done. simpl. apply lookup_insert_is_Some'. by right.
      * exists st'. rewrite status_at_move, decide_False by done. split_and!; try done; [|apply H3..].
        eapply payment_state_mono; [..|exact H2]; [intros x; by rewrite total_at_move|].
        simpl. intros t' Ht'. apply lookup_insert_is_Some'. by right.
  - simpl. intros t1 t2 p q Hp Hq Hpa Hqa. apply lookup_insert_Some in Hp as [[<- <-]|[_ Hp]]; [done|].
    apply lookup_insert_Some in Hq as [[<- <-]|[_ Hq]]; [done|]. by apply (ok_applied d Hok).
  - intros t f Hf. simpl in Hf. apply lookup_insert_Some in Hf as [[<- <-]|[Hne Hf]].
    + eexists _, StatusRefunding. simpl. rewrite lookup_insert_eq, status_at_move, decide_True by done.
      split_and!; try done; try (by left). unfold refund_state. simpl. rewrite decide_False by done. by left.
    + destruct (ok_refund d Hok t f Hf) as (p & st & Hp & H2 & H3 & H4 & H5 & H6 & H7). exists p, st. simpl.
      rewrite lookup_insert_ne, status_at_move, decide_False by eauto. done.
  - simpl. intros t1 t2 f g Hf Hg Hm1 Hm2 Hfg.
    apply lookup_insert_Some in Hf as [[<- <-]|[_ Hf]]; apply lookup_insert_Some in Hg as [[<- <-]|[_ Hg]]; try done.
    + by destruct (Hnoref t2 g Hg).
    + by destruct (Hnoref t1 f Hf).
    + by apply (ok_moving d Hok t1 t2 f g).
  - intros x st' Hx. rewrite status_at_move in Hx. destruct (decide (x = id)) as [->|].
    + injection Hx as <-. split; [done|]. intros _. eexists txn, _. simpl. by rewrite lookup_insert_eq.
    + destruct (ok_settled d Hok x st' Hx) as [H1 H2]. split; intros Hs.
      * destruct (H1 Hs) as (t & p & Hp & Hrest). exists t, p. simpl. rewrite lookup_insert_ne by congruence. done.
      * destruct (H2 Hs) as (t & f & Hf & Hrest). exists t, f. simpl. rewrite lookup_insert_ne by congruence. done.
Qed.

(** A payment applied to its order: one blank ticket per seat. *)
Lemma paid_ok id r txn l now d :
  orders d !! id = Some r -> (r_Status r = StatusHeld \/ r_Status r = StatusExpired) ->
  payments d !! txn = None -> txn <> EmptyString -> id <> uuid_Nil -> 0 < r_TotalVnd r ->
  NoDup l.*1 -> NoDup l.*2 -> (forall s, s ∈ l.*2 <-> has_seat d id s) ->
  (forall i, i ∈ l.*1 -> tickets d !! i = None) ->
  (forall i t s, tickets d !! i = Some t -> t_EventID t = r_EventID r -> t_SeatID t = s -> s ∉ l.*2) ->
  books_ok d ->
  books_ok (move id StatusPaid now r (add_tickets id (r_EventID r) l
    (add_payment txn (mkPaymentRow id (r_TotalVnd r) StatusSucceeded (Some OutcomeApplied)) d))).
Proof.
  intros Hr Hst Hfresh Ht Hn Ha Hnd1 Hnd2 Hseats Hids Hfree Hok. set (d1 := add_tickets _ _ _ _).
  pose proof (orders_ok_move id StatusPaid now r d1 Hr ltac:(done) (books_orders_ok _ Hok)) as Ho.
  pose proof (status_at_Some d id r Hr) as Hst0.
  assert (is_sold (r_Status r) = false /\ is_refund (r_Status r) = false) as [Hs0 Hf0] by (destruct Hst as [->| ->]; done).
  pose proof (fun x st' => moved_kept id StatusPaid now r d d1 x st' eq_refl Hr Hs0 Hf0) as Hstat.
  assert (Htk : forall i t, tickets (move id StatusPaid now r d1) !! i = Some t <->
    (exists s, (i, s) ∈ l /\ t = mkTicketRow id (r_EventID r) s None None) \/ i ∉ l.*1 /\ tickets d !! i = Some t).
  { intros i t. change (tickets (move id StatusPaid now r d1)) with (tickets d1). unfold d1. by rewrite add_tickets_lookup. }
  assert (Hin : forall i s, (i, s) ∈ l -> i ∈ l.*1 /\ s ∈ l.*2).
  { intros i s Hi. split; apply list_elem_of_fmap; by exists (i, s). }
  books_split Ho.
  - intros i t Hti. apply Htk in Hti as [(s & Hi & ->)|[_ Hti]].
    + exists StatusPaid. rewrite status_at_move, event_at_move by done. simpl. rewrite decide_True by done.
      split_and!; [done|by left|unfold event_at; simpl; by rewrite Hr|]. apply Hseats. by apply (Hin i).
    + destruct (ticket_sold d i t Hok Hti) as (st' & H1 & Hsold & H2 & H3 & H4). exists st'.
      rewrite event_at_move by done. split_and!; try done. by apply Hstat.
  - intros i j t u Hi Hj. apply Htk in Hi as [(s & Hi & ->)|[_ Hi]], Hj as [(s' & Hj & ->)|[_ Hj]]; simpl; intros He Hs.
    + subst s'. apply list_elem_of_lookup in Hi as [a Hi], Hj as [b Hj].
      assert (a = b) as <- by (eapply (NoDup_lookup l.*2); [done|by rewrite list_lookup_fmap, Hi|by rewrite list_lookup_fmap, Hj]).
      congruence.
    + destruct (Hfree j u s Hj); [congruence..|]. by apply (Hin i).
    + destruct (Hfree i t s' Hi); [congruence..|]. by apply (Hin j).
    + by apply (ok_unique d Hok i j t u).
  - intros x st' s Hx Hsold Hs. rewrite status_at_move in Hx. destruct (decide (x = id)) as [->|].
    + apply Hseats in Hs. apply list_elem_of_fmap in Hs as ([i s'] & -> & Hi).
      exists i, (mkTicketRow id (r_EventID r) s' None None). split; [|done]. apply Htk. left. eauto.
    + destruct (ok_sold d Hok x st' s Hx Hsold Hs) as (i & t & Hi & Hrest). exists i, t. split; [|done].
      apply Htk. right. split; [|done]. intros Hl. rewrite (Hids i Hl) in Hi. done.
  - intros t p Hp. simpl in Hp. apply lookup_insert_Some in Hp as [[<- <-]|[Hne Hp]].
    + exists StatusPaid. rewrite status_at_move, decide_True by done. split_and!; try done.
      unfold payment_state. simpl. split_and!; try done. rewrite total_at_move by done. unfold total_at. simpl. by rewrite Hr.
    + destruct (ok_payment d Hok t p Hp) as (st' & H1 & H2 & H3). unfold payment_state in *.
      rewrite status_at_move, total_at_move by done. destruct (decide (p_OrderID p = id)) as [He|He].
      * exists StatusPaid. split; [done|]. split; [|done]. rewrite He, Hst0 in H1. injection H1 as <-.
        destruct (p_Outcome p) as [[]|]; try done. destruct_and!. split_and!; done.
      * exists st'. split; [exact H1|]. split; [exact H2|done].
  - simpl. intros t1 t2 p q Hp Hq Hpa Hqa Hpq.
    assert (Hno : forall t p, payments d !! t = Some p -> is_applied p -> p_OrderID p <> id).
    { intros t p' Hp' Hpa' He. destruct (ok_payment d Hok t p' Hp') as (st' & H1 & H2 & _).
      rewrite He, Hst0 in H1. injection H1 as <-. unfold payment_state in H2. rewrite Hpa' in H2. destruct_and!. congruence. }
    apply lookup_insert_Some in Hp as [[<- <-]|[_ Hp]]; apply lookup_insert_Some in Hq as [[<- <-]|[_ Hq]]; try done.
    + by destruct (Hno t2 q Hq Hqa).
    + by destruct (Hno t1 p Hp Hpa).
    + by apply (ok_applied d Hok t1 t2 p q).
  - intros t f Hf. destruct (refund_sold d t f Hok Hf) as (p & st & Hp & H2 & H3 & H4 & H5 & Hsold & H6 & H7).
    exists p, st. simpl. rewrite lookup_insert_ne by congruence. split_and!; try done. by apply Hstat.
  - apply (ok_moving d Hok).
  - intros x st' Hx. rewrite status_at_move in Hx. destruct (decide (x = id)) as [->|].
    + injection Hx as <-. split; [|done]. intros _. eexists txn, _. simpl. by rewrite lookup_insert_eq.
    + destruct (ok_settled d Hok x st' Hx) as [H1 H2]. split; [|done]. intros Hs.
      destruct (H1 Hs) as (t & p & Hp & Hrest). exists t, p. simpl. rewrite lookup_insert_ne by congruence. done.
Qed.

(** A refund paid back: of a double payment, or of the payment that moved the
    order. *)
Lemma double_refunded_ok txn f now d :
  refunds d !! txn = Some f -> f_Reason f = ReasonDoublePayment -> books_ok d ->
  books_ok (add_refund txn (completed now f) d).
Proof.
  intros Hf Hreason Hok. destruct Hok. split; try assumption; simpl.
  - intros t p Hp. destruct (ok_payment0 t p Hp) as (st & H1 & H2 & H3). exists st. split_and!; try done; try apply H3.
    apply (payment_state_mono d); [done| |exact H2]. simpl. intros t' Ht'. apply lookup_insert_is_Some'. by right.
  - intros t g Hg. apply lookup_insert_Some in Hg as [[<- <-]|[Hne Hg]]; [|by apply ok_refund0].
    destruct (ok_refund0 txn f Hf) as (p & st & Hp & H2 & H3 & H4 & H5 & H6 & H7). exists p, st.
    split_and!; try done; [|by right]. unfold refund_state in *. simpl. rewrite Hreason in *. by rewrite decide_True in *.
  - intros t1 t2 g h Hg Hh Hm1 Hm2. apply lookup_insert_Some in Hg as [[<- <-]|[_ Hg]]; [by destruct Hm1|].
    apply lookup_insert_Some in Hh as [[<- <-]|[_ Hh]]; [by destruct Hm2|]. eauto.
  - intros x st Hx. destruct (ok_settled0 x st Hx) as [H1 H2]. split; [done|].
    intros Hs. destruct (H2 Hs) as (t & g & Hg & Ho & Hm). exists t, g. rewrite lookup_insert_ne; [done|].
    intros <-. destruct Hm. congruence.
Qed.

Lemma refunded_ok id r txn f now d :
  refunds d !! txn = Some f -> f_OrderID f = id -> f_Reason f <> ReasonDoublePayment ->
  orders d !! id = Some r -> r_Status r = StatusRefunding -> books_ok d ->
  books_ok (move id StatusRefunded now r (add_refund txn (completed now f) d)).
Proof.
  intros Hf Hfid Hreason Hr Hst Hok. set (d1 := add_refund _ _ _).
  pose proof (orders_ok_move id StatusRefunded now r d1 Hr ltac:(done) (books_orders_ok _ Hok)) as Ho.
  pose proof (status_at_Some d id r Hr) as Hst0. rewrite Hst in Hst0.
  books_split Ho.
  - intros i t Hti. destruct (ok_ticket d Hok i t Hti) as (st' & H1 & H2 & H3 & H4). exists st'.
    rewrite event_at_move, status_at_move by done. rewrite decide_False; [done|]. intros He. rewrite He, Hst0 in H1.
    injection H1 as <-. by destruct H2 as [[? _]|[? _]].
  - apply (ok_unique d Hok).
  - intros x st' s Hx. rewrite status_at_move in Hx. destruct (decide (x = id)); [naive_solver|]. by apply (ok_sold d Hok).
  - intros t p Hp. destruct (ok_payment d Hok t p Hp) as (st' & H1 & H2 & H3).
    assert (payment_state (move id StatusRefunded now r d1) t st' p) as H2'.
    { apply (payment_state_mono d); [intros x; by rewrite total_at_move| |exact H2]. simpl. intros t' Ht'.
      apply lookup_insert_is_Some'. by right. }
    rewrite status_at_move. destruct (decide (p_OrderID p = id)) as [He|]; [|eauto].
    exists StatusRefunded. split_and!; try done; try apply H3. rewrite He, Hst0 in H1. injection H1 as <-.
    unfold payment_state in *. destruct (p_Outcome p) as [[]|]; naive_solver.
  - apply (ok_applied d Hok).
  - intros t g Hg. simpl in Hg. rewrite status_at_move. apply lookup_insert_Some in Hg as [[<- <-]|[Hne Hg]].
    + destruct (ok_refund d Hok txn f Hf) as (p & st & Hp & H2 & H3 & H4 & H5 & H6 & H7). exists p, StatusRefunded.
      simpl. rewrite decide_True by done. split_and!; try done; [|by right].
      unfold refund_state. simpl. rewrite decide_False by done. by right.
    + destruct (ok_refund d Hok t g Hg) as (p & st & Hp & H2 & H3 & H4 & H5 & H6 & H7).
      destruct (decide (f_OrderID g = id)) as [He|]; [|exists p, st; done].
      exists p, StatusRefunded. rewrite He, Hst0 in H5. injection H5 as <-. split_and!; try done.
      unfold refund_state in *. case_decide as Hd; [by right|].
      destruct Hne. eapply (ok_moving d Hok txn t f g); done || congruence.
  - simpl. intros t1 t2 g h Hg Hh Hm1 Hm2 Hgh.
    apply lookup_insert_Some in Hg as [[<- <-]|[_ Hg]]; apply lookup_insert_Some in Hh as [[<- <-]|[_ Hh]]; try done.
    + by apply (ok_moving d Hok txn t2 f h).
    + by apply (ok_moving d Hok t1 txn g f).
    + by apply (ok_moving d Hok t1 t2 g h).
  - intros x st' Hx. rewrite status_at_move in Hx. destruct (decide (x = id)) as [->|].
    + injection Hx as <-. split; [done|]. intros _. exists txn, (completed now f). simpl. rewrite lookup_insert_eq. done.
    + destruct (ok_settled d Hok x st' Hx) as [H1 H2]. split; [done|]. intros Hs.
      destruct (H2 Hs) as (t & g & Hg & Ho' & Hm). destruct (decide (t = txn)) as [->|].
      * exists txn, (completed now f). simpl. rewrite lookup_insert_eq. split; [done|]. simpl.
        assert (g = f) as -> by congruence. done.
      * exists t, g. simpl. by rewrite lookup_insert_ne.
Qed.

(** The tickets of a paid order are issued. *)
Lemma ticketed_ok id r qr now d :
  orders d !! id = Some r -> r_Status r = StatusPaid -> books_ok d ->
  books_ok (move id StatusTicketed now r (issue_tickets id qr now d)).
Proof.
  intros Hr Hst Hok. set (d1 := issue_tickets _ _ _ _).
  pose proof (orders_ok_move id StatusTicketed now r d1 Hr ltac:(done) (books_orders_ok _ Hok)) as Ho.
  pose proof (status_at_Some d id r Hr) as Hst0. rewrite Hst in Hst0.
  assert (Htk : forall i t, tickets (move id StatusTicketed now r d1) !! i = Some t <->
    exists u, tickets d !! i = Some u /\ t = if decide (t_OrderID u = id) then issue_qr (qr i) now u else u).
  { intros i t. change (tickets (move id StatusTicketed now r d1)) with (tickets d1). apply issue_tickets_lookup. }
  assert (Hsame : forall i u, let t := if decide (t_OrderID u = id) then issue_qr (qr i) now u else u in
    t_OrderID t = t_OrderID u /\ t_EventID t = t_EventID u /\ t_SeatID t = t_SeatID u).
  { intros i u. unfold issue_qr. repeat case_match; done. }
  books_split Ho.
  - intros i t Hti. apply Htk in Hti as (u & Hu & ->). destruct (Hsame i u) as (H1 & H2 & H3). rewrite H1, H2, H3.
    destruct (ok_ticket d Hok i u Hu) as (st' & H4 & H5 & H6 & H7). rewrite event_at_move, status_at_move by done.
    destruct (decide (t_OrderID u = id)) as [He|]; [|eauto]. exists StatusTicketed. split_and!; try done.
    rewrite He, Hst0 in H4. injection H4 as <-. right. destruct H5 as [(_ & Hq & _)|[? _]]; [|done].
    unfold issue_qr. rewrite Hq. simpl. eauto.
  - intros i j t u Hi Hj. apply Htk in Hi as (t' & Hi & ->), Hj as (u' & Hj & ->).
    destruct (Hsame i t') as (_ & -> & ->), (Hsame j u') as (_ & -> & ->). by apply (ok_unique d Hok i j t' u').
  - intros x st' s Hx Hsold Hs. rewrite status_at_move in Hx.
    assert (exists i t, tickets d !! i = Some t /\ t_OrderID t = x /\ t_SeatID t = s) as (i & t & Hi & Hxo & Hxs).
    { destruct (decide (x = id)) as [->|]; [by apply (ok_sold d Hok id StatusPaid)|by apply (ok_sold d Hok x st')]. }
    eexists i, _. split; [apply Htk; eauto|]. destruct (Hsame i t) as (-> & _ & ->). done.
  - intros t p Hp. destruct (ok_payment d Hok t p Hp) as (st' & H1 & H2 & H3). unfold payment_state in *.
    rewrite status_at_move, total_at_move by done. destruct (decide (p_OrderID p = id)) as [He|]; [|eauto].
    exists StatusTicketed. split; [done|]. split; [|done]. rewrite He, Hst0 in H1. injection H1 as <-. exact H2.
  - apply (ok_applied d Hok).
  - intros t f Hf. destruct (ok_refund d Hok t f Hf) as (p & st & Hp & H2 & H3 & H4 & H5 & H6 & H7). exists p.
    rewrite status_at_move. destruct (decide (f_OrderID f = id)) as [He|]; [|exists st; done].
    exists StatusTicketed. split_and!; try done. rewrite He, Hst0 in H5. injection H5 as <-.
    unfold refund_state in *. case_decide; [by left|naive_solver].
  - apply (ok_moving d Hok).
  - intros x st' Hx. rewrite status_at_move in Hx. destruct (decide (x = id)) as [->|]; [|by apply (ok_settled d Hok)].
    injection Hx as <-. split; [|done]. intros _. by apply (ok_settled d Hok id StatusPaid).
Qed.

(** A new order. *)
Lemma add_seats_lookup id ev l d x s y :
  NoDup l.*1 ->
  order_seats (add_seats id ev l d) !! (x, s) = Some y <->
    (x = id /\ exists price, (s, price) ∈ l /\ y = mkOrderSeatRow ev price) \/
    ~ (x = id /\ s ∈ l.*1) /\ order_seats d !! (x, s) = Some y.
Proof.
  intros Hnd. unfold add_seats. simpl.
  assert (NoDup ((fun sp : string * Z => (id, sp.1)) <$> l)) as Hnd'.
  { assert ((fun sp : string * Z => (id, sp.1)) <$> l = pair id <$> l.*1) as -> by (by rewrite <- list_fmap_compose).
    by apply NoDup_fmap_2; [apply _|]. }
  rewrite (fold_insert_Some (fun sp : string * Z => (id, sp.1)) (fun sp => mkOrderSeatRow ev sp.2) l (order_seats d) (x, s) y Hnd').
  rewrite !list_elem_of_fmap. split.
  - intros [([s' price] & Hin & [= <- <-] & <-)|[Hn Hm]]; [left; eauto|right]. split; [|done].
    intros [-> (sp & -> & Hin)]. apply Hn. by exists sp.
  - intros [(-> & price & Hin & ->)|[Hn Hm]]; [left; by exists (s, price)|right]. split; [|done].
    intros (sp & [= -> ->] & Hin). apply Hn. split; [done|]. by exists sp.
Qed.

Lemma add_seats_miss id ev l d x s : x <> id -> order_seats (add_seats id ev l d) !! (x, s) = order_seats d !! (x, s).
Proof.
  intros Hx. unfold add_seats. simpl. generalize (order_seats d) as m. induction l as [|[t p] l IH]; intros m; [done|].
  cbn [fold_left fst snd]. rewrite IH, lookup_insert_ne by congruence. done.
Qed.

(** The rows of a new order are the ones inserted. *)
Lemma seats_of_added id ev l d :
  NoDup l.*1 -> StronglySorted String.le l.*1 -> (forall s, order_seats d !! (id, s) = None) ->
  seats_of (order_seats (add_seats id ev l d)) id = (fun sp : string * Z => (sp.1, mkOrderSeatRow ev sp.2)) <$> l.
Proof.
  intros Hnd Hsort Hno.
  assert (((fun sp : string * Z => (sp.1, mkOrderSeatRow ev sp.2)) <$> l).*1 = l.*1) as He by (by rewrite <- list_fmap_compose).
  apply seats_of_unique; rewrite ?He; [done..|]. intros s y. rewrite list_elem_of_fmap, add_seats_lookup, Hno by done. split.
  - intros ([s' price] & [= -> ->] & Hin). left. eauto.
  - intros [(_ & price & Hin & ->)|[_ ?]]; [|done]. by exists (s, price).
Qed.

Lemma held_ok a l now d :
  orders d !! ih_OrderID a = None ->
  (forall i r, orders d !! i = Some r -> ~ same_key (ih_UserID a) (ih_IdempotencyKey a) (i, r)) ->
  (forall i r, orders d !! i = Some r -> ~ same_held (ih_EventID a) (ih_UserID a) (i, r)) ->
  l <> [] -> NoDup l.*1 -> ih_TotalVnd a = sum64 l.*2 -> StronglySorted String.le l.*1 -> books_ok d ->
  books_ok (add_seats (ih_OrderID a) (ih_EventID a) l (set_orders (<[ih_OrderID a := held_row a now]> (orders d)) d)).
Proof.
  intros Hnew Hkey Hheld Hl Hnd Htot Hsort Hok. set (id := ih_OrderID a) in *.
  set (d1 := set_orders _ d). set (d' := add_seats _ _ _ _).
  assert (Hord : orders d' = <[id := held_row a now]> (orders d)) by done.
  assert (Hnoseat : forall s, order_seats d !! (id, s) = None).
  { intros s. destruct (order_seats d !! (id, s)) as [x|] eqn:Hx; [|done].
    apply (ok_seat d Hok) in Hx. unfold event_at in Hx. by rewrite Hnew in Hx. }
  assert (Hne : forall x, is_Some (orders d !! x) -> x <> id) by (intros x [r Hr] ->; congruence).
  assert (Hstat : forall x st, status_at d x = Some st -> status_at d' x = Some st).
  { intros x st Hx. unfold status_at in *. rewrite Hord, lookup_insert_ne; [done|]. intros <-. by rewrite Hnew in Hx. }
  assert (Hev : forall x e, event_at d x = Some e -> event_at d' x = Some e).
  { intros x e Hx. unfold event_at in *. rewrite Hord, lookup_insert_ne; [done|]. intros <-. by rewrite Hnew in Hx. }
  assert (Htotal : forall x e, total_at d x = Some e -> total_at d' x = Some e).
  { intros x e Hx. unfold total_at in *. rewrite Hord, lookup_insert_ne; [done|]. intros <-. by rewrite Hnew in Hx. }
  assert (Hseat : forall x s y, order_seats d' !! (x, s) = Some y <->
    (x = id /\ exists price, (s, price) ∈ l /\ y = mkOrderSeatRow (ih_EventID a) price) \/ order_seats d !! (x, s) = Some y).
  { intros x s y. unfold d'. rewrite add_seats_lookup by done. change (order_seats d1) with (order_seats d). split.
    - intros [?|[_ ?]]; auto.
    - intros [?|Hy]; [by left|]. right. split; [|done]. intros [-> _]. rewrite Hnoseat in Hy. done. }
  assert (Hstat' : forall x st, status_at d' x = Some st -> x = id /\ st = StatusHeld \/ status_at d x = Some st).
  { intros x st. unfold status_at. rewrite Hord. destruct (decide (x = id)) as [->|]; [rewrite lookup_insert_eq|rewrite lookup_insert_ne by done; auto].
    intros [= <-]. by left. }
  split.
  - intros x r Hx. rewrite Hord in Hx. apply lookup_insert_Some in Hx as [[<- <-]|[_ Hx]]; [done|by apply (ok_id d Hok)].
  - intros i j r q Hi Hj. rewrite Hord in Hi, Hj.
    apply lookup_insert_Some in Hi as [[<- <-]|[_ Hi]]; apply lookup_insert_Some in Hj as [[<- <-]|[_ Hj]]; simpl; try done.
    + intros Hu Hk. destruct (Hkey j q Hj). by split.
    + intros Hu Hk. destruct (Hkey i r Hi). by split.
    + by apply (ok_key d Hok i j r q).
  - intros i j r q Hi Hj. rewrite Hord in Hi, Hj.
    apply lookup_insert_Some in Hi as [[<- <-]|[_ Hi]]; apply lookup_insert_Some in Hj as [[<- <-]|[_ Hj]]; simpl; try done.
    + intros _ Hs Hu He. destruct (Hheld j q Hj). by split_and!.
    + intros Hs _ Hu He. destruct (Hheld i r Hi). by split_and!.
    + by apply (ok_held d Hok i j r q).
  - intros x s y Hy. apply Hseat in Hy as [(-> & price & _ & ->)|Hy]; [|by apply Hev, (ok_seat d Hok x s)].
    unfold event_at. rewrite Hord, lookup_insert_eq. done.
  - intros x Hx. destruct (decide (x = id)) as [->|Hxid].
    + pose proof (seats_of_added id (ih_EventID a) l d1 Hnd Hsort Hnoseat) as Hso. fold d' in Hso.
      unfold prices_of. rewrite Hso, <- list_fmap_compose. unfold total_at. rewrite Hord, lookup_insert_eq. simpl.
      split; [by destruct l|]. f_equal. exact Htot.
    + rewrite Hord, lookup_insert_ne in Hx by done. destruct (ok_total d Hok x Hx) as [H1 H2].
      assert (prices_of d' x = prices_of d x) as ->.
      { unfold prices_of. f_equal. apply seats_of_ext. intros s.
        destruct (order_seats d !! (x, s)) as [y|] eqn:Hy; [apply Hseat; by right|].
        destruct (order_seats d' !! (x, s)) as [y|] eqn:Hy'; [|done]. apply Hseat in Hy' as [[? _]|?]; congruence. }
      split; [done|]. by apply Htotal.
  - intros i t Ht. destruct (ok_ticket d Hok i t Ht) as (st & H1 & H2 & H3 & y & H4). exists st.
    split_and!; [by apply Hstat|done|by apply Hev|]. exists y. apply Hseat. by right.
  - apply (ok_unique d Hok).
  - intros x st s Hx Hs [y Hy]. apply Hstat' in Hx as [[-> ->]|Hx]; [done|].
    apply Hseat in Hy as [(-> & _)|Hy]; [unfold status_at in Hx; by rewrite Hnew in Hx|].
    apply (ok_sold d Hok x st s Hx Hs). by exists y.
  - intros t p Hp. destruct (ok_payment d Hok t p Hp) as (st & H1 & H2 & H3). exists st.
    split_and!; [by apply Hstat| |apply H3..]. unfold payment_state in *. destruct (p_Outcome p) as [[]|]; try done.
    destruct H2 as (? & ? & ? & ?). split_and!; try done. by apply Htotal.
  - apply (ok_applied d Hok).
  - intros t f Hf. destruct (ok_refund d Hok t f Hf) as (p & st & Hp & H2 & H3 & H4 & H5 & H6 & H7). exists p, st.
    split_and!; try done. by apply Hstat.
  - apply (ok_moving d Hok).
  - intros x st Hx. apply Hstat' in Hx as [[-> ->]|Hx]; [done|by apply (ok_settled d Hok)].
Qed.

(** Every event keeps the books in order. *)
Lemma book_step_ok now d e d' : book_step now d e d' -> books_ok d -> books_ok d'.
Proof.
  intros Hs. destruct Hs.
  - by apply held_ok.
  - apply move_plain_ok; try done; by replace (r_Status r) with StatusHeld.
  - apply move_plain_ok; try done; by replace (r_Status r) with StatusHeld.
  - by apply payment_failed_ok.
  - by apply paid_ok.
  - by apply refund_requested_ok.
  - by eapply double_payment_ok.
  - by apply refunded_ok.
  - by apply double_refunded_ok.
  - by apply ticketed_ok.
Qed.

(** ** What an event does to an order *)

(** The event type that announces an order's arrival in a status. *)
Definition event_type_of (st : Status) : string :=
  match st with
  | StatusHeld => OrderHeld | StatusPaid => OrderPaid | StatusTicketed => TicketIssued
  | StatusExpired => OrderExpired | StatusCancelled => OrderCancelled
  | StatusRefunding => OrderRefundRequested | StatusRefunded => OrderRefunded
  end.

(** What never changes in an order. *)
Definition same_order (r q : OrderRow) : Prop :=
  r_ID q = r_ID r /\ r_EventID q = r_EventID r /\ r_UserID q = r_UserID r /\ r_TotalVnd q = r_TotalVnd r /\
  r_IdempotencyKey q = r_IdempotencyKey r /\ r_RequestHash q = r_RequestHash r /\
  r_HoldExpiresAt q = r_HoldExpiresAt r /\ r_CreatedAt q = r_CreatedAt r.

Definition announced (e : option Announcement) (id : UUID) (st : Status) : Prop :=
  exists a, e = Some a /\ an_order a = id /\ an_type a = event_type_of st.

Lemma book_step_order now d e d' id r :
  book_step now d e d' -> orders d !! id = Some r ->
  exists q, orders d' !! id = Some q /\ same_order r q /\
    (q = r \/ CanTransition (r_Status r) (r_Status q) = true /\ announced e id (r_Status q)).
Proof.
  intros Hs Hr.
  assert (Hmove : forall x y st (d0 : PG) a, orders d0 = orders d -> orders d !! x = Some y ->
    CanTransition (r_Status y) st = true -> an_order a = x -> an_type a = event_type_of st ->
    exists q, orders (move x st now y d0) !! id = Some q /\ same_order r q /\
      (q = r \/ CanTransition (r_Status r) (r_Status q) = true /\ announced (Some a) id (r_Status q))).
  { intros x y st d0 a Hd0 Hy Hc Hx Ht. unfold move. simpl. rewrite Hd0. destruct (decide (x = id)) as [->|Hne].
    - rewrite lookup_insert_eq. exists (set_status st now y). assert (y = r) as -> by congruence.
      split_and!; try done. right. split; [done|]. by exists a.
    - rewrite lookup_insert_ne by done. exists r. split_and!; try done. by left. }
  assert (Hsame : forall d0 : PG, orders d0 = orders d -> exists q, orders d0 !! id = Some q /\ same_order r q /\
    (q = r \/ CanTransition (r_Status r) (r_Status q) = true /\ announced e id (r_Status q))).
  { intros d0 ->. exists r. split_and!; try done. by left. }
  destruct Hs as [a l d Hn|x y d Hy Hst|x y d Hy Hst|x txn amount d|x y txn l d Hy Hst|x y txn amount reason d Hy Hst
    |x y txn amount d|x y txn f d Hf Hfx Hfs Hfr Hy Hst|x txn f d|x y qr d Hy Hst]; try (by apply Hsame).
  - simpl. rewrite lookup_insert_ne by congruence. exists r. split_and!; try done. by left.
  - by apply Hmove; [..|rewrite Hst| |].
  - by apply Hmove; [..|rewrite Hst| |].
  - apply Hmove; try done. by destruct Hst as [-> | ->].
  - apply Hmove; try done. by destruct Hst as [->|[-> | ->]].
  - by apply Hmove; [..|rewrite Hst| |].
  - by apply Hmove; [..|rewrite Hst| |].
Qed.

Lemma book_step_new now d e d' id q :
  book_step now d e d' -> orders d !! id = None -> orders d' !! id = Some q ->
  r_Status q = StatusHeld /\ announced e id StatusHeld.
Proof.
  intros Hs Hn Hq.
  assert (Hmove : forall x y st (d0 : PG), orders d0 = orders d -> orders d !! x = Some y ->
    orders (move x st now y d0) !! id = None).
  { intros x y st d0 Hd0 Hy. unfold move. simpl. rewrite Hd0, lookup_insert_ne by congruence. done. }
  destruct Hs as [a l d Hx|x y d Hy Hst|x y d Hy Hst|x txn amount d|x y txn l d Hy Hst|x y txn amount reason d Hy Hst
    |x y txn amount d|x y txn f d Hf Hfx Hfs Hfr Hy Hst|x txn f d|x y qr d Hy Hst];
    try (rewrite Hmove in Hq; done); try (simpl in Hq; congruence).
  simpl in Hq. apply lookup_insert_Some in Hq as [[<- <-]|[_ Hq]]; [|congruence].
  split; [done|]. eexists. done.
Qed.

(** ** What an event never undoes *)

Definition ticket_kept (t u : TicketRow) : Prop :=
  t_OrderID u = t_OrderID t /\ t_EventID u = t_EventID t /\ t_SeatID u = t_SeatID t /\
  (u = t \/ t_QrPayload t = None).
Definition refund_kept (f g : RefundRow) : Prop :=
  f_OrderID g = f_OrderID f /\ f_AmountVnd g = f_AmountVnd f /\ f_Reason g = f_Reason f /\
  (g = f \/ f_Status f = RefundPending).

Record evolves (d d' : PG) : Prop := {
  ev_orders id r : orders d !! id = Some r ->
    exists q, orders d' !! id = Some q /\ same_order r q /\
      rtc (fun a b => CanTransition a b = true) (r_Status r) (r_Status q);
  ev_seats k x : order_seats d !! k = Some x -> order_seats d' !! k = Some x;
  ev_seats_of id s : is_Some (orders d !! id) -> order_seats d' !! (id, s) = order_seats d !! (id, s);
  ev_tickets i t : tickets d !! i = Some t -> exists u, tickets d' !! i = Some u /\ ticket_kept t u;
  ev_payments txn p : payments d !! txn = Some p -> payments d' !! txn = Some p;
  ev_refunds txn f : refunds d !! txn = Some f -> exists g, refunds d' !! txn = Some g /\ refund_kept f g;
}.

#[global] Instance evolves_preorder : PreOrder evolves.
Proof.
  split.
  - intros d. split; eauto.
    + intros id r Hr. exists r. split_and!; try done.
    + intros i t Ht. exists t. split; [done|]. unfold ticket_kept. auto.
    + intros txn f Hf. exists f. split; [done|]. unfold refund_kept. auto.
  - intros d1 d2 d3 [A1 A2 A6 A3 A4 A5] [B1 B2 B6 B3 B4 B5]. split; eauto.
    + intros id r Hr. destruct (A1 id r Hr) as (q & Hq & Hs & Ht). destruct (B1 id q Hq) as (q' & Hq' & Hs' & Ht').
      exists q'. split; [done|]. split; [unfold same_order in *; destruct_and!; split_and!; congruence|by etrans].
    + intros id s [r Hr]. destruct (A1 id r Hr) as (q & Hq & _). rewrite B6 by eauto. apply A6. eauto.
    + intros i t Ht. destruct (A3 i t Ht) as (u & Hu & K). destruct (B3 i u Hu) as (u' & Hu' & K'). exists u'.
      split; [done|]. unfold ticket_kept in *. destruct K as (?&?&?&[->|?]); destruct K' as (?&?&?&?); split_and!; try congruence; auto.
    + intros txn f Hf. destruct (A5 txn f Hf) as (g & Hg & K). destruct (B5 txn g Hg) as (g' & Hg' & K'). exists g'.
      split; [done|]. unfold refund_kept in *. destruct K as (?&?&?&[->|?]); destruct K' as (?&?&?&?); split_and!; try congruence; auto.
Qed.

Lemma book_step_evolves now d e d' : books_ok d -> book_step now d e d' -> evolves d d'.
Proof.
  intros Hok Hs. split.
  - intros id r Hr. destruct (book_step_order now d e d' id r Hs Hr) as (q & Hq & Hso & [->|[Hc _]]).
    + exists r. done.
    + exists q. split_and!; try done. by apply rtc_once.
  - intros k x Hk. destruct Hs; try done. destruct k as [id s]. apply add_seats_lookup; [done|]. right. split; [|done].
    intros [-> _]. apply (ok_seat d Hok) in Hk. unfold event_at in Hk. rewrite H in Hk. done.
  - intros id s [r Hr]. destruct Hs as [a l d Hn| | | | | | | | |]; try done. rewrite add_seats_miss by congruence. done.
  - intros i t Ht. assert (exists u, tickets d !! i = Some u /\ ticket_kept t u) as Hsame.
    { exists t. split; [done|]. unfold ticket_kept. auto. }
    destruct Hs as [| | | |id r txn l d Hr _ _ _ _ _ Hnd _ _ Hids _| | | | |id r qr d Hr Hst]; try done.
    + exists t. split; [|unfold ticket_kept; auto].
      change (tickets (move ?a ?b ?c ?e ?f)) with (tickets f). apply add_tickets_lookup; [done|]. right.
      split; [|done]. intros Hi. rewrite (Hids i Hi) in Ht. done.
    + eexists. split; [apply issue_tickets_lookup; eauto|]. unfold ticket_kept, issue_qr.
      repeat case_match; naive_solver.
  - intros txn p Hp. destruct Hs; try done; simpl; rewrite lookup_insert_ne; congruence.
  - intros txn f Hf. assert (exists g, refunds d !! txn = Some g /\ refund_kept f g) as Hsame.
    { exists f. split; [done|]. unfold refund_kept. auto. }
    assert (Hnew : forall t (g : RefundRow), payments d !! t = None ->
      exists g', <[t := g]> (refunds d) !! txn = Some g' /\ refund_kept f g').
    { intros t g Hp. rewrite lookup_insert_ne; [done|]. intros ->.
      destruct (ok_refund d Hok txn f Hf) as (p & st & Hp' & _). congruence. }
    assert (Hdone : forall t g, refunds d !! t = Some g -> f_Status g = RefundPending ->
      exists g', <[t := completed now g]> (refunds d) !! txn = Some g' /\ refund_kept f g').
    { intros t g Hg Hp. destruct (decide (t = txn)) as [->|]; [|by rewrite lookup_insert_ne].
      rewrite lookup_insert_eq. exists (completed now g). assert (g = f) as -> by congruence.
      split; [done|]. unfold refund_kept. auto. }
    destruct Hs; try done; simpl; eauto.
Qed.

(** Only a completed refund is a new refund paid back. *)
Lemma book_step_refunds now d e d' txn f :
  book_step now d e d' -> refunds d' !! txn = Some f -> f_Status f = RefundSucceeded ->
  refunds d !! txn = Some f \/ exists a, e = Some a /\ an_type a = OrderRefunded /\ an_txn a = txn.
Proof.
  intros Hs Hf Hst. destruct Hs; try (by left); simpl in Hf; apply lookup_insert_Some in Hf as [[<- <-]|[_ Hf]]; try (by left).
  all: right; eexists; done.
Qed.
