(* ===== verification/OrderRefine.v ===== *)
(** * The handlers refine the order books

    Every transaction of the order package, committed, is a sequence of events
    of OrderBooks, each with the outbox message that announces it; a
    transaction that fails leaves the tables as they were. *)

From S2P Require Import Prelude GoLib Ticket Effects OrderState World Frame OrderDB Inventory Outbox Payment.
From S2P Require Import OrderRequest OrderService OrderPayment OrderRefund OrderTickets OrderExpiry OrderBooks.
Local Open Scope tr_scope.

(** ** Events with their messages *)

Definition log_row (seq now : Z) (m : Message) (d : PG) : PG :=
  set_outbox (<[seq := outbox_row seq now m]> (outbox d)) d.

Section announce.
Context `{UuidLib}.

Definition announces (a : Announcement) (m : Message) : Prop :=
  m_Topic m = an_topic a /\ m_EventType m = an_type a /\ m_Key m = uuid_String (an_order a) /\
  ev_OrderID (m_Payload m) = an_order a /\ ev_ProviderTxnID (m_Payload m) = an_txn a.

(** An event and its message, numbered by the sequence, in one go. [C] are the
    refunds that may be completed. *)
Definition ledger_step (C : string -> Prop) (now : Z) (x y : Z * PG) : Prop :=
  exists e d', book_step now x.2 e d' /\
    match e with
    | None => y = (x.1, d')
    | Some a => (an_type a = OrderRefunded -> C (an_txn a)) /\
        exists m, announces a m /\ outbox d' !! x.1 = None /\ y = (x.1 + 1, log_row x.1 now m d')
    end.

Definition no_refund : string -> Prop := fun _ => False.

(** The numbers in the outbox are below the sequence. *)
Definition outbox_below (x : Z * PG) : Prop := forall id, is_Some (outbox x.2 !! id) -> id < x.1.

Lemma book_step_outbox now d e d' : book_step now d e d' -> outbox d' = outbox d.
Proof. by destruct 1. Qed.

Lemma ledger_step_ok C now x y :
  ledger_step C now x y -> books_ok x.2 -> outbox_below x -> books_ok y.2 /\ outbox_below y /\ evolves x.2 y.2.
Proof.
  intros (e & d' & Hs & He) Hok Hb. pose proof (book_step_ok _ _ _ _ Hs Hok) as Hok'.
  pose proof (book_step_evolves _ _ _ _ Hok Hs) as Hev. pose proof (book_step_outbox _ _ _ _ Hs) as Ho.
  destruct e as [a|].
  - destruct He as (_ & m & Hm & Hn & ->). simpl. split_and!.
    + eapply same_books_ok; [|exact Hok']. done.
    + intros id. simpl. rewrite lookup_insert_is_Some'. intros [<-|Hi]; [lia|].
      rewrite Ho in Hi. specialize (Hb id Hi). lia.
    + destruct Hev as [A1 A2 A6 A3 A4 A5]. by split.
  - subst y. split_and!; try done. intros id Hi. simpl in *. rewrite Ho in Hi. by apply Hb.
Qed.

Lemma ledger_steps_ok C now x y :
  rtc (ledger_step C now) x y -> books_ok x.2 -> outbox_below x -> books_ok y.2 /\ outbox_below y /\ evolves x.2 y.2.
Proof.
  induction 1 as [x|x y z Hxy Hyz IH]; intros Hok Hb; [done|].
  destruct (ledger_step_ok C now x y Hxy Hok Hb) as (Hok1 & Hb1 & He1).
  destruct (IH Hok1 Hb1) as (Hok2 & Hb2 & He2). split_and!; try done. by etrans.
Qed.
End announce.

Section refine.
Context {R : Type} `{UuidLib}.
Implicit Types w : World R.

(** ** What a computation inside a transaction may touch besides the tables *)

Definition aside w w' : Prop :=
  outbox_seq w <= outbox_seq w' /\ klog w' = klog w /\ gateway w' = gateway w /\ pg_now w' = pg_now w.

#[global] Instance aside_preorder : PreOrder aside.
Proof. unfold aside. split; [intros x; split_and!; done || lia|]. intros x y z ??. destruct_and!. split_and!; congruence || lia. Qed.

Definition tame {A} (m : M R A) : Prop := forall w, aside w (m w).2.

Lemma tame_ret {A} (a : A) : tame (mret a).
Proof. intros w. done. Qed.
Lemma tame_fail {A} (e : GoErr) : tame (mfail (A := A) e).
Proof. intros w. done. Qed.
Lemma tame_bind {A B} (m : M R A) (k : A -> M R B) : tame m -> (forall a, tame (k a)) -> tame (mbind m k).
Proof.
  intros Hm Hk w. unfold mbind. specialize (Hm w). destruct (m w) as [[a|e] w']; [|done].
  etrans; [apply Hm|apply Hk].
Qed.
Lemma tame_catch {A B} (m : M R A) (k : res GoErr A -> M R B) : tame m -> (forall r, tame (k r)) -> tame (mcatch m k).
Proof.
  intros Hm Hk w. unfold mcatch. specialize (Hm w). destruct (m w) as [r w']. etrans; [apply Hm|apply Hk].
Qed.

Lemma pop_fault_aside w fl w' : pop_fault w = (fl, w') -> aside w w'.
Proof. intros Hp. apply pop_fault_books in Hp as [(H1 & H2 & H3 & H4 & H5) _]. unfold aside. split_and!; congruence || lia. Qed.

Lemma tame_call {A} e (f : M R A) : tame f -> tame (call e f).
Proof.
  intros Hf w. unfold call. destruct (pop_fault w) as [fl w0] eqn:Hp. apply pop_fault_aside in Hp.
  destruct fl; [|done|]; (etrans; [exact Hp|apply Hf]).
Qed.

Lemma tame_stmt {A} (q : Z -> PG -> res GoErr (A * PG)) : tame (stmt q).
Proof. apply tame_call. intros w. destruct (q (pg_now w) (pg w)) as [[a d]|e]; done. Qed.

Lemma tame_Write m : tame (Write m).
Proof.
  apply tame_call. intros w. cbn zeta. unfold aside. case_bool_decide; simpl; split_and!; done || lia.
Qed.

Lemma tame_books {A} (p : prog (World R) (res GoErr A)) : keeps_books p -> tame (run p).
Proof.
  intros Hp w. destruct (keeps_books_run p w Hp) as (H1 & H2 & H3 & H4 & H5). unfold aside. split_and!; congruence || lia.
Qed.

Lemma tame_NewV7 : tame NewV7.
Proof. intros w. unfold NewV7. destruct (ids w) as [|[u|] l]; done. Qed.

Lemma tame_writeEvent topic ty ev : tame (writeEvent topic ty ev).
Proof. apply tame_bind; [apply tame_Write|intros; apply tame_ret]. Qed.

Lemma tame_transition id from to : tame (transition id from to).
Proof. unfold transition. case_match; [apply tame_stmt|apply tame_fail]. Qed.

Lemma tame_on_no_rows {A} (m : M R A) e : tame m -> tame (on_no_rows m e).
Proof. intros Hm. apply tame_catch; [done|]. intros r. repeat case_match; done. Qed.

Lemma tame_or_rollback {A} (m : M R A) : tame m -> tame (or_rollback m).
Proof. intros Hm w. unfold or_rollback. specialize (Hm w). destruct (m w) as [[a|e] w']; done. Qed.

Lemma tame_new_ids n : tame (new_ids n).
Proof.
  induction n as [|n IH]; [apply tame_ret|]. apply tame_bind; [apply tame_NewV7|intros].
  apply tame_bind; [done|intros; apply tame_ret].
Qed.
End refine.

#[export] Hint Resolve tame_ret tame_fail tame_bind tame_catch tame_stmt tame_Write tame_books tame_NewV7
  tame_writeEvent tame_transition tame_on_no_rows tame_or_rollback tame_new_ids : tr_inv.

(** Tameness is syntactic: bind by bind, case by case. *)
Ltac tame_tac :=
  repeat first
    [ progress intros
    | solve [auto with tr_inv]
    | apply tame_bind | apply tame_catch | apply tame_on_no_rows | apply tame_or_rollback
    | case_match ].

(** ** Successful steps *)

Section steps.
Context {R : Type} `{UuidLib}.
Implicit Types w : World R.

(** The sequence and the clock stand still. *)
Definition only_pg w w' : Prop := outbox_seq w' = outbox_seq w /\ pg_now w' = pg_now w.

#[global] Instance only_pg_preorder : PreOrder only_pg.
Proof. split; [done|]. intros x y z [H1 E1] [H2 E2]. split; congruence. Qed.

Lemma stmt_step {A} (q : Z -> PG -> res GoErr (A * PG)) w a w' :
  stmt q w = (Ok a, w') -> q (pg_now w) (pg w) = Ok (a, pg w') /\ only_pg w w'.
Proof. intros Hs. apply stmt_ok in Hs as (Hq & Hs & _ & (_ & _ & He & _)). done. Qed.

Lemma on_no_rows_ok {A} (m : M R A) e w a w' : on_no_rows m e w = (Ok a, w') -> m w = (Ok a, w').
Proof.
  unfold on_no_rows, mcatch. destruct (m w) as [[x|er] w1]; [done|]. case_err er; done.
Qed.

Lemma GetOrderForUpdate_step id w r w' :
  stmt (GetOrderForUpdate id) w = (Ok r, w') -> orders (pg w) !! id = Some r /\ pg w' = pg w /\ only_pg w w'.
Proof.
  intros Hs. apply stmt_step in Hs as [Hq Ho]. unfold GetOrderForUpdate, select, no_rows in Hq. case_match; naive_solver.
Qed.

Lemma ListOrderSeats_step id w l w' :
  stmt (ListOrderSeats id) w = (Ok l, w') ->
  l = (fun kv => (kv.1, os_PriceVnd kv.2)) <$> seats_of (order_seats (pg w)) id /\ pg w' = pg w /\ only_pg w w'.
Proof. intros Hs. apply stmt_step in Hs as [Hq Ho]. unfold ListOrderSeats, select in Hq. naive_solver. Qed.

Lemma transition_step id from to w row w' :
  transition id from to w = (Ok row, w') ->
  CanTransition from to = true /\
  exists r, orders (pg w) !! id = Some r /\ r_Status r = from /\ row = set_status to (pg_now w) r /\
    pg w' = move id to (pg_now w) r (pg w) /\ only_pg w w'.
Proof.
  unfold transition. destruct (CanTransition from to); [|done]. intros Hs. split; [done|].
  apply stmt_step in Hs as [Hq Ho]. unfold TransitionOrder, no_rows in Hq.
  destruct (orders (pg w) !! id) as [r|]; [|done]. case_bool_decide as Hst; [|done].
  injection Hq as <- Hp. exists r. by split_and!.
Qed.

Lemma writeEvent_step topic ty ev w u w' :
  writeEvent topic ty ev w = (Ok u, w') ->
  outbox (pg w) !! outbox_seq w = None /\ outbox_seq w' = outbox_seq w + 1 /\ pg_now w' = pg_now w /\
  pg w' = log_row (outbox_seq w) (pg_now w) (mkMessage topic (uuid_String (ev_OrderID ev)) ty ev) (pg w).
Proof.
  intros Hs. apply mbind_ok in Hs as (id & w1 & Hw & Hr). unfold mret in Hr. injection Hr as _ <-.
  apply Write_ok in Hw as (-> & Hn & Hq & Hp & _ & (_ & _ & He & _)). done.
Qed.

(** ** Refinement *)

Definition refines (C : string -> Prop) {A} (m : M R A) : Prop := forall w a w',
  m w = (Ok a, w') -> books_ok (pg w) -> outbox_below (outbox_seq w, pg w) ->
  rtc (ledger_step C (pg_now w)) (outbox_seq w, pg w) (outbox_seq w', pg w').

(** The outcome of an action on the order tables. *)
Definition books_move (C : string -> Prop) w w' : Prop :=
  klog w' = klog w /\ gateway w' = gateway w /\ pg_now w' = pg_now w /\
  (pg w' = pg w /\ outbox_seq w <= outbox_seq w' \/
   rtc (ledger_step C (pg_now w)) (outbox_seq w, pg w) (outbox_seq w', pg w')).

Lemma tx_books_move C {A} (m : M R A) w :
  refines C m -> tame m -> books_ok (pg w) -> outbox_below (outbox_seq w, pg w) -> books_move C w (BeginFunc m w).2.
Proof.
  intros Hm Ht Hok Hb. unfold books_move, BeginFunc, Transaction. destruct (pop_fault w) as [fl w0] eqn:Hp.
  pose proof (pop_fault_books _ _ _ Hp) as [(P0 & Q0 & G0 & K0 & N0) _].
  destruct fl; [|simpl; split_and!; try done; left; split; [done|lia]..].
  pose proof (Ht w0) as (S1 & K1 & G1 & N1). destruct (m w0) as [[a|e] w1] eqn:Hr; simpl in S1, K1, G1, N1.
  - pose proof (Hm w0 a w1 Hr) as Hsteps. rewrite P0, Q0, N0 in Hsteps. specialize (Hsteps Hok Hb).
    destruct (pop_fault w1) as [fl2 w2] eqn:Hp2. pose proof (pop_fault_books _ _ _ Hp2) as [(P2 & Q2 & G2 & K2 & N2) _].
    destruct fl2; simpl; (split_and!; [congruence..|]).
    + right. by rewrite P2, Q2.
    + left. split; [done|lia].
    + right. by rewrite P2, Q2.
  - simpl. split_and!; [congruence..|]. left. split; [done|lia].
Qed.

(** The common ending: an event happened, then its message was written. *)
Lemma announce_last C now seq (d d1 d2 : PG) a m :
  book_step now d (Some a) d1 -> (an_type a = OrderRefunded -> C (an_txn a)) ->
  announces a m -> outbox d1 !! seq = None -> d2 = log_row seq now m d1 ->
  rtc (ledger_step C now) (seq, d) (seq + 1, d2).
Proof.
  intros Hs Hc Ha Hn ->. apply rtc_once. exists (Some a), d1. split; [exact Hs|]. split; [exact Hc|]. by exists m.
Qed.

Lemma Cancel_refines userID id : refines no_refund (Cancel_tx userID id).
Proof.
  intros w [o c] w' Hr Hok Hb. unfold Cancel_tx in Hr.
  apply mbind_ok in Hr as (row & w1 & H1 & Hr). apply on_no_rows_ok, GetOrderForUpdate_step in H1 as (Hrow & P1 & Q1 & N1).
  case_match; [done|]. apply mbind_ok in Hr as ([row2 cancelled] & w2 & H2 & Hr).
  apply mbind_ok in Hr as (seats & w3 & H3 & Hr). apply ListOrderSeats_step in H3 as (Hseats & P3 & Q3 & N3).
  apply mbind_ok in Hr as ([] & w4 & H4 & Hr). unfold mret in Hr. injection Hr as <- <- <-.
  destruct (r_Status row) eqn:Hst; try done.
  - apply mbind_ok in H2 as (row' & w2' & H2 & Hr). unfold mret in Hr. injection Hr as <- <- <-.
    apply transition_step in H2 as (_ & r & Hr & Hrs & -> & P2 & Q2 & N2). rewrite P1 in *.
    assert (r = row) as -> by congruence. apply writeEvent_step in H4 as (Hn & Q4 & N4 & P4).
    rewrite P3, P2, Q3, Q2, Q1, N3, N2, N1 in *. rewrite Q4.
    eapply announce_last; [by apply bs_cancelled|done| |exact Hn|exact P4].
    unfold announces. simpl. by rewrite (ok_id _ Hok id row Hrow).
  - unfold mret in H2, H4. injection H2 as <- <- <-. injection H4 as <-. rewrite Q3, Q1, P3, P1. constructor.
Qed.

Lemma Cancel_tame userID id : tame (R := R) (Cancel_tx userID id).
Proof. unfold Cancel_tx, writeOrderEvent. tame_tac. Qed.

(** ** Create *)

Lemma filter_empty_spec {V} (P : UUID * V -> Prop) `{forall kv, Decision (P kv)} (m : gmap UUID V) :
  negb (bool_decide (filter P m = ∅)) = false -> forall i r, m !! i = Some r -> ~ P (i, r).
Proof.
  intros Hf i r Hi HP. apply negb_false_iff, bool_decide_eq_true in Hf.
  assert (filter P m !! i = Some r) as Hl by (by apply map_lookup_filter_Some). by rewrite Hf in Hl.
Qed.

Lemma InsertHeldOrder_step a w row w' :
  stmt (InsertHeldOrder a) w = (Ok row, w') ->
  orders (pg w) !! ih_OrderID a = None /\
  (forall i r, orders (pg w) !! i = Some r -> ~ same_key (ih_UserID a) (ih_IdempotencyKey a) (i, r)) /\
  (forall i r, orders (pg w) !! i = Some r -> ~ same_held (ih_EventID a) (ih_UserID a) (i, r)) /\
  row = held_row a (pg_now w) /\
  pg w' = set_orders (<[ih_OrderID a := row]> (orders (pg w))) (pg w) /\ only_pg w w'.
Proof.
  intros Hs. apply stmt_step in Hs as [Hq Ho]. unfold InsertHeldOrder in Hq.
  case_bool_decide as H1; [done|]. destruct (negb _) eqn:H2 in Hq; [done|]. destruct (negb _) eqn:H3 in Hq; [done|].
  destruct (negb _) eqn:H4 in Hq; [done|]. injection Hq as <- Hp. split_and!; try done; try apply Ho.
  - destruct (orders (pg w) !! ih_OrderID a) eqn:He; [destruct H1; eauto|done].
  - exact (filter_empty_spec _ _ H2).
  - exact (filter_empty_spec _ _ H3).
Qed.

Lemma insert_seats_ok id ev l d d' : insert_seats id ev l d = Ok d' -> d' = add_seats id ev l d.
Proof.
  revert d. induction l as [|x l IH]; intros d Hi; cbn [insert_seats] in Hi; [injection Hi as <-; by destruct d|].
  destruct (insert_seat id ev d x) as [d1|] eqn:H1; [|done]. apply IH in Hi as ->.
  unfold insert_seat in H1. repeat case_match; try done. injection H1 as <-. done.
Qed.

Lemma InsertOrderSeats_step id ev ss prices w u w' :
  stmt (InsertOrderSeats id ev ss prices) w = (Ok u, w') ->
  length ss = length prices /\ pg w' = add_seats id ev (zip ss prices) (pg w) /\ only_pg w w'.
Proof.
  intros Hs. apply stmt_step in Hs as [Hq Ho]. unfold InsertOrderSeats in Hq.
  destruct (negb _) eqn:H1 in Hq; [done|]. destruct (negb _) in Hq; [done|].
  destruct (insert_seats _ _ _ _) as [d'|] eqn:H2; [|done]. injection Hq as _ Hp.
  apply insert_seats_ok in H2. apply negb_false_iff in H1. bool_to_prop. split_and!; [done|congruence|apply Ho..].
Qed.

(** A request normalize has accepted. *)
Definition normal_request (req : CreateRequest) : Prop :=
  cr_SeatIDs req <> [] /\ NoDup (cr_SeatIDs req) /\ StronglySorted String.le (cr_SeatIDs req).

Lemma normalize_normal r ev n : normalize r ev = Ok n -> normal_request n.
Proof.
  intros Hn. apply normalize_Ok in Hn as (Hl & _ & Hnd & _ & ->). unfold normal_request. simpl.
  pose proof (Sort_Permutation (cr_SeatIDs r)) as Hp. split_and!; [|by rewrite Hp|apply Sort_sorted].
  intros He. apply (f_equal length) in He. rewrite Hp in He. simpl in He. lia.
Qed.

Lemma insertHeld_refines ttl id user key hash ev req :
  normal_request req -> refines no_refund (insertHeld_tx ttl id user key hash ev req).
Proof.
  intros (Hne & Hnd & Hsort) w o w' Hr Hok Hb. unfold insertHeld_tx in Hr. cbn zeta in Hr.
  set (prices := price_of ev <$> cr_SeatIDs req) in *.
  apply mbind_ok in Hr as (row & w1 & H1 & Hr). apply InsertHeldOrder_step in H1 as (Hn1 & Hk & Hh & -> & P1 & Q1 & N1).
  apply mbind_ok in Hr as ([] & w2 & H2 & Hr). apply InsertOrderSeats_step in H2 as (Hlen & P2 & Q2 & N2).
  apply mbind_ok in Hr as ([] & w3 & H3 & Hr). unfold mret in Hr. injection Hr as <- <-.
  apply writeEvent_step in H3 as (Hn & Q4 & N4 & P4). rewrite P2, P1, Q2, Q1, N2, N1 in *. rewrite Q4.
  assert ((zip (cr_SeatIDs req) prices).*1 = cr_SeatIDs req) as Hz1 by (apply fst_zip; lia).
  assert ((zip (cr_SeatIDs req) prices).*2 = prices) as Hz2 by (apply snd_zip; lia).
  eapply announce_last; [apply bs_held with (l := zip (cr_SeatIDs req) prices); rewrite ?Hz1, ?Hz2; try done|done| |exact Hn|exact P4].
  - intros Hz. rewrite Hz in Hz1. by destruct Hne.
  - done.
Qed.

Lemma insertHeld_tame ttl id user key hash ev req : tame (R := R) (insertHeld_tx ttl id user key hash ev req).
Proof. unfold insertHeld_tx, writeOrderEvent. tame_tac. Qed.

(** ** Refunds *)

Lemma CompleteRefund_step txn w f w' :
  stmt (CompleteRefund txn) w = (Ok f, w') ->
  exists g, refunds (pg w) !! txn = Some g /\ f_Status g = RefundPending /\ f = completed (pg_now w) g /\
    pg w' = add_refund txn f (pg w) /\ only_pg w w'.
Proof.
  intros Hs. apply stmt_step in Hs as [Hq Ho]. unfold CompleteRefund, no_rows in Hq.
  destruct (refunds (pg w) !! txn) as [g|]; [|done]. case_bool_decide as Hp; [|done]. injection Hq as <- Hpg.
  exists g. split_and!; try done; apply Ho.
Qed.

Lemma complete_refines txn : refines (eq txn) (complete_tx txn).
Proof.
  intros w u w' Hr Hok Hb. unfold complete_tx, mcatch in Hr.
  destruct (stmt (CompleteRefund txn) w) as [[f|e] w1] eqn:H1.
  2:{ assert (stmt (CompleteRefund txn) w = (Err e, w1)) as H1' by done. clear H1. case_err e; try done.
      unfold mret in Hr. injection Hr as _ <-.
      unfold stmt, call in H1'. destruct (pop_fault w) as [fl w0] eqn:Hp.
      pose proof (pop_fault_books _ _ _ Hp) as [(P0 & Q0 & _ & _ & N0) _].
      destruct fl; simpl in H1'; [|done..]. destruct (CompleteRefund txn (pg_now w0) (pg w0)) as [[? ?]|?]; [done|].
      injection H1' as _ <-. rewrite P0, Q0. constructor. }
  apply CompleteRefund_step in H1 as (g & Hg & Hgs & -> & P1 & Q1 & N1). simpl in Hr.
  apply mbind_ok in Hr as (row & w2 & H2 & Hr). apply GetOrderForUpdate_step in H2 as (Hrow & P2 & Q2 & N2).
  rewrite P1 in Hrow. simpl in Hrow. apply mbind_ok in Hr as (row3 & w3 & H3 & Hr).
  apply mbind_ok in Hr as (seats & w4 & H4 & Hr). apply ListOrderSeats_step in H4 as (_ & P4 & Q4 & N4).
  apply writeEvent_step in Hr as (Hn & Q5 & N5 & P5).
  destruct (ok_refund _ Hok txn g Hg) as (p & st & Hp & _ & _ & _ & Hst & Hstate & _).
  rewrite (status_at_Some _ _ _ Hrow) in Hst. injection Hst as <-.
  destruct (bool_decide (f_Reason g = ReasonDoublePayment)) eqn:Hd; simpl in H3.
  - unfold mret in H3. injection H3 as <- <-. rewrite P4, P2, P1, Q4, Q2, Q1, N4, N2, N1 in *. rewrite Q5. bool_to_prop.
    eapply announce_last; [by apply bs_double_refunded|done| |exact Hn|exact P5].
    unfold announces. simpl. by rewrite (ok_id _ Hok _ _ Hrow).
  - bool_to_prop. unfold refund_state in Hstate. rewrite decide_False in Hstate by done.
    destruct Hstate as [[Hrs _]|[_ Hbad]]; [|rewrite Hgs in Hbad; done].
    rewrite bool_decide_eq_true_2 in H3 by done.
    apply transition_step in H3 as (_ & r & Hr' & Hrs' & -> & P3 & Q3 & N3). rewrite P2, P1 in *. simpl in Hr'.
    assert (r = row) as -> by congruence. rewrite P4, P3, Q4, Q3, Q2, Q1, N4, N3, N2, N1 in *. rewrite Q5.
    eapply announce_last; [by eapply (bs_refunded _ (f_OrderID g) row txn g)|done| |exact Hn|exact P5].
    unfold announces. simpl. by rewrite (ok_id _ Hok _ _ Hrow).
Qed.

Lemma complete_tame txn : tame (R := R) (complete_tx txn).
Proof. unfold complete_tx. tame_tac. Qed.

(** ** Tickets *)

Lemma SetTicketQR_step i qr w u w' :
  stmt (SetTicketQR i qr) w = (Ok u, w') ->
  pg w' = set_tickets (alter (issue_qr qr (pg_now w)) i (tickets (pg w))) (pg w) /\ only_pg w w'.
Proof. intros Hs. apply stmt_step in Hs as [Hq Ho]. unfold SetTicketQR in Hq. by injection Hq as _ <-. Qed.

Lemma issue_qr_issued qr now t : is_Some (t_QrPayload t) -> issue_qr qr now t = t.
Proof. unfold issue_qr. by intros [q ->]. Qed.

(** The loop issues exactly the listed tickets. *)
Lemma issue_all_step secret l w u w' :
  issue_all secret l w = (Ok u, w') -> NoDup l.*1 ->
  (forall i t, (i, t) ∈ l -> tickets (pg w) !! i = Some t) ->
  exists m, pg w' = set_tickets m (pg w) /\ only_pg w w' /\
    forall i, m !! i = if decide (i ∈ l.*1) then issue_qr (Payload secret i) (pg_now w) <$> tickets (pg w) !! i else tickets (pg w) !! i.
Proof.
  revert w. induction l as [|[j t] l IH]; intros w Hr Hnd Hl.
  { unfold issue_all, mret in Hr. injection Hr as _ <-. exists (tickets (pg w)). split_and!; try done. by destruct (pg w). }
  rewrite fmap_cons in *. apply NoDup_cons in Hnd as [Hj Hnd]. pose proof (Hl j t ltac:(constructor)) as Htj.
  destruct (t_QrPayload t) as [q|] eqn:Hq; cbn [issue_all] in Hr; rewrite Hq in Hr.
  - destruct (IH w Hr Hnd) as (m & Hm & Ho & Hlk); [intros i t' Hin; apply Hl; by constructor|].
    exists m. split_and!; try done; try apply Ho. intros i. rewrite Hlk. simpl. destruct (decide (i = j)) as [->|Hne].
    + rewrite decide_False by done. rewrite decide_True by constructor. rewrite Htj. simpl. by rewrite issue_qr_issued by eauto.
    + destruct (decide (i ∈ l.*1)) as [Hi|Hi]; [by rewrite decide_True by (by constructor)|].
      rewrite decide_False; [done|]. intros Hc. by apply elem_of_cons in Hc as [->|?].
  - apply mbind_ok in Hr as ([] & w1 & H1 & Hr). apply SetTicketQR_step in H1 as (P1 & Q1 & N1).
    destruct (IH w1 Hr Hnd) as (m & Hm & (Q2 & N2) & Hlk).
    { intros i t' Hin. rewrite P1. simpl. rewrite lookup_alter_ne; [apply Hl; by constructor|].
      intros <-. apply Hj, list_elem_of_fmap. by exists (j, t'). }
    exists m. rewrite P1 in *. simpl in *. split_and!; [done|split; congruence|]. intros i. rewrite Hlk, N1.
    destruct (decide (i = j)) as [->|Hne].
    + rewrite decide_False by done. rewrite decide_True by constructor. by rewrite lookup_alter_eq.
    + rewrite lookup_alter_ne by done. destruct (decide (i ∈ l.*1)) as [Hi|Hi]; [by rewrite decide_True by (by constructor)|].
      rewrite decide_False; [done|]. intros Hc. by apply elem_of_cons in Hc as [->|?].
Qed.

Lemma ListOrderTickets_step id w l w' :
  stmt (ListOrderTickets id) w = (Ok l, w') ->
  NoDup l.*1 /\ (forall i t, (i, t) ∈ l <-> tickets (pg w) !! i = Some t /\ t_OrderID t = id) /\ pg w' = pg w /\ only_pg w w'.
Proof.
  intros Hs. apply stmt_step in Hs as [Hq Ho]. unfold ListOrderTickets, select in Hq. injection Hq as <- Hp.
  split_and!; try done; try apply Ho.
  - rewrite merge_sort_Permutation. apply NoDup_fst_map_to_list.
  - intros i t. rewrite merge_sort_Permutation, elem_of_map_to_list, map_lookup_filter_Some. done.
Qed.

Lemma Issue_refines secret id : refines no_refund (Issue_tx secret id).
Proof.
  intros w st w' Hr Hok Hb. unfold Issue_tx in Hr.
  apply mbind_ok in Hr as (row & w1 & H1 & Hr). apply on_no_rows_ok, GetOrderForUpdate_step in H1 as (Hrow & P1 & Q1 & N1).
  destruct (negb _) eqn:Hst in Hr; [unfold mret in Hr; injection Hr as _ <-; rewrite P1, Q1; constructor|].
  apply negb_false_iff, bool_decide_eq_true in Hst.
  apply mbind_ok in Hr as (l & w2 & H2 & Hr). apply ListOrderTickets_step in H2 as (Hnd & Hl & P2 & Q2 & N2).
  destruct l as [|x l']; [done|]. remember (x :: l') as l eqn:Hx. clear x l' Hx.
  apply mbind_ok in Hr as ([] & w3 & H3 & Hr). rewrite P1 in *.
  apply issue_all_step in H3 as (m & P3 & (Q3 & N3) & Hm); [|done|intros i t Hin; rewrite P2; by apply Hl].
  apply mbind_ok in Hr as (row' & w4 & H4 & Hr). apply transition_step in H4 as (_ & r & Hr' & Hrs & -> & P4 & Q4 & N4).
  apply mbind_ok in Hr as (seats & w5 & H5 & Hr). apply ListOrderSeats_step in H5 as (_ & P5 & Q5 & N5).
  apply mbind_ok in Hr as ([] & w6 & H6 & Hr). unfold mret in Hr. injection Hr as <- <-.
  rewrite P3, P2 in *. simpl in Hr'. assert (r = row) as -> by congruence.
  assert (set_tickets m (pg w) = issue_tickets id (Payload secret) (pg_now w) (pg w)) as Hiss.
  { unfold issue_tickets. f_equal. apply map_eq. intros i. rewrite Hm, map_lookup_imap, N2, N1.
    destruct (tickets (pg w) !! i) as [t|] eqn:Ht; simpl; [|by case_decide].
    destruct (decide (t_OrderID t = id)) as [He|He].
    - rewrite decide_True; [done|]. apply list_elem_of_fmap. exists (i, t). split; [done|]. by apply Hl.
    - rewrite decide_False; [done|]. intros Hc. apply list_elem_of_fmap in Hc as ([i' t'] & Hi & Hc). simpl in Hi. subst i'.
      apply Hl in Hc as [Ht' ?]. congruence. }
  apply writeEvent_step in H6 as (Hn & Q6 & N6 & P6).
  rewrite P5, P4, Hiss, Q5, Q4, Q3, Q2, Q1, N5, N4, N3, N2, N1 in *. rewrite Q6.
  eapply announce_last; [by apply (bs_ticketed _ id row (Payload secret))|done| |exact Hn|exact P6].
  unfold announces. simpl. by rewrite (ok_id _ Hok id row Hrow).
Qed.

Lemma issue_all_tame secret l : tame (R := R) (issue_all secret l).
Proof. induction l as [|[i t] l IH]; cbn [issue_all]; tame_tac. Qed.

Lemma Issue_tame secret id : tame (R := R) (Issue_tx secret id).
Proof. pose proof issue_all_tame. unfold Issue_tx. tame_tac. Qed.

(** ** Expiry *)

Lemma due_orders_spec batch locked now d :
  NoDup (due_orders batch locked now d).*1 /\
  forall id r, (id, r) ∈ due_orders batch locked now d ->
    orders d !! id = Some r /\ r_Status r = StatusHeld /\ r_HoldExpiresAt r < now.
Proof.
  unfold due_orders. set (l := merge_sort _ _).
  assert (l ≡ₚ map_to_list (filter (due now locked) (orders d))) as Hp by apply merge_sort_Permutation. split.
  - rewrite fmap_take. eapply sublist_NoDup; [|apply sublist_take]. rewrite Hp. apply NoDup_fst_map_to_list.
  - intros id r Hin. assert ((id, r) ∈ l) as Hl by (rewrite <- (take_drop batch l); apply elem_of_app; by left).
    rewrite Hp in Hl. apply elem_of_map_to_list, map_lookup_filter_Some in Hl as [Ho (H1 & H2 & _)]. done.
Qed.

(** The batch, one order at a time: each expiry next to its message. *)
Lemma expire_steps (f : UUID * OrderRow -> Order) l w u w' d :
  write_all (f <$> l) w = (Ok u, w') -> pg w = set_orders (expire_all (pg_now w) l (orders d)) d ->
  NoDup l.*1 -> (forall kv, kv ∈ l -> o_ID (f kv) = kv.1) ->
  (forall id r, (id, r) ∈ l -> orders d !! id = Some r /\ r_Status r = StatusHeld /\ r_HoldExpiresAt r < pg_now w) ->
  rtc (ledger_step no_refund (pg_now w)) (outbox_seq w, d) (outbox_seq w', pg w').
Proof.
  revert w d. induction l as [|[id r] l IH]; intros w d Hr Hpg Hnd Hid Hl.
  { unfold fmap, list_fmap, write_all, mret in Hr. injection Hr as _ <-. rewrite Hpg. unfold expire_all, fold_left.
    destruct d; constructor. }
  rewrite fmap_cons in *. apply NoDup_cons in Hnd as [Hni Hnd]. cbn [write_all] in Hr.
  apply mbind_ok in Hr as ([] & w1 & H1 & Hr). apply writeEvent_step in H1 as (Hn & Q1 & N1 & P1).
  destruct (Hl id r ltac:(constructor)) as (Ho & Hst & Hexp).
  set (m := mkMessage _ _ _ _) in P1. set (d1 := log_row (outbox_seq w) (pg_now w) m (move id StatusExpired (pg_now w) r d)).
  rewrite Hpg in Hn. simpl in Hn. etrans; [apply (announce_last no_refund _ _ d (move id StatusExpired (pg_now w) r d) d1 (mkAnnouncement TopicOrders OrderExpired id EmptyString) m)|].
  - by apply bs_expired.
  - done.
  - unfold announces. simpl. by rewrite (Hid (id, r)) by constructor.
  - exact Hn.
  - done.
  - rewrite <- Q1, <- N1. apply IH; try done.
    + rewrite P1, Hpg, N1. done.
    + intros kv Hin. apply Hid. by constructor.
    + intros i q Hin. rewrite N1. destruct (Hl i q) as (Hi & ? & ?); [by constructor|]. split_and!; try done.
      simpl. rewrite lookup_insert_ne; [done|]. intros <-. apply Hni, list_elem_of_fmap. by exists (id, q).
Qed.

Lemma expire_refines : refines no_refund expire_tx.
Proof.
  intros w os w' Hr Hok Hb. unfold expire_tx in Hr. apply mbind_ok in Hr as (rows & w1 & H1 & Hr).
  unfold expire_stmt in H1. apply stmt_step in H1 as (Hq & Q1 & N1). unfold ExpireDueOrders in Hq. cbn zeta in Hq.
  pose proof (due_orders_spec ExpiryBatchSize (locked w) (pg_now w) (pg w)) as [Hnd Hl].
  injection Hq as <- P1. set (l := due_orders _ _ _ _) in *.
  destruct (snd <$> l) as [|row rows'] eqn:Hrows.
  { apply fmap_nil_inv in Hrows. rewrite Hrows in P1. unfold mret in Hr. injection Hr as _ <-. rewrite <- P1, Q1.
    unfold expire_all, fold_left. destruct (pg w). constructor. }
  rewrite <- Hrows in Hr. clear row rows' Hrows. apply mbind_ok in Hr as (seats & w2 & H2 & Hr).
  apply stmt_step in H2 as (Hq & Q2 & N2). unfold ListSeatsOfOrders, select in Hq. injection Hq as _ P2. cbn zeta in Hr.
  apply mbind_ok in Hr as ([] & w3 & H3 & Hr). unfold mret in Hr. injection Hr as <- <-. rewrite <- list_fmap_compose in H3.
  assert (pg_now w2 = pg_now w) as Hnow by congruence. rewrite <- Hnow. assert (outbox_seq w = outbox_seq w2) as -> by congruence.
  eapply expire_steps; [exact H3| |done| |].
  - by rewrite Hnow, P1.
  - intros [i r] Hin. simpl. destruct (Hl i r Hin) as (Hi & _). by apply (ok_id _ Hok).
  - intros i r Hin. rewrite Hnow. by apply Hl.
Qed.

Lemma write_all_tame l : tame (R := R) (write_all l).
Proof. induction l; cbn [write_all]; unfold writeOrderEvent; tame_tac. Qed.

Lemma expire_tame : tame (R := R) expire_tx.
Proof.
  pose proof write_all_tame. unfold expire_tx. apply tame_bind; [intros w; apply tame_stmt|]. tame_tac.
Qed.
End steps.
