(* ===== verification/PaymentRefine.v ===== *)
(** * Webhooks refine the order books

    Every committed webhook transaction (OrderPayment) is one event of the
    books or none: a payment applied, a refund requested, a failed payment
    recorded. *)

From S2P Require Import Prelude GoLib Effects OrderState World Frame OrderDB Inventory Outbox Payment.
From S2P Require Import OrderService OrderPayment OrderBooks OrderRefine.
Local Open Scope tr_scope.

(** ** What a webhook decides *)

(** [res] is the answer, the announcement and the tables belong to it; [d] has
    the payment recorded without outcome. *)
Inductive settled (now : Z) (p : Webhook) (r : OrderRow) (d : PG) : PaymentResult -> option Announcement -> PG -> Prop :=
| se_failed :
    wh_Status p = StatusFailed ->
    settled now p r d (mkPaymentResult OutcomeIgnoredFailed EmptyString (Some (r_Status r))) None d
| se_paid l :
    wh_Status p <> StatusFailed -> wh_AmountVND p = r_TotalVnd r ->
    (r_Status r = StatusHeld \/ r_Status r = StatusExpired) ->
    NoDup l.*1 -> NoDup l.*2 -> (forall s, s ∈ l.*2 <-> has_seat d (wh_OrderID p) s) ->
    (forall i, i ∈ l.*1 -> tickets d !! i = None) ->
    (forall i t s, tickets d !! i = Some t -> t_EventID t = r_EventID r -> t_SeatID t = s -> s ∉ l.*2) ->
    settled now p r d (mkPaymentResult OutcomeApplied EmptyString (Some StatusPaid))
      (Some (mkAnnouncement TopicOrders OrderPaid (wh_OrderID p) EmptyString))
      (move (wh_OrderID p) StatusPaid now r (add_tickets (wh_OrderID p) (r_EventID r) l d))
| se_refund reason :
    wh_Status p <> StatusFailed -> reason <> ReasonDoublePayment ->
    (r_Status r = StatusHeld \/ r_Status r = StatusExpired \/ r_Status r = StatusCancelled) ->
    settled now p r d (mkPaymentResult OutcomeRefundRequired reason (Some StatusRefunding))
      (Some (mkAnnouncement TopicOrders OrderRefundRequested (wh_OrderID p) (wh_ProviderTxnID p)))
      (add_refund (wh_ProviderTxnID p) (mkRefundRow (wh_OrderID p) (wh_AmountVND p) reason RefundPending now None)
         (move (wh_OrderID p) StatusRefunding now r d))
| se_double :
    wh_Status p <> StatusFailed -> (is_sold (r_Status r) = true \/ is_refund (r_Status r) = true) ->
    settled now p r d (mkPaymentResult OutcomeRefundRequired ReasonDoublePayment (Some (r_Status r)))
      (Some (mkAnnouncement TopicOrders OrderRefundRequested (wh_OrderID p) (wh_ProviderTxnID p)))
      (add_refund (wh_ProviderTxnID p)
         (mkRefundRow (wh_OrderID p) (wh_AmountVND p) ReasonDoublePayment RefundPending now None) d).

(** The payment row as the webhook first records it. *)
Definition recorded (p : Webhook) (d : PG) : PG :=
  add_payment (wh_ProviderTxnID p) (mkPaymentRow (wh_OrderID p) (wh_AmountVND p) (wh_Status p) None) d.

Definition with_outcome (txn : string) (oc : Outcome) (d : PG) : PG :=
  set_payments (alter (set_outcome oc) txn (payments d)) d.

(** What was decided, with the outcome written into the payment row, is an
    event of the books. *)
Lemma settled_step now p r d res a d1 :
  settled now p r (recorded p d) res a d1 -> Validate p = None ->
  orders d !! wh_OrderID p = Some r -> payments d !! wh_ProviderTxnID p = None ->
  book_step now d a (with_outcome (wh_ProviderTxnID p) (pr_Outcome res) d1).
Proof.
  intros Hs Hv Ho Hp. apply Validate_ok in Hv as (Htxn & Hnil & Hst & Ha).
  assert (forall o x, alter (set_outcome o) (wh_ProviderTxnID p) (<[wh_ProviderTxnID p := x]> (payments d)) =
    <[wh_ProviderTxnID p := set_outcome o x]> (payments d)) as Halt.
  { intros o x. apply map_eq. intros t. destruct (decide (t = wh_ProviderTxnID p)) as [->|Hne].
    - by rewrite lookup_alter_eq, !lookup_insert_eq.
    - by rewrite lookup_alter_ne, !lookup_insert_ne. }
  destruct Hs as [Hf|l Hf Ham Hor Hn1 Hn2 Hin Hids Hfree|reason Hf Hre Hor|Hf Hor];
    cbn [pr_Outcome]; unfold with_outcome, recorded, add_payment, move, add_tickets, add_refund; cbn [payments set_payments set_orders set_tickets set_refunds];
    rewrite Halt; unfold set_outcome; cbn [p_OrderID p_AmountVnd p_Status].
  - rewrite Hf. apply (bs_payment_failed now (wh_OrderID p) (wh_ProviderTxnID p) (wh_AmountVND p) d); eauto.
  - destruct Hst as [Hst|[Hst Hpos]]; [done|]. rewrite Hst, Ham.
    apply (bs_paid now (wh_OrderID p) r (wh_ProviderTxnID p) l d); try done. lia.
  - destruct Hst as [Hst|[Hst Hpos]]; [done|]. rewrite Hst.
    by apply (bs_refund_requested now (wh_OrderID p) r (wh_ProviderTxnID p) (wh_AmountVND p) reason d).
  - destruct Hst as [Hst|[Hst Hpos]]; [done|]. rewrite Hst.
    by apply (bs_double_payment now (wh_OrderID p) r (wh_ProviderTxnID p) (wh_AmountVND p) d).
Qed.

Lemma settled_outbox now p r d res a d1 : settled now p r d res a d1 -> outbox d1 = outbox d.
Proof. by destruct 1. Qed.

Lemma settled_type now p r d res a d1 : settled now p r d res (Some a) d1 -> an_type a <> OrderRefunded.
Proof. by inversion 1. Qed.

(** ** Tickets *)

Lemma insert_tickets_ok id ev l d d' :
  insert_tickets id ev l d = Ok d' ->
  d' = add_tickets id ev l d /\ NoDup l.*1 /\ (forall i, i ∈ l.*1 -> tickets d !! i = None) /\
  (forall i t s, tickets d !! i = Some t -> t_EventID t = ev -> t_SeatID t = s -> s ∉ l.*2).
Proof.
  revert d. induction l as [|[i s] l IH]; intros d Hi; cbn [insert_tickets] in Hi.
  { injection Hi as <-. unfold add_tickets, fold_left. split_and!; [by destruct d|constructor|..].
    - intros i Hi. by apply not_elem_of_nil in Hi.
    - intros i t s _ _ _ Hs. by apply not_elem_of_nil in Hs. }
  unfold insert_ticket in Hi. cbn [fst snd] in Hi. case_bool_decide as Hfresh; [done|].
  destruct (negb _) eqn:Hfree in Hi; [done|]. pose proof (filter_empty_spec _ _ Hfree) as Hfree'.
  apply IH in Hi as (-> & Hnd & Hids & Hsfree). rewrite !fmap_cons. cbn [fst snd tickets set_tickets] in *. split_and!.
  - done.
  - apply NoDup_cons. split; [|done]. intros Hin. specialize (Hids i Hin). by rewrite lookup_insert_eq in Hids.
  - intros j Hj. apply elem_of_cons in Hj as [->|Hj]; [apply eq_None_not_Some; done|].
    specialize (Hids j Hj). destruct (decide (j = i)) as [->|Hne]; [by rewrite lookup_insert_eq in Hids|].
    by rewrite lookup_insert_ne in Hids.
  - intros j t s' Hj Hev Hs' Hin. apply elem_of_cons in Hin as [->|Hin]; [by apply (Hfree' j t Hj)|].
    assert (i <> j) as Hne by (intros <-; destruct Hfresh; eauto).
    apply (Hsfree j t s'); [by rewrite lookup_insert_ne|done..].
Qed.

Section steps.
Context {R : Type} `{UuidLib} (inv : Inventory R) `{!InventoryFrame inv}.
Implicit Types w : World R.

Lemma new_ids_step n w l w' : new_ids n w = (Ok l, w') -> length l = n /\ pg w' = pg w /\ only_pg w w'.
Proof.
  revert w l. induction n as [|n IH]; intros w l Hr; cbn [new_ids] in Hr.
  { unfold mret in Hr. by injection Hr as <- <-. }
  apply mbind_ok in Hr as (id & w1 & H1 & Hr). apply mbind_ok in Hr as (k & w2 & H2 & Hr).
  unfold mret in Hr. injection Hr as <- <-. apply IH in H2 as (Hl & P2 & Q2 & N2).
  assert (pg w1 = pg w /\ only_pg w w1) as (P1 & Q1 & N1).
  { unfold NewV7 in H1. by destruct (ids w) as [|[u|] rest]; [|injection H1 as _ <-|]. }
  simpl. split_and!; [by f_equal|congruence|split; congruence].
Qed.

Lemma savepoint_step w u w' : sql_savepoint w = (Ok u, w') -> pg w' = pg w /\ only_pg w w'.
Proof. intros Hs. apply stmt_step in Hs as [Hq Ho]. by injection Hq as _ <-. Qed.

Lemma insertTickets_step o w ok w' :
  insertTickets o w = (Ok ok, w') ->
  only_pg w w' /\
  if ok then exists l, l.*2 = SeatIDs o /\ NoDup l.*1 /\ (forall i, i ∈ l.*1 -> tickets (pg w) !! i = None) /\
    (forall i t s, tickets (pg w) !! i = Some t -> t_EventID t = o_EventID o -> t_SeatID t = s -> s ∉ l.*2) /\
    pg w' = add_tickets (o_ID o) (o_EventID o) l (pg w)
  else pg w' = pg w.
Proof.
  intros Hr. unfold insertTickets in Hr. cbn zeta in Hr.
  apply mbind_ok in Hr as (l & w1 & H1 & Hr). apply new_ids_step in H1 as (Hl & P1 & Q1 & N1).
  apply mbind_ok in Hr as ([] & w2 & H2 & Hr). apply savepoint_step in H2 as (P2 & Q2 & N2).
  unfold mcatch, or_rollback in Hr. set (s := stmt _) in Hr. destruct (s w2) as [[[]|e] w3] eqn:H3.
  - subst s. apply stmt_step in H3 as (Hq & Q3 & N3). unfold InsertTickets in Hq.
    destruct (negb _) eqn:Hlen in Hq; [done|]. apply negb_false_iff, bool_decide_eq_true in Hlen.
    destruct (insert_tickets _ _ _ _) as [d'|] eqn:Hi; [|done]. destruct (negb _) in Hq; [done|]. injection Hq as P3.
    apply insert_tickets_ok in Hi as (-> & Hnd & Hids & Hfree).
    apply mbind_ok in Hr as ([] & w4 & H4 & Hr). apply savepoint_step in H4 as (P4 & Q4 & N4).
    unfold mret in Hr. injection Hr as <- <-. split; [split; congruence|]. exists (zip l (SeatIDs o)).
    rewrite P2, P1 in *. rewrite snd_zip by lia. rewrite snd_zip in Hfree by lia. split_and!; try done. congruence.
  - pose proof (tame_stmt (R := R) (InsertTickets l (o_ID o) (o_EventID o) (SeatIDs o)) w2) as (_ & _ & _ & N3).
    fold s in N3. rewrite H3 in N3. simpl in N3.
    assert (outbox_seq w3 = outbox_seq w2) as Q3.
    { subst s. unfold stmt, call in H3. destruct (pop_fault w2) as [fl w2'] eqn:Hp.
      destruct (pop_fault_spec _ _ _ Hp) as (_ & Hs & _). rewrite <- Hs.
      destruct fl; simpl in H3; repeat case_match; simplify_eq; done. }
    case_err e; try done. unfold mret in Hr. injection Hr as <- <-. simpl.
    split; [split; simpl; congruence|congruence].
Qed.

(** ** The two endings *)

(** A decision together with the message it wrote. *)
Definition decided (now : Z) (p : Webhook) (r : OrderRow) (res : PaymentResult) (x : Z * PG) (y : Z * PG) : Prop :=
  exists a d1, settled now p r x.2 res a d1 /\
    match a with
    | None => y = (x.1, d1)
    | Some a => exists m, announces a m /\ outbox d1 !! x.1 = None /\ y = (x.1 + 1, log_row x.1 now m d1)
    end.

Lemma moveTo_step o to w o' w' r :
  moveTo o to w = (Ok o', w') -> orders (pg w) !! o_ID o = Some r ->
  o' = with_status o to /\ pg w' = move (o_ID o) to (pg_now w) r (pg w) /\ only_pg w w'.
Proof.
  intros Hr Ho. unfold moveTo in Hr. apply mbind_ok in Hr as (row & w1 & H1 & Hr). unfold mret in Hr. injection Hr as <- <-.
  apply transition_step in H1 as (_ & r' & Hr' & _ & _ & P1 & Q1). rewrite Ho in Hr'. injection Hr' as <-. done.
Qed.

Lemma InsertRefund_step txn id amount reason w u w' :
  stmt (InsertRefund txn id amount reason) w = (Ok u, w') ->
  pg w' = add_refund txn (mkRefundRow id amount reason RefundPending (pg_now w) None) (pg w) /\ only_pg w w'.
Proof.
  intros Hs. apply stmt_step in Hs as [Hq Ho]. unfold InsertRefund in Hq. case_bool_decide; [done|].
  destruct (negb _) in Hq; [done|]. destruct (negb _) in Hq; [done|]. injection Hq as _ Hp. done.
Qed.

Section one.
Context (p : Webhook) (o : Order) (r : OrderRow).
Hypothesis Hid : o_ID o = wh_OrderID p.
Hypothesis Hev : o_EventID o = r_EventID r.
Hypothesis Hst : o_Status o = r_Status r.
Hypothesis Htotal : o_TotalVND o = r_TotalVnd r.

Lemma refund_step reason to after w res w' :
  refund p o reason to after w = (Ok res, w') -> orders (pg w) !! wh_OrderID p = Some r ->
  wh_Status p <> StatusFailed ->
  match to with
  | Some st => st = StatusRefunding /\ reason <> ReasonDoublePayment /\
      (r_Status r = StatusHeld \/ r_Status r = StatusExpired \/ r_Status r = StatusCancelled)
  | None => reason = ReasonDoublePayment /\ (is_sold (r_Status r) = true \/ is_refund (r_Status r) = true)
  end ->
  decided (pg_now w) p r res.1 (outbox_seq w, pg w) (outbox_seq w', pg w').
Proof.
  intros Hr Ho Hf Hto. unfold refund in Hr. apply mbind_ok in Hr as (o1 & w1 & H1 & Hr).
  apply mbind_ok in Hr as ([] & w2 & H2 & Hr). apply mbind_ok in Hr as ([] & w3 & H3 & Hr).
  unfold mret in Hr. injection Hr as <- <-. simpl.
  apply InsertRefund_step in H2 as (P2 & Q2 & N2). apply writeEvent_step in H3 as (Hn & Q3 & N3 & P3).
  unfold decided. cbn [fst snd]. destruct to as [st|].
  - destruct Hto as (-> & Hre & Hor). rewrite <- Hid in Ho. apply (moveTo_step _ _ _ _ _ r) in H1 as (-> & P1 & Q1 & N1); [|done].
    simpl in P2, P3. rewrite P2, P1, Q2, Q1, N2, N1, Hid in *. eexists _, _. split; [by apply se_refund|]. cbn beta iota.
    eexists. split_and!; [|exact Hn|rewrite Q3, P3; reflexivity]. by unfold announces; simpl; rewrite Hid.
  - destruct Hto as (-> & Hor). unfold mret in H1. injection H1 as <- <-. rewrite P2, Q2, N2, Hid in *.
    rewrite Hst. eexists _, _. split; [by apply se_double|]. cbn beta iota. eexists. split_and!; [|exact Hn|rewrite Q3, P3; reflexivity].
    by unfold announces; simpl; rewrite Hid.
Qed.

Lemma sell_step w res w' :
  sell p o w = (Ok res, w') -> orders (pg w) !! wh_OrderID p = Some r -> wh_Status p <> StatusFailed ->
  wh_AmountVND p = r_TotalVnd r -> (r_Status r = StatusHeld \/ r_Status r = StatusExpired) ->
  NoDup (SeatIDs o) -> (forall s, s ∈ SeatIDs o <-> has_seat (pg w) (wh_OrderID p) s) ->
  decided (pg_now w) p r res.1 (outbox_seq w, pg w) (outbox_seq w', pg w').
Proof.
  intros Hr Ho Hf Ha Hor Hnd Hseats. unfold sell in Hr. apply mbind_ok in Hr as (ok & w1 & H1 & Hr).
  apply insertTickets_step in H1 as ((Q1 & N1) & H1). destruct ok; simpl in Hr.
  - destruct H1 as (l & Hl & Hnd1 & Hids & Hfree & P1). unfold pay in Hr.
    apply mbind_ok in Hr as (o2 & w2 & H2 & Hr). apply (moveTo_step _ _ _ _ _ r) in H2 as (-> & P2 & Q2 & N2); [|by rewrite P1, Hid].
    apply mbind_ok in Hr as ([] & w3 & H3 & Hr). unfold mret in Hr. injection Hr as <- <-. simpl.
    apply writeEvent_step in H3 as (Hn & Q3 & N3 & P3). rewrite P2, P1, Q2, Q1, N2, N1, Hid, Hev in *.
    eexists _, _. cbn [fst snd]. split; [apply se_paid with (l := l); rewrite ?Hl; try done|].
    + intros i t s Hi He Hs. rewrite <- Hl. by eapply Hfree.
    + cbn beta iota. eexists. split_and!; [|exact Hn|rewrite Q3, P3; reflexivity]. by unfold announces; simpl; rewrite Hid.
  - rewrite <- N1, <- Q1, <- H1. eapply refund_step; [exact Hr|by rewrite H1|done|]. simpl. naive_solver.
Qed.

(** ** The decision *)

Lemma decide_step holdActive w res w' :
  decide_payment inv p o holdActive w = (Ok res, w') -> orders (pg w) !! wh_OrderID p = Some r ->
  NoDup (SeatIDs o) -> (forall s, s ∈ SeatIDs o <-> has_seat (pg w) (wh_OrderID p) s) ->
  decided (pg_now w) p r res.1 (outbox_seq w, pg w) (outbox_seq w', pg w').
Proof.
  intros Hr Ho Hnd Hseats. unfold decide_payment in Hr. cbn zeta in Hr. rewrite Hst, Htotal in Hr.
  destruct (bool_decide (wh_Status p = StatusFailed)) eqn:Hf; bool_to_prop.
  { unfold mret in Hr. injection Hr as <- <-. simpl. exists None, (pg w). split; [by apply se_failed|done]. }
  destruct (wh_AmountVND p =? r_TotalVnd r) eqn:Ha.
  - apply Z.eqb_eq in Ha.
    assert (Hlate : forall w0 res' w0', (let* taken := (run (Hold inv (o_EventID o) (SeatIDs o) (o_ID o) latePaymentHoldTTL) : M R (list string)) in
      match taken with _ :: _ => refund p o ReasonLatePaymentSeatTaken (Some StatusRefunding) no_after | [] => sell p o end) w0 = (Ok res', w0') ->
      w0 = w -> (r_Status r = StatusHeld \/ r_Status r = StatusExpired) ->
      decided (pg_now w) p r res'.1 (outbox_seq w, pg w) (outbox_seq w0', pg w0')).
    { intros w0 res' w0' Hl -> Hor. apply mbind_ok in Hl as (taken & w1 & H1 & Hl).
      pose proof (keeps_books_run (Hold inv (o_EventID o) (SeatIDs o) (o_ID o) latePaymentHoldTTL) w (Hold_frame _ _ _ _)) as Hk.
      rewrite H1 in Hk. destruct Hk as (P1 & Q1 & _ & _ & N1). simpl in P1, Q1, N1. rewrite <- P1, <- Q1, <- N1.
      destruct taken; [eapply sell_step|eapply refund_step]; try exact Hl; rewrite ?P1; try done. simpl. naive_solver. }
    destruct (r_Status r) eqn:Hs in Hr; cbn in Hr.
    all: try (eapply refund_step; [exact Hr|done|done|]; simpl; rewrite Hs; naive_solver).
    all: try (eapply Hlate; [exact Hr|done|]; naive_solver).
    destruct holdActive; cbn in Hr; [|eapply Hlate; [exact Hr|done|]; naive_solver].
    eapply sell_step; try exact Hr; try done. rewrite Hs. by left.
  - destruct (r_Status r) eqn:Hs in Hr; cbn in Hr;
      (eapply refund_step; [exact Hr|done|done|]; simpl; rewrite Hs; naive_solver).
Qed.
End one.

(** ** The transaction *)

Lemma LockOrderForPayment_step id w row act w' :
  stmt (LockOrderForPayment id) w = (Ok (row, act), w') ->
  orders (pg w) !! id = Some row /\ act = (pg_now w <=? r_HoldExpiresAt row) /\ pg w' = pg w /\ only_pg w w'.
Proof.
  intros Hs. apply stmt_step in Hs as [Hq Ho]. unfold LockOrderForPayment, no_rows in Hq.
  destruct (orders (pg w) !! id) as [r|]; [|done]. injection Hq as <- <- <-. split_and!; try done; apply Ho.
Qed.

(** A statement that returned an error of its own left the tables alone. *)
Lemma stmt_err {A} (q : Z -> PG -> res GoErr (A * PG)) w e w' :
  stmt q w = (Err e, w') -> e <> EPg Infra -> pg w' = pg w /\ only_pg w w'.
Proof.
  unfold stmt, call. destruct (pop_fault w) as [fl w0] eqn:Hp. destruct (pop_fault_spec _ _ _ Hp) as (P0 & Q0 & _ & (_ & _ & N0 & _)).
  destruct fl; simpl; [|congruence..]. destruct (q (pg_now w0) (pg w0)) as [[a d]|e']; [done|]. intros [= -> <-] _. done.
Qed.

Lemma InsertPayment_step p w t w' :
  stmt (InsertPayment (wh_ProviderTxnID p) (wh_OrderID p) (wh_AmountVND p) (wh_Status p)) w = (Ok t, w') ->
  payments (pg w) !! wh_ProviderTxnID p = None /\ pg w' = recorded p (pg w) /\ only_pg w w'.
Proof.
  intros Hs. apply stmt_step in Hs as [Hq Ho]. unfold InsertPayment, no_rows in Hq.
  destruct (negb _ && negb _) in Hq; [done|]. case_bool_decide as Hn; [done|]. destruct (negb _) in Hq; [done|].
  injection Hq as _ Hp. split_and!; try apply Ho; [by apply eq_None_not_Some|done].
Qed.

Lemma SetPaymentOutcome_step txn oc w u w' :
  stmt (SetPaymentOutcome txn oc) w = (Ok u, w') -> pg w' = with_outcome txn oc (pg w) /\ only_pg w w'.
Proof. intros Hs. apply stmt_step in Hs as [Hq Ho]. injection Hq as _ Hp. done. Qed.

Lemma seat_ids_spec d row id :
  SeatIDs (fromRow row ((fun kv => (kv.1, os_PriceVnd kv.2)) <$> seats_of (order_seats d) id)) = (seats_of (order_seats d) id).*1.
Proof. unfold SeatIDs. simpl. rewrite <- list_fmap_compose. done. Qed.

(** The outcomes of a committed webhook transaction. *)
Lemma ApplyPayment_tx_cases p w res mo after w' :
  ApplyPayment_tx inv p w = (Ok (res, mo, after), w') -> books_ok (pg w) ->
  (pg w' = pg w /\ outbox_seq w' = outbox_seq w /\
   (orders (pg w) !! wh_OrderID p = None /\ pr_Outcome res = OutcomeUnknownOrder \/
    is_Some (payments (pg w) !! wh_ProviderTxnID p) /\ pr_Outcome res = OutcomeDuplicate)) \/
  exists row a d1, orders (pg w) !! wh_OrderID p = Some row /\ payments (pg w) !! wh_ProviderTxnID p = None /\
    settled (pg_now w) p row (recorded p (pg w)) res a d1 /\
    let d2 := with_outcome (wh_ProviderTxnID p) (pr_Outcome res) d1 in
    match a with
    | None => outbox_seq w' = outbox_seq w /\ pg w' = d2
    | Some a => exists m, announces a m /\ outbox d2 !! outbox_seq w = None /\
        outbox_seq w' = outbox_seq w + 1 /\ pg w' = log_row (outbox_seq w) (pg_now w) m d2
    end.
Proof.
  intros Hr Hok. unfold ApplyPayment_tx, mcatch in Hr.
  destruct (stmt (LockOrderForPayment (wh_OrderID p)) w) as [[[row active]|e] w1] eqn:H1.
  2:{ case_err e; try done. pose proof H1 as Hn. apply stmt_err in H1 as (P1 & Q1 & _); [|done].
      unfold mret in Hr. injection Hr as <- _ _ <-. left. split_and!; [done..|]. left. split; [|done].
      destruct (orders (pg w) !! wh_OrderID p) as [r|] eqn:Ho; [|done]. unfold stmt, call in Hn.
      destruct (pop_fault w) as [fl w0] eqn:Hp. destruct (pop_fault_spec _ _ _ Hp) as (P0 & _ & _).
      unfold LockOrderForPayment in Hn. rewrite P0, Ho in Hn. by destruct fl. }
  apply LockOrderForPayment_step in H1 as (Hrow & Hact & P1 & Q1 & N1).
  destruct (stmt (InsertPayment _ _ _ _) w1) as [[t|e] w2] eqn:H2.
  2:{ case_err e; try done. pose proof H2 as Hn. apply stmt_err in H2 as (P2 & Q2 & _); [|done]. cbn zeta in Hr.
      apply mbind_ok in Hr as (seats & w3 & H3 & Hr). apply ListOrderSeats_step in H3 as (_ & P3 & Q3 & _).
      unfold mret in Hr. injection Hr as <- _ _ <-. left. split_and!; [congruence..|]. right. split; [|done].
      destruct (payments (pg w) !! wh_ProviderTxnID p) as [q|] eqn:Hpay; [by eexists|]. unfold stmt, call in Hn.
      destruct (pop_fault w1) as [fl w0] eqn:Hp. destruct (pop_fault_spec _ _ _ Hp) as (P0 & _ & _).
      unfold InsertPayment in Hn. rewrite P0, P1, Hpay, Hrow in Hn.
      destruct (negb _ && negb _) in Hn; [by destruct fl|].
      rewrite bool_decide_eq_false_2, bool_decide_eq_true_2 in Hn by (first [by intros [? ?]|by eexists]). by destruct fl. }
  apply InsertPayment_step in H2 as (Hnew & P2 & Q2 & N2). cbn zeta in Hr.
  apply mbind_ok in Hr as (seats & w3 & H3 & Hr). apply ListOrderSeats_step in H3 as (Hseats & P3 & Q3 & N3).
  apply mbind_ok in Hr as ([res1 after1] & w4 & H4 & Hr). apply mbind_ok in Hr as ([] & w5 & H5 & Hr).
  unfold mret in Hr. injection Hr as <- <- <- <-. apply SetPaymentOutcome_step in H5 as (P5 & Q5 & N5).
  rewrite P1 in *. assert (orders (pg w3) !! wh_OrderID p = Some row) as Hrow3 by (by rewrite P3, P2).
  subst seats. apply (decide_step p _ row) in H4; rewrite ?seat_ids_spec; try done.
  2:{ simpl. by apply (ok_id _ Hok). }
  2:{ apply seats_of_NoDup. }
  2:{ intros s. rewrite P3. unfold has_seat. split.
      - intros Hs. apply list_elem_of_fmap in Hs as ([s' x] & -> & Hs). apply seats_of_elem in Hs. eauto.
      - intros [x Hs]. apply list_elem_of_fmap. exists (s, x). split; [done|]. by apply seats_of_elem. }
  destruct H4 as (a & d1 & Hset & Ha). cbn [fst snd] in Hset, Ha. rewrite P3, P2 in Hset.
  assert (pg_now w3 = pg_now w) as Hnow by congruence. assert (outbox_seq w3 = outbox_seq w) as Hseq by congruence.
  rewrite Hnow, Hseq in *. right. exists row, a, d1. split_and!; try done. cbn zeta.
  destruct a as [a|].
  - destruct Ha as (m & Hm & Hn & Ha). injection Ha as Hs4 Hp4. exists m. split_and!; try done; [congruence|].
    by rewrite P5, Hp4.
  - injection Ha as Hs4 Hp4. split; [congruence|by rewrite P5, Hp4].
Qed.

Lemma ApplyPayment_refines p : Validate p = None -> refines no_refund (ApplyPayment_tx inv p).
Proof.
  intros Hv w [[res mo] after] w' Hr Hok Hb.
  destruct (ApplyPayment_tx_cases _ _ _ _ _ _ Hr Hok) as [(-> & -> & _)|(row & a & d1 & Hrow & Hnew & Hset & Ha)]; [constructor|].
  cbn zeta in Ha. pose proof (settled_step _ _ _ _ _ _ _ Hset Hv Hrow Hnew) as Hstep. apply rtc_once. exists a; eexists; split; [exact Hstep|].
  destruct a as [a|].
  - destruct Ha as (m & Hm & Hn & -> & ->). split; [intros Ht; by apply settled_type in Hset|]. by exists m.
  - by destruct Ha as [-> ->].
Qed.

Lemma sell_tame p o : tame (R := R) (sell p o).
Proof. unfold sell, insertTickets, refund, pay, moveTo, sql_savepoint. tame_tac. Qed.

Lemma refund_tame p o reason to after : tame (R := R) (refund p o reason to after).
Proof. unfold refund, moveTo. tame_tac. Qed.

Lemma ApplyPayment_tame p : tame (R := R) (ApplyPayment_tx inv p).
Proof.
  pose proof sell_tame. pose proof refund_tame.
  assert (forall o b, tame (decide_payment inv p o b)) by (intros; unfold decide_payment; tame_tac).
  unfold ApplyPayment_tx. tame_tac.
Qed.
End steps.
