(* ===== verification/System.v ===== *)
(** * The whole system

    All handlers at once: requests, the expirer, the refunder, the ticket
    issuer and the outbox relay run interleaved, call by call, on one world,
    with failing calls, lost answers and crashes. [winv] is the invariant of
    the world, [world_step] what one atomic action may do, [progress] what no
    action undoes. *)

From S2P Require Import Prelude GoLib Effects OrderState World Frame OrderDB Inventory Locker Ledger Catalog Outbox Payment.
From S2P Require Import OrderRequest OrderService OrderPayment OrderRefund OrderTickets OrderExpiry OrderBooks OrderRefine PaymentRefine.
Local Open Scope tr_scope.

Section system.
Context {R : Type} `{UuidLib}.
Implicit Types w : World R.

(** ** The invariant *)

(** What the gateway knows and has written of refunds. *)
Definition gw_ledger (g : Gateway) : gmap string RefundRequest * list GatewayLine := (gw_refunds g, gw_log g).
Definition has_paid (txn : string) (g : Gateway) : Prop := exists q, rq_ProviderTxnID q = txn /\ paid_back g q.

Lemma logged_ledger g g' : gw_ledger g' = gw_ledger g -> logged_ok g -> logged_ok g'.
Proof. intros [= H1 H2] [A B]. split; rewrite ?H1, H2; done. Qed.

Definition request_of (txn : string) (f : RefundRow) : RefundRequest :=
  mkRefundRequest (f_OrderID f) txn (f_AmountVnd f).

Record winv w : Prop := {
  wi_books : books_ok (pg w);
  wi_below : outbox_below (outbox_seq w, pg w);
  (* a message marked as published is in the log *)
  wi_published id r : outbox (pg w) !! id = Some r -> is_Some (ob_PublishedAt r) -> record_of (id, r) ∈ klog w;
  (* what the gateway remembers is what it logged since it was started *)
  wi_logged : logged_ok (gateway w);
  (* the gateway is asked for what a refund row says, and nothing else *)
  wi_gateway q repeat : Refunded q repeat ∈ gw_log (gateway w) ->
    exists f, refunds (pg w) !! rq_ProviderTxnID q = Some f /\ q = request_of (rq_ProviderTxnID q) f;
  (* a refund is completed after the gateway has paid it back *)
  wi_refunded txn f : refunds (pg w) !! txn = Some f -> f_Status f = RefundSucceeded -> has_paid txn (gateway w);
}.

Lemma winv_paid w txn f :
  winv w -> refunds (pg w) !! txn = Some f -> has_paid txn (gateway w) -> paid_back (gateway w) (request_of txn f).
Proof. intros Hw Hf (q & <- & Hq). destruct (wi_gateway _ Hw _ _ Hq) as (g & Hg & He). rewrite He in Hq. assert (g = f) as -> by congruence. done. Qed.

(** ** What one atomic action may do *)

(** [G]: the transactions whose refund the gateway may be asked for. *)
Inductive acts (G : string -> Prop) w w' : Prop :=
| ws_books C : books_move C w w' -> (forall txn, C txn -> has_paid txn (gateway w)) -> acts G w w'
| ws_other :
    pg w' = pg w -> outbox_seq w <= outbox_seq w' -> klog w' = klog w ->
    gw_ledger (gateway w') = gw_ledger (gateway w) -> acts G w w'
| ws_restart :
    pg w' = pg w -> outbox_seq w <= outbox_seq w' -> klog w' = klog w ->
    gw_ledger (gateway w') = gw_ledger (gateway_restart (gateway w)) -> acts G w w'
| ws_relay l ks :
    (forall kv, kv ∈ l -> outbox (pg w) !! kv.1 = Some kv.2 /\ ob_PublishedAt kv.2 = None) ->
    klog w' = klog w ++ ks -> (forall k, k ∈ ks -> k ∈ record_of <$> l) ->
    gateway w' = gateway w -> outbox_seq w' = outbox_seq w ->
    (pg w' = pg w \/
     (forall kv, kv ∈ l -> record_of kv ∈ klog w') /\
     exists now, pg w' = set_outbox (mark_all now l.*1 (outbox (pg w))) (pg w)) ->
    acts G w w'
| ws_cleanup (l : list (Z * OutboxRow)) :
    (forall kv, kv ∈ l -> outbox (pg w) !! kv.1 = Some kv.2 /\ is_Some (ob_PublishedAt kv.2)) ->
    pg w' = set_outbox (fold_left (fun m kv => delete kv.1 m) l (outbox (pg w))) (pg w) ->
    klog w' = klog w -> gateway w' = gateway w -> outbox_seq w' = outbox_seq w -> acts G w w'
| ws_gateway txn f :
    G txn -> refunds (pg w) !! txn = Some f -> pg w' = pg w -> klog w' = klog w -> outbox_seq w' = outbox_seq w ->
    gw_ledger (gateway w') = gw_ledger (handleRefund (request_of txn f) (gateway w)).2 -> acts G w w'.

Context {G : string -> Prop}.

Lemma world_step_refl w : acts G w w.
Proof. apply ws_other; done || lia. Qed.

(** ** What no action undoes *)

Record progress w w' : Prop := {
  pr_books : evolves (pg w) (pg w');
  pr_seq : outbox_seq w <= outbox_seq w';
  pr_log : klog w `prefix_of` klog w';
  pr_gateway : gw_log (gateway w) `prefix_of` gw_log (gateway w');
  pr_outbox id r : outbox (pg w) !! id = Some r ->
    (exists r', outbox (pg w') !! id = Some r' /\ record_of (id, r') = record_of (id, r)) \/ record_of (id, r) ∈ klog w';
}.

Lemma prefix_elem {A} (x : A) (l l' : list A) : l `prefix_of` l' -> x ∈ l -> x ∈ l'.
Proof. intros [k ->] Hx. apply elem_of_app. by left. Qed.

#[global] Instance progress_preorder : PreOrder progress.
Proof.
  split.
  - intros w. split; try done. intros id r Hr. left. by exists r.
  - intros w1 w2 w3 [A1 A2 A3 A4 A5] [B1 B2 B3 B4 B5]. split; try (by etrans); try lia.
    intros id r Hr. destruct (A5 id r Hr) as [(r' & Hr' & He)|Hl]; [|right; by eapply prefix_elem].
    rewrite <- He. destruct (B5 id r' Hr') as [(r2 & Hr2 & He2)|Hl]; [left; by exists r2|by right].
Qed.

Lemma paid_progress txn w w' : progress w w' -> has_paid txn (gateway w) -> has_paid txn (gateway w').
Proof. intros Hp (q & Ht & Hq). exists q. split; [done|]. eapply prefix_elem; [apply (pr_gateway _ _ Hp)|done]. Qed.

Lemma record_of_mark now id r : record_of (id, mark now r) = record_of (id, r).
Proof. done. Qed.

(** ** Steps keep the invariant and make progress *)

(** The outbox under ledger steps: rows stay, new ones are unpublished. *)
Lemma ledger_steps_outbox C now x y :
  rtc (ledger_step C now) x y -> outbox_below x ->
  x.1 <= y.1 /\ (forall id r, outbox x.2 !! id = Some r -> outbox y.2 !! id = Some r) /\
  (forall id r, outbox y.2 !! id = Some r -> outbox x.2 !! id = Some r \/ ob_PublishedAt r = None).
Proof.
  intros Hs. induction Hs as [x|x y z Hxy Hyz IH]; intros Hb; [split_and!; auto; lia|].
  destruct Hxy as (e & d1 & Hs & He). pose proof (book_step_outbox _ _ _ _ Hs) as Ho.
  assert (x.1 <= y.1 /\ outbox_below y /\ (forall id r, outbox x.2 !! id = Some r -> outbox y.2 !! id = Some r) /\
    (forall id r, outbox y.2 !! id = Some r -> outbox x.2 !! id = Some r \/ ob_PublishedAt r = None)) as (H1 & Hb' & H2 & H3).
  { destruct e as [a|].
    - destruct He as (_ & m & _ & Hn & ->). simpl. rewrite Ho in Hn. rewrite Ho. split_and!; [lia|..].
      + intros id. simpl. rewrite Ho, lookup_insert_is_Some'. intros [<-|Hi]; [lia|]. specialize (Hb id Hi). simpl in *. lia.
      + intros id r Hr. rewrite lookup_insert_ne by congruence. done.
      + intros id r Hr. apply lookup_insert_Some in Hr as [[_ <-]|[_ Hr]]; auto.
    - subst y. simpl. rewrite Ho. split_and!; auto; try lia. intros id. simpl. rewrite Ho. apply Hb. }
  destruct (IH Hb') as (I1 & I2 & I3). split_and!; [lia|auto|].
  intros id r Hr. destruct (I3 id r Hr) as [Hy|Hy]; auto.
Qed.

Lemma ledger_steps_refunds C now x y txn f :
  rtc (ledger_step C now) x y -> refunds y.2 !! txn = Some f -> f_Status f = RefundSucceeded ->
  refunds x.2 !! txn = Some f \/ C txn.
Proof.
  induction 1 as [x|x y z (e & d1 & Hs & He) Hyz IH]; intros Hf Hst; [by left|].
  destruct (IH Hf Hst) as [Hy|Hc]; [|by right].
  assert (refunds d1 !! txn = Some f) as Hd1.
  { destruct e; [destruct He as (_ & m & _ & _ & ->)|subst y]; done. }
  destruct (book_step_refunds _ _ _ _ _ _ Hs Hd1 Hst) as [Hx|(a & -> & Ht & <-)]; [by left|]. right. by apply He.
Qed.

Lemma books_step_ok C w w' :
  winv w -> books_move C w w' -> (forall txn, C txn -> has_paid txn (gateway w)) -> winv w' /\ progress w w'.
Proof.
  intros [I1 I2 I3 IL I4 I5] (Hk & Hg & _ & [[Hp Hq]|Hs]) HC.
  - split; [split; rewrite ?Hp, ?Hk, ?Hg; try done|split; rewrite ?Hp, ?Hk, ?Hg; try done].
    + intros id Hi. specialize (I2 id Hi). simpl in *. lia.
    + intros id r Hr. left. by exists r.
  - destruct (ledger_steps_ok _ _ _ _ Hs I1 I2) as (J1 & J2 & Hev).
    destruct (ledger_steps_outbox _ _ _ _ Hs I2) as (K1 & K2 & K3). cbn [fst snd] in *. split; split; rewrite ?Hk, ?Hg; try done.
    + intros id r Hr Hpub. destruct (K3 id r Hr) as [Hx|Hx]; [by apply I3|]. rewrite Hx in Hpub. by destruct Hpub.
    + intros q repeat Hq. destruct (I4 q repeat Hq) as (f & Hf & He). destruct (ev_refunds _ _ Hev _ f Hf) as (g & Hgg & (E1 & E2 & _)).
      exists g. split; [done|]. rewrite He at 1. unfold request_of. by rewrite E1, E2.
    + intros txn f Hf Hst. destruct (ledger_steps_refunds _ _ _ _ _ _ Hs Hf Hst) as [Hx|Hx]; [by eapply I5|by apply HC].
    + intros id r Hr. left. exists r. by rewrite (K2 id r Hr).
Qed.

Lemma relay_step_ok w w' l ks :
  winv w ->
  (forall kv, kv ∈ l -> outbox (pg w) !! kv.1 = Some kv.2 /\ ob_PublishedAt kv.2 = None) ->
  klog w' = klog w ++ ks -> gateway w' = gateway w -> outbox_seq w' = outbox_seq w ->
  (pg w' = pg w \/
   (forall kv, kv ∈ l -> record_of kv ∈ klog w') /\
   exists now, pg w' = set_outbox (mark_all now l.*1 (outbox (pg w))) (pg w)) ->
  winv w' /\ progress w w'.
Proof.
  intros [I1 I2 I3 IL I4 I5] Hl Hk Hg Hq [Hp|(Hall & now & Hp)].
  - split; split; rewrite ?Hp, ?Hk, ?Hg, ?Hq; try done.
    + intros id r Hr Hpub. apply elem_of_app. left. by apply I3.
    + by exists ks.
    + intros id r Hr. left. by exists r.
  - assert (evolves (pg w) (pg w')) as Hev.
    { rewrite Hp. destruct (evolves_preorder.(PreOrder_Reflexive) (pg w)). by split. }
    split; split; rewrite ?Hg, ?Hq; try done.
    + rewrite Hp. eapply same_books_ok; [|exact I1]. done.
    + intros id. rewrite Hp. simpl. rewrite mark_all_lookup. intros Hi. apply I2. simpl.
      case_decide; [|done]. by apply fmap_is_Some in Hi.
    + intros id r. rewrite Hp. simpl. rewrite mark_all_lookup. case_decide as Hin.
      * intros Hr _. apply fmap_Some in Hr as (r0 & Hr0 & ->). rewrite record_of_mark.
        apply list_elem_of_fmap in Hin as (kv & -> & Hin). destruct (Hl kv Hin) as [Hkv _].
        rewrite Hkv in Hr0. injection Hr0 as <-. specialize (Hall kv Hin). by destruct kv.
      * intros Hr Hpub. rewrite Hk. apply elem_of_app. left. by apply I3.
    + by rewrite Hp.
    + by rewrite Hp.
    + rewrite Hk. by exists ks.
    + intros id r Hr. left. rewrite Hp. simpl. rewrite mark_all_lookup, Hr. case_decide; [|by exists r].
      by exists (mark now r).
Qed.

Lemma cleanup_step_ok w w' (l : list (Z * OutboxRow)) :
  winv w ->
  (forall kv, kv ∈ l -> outbox (pg w) !! kv.1 = Some kv.2 /\ is_Some (ob_PublishedAt kv.2)) ->
  pg w' = set_outbox (fold_left (fun m kv => delete kv.1 m) l (outbox (pg w))) (pg w) ->
  klog w' = klog w -> gateway w' = gateway w -> outbox_seq w' = outbox_seq w -> winv w' /\ progress w w'.
Proof.
  intros [I1 I2 I3 IL I4 I5] Hl Hp Hk Hg Hq.
  assert (evolves (pg w) (pg w')) as Hev.
  { rewrite Hp. destruct (evolves_preorder.(PreOrder_Reflexive) (pg w)). by split. }
  split; split; rewrite ?Hk, ?Hg, ?Hq; try done; try lia.
  - rewrite Hp. eapply same_books_ok; [|exact I1]. done.
  - intros id. rewrite Hp. simpl. rewrite delete_all_lookup. intros Hi. apply I2. simpl. case_decide; [by destruct Hi|done].
  - intros id r. rewrite Hp. simpl. rewrite delete_all_lookup. case_decide; [done|]. apply I3.
  - by rewrite Hp.
  - by rewrite Hp.
  - intros id r Hr. rewrite Hp. simpl. rewrite delete_all_lookup. case_decide as Hin; [right|left; by exists r].
    apply list_elem_of_fmap in Hin as (kv & -> & Hin). destruct (Hl kv Hin) as [Hkv Hpub].
    rewrite Hkv in Hr. injection Hr as <-. by apply I3.
Qed.

(** A step of the gateway alone. *)
Lemma gateway_step_ok w w' new :
  winv w -> pg w' = pg w -> outbox_seq w <= outbox_seq w' -> klog w' = klog w ->
  gw_log (gateway w') = gw_log (gateway w) ++ new -> logged_ok (gateway w') ->
  (forall q repeat, Refunded q repeat ∈ new -> exists f, refunds (pg w) !! rq_ProviderTxnID q = Some f /\ q = request_of (rq_ProviderTxnID q) f) ->
  winv w' /\ progress w w'.
Proof.
  intros [I1 I2 I3 IL I4 I5] Hp Hq Hk Hl Hok Hnew. split; split; rewrite ?Hp, ?Hk, ?Hl; try done.
  - intros id Hi. specialize (I2 id Hi). simpl in *. lia.
  - intros q repeat [Hin|Hin]%elem_of_app; [by eapply I4|by eapply Hnew].
  - intros txn f Hf Hst. destruct (I5 txn f Hf Hst) as (q & Ht & Hin). exists q. split; [done|]. unfold paid_back. rewrite Hl. apply elem_of_app. by left.
  - by exists new.
  - intros id r Hr. left. by exists r.
Qed.

Lemma world_step_ok w w' : winv w -> acts G w w' -> winv w' /\ progress w w'.
Proof.
  intros Hw Hs. destruct Hs as [C Hm HC|Hp Hq Hk Hg|Hp Hq Hk Hg|l ks Hl Hk _ Hg Hq Hp|l Hl Hp Hk Hg Hq|txn f _ Hf Hp Hk Hq Hg].
  - by eapply books_step_ok.
  - apply (gateway_step_ok w w' []); [done..|by injection Hg; rewrite app_nil_r|apply (logged_ledger (gateway w)); [done|apply Hw]|].
    by intros q repeat Hn%not_elem_of_nil.
  - apply (gateway_step_ok w w' [GatewayStarted]); [done..|by injection Hg| |].
    + eapply logged_ledger; [exact Hg|]. apply restart_logged, Hw.
    + by intros q repeat Hn%list_elem_of_singleton.
  - by eapply relay_step_ok.
  - by eapply cleanup_step_ok.
  - destruct (handleRefund_logged (request_of txn f) (gateway w)) as (L1 & _ & new & L2 & L3); [apply Hw|].
    apply (gateway_step_ok w w' new); [done|done|lia|done|injection Hg; congruence|by eapply logged_ledger|].
    intros q repeat Hn. rewrite (L3 q repeat Hn). by exists f.
Qed.

(** ** The handlers *)

Lemma sys_frame {A} (p : prog (World R) A) : keeps_books p -> respects winv (acts G) p.
Proof.
  apply keeps_books_respects. intros w w' (Hp & Hq & Hg & Hk & _) Hw.
  assert (acts G w w') as Hs by (apply ws_other; congruence || lia). split; [by eapply world_step_ok|done].
Qed.

Lemma sys_tx {A} (m : M R A) : refines no_refund m -> tame m -> respects winv (acts G) (act (BeginFunc m)).
Proof.
  intros Hm Ht. apply respects_act. intros w Hw.
  assert (acts G w (BeginFunc m w).2) as Hs.
  { apply (ws_books _ _ _ no_refund); [|by intros txn []]. apply tx_books_move; try done; apply Hw. }
  split; [by eapply world_step_ok|done].
Qed.

(** One statement outside a transaction. *)
Lemma stmt_cases {A} (q : Z -> PG -> res GoErr (A * PG)) w :
  let w' := (stmt q w).2 in
  outbox_seq w' = outbox_seq w /\ klog w' = klog w /\ gateway w' = gateway w /\
  (pg w' = pg w \/ exists a, q (pg_now w) (pg w) = Ok (a, pg w')).
Proof.
  unfold stmt, call. destruct (pop_fault w) as [fl w0] eqn:Hp.
  pose proof (pop_fault_books _ _ _ Hp) as [(P0 & Q0 & G0 & K0 & N0) _]. rewrite <- P0, <- Q0, <- K0, <- G0, <- N0.
  destruct fl; simpl; [|by split_and!; auto|]; destruct (q (pg_now w0) (pg w0)) as [[a d]|e]; simpl; split_and!; auto; right; by exists a.
Qed.

Lemma read_frame {A} (q : Z -> PG -> res GoErr (A * PG)) :
  (forall now d a d', q now d = Ok (a, d') -> d' = d) -> keeps_books (act (stmt (R := R) q)).
Proof. apply act_read_frame. Qed.

Lemma reads_GetOrder id : keeps_books (act (stmt (R := R) (GetOrder id))).
Proof. apply read_frame. unfold GetOrder, select, no_rows. intros now d a d' Hq. case_match; naive_solver. Qed.

Lemma reads_GetOrderByKey u k : keeps_books (act (stmt (R := R) (GetOrderByKey u k))).
Proof. apply read_frame. unfold GetOrderByKey, select, no_rows. intros now d a d' Hq. repeat case_match; by simplify_eq. Qed.

Lemma reads_ListOrderSeats id : keeps_books (act (stmt (R := R) (ListOrderSeats id))).
Proof. apply read_frame. unfold ListOrderSeats, select. naive_solver. Qed.

Lemma reads_ListOrderTickets id : keeps_books (act (stmt (R := R) (ListOrderTickets id))).
Proof. apply read_frame. unfold ListOrderTickets, select. naive_solver. Qed.

Lemma Get_frame userID id : keeps_books (Get (R := R) userID id).
Proof.
  unfold Get. apply respects_bind; [apply reads_GetOrder|].
  intros [row|e]; [|by repeat case_match]. destruct (negb _); [done|].
  apply respects_bind; [apply reads_ListOrderSeats|]. by intros [].
Qed.

Lemma Tickets_frame userID id : keeps_books (Tickets (R := R) userID id).
Proof.
  unfold Tickets. apply respects_bind; [apply Get_frame|]. intros [o|e]; [|done].
  apply respects_bind; [apply reads_ListOrderTickets|]. by intros [].
Qed.

Lemma findByKey_frame userID key : keeps_books (findByKey (R := R) userID key).
Proof.
  unfold findByKey. apply respects_bind; [apply reads_GetOrderByKey|]. intros [row|e]; [|done].
  apply respects_bind; [apply reads_ListOrderSeats|]. by intros [].
Qed.

(** What a service needs of its inventory, locker and ledger. *)
Class Framed (s : Service R) : Prop := {
  framed_inv :: InventoryFrame (svc_inv s);
  framed_locks :: LockerFrame (svc_locks s);
  framed_ledger l : svc_admissions s = Some l -> LedgerFrame l;
}.

Lemma releaseSeats_frame inv `{!InventoryFrame inv} e ss o : keeps_books (releaseSeats (R := R) inv e ss o).
Proof. unfold releaseSeats, discard. apply respects_bind; [apply Release_frame|done]. Qed.

Section create.
Context (s : Service R) `{!Framed s}.

Lemma rounds_respects userID idemKey hash ev norm adm orderID n claimed :
  normal_request norm -> respects winv (acts G) (rounds s userID idemKey hash ev norm adm orderID n claimed).
Proof.
  intros Hn. revert claimed. induction n as [|n IH]; intros claimed; [done|]. cbn [rounds].
  apply respects_bind; [apply sys_frame, findByKey_frame|]. intros found. destruct (replay hash found); [done|].
  apply respects_bind.
  { apply sys_frame. unfold claim_step. destruct adm as [a|]; [|done]. destruct (svc_admissions s) as [l|] eqn:Hl; [|done].
    pose proof (framed_ledger l Hl). destruct claimed; [done|]. apply respects_bind; [apply Claim_frame|]. by intros [[]|]. }
  intros [c|e]; [|done]. apply respects_bind; [|intros [r|]; [done|apply IH]].
  unfold place_step. apply respects_bind; [apply sys_frame, Hold_frame|]. intros [[|x l]|e]; [|done..].
  apply respects_bind; [apply sys_tx; [by apply insertHeld_refines|apply insertHeld_tame]|].
  intros [o|e]; [done|]. apply respects_bind; [apply sys_frame, releaseSeats_frame, _|].
  intros _. by repeat case_match.
Qed.

Lemma create_respects userID key req adm : respects winv (acts G) (create s userID key req adm).
Proof.
  unfold create. apply respects_bind; [apply sys_frame, Catalog_Event_frame|].
  intros [ev|[]]; try done. destruct (normalize req ev) as [norm|e] eqn:Hn; [|done]. apply normalize_normal in Hn.
  apply respects_bind; [apply sys_frame, SaleOpen_frame|]. intros [[]|e]; [|done..]. cbn [negb]. cbn zeta.
  apply respects_bind; [apply sys_frame, TryLock_frame|]. intros [[token|]|e]; [| |done].
  - apply respects_bind; [|intros r; apply respects_bind; [apply sys_frame|done];
      unfold discard; apply respects_bind; [apply Unlock_frame|done]].
    unfold create_locked. apply respects_bind; [apply sys_frame, respects_act; intros w _|].
    { split; [done|]. unfold NewV7. by destruct (ids w) as [|[u|] rest]. }
    intros [orderID|e]; [|done]. apply respects_bind; [by apply rounds_respects|]. intros [r c].
    apply respects_bind; [|done]. apply sys_frame. destruct adm as [a|]; [|done].
    destruct (svc_admissions s) as [l|] eqn:Hl; [|done]. pose proof (framed_ledger l Hl). destruct (_ && _); [|done].
    unfold discard. apply respects_bind; [apply Unclaim_frame|done].
  - apply respects_bind; [apply sys_frame, findByKey_frame|]. intros found. by destruct (replay _ _).
Qed.

Lemma Create_respects userID key req : respects winv (acts G) (Create s userID key req).
Proof. apply create_respects. Qed.

Lemma CreateAdmitted_respects userID key req adm : respects winv (acts G) (CreateAdmitted s userID key req adm).
Proof. unfold CreateAdmitted. destruct (_ || _); [done|]. destruct (svc_admissions s); [apply create_respects|done]. Qed.

Lemma Cancel_respects userID id : respects winv (acts G) (Cancel s userID id).
Proof.
  unfold Cancel. apply respects_bind; [apply sys_tx; [apply Cancel_refines|apply Cancel_tame]|].
  intros [[o []]|e]; [| |done]; apply respects_bind; try done. apply sys_frame, releaseSeats_frame, _.
Qed.
End create.

Lemma Issue_respects secret id : respects winv (acts G) (Issue secret id).
Proof. apply sys_tx; [apply Issue_refines|apply Issue_tame]. Qed.

Section inventory.
Context (inv : Inventory R) `{!InventoryFrame inv}.

Lemma ApplyPayment_respects p : Validate p = None -> respects winv (acts G) (ApplyPayment inv p).
Proof.
  intros Hv. unfold ApplyPayment. apply respects_bind; [apply sys_tx; [by apply ApplyPayment_refines|apply ApplyPayment_tame, _]|].
  intros [[[r [o|]] after]|e]; [|done..]. apply sys_frame. apply respects_bind; [|intros _; apply respects_bind; [|done]].
  - destruct (after_confirm after); [|done]. unfold discard. apply respects_bind; [apply Confirm_frame|done].
  - destruct (after_release after); [|done]. apply releaseSeats_frame, _.
Qed.

Lemma release_unpaid_frame status l : keeps_books (release_unpaid (R := R) inv status l).
Proof.
  induction l as [|o l IH]; [done|]. cbn [release_unpaid]. apply respects_bind; [|done].
  repeat case_match; try done; apply releaseSeats_frame, _.
Qed.

Lemma releaseExpired_frame l : keeps_books (releaseExpired (R := R) inv l).
Proof.
  apply respects_act. intros w _. split; [done|].
  assert (forall v, books_kept v (releaseExpired_tx inv l v).2) as Hm.
  { intros v. unfold releaseExpired_tx, mbind. pose proof (read_frame (LockOrderStatuses (o_ID <$> l))) as [Hr _].
    { unfold LockOrderStatuses, select. naive_solver. }
    destruct (Hr v I) as [_ Hv]. destruct (stmt (LockOrderStatuses (o_ID <$> l)) v) as [[rows|e] v']; [|done].
    etrans; [exact Hv|]. apply keeps_books_run, release_unpaid_frame. }
  unfold BeginFunc, Transaction. destruct (pop_fault w) as [fl w0] eqn:Hp. apply pop_fault_books in Hp as [Hp _].
  destruct fl; [|done..]. specialize (Hm w0). destruct (releaseExpired_tx inv l w0) as [[a|e] w1].
  - destruct (pop_fault w1) as [fl2 w2] eqn:Hp2. apply pop_fault_books in Hp2 as [Hp2 _].
    destruct fl2; (etrans; [exact Hp|]); try (by etrans). unfold books_kept in *. simpl in *. destruct_and!. split_and!; congruence.
  - etrans; [exact Hp|]. unfold books_kept in *. simpl in *. destruct_and!. split_and!; congruence.
Qed.

Lemma Expirer_respects : respects winv (acts G) (Expirer_RunOnce inv).
Proof.
  unfold Expirer_RunOnce. destruct (negb _); [done|]. apply respects_bind; [apply sys_tx; [apply expire_refines|apply expire_tame]|].
  intros [[|o l]|e]; [done| |done]. apply respects_bind; [|done]. unfold discard.
  apply respects_bind; [apply sys_frame, releaseExpired_frame|done].
Qed.
End inventory.

(** ** The relay *)

Section relay.

(** The records [rs] were tried: [ks] of them reached the log. *)
Definition sent (rs ks : list KRecord) w w' : Prop :=
  klog w' = klog w ++ ks /\ (forall k, k ∈ ks -> k ∈ rs) /\
  pg w' = pg w /\ outbox_seq w' = outbox_seq w /\ gateway w' = gateway w /\ pg_now w' = pg_now w.

Lemma produce_sent r w :
  exists ks, sent [r] ks w (produce r w).2 /\ (is_ok (produce r w).1 -> ks = [r]).
Proof.
  unfold produce, call. destruct (pop_fault w) as [fl w0] eqn:Hp. apply pop_fault_books in Hp as [(P0 & Q0 & G0 & K0 & N0) _].
  unfold sent. destruct fl; simpl.
  - exists [r]. by rewrite K0.
  - exists []. rewrite K0, app_nil_r. split_and!; try done. intros k Hk. by apply not_elem_of_nil in Hk.
  - exists [r]. rewrite K0. by split_and!.
Qed.

Lemma ProduceSync_sent rs w :
  exists ks, sent rs ks w (ProduceSync rs w).2 /\ (is_ok (ProduceSync rs w).1 -> ks = rs).
Proof.
  revert w. induction rs as [|r rs IH]; intros w; cbn [ProduceSync].
  { exists []. unfold sent. simpl. rewrite app_nil_r. by split_and!. }
  unfold mcatch. destruct (produce_sent r w) as (k1 & (A1 & A2 & A3 & A4 & A5 & A6) & Ak). destruct (produce r w) as [x w1].
  destruct (IH w1) as (k2 & (B1 & B2 & B3 & B4 & B5 & B6) & Bk). destruct (ProduceSync rs w1) as [y w2]. cbn [fst snd] in *.
  exists (k1 ++ k2). split.
  - assert (sent (r :: rs) (k1 ++ k2) w w2) as Hs.
    { unfold sent. rewrite B1, A1, app_assoc. split_and!; try congruence. intros k Hk.
      apply elem_of_app in Hk as [Hk|Hk]; [apply A2, list_elem_of_singleton in Hk as ->; constructor|]. constructor. by apply B2. }
    destruct x, y; done.
  - destruct x; [|by intros []]. destruct y; [|by intros []]. intros _. by rewrite Ak, Bk.
Qed.

Lemma LockUnpublished_spec n skip now d l d' :
  LockUnpublished n skip now d = Ok (l, d') ->
  d' = d /\ forall kv, kv ∈ l -> outbox d !! kv.1 = Some kv.2 /\ ob_PublishedAt kv.2 = None.
Proof.
  unfold LockUnpublished. set (k := merge_sort _ _). intros [= <- <-]. split; [done|]. intros [id r] Hin.
  assert ((id, r) ∈ k) as Hk by (rewrite <- (take_drop n k); apply elem_of_app; by left).
  subst k. rewrite merge_sort_Permutation in Hk. apply elem_of_map_to_list, map_lookup_filter_Some in Hk as [Ho [Hpub _]]. done.
Qed.

(** Whatever fails in a run of the relay: the rows it read, the records it got
    into the log, and, if it succeeds, all of them in the log and marked. *)
Lemma RunOnce_tx_spec skip w :
  exists l ks, let w' := (RunOnce_tx skip w).2 in
    (forall kv, kv ∈ l -> outbox (pg w) !! kv.1 = Some kv.2 /\ ob_PublishedAt kv.2 = None) /\
    klog w' = klog w ++ ks /\ (forall k, k ∈ ks -> k ∈ record_of <$> l) /\
    gateway w' = gateway w /\ outbox_seq w' = outbox_seq w /\
    (is_ok (RunOnce_tx skip w).1 ->
     (forall kv, kv ∈ l -> record_of kv ∈ klog w') /\
     (pg w' = pg w \/ exists now, pg w' = set_outbox (mark_all now l.*1 (outbox (pg w))) (pg w))).
Proof.
  unfold RunOnce_tx, mbind. pose proof (stmt_cases (LockUnpublished RelayBatchSize skip) w) as (Q1 & K1 & G1 & P1).
  destruct (stmt (LockUnpublished RelayBatchSize skip) w) as [[l|e] w1] eqn:Hl; cbn [fst snd] in *.
  2:{ exists [], []. simpl. rewrite app_nil_r. split_and!; try done; intros k Hk; by apply not_elem_of_nil in Hk. }
  apply stmt_step in Hl as [Hl _]. apply LockUnpublished_spec in Hl as [P1' Hl]. clear P1.
  destruct l as [|x l'].
  { exists [], []. simpl. rewrite app_nil_r. split_and!; try done; try (intros k Hk; by apply not_elem_of_nil in Hk).
    intros _. split; [intros k Hk; by apply not_elem_of_nil in Hk|by left]. }
  set (l := x :: l') in *. destruct (ProduceSync_sent (record_of <$> l) w1) as (ks & (A1 & A2 & A3 & A4 & A5 & A6) & Ak).
  exists l, ks. destruct (ProduceSync (record_of <$> l) w1) as [[[]|e] w2]; cbn [fst snd] in *.
  2:{ by split_and!; try congruence. }
  pose proof (stmt_cases (MarkPublished l.*1) w2) as (Q3 & K3 & G3 & P3).
  destruct (stmt (MarkPublished l.*1) w2) as [[u|e] w3]; unfold mret; cbn [fst snd] in *; (split_and!; try done; try congruence).
  intros _. split.
  - intros kv Hkv. simpl. rewrite K3, A1, Ak by done. apply elem_of_app. right. by apply list_elem_of_fmap_2.
  - simpl. rewrite <- P1', <- A3. destruct P3 as [P3|(a & P3)]; [by left|right].
    unfold MarkPublished in P3. injection P3 as _ P3. by exists (pg_now w2).
Qed.

Lemma Relay_step skip w : winv w -> acts G w (BeginFunc (RunOnce_tx skip) w).2.
Proof.
  intros Hw. unfold BeginFunc, Transaction. destruct (pop_fault w) as [fl w0] eqn:Hp.
  apply pop_fault_books in Hp as [(P0 & Q0 & G0 & K0 & N0) _].
  assert (acts G w w0) as Hidle by (apply ws_other; congruence || lia). destruct fl; [|done..].
  destruct (RunOnce_tx_spec skip w0) as (l & ks & Hl & Hk & Hks & Hg & Hq & Hok). rewrite P0 in Hl.
  destruct (RunOnce_tx skip w0) as [[n|e] w1]; cbn [fst snd] in *.
  2:{ eapply (ws_relay _ _ _ l ks); try done; simpl; try congruence. by left. }
  destruct (Hok I) as [Hall Hmark].
  destruct (pop_fault w1) as [fl2 w2] eqn:Hp2. apply pop_fault_books in Hp2 as [(P2 & Q2 & G2 & K2 & N2) _].
  assert (acts G w w2) as Hdone.
  { eapply (ws_relay _ _ _ l ks); try done; try congruence. destruct Hmark as [Hm|[now Hm]]; [left; congruence|].
    right. split; [intros kv Hkv; rewrite K2; by apply Hall|]. exists now. congruence. }
  destruct fl2; try done. eapply (ws_relay _ _ _ l ks); try done; simpl; try congruence. by left.
Qed.

Lemma Relay_respects skip : respects winv (acts G) (Relay_RunOnce skip).
Proof. apply respects_act. intros w Hw. pose proof (Relay_step skip w Hw) as Hs. split; [by eapply world_step_ok|done]. Qed.

Lemma old_rows_spec ret n now d kv :
  kv ∈ old_rows ret n now d -> outbox d !! kv.1 = Some kv.2 /\ is_Some (ob_PublishedAt kv.2).
Proof.
  unfold old_rows. set (k := merge_sort _ _). intros Hin. destruct kv as [id r].
  assert ((id, r) ∈ k) as Hk by (rewrite <- (take_drop n k); apply elem_of_app; by left).
  subst k. rewrite merge_sort_Permutation in Hk. apply elem_of_map_to_list, map_lookup_filter_Some in Hk as [Ho Hpub].
  split; [done|]. unfold published_before in Hpub. simpl in *. by destruct (ob_PublishedAt r).
Qed.

Lemma Cleanup_respects fuel total : respects winv (acts G) (cleanup_loop (R := R) fuel total).
Proof.
  revert total. induction fuel as [|fuel IH]; intros total; [done|]. cbn [cleanup_loop].
  apply respects_bind; [apply respects_act; intros w Hw|intros [n|e]; [|done]; cbn zeta; destruct (_ <? _)%nat; [done|apply IH]].
  pose proof (stmt_cases (DeletePublishedBefore Retention cleanupMaxBatch) w) as (Q1 & K1 & G1 & P1).
  set (w' := (stmt _ w).2) in *.
  assert (acts G w w') as Hs.
  { destruct P1 as [P1|(a & P1)]; [apply ws_other; congruence || lia|].
    unfold DeletePublishedBefore in P1. cbn zeta in P1. injection P1 as _ P1.
    eapply (ws_cleanup _ _ _ (old_rows Retention cleanupMaxBatch (pg_now w) (pg w))); try done. apply old_rows_spec. }
  split; [by eapply world_step_ok|done].
Qed.
End relay.

(** ** The refunder *)

(** One call: the gateway is asked at most for what the row of [txn] says, and
    a call that succeeds finds it paid back. *)
Lemma Gateway_Refund_step txn f w :
  G txn -> refunds (pg w) !! txn = Some f -> winv w ->
  let r := Gateway_Refund (request_of txn f) w in
  acts G w r.2 /\ (is_ok r.1 -> has_paid txn (gateway r.2)).
Proof.
  intros HG Hf Hw. unfold Gateway_Refund, call. destruct (pop_fault w) as [fl w0] eqn:Hp.
  apply pop_fault_books in Hp as [(P0 & Q0 & G0 & K0 & N0) _].
  assert (acts G w w0) as Hidle by (apply ws_other; congruence || lia).
  assert (acts G w (set_gateway (handleRefund (request_of txn f) (gateway w0)).2 w0)) as Hstep.
  { eapply (ws_gateway _ _ _ txn f); simpl; rewrite ?G0; done. }
  destruct (handleRefund_logged (request_of txn f) (gateway w0)) as (_ & Hpaid & _); [rewrite G0; apply Hw|].
  destruct (handleRefund (request_of txn f) (gateway w0)) as [[] g]; cbn [fst snd] in *.
  - destruct fl; simpl; (split; [done|]); intros Hok; try done; by apply Hpaid.
  - by destruct fl; simpl; (split; [done|]); intros Hok.
Qed.

Lemma Process_safe txn w : G txn -> safe winv (acts G) progress (Process txn) w.
Proof.
  intros HG.   unfold Process, act. cbn [pbind safe]. intros w1 Hw1 _.
  pose proof (stmt_cases (GetRefund txn) w1) as (Q1 & K1 & G1 & P1).
  assert (forall now d a d', GetRefund txn now d = Ok (a, d') -> d' = d /\ refunds d !! txn = Some a) as Hget.
  { unfold GetRefund, select, no_rows. intros now d a d' Hq. case_match; naive_solver. }
  destruct (stmt (GetRefund txn) w1) as [[f|e] w2] eqn:Hs; cbn [fst snd] in *.
  2:{ split; [|by repeat case_match]. destruct P1 as [P1|(a & P1)]; [|apply Hget in P1 as [P1 _]]; apply ws_other; congruence || lia. }
  apply stmt_step in Hs as [Hs _]. apply Hget in Hs as [P2 Hf]. split; [apply ws_other; congruence || lia|].
  case_bool_decide; [done|]. intros w3 Hw3 H23.
  rewrite <- P2 in Hf. destruct (ev_refunds _ _ (pr_books _ _ H23) txn f Hf) as (f3 & Hf3 & (E1 & E2 & _)).
  assert (mkRefundRequest (f_OrderID f) txn (f_AmountVnd f) = request_of txn f3) as -> by (unfold request_of; by rewrite E1, E2).
  destruct (Gateway_Refund_step txn f3 w3 HG Hf3 Hw3) as [Hstep Hok].
  destruct (Gateway_Refund (request_of txn f3) w3) as [[[]|e] w4]; cbn [fst snd] in *; [|done]. split; [done|].
  intros w5 Hw5 H45. split; [|done].
  apply (ws_books _ _ _ (eq txn)).
  - apply tx_books_move; [apply complete_refines|apply complete_tame|apply Hw5..].
  - intros t <-. by apply (paid_progress _ _ _ H45), Hok.
Qed.

(** ** Everything that runs *)

Inductive Handler : prog (World R) unit -> Prop :=
| h_Create s userID key req : Framed s -> Handler (discard (Create s userID key req))
| h_CreateAdmitted s userID key req adm : Framed s -> Handler (discard (CreateAdmitted s userID key req adm))
| h_Get userID id : Handler (discard (Get userID id))
| h_Cancel s userID id : Framed s -> Handler (discard (Cancel s userID id))
| h_ApplyPayment inv p : InventoryFrame inv -> Validate p = None -> Handler (discard (ApplyPayment inv p))
| h_Process txn : Handler (discard (Process txn))
| h_Issue secret id : Handler (discard (Issue secret id))
| h_Tickets userID id : Handler (discard (Tickets userID id))
| h_Expirer inv : InventoryFrame inv -> Handler (discard (Expirer_RunOnce inv))
| h_Relay skip : Handler (discard (Relay_RunOnce skip))
| h_Cleanup fuel : Handler (discard (Cleanup fuel))
| h_other p : keeps_books p -> Handler p.

(** What happens outside the handlers: clocks, Redis, seat holds, locks,
    caches, randomness and the faults to come may change in any way; buyers
    register and complete payments at the gateway; and the gateway may be
    restarted, which empties its memory. *)
Definition environment w w' : Prop :=
  pg w' = pg w /\ outbox_seq w' = outbox_seq w /\ klog w' = klog w /\
  (gw_ledger (gateway w') = gw_ledger (gateway w) \/ gw_ledger (gateway w') = gw_ledger (gateway_restart (gateway w))).

Lemma environment_step w w' : winv w -> environment w w' -> acts G w w'.
Proof. intros _ (H1 & H2 & H3 & [H4|H4]); [apply ws_other|apply ws_restart]; congruence || lia. Qed.

Lemma discard_respects {A} (p : prog (World R) A) : respects winv (acts G) p -> respects winv (acts G) (discard p).
Proof. intros Hp. unfold discard. by apply respects_bind. Qed.

Lemma safe_discard {A} (p : prog (World R) A) w :
  safe winv (acts G) progress p w -> safe winv (acts G) progress (discard p) w.
Proof.
  unfold discard. revert w. induction p as [a|X f k IH]; intros w Hp; [done|].
  intros w' Hi Hw'. destruct (Hp w' Hi Hw') as [Hs Hk]. split; [done|]. by apply IH.
Qed.

(** Every handler but [Process] leaves the gateway's refunds alone. *)
Lemma handler_safe p w : Handler p -> (exists txn, p = discard (Process txn)) \/ safe winv (acts G) progress p w.
Proof.
  intros Hp. destruct Hp; try (left; by eexists); right; apply respects_safe; try apply discard_respects.
  - by apply Create_respects.
  - by apply CreateAdmitted_respects.
  - apply sys_frame, Get_frame.
  - by apply Cancel_respects.
  - by apply ApplyPayment_respects.
  - apply Issue_respects.
  - apply sys_frame, Tickets_frame.
  - by apply Expirer_respects.
  - apply Relay_respects.
  - apply Cleanup_respects.
  - by apply sys_frame.
Qed.

End system.

(** One atomic action of the whole system. *)
Notation world_step := (acts (fun _ => True)).

(** ** Reachable worlds *)

Section reachable.
Context {R : Type} `{UuidLib}.
Implicit Types w : World R.

Definition reaches (c c' : list (prog (World R) unit) * World R) : Prop := rtc (sys_step Handler environment) c c'.

#[global] Instance reaches_preorder : PreOrder reaches.
Proof. split; [intros c; constructor|intros c1 c2 c3; unfold reaches; by etrans]. Qed.

(** Before the first order: the catalog may be there, nothing else. *)
Definition fresh w : Prop :=
  orders (pg w) = ∅ /\ order_seats (pg w) = ∅ /\ payments (pg w) = ∅ /\ refunds (pg w) = ∅ /\ tickets (pg w) = ∅ /\
  outbox (pg w) = ∅ /\ gw_refunds (gateway w) = ∅ /\ gw_log (gateway w) = [].

Lemma fresh_winv w : fresh w -> winv w.
Proof.
  intros (H1 & H2 & H3 & H4 & H5 & H6 & H7 & H8). split.
  - split; unfold status_at; rewrite ?H1, ?H2, ?H3, ?H4, ?H5; intros; try done; try (by destruct H0).
  - intros id. simpl. rewrite H6. by intros [].
  - intros id r. by rewrite H6.
  - split; rewrite H8; [done|]. by intros [].
  - intros q repeat. rewrite H8. by intros Hq%not_elem_of_nil.
  - intros txn f. by rewrite H4.
Qed.

Let ok (c : list (prog (World R) unit) * World R) :=
  Forall (fun p => safe winv world_step progress p c.2) c.1 /\ winv c.2.

Lemma handler_world_safe p w : Handler p -> safe winv world_step progress p w.
Proof. intros [[txn ->]|Hs]%(handler_safe (G := fun _ => True) p w); [by apply safe_discard, Process_safe|done]. Qed.

Lemma reaches_ok c c' : reaches c c' -> ok c -> ok c' /\ progress c.2 c'.2.
Proof.
  apply sys_steps_ok; [apply _|apply world_step_ok|apply world_step_refl|apply environment_step|].
  apply handler_world_safe.
Qed.

Lemma step_ok c c' : sys_step Handler environment c c' -> ok c -> world_step c.2 c'.2.
Proof.
  intros Hs Hok. eapply (sys_step_ok winv world_step progress); [..|exact Hs|exact Hok];
    [apply world_step_ok|apply world_step_refl|apply environment_step|apply handler_world_safe].
Qed.

Lemma fresh_ok w : fresh w -> ok ([], w).
Proof. intros Hw. split; [constructor|by apply fresh_winv]. Qed.

Lemma reachable_winv w c : fresh w -> reaches ([], w) c -> winv c.2.
Proof. intros Hw Hr. apply (reaches_ok _ _ Hr), fresh_ok, Hw. Qed.

Lemma reachable_step w c c' : fresh w -> reaches ([], w) c -> sys_step Handler environment c c' -> winv c.2 /\ world_step c.2 c'.2.
Proof.
  intros Hw Hr Hs. destruct (reaches_ok _ _ Hr (fresh_ok _ Hw)) as [Hok _]. split; [apply Hok|by apply step_ok].
Qed.

Lemma reachable_progress w c c' : fresh w -> reaches ([], w) c -> reaches c c' -> winv c'.2 /\ progress c.2 c'.2.
Proof.
  intros Hw Hr Hr'. destruct (reaches_ok _ _ Hr (fresh_ok _ Hw)) as [Hok _].
  destruct (reaches_ok _ _ Hr' Hok) as [Hok' Hp]. split; [apply Hok'|done].
Qed.

(** ** Refunds that are done

    Once the row of a refund is SUCCEEDED and no handler is under way, the
    gateway is not asked for that refund again, restarted or not. *)
Section done.
Context (txn : string).

Definition refund_over w : Prop := winv w /\ exists f, refunds (pg w) !! txn = Some f /\ f_Status f = RefundSucceeded.
Definition asked_no_more w w' : Prop :=
  progress w w' /\ filter (about_refund txn) (gw_log (gateway w')) = filter (about_refund txn) (gw_log (gateway w)).

#[local] Instance asked_no_more_preorder : PreOrder asked_no_more.
Proof. split; [by split|]. intros w1 w2 w3 [A1 A2] [B1 B2]. split; [by etrans|congruence]. Qed.

Lemma others_ask w w' : refund_over w -> acts (.≠ txn) w w' -> refund_over w' /\ asked_no_more w w'.
Proof.
  intros [Hw (f & Hf & Hst)] Hs. destruct (world_step_ok w w' Hw Hs) as [Hw' Hp]. split; [split; [done|]|split; [done|]].
  { destruct (ev_refunds _ _ (pr_books _ _ Hp) txn f Hf) as (g & Hg & (_ & _ & _ & Hk)). exists g. split; [done|]. destruct Hk as [-> |Hk]; [done|by rewrite Hst in Hk]. }
  destruct Hs as [C (_ & Hg & _) _|_ _ _ [= _ ->]|_ _ _ [= _ ->]|l ks _ _ _ -> _ _|l _ _ _ -> _|t g Ht _ _ _ _ [= _ ->]].
  - by rewrite Hg.
  - done.
  - rewrite filter_app. by rewrite app_nil_r.
  - done.
  - done.
  - destruct (handleRefund_logged (request_of t g) (gateway w)) as (_ & _ & new & -> & Hnew); [apply Hw|].
    rewrite filter_app, (filter_none _ new); [by rewrite app_nil_r|]. apply Forall_forall. intros [|r|r b] Hin; try (by intros []).
    cbn. by rewrite (Hnew r b Hin).
Qed.

Lemma Process_again w : safe refund_over (acts (.≠ txn)) asked_no_more (Process txn) w.
Proof.
  unfold Process, act. cbn [pbind safe]. intros w1 [Hw1 (f & Hf & Hst)] _.
  pose proof (keeps_books_run _ w1 (read_frame (GetRefund txn) (fun now d a d' => ltac:(unfold GetRefund, select, no_rows; case_match; naive_solver)))) as Hb.
  rewrite run_act in Hb. destruct Hb as (P & Q & Hg & K & _).
  destruct (stmt (GetRefund txn) w1) as [[g|e] w2] eqn:Hs; cbn [fst snd] in *; (split; [apply ws_other; congruence || lia|]); [|by repeat case_match].
  apply stmt_step in Hs as [Hs _]. unfold GetRefund, select, no_rows in Hs. rewrite Hf in Hs. injection Hs as <- _. by rewrite bool_decide_eq_true_2.
Qed.

Lemma refund_asked_no_more w c c' f :
  fresh w -> reaches ([], w) c -> c.1 = [] -> refunds (pg c.2) !! txn = Some f -> f_Status f = RefundSucceeded -> reaches c c' ->
  asked_no_more c.2 c'.2.
Proof.
  intros Hw Hr Hc Hf Hst Hr'.
  apply (sys_steps_ok refund_over (acts (.≠ txn)) asked_no_more Handler environment) with (c := c) (c' := c').
  - apply others_ask.
  - intros v. apply world_step_refl.
  - intros v v' [Hv _]. by apply environment_step.
  - intros p v [[t ->]|Hs]%(handler_safe (G := (.≠ txn)) p v).
    + unfold discard. apply safe_bind; [|done]. destruct (decide (t = txn)) as [->|Hne]; [apply Process_again|].
      eapply safe_mono; [..|by apply (Process_safe (G := (.≠ txn)) t v Hne)]; [by intros ? []|done|by intros ?? []].
    + eapply safe_mono; [..|exact Hs]; [by intros ? []|done|by intros ?? []].
  - done.
  - split; [rewrite Hc; constructor|]. split; [by eapply reachable_winv|eauto].
Qed.
End done.
End reachable.
