(* ===== verification/Guarantees.v ===== *)
(** * What the system guarantees

    The theorems about every reachable world: whatever requests arrive, however
    their calls interleave, fail or are cut off by crashes. *)

From S2P Require Import Prelude GoLib Effects OrderState World Frame OrderDB Inventory Outbox Payment.
From S2P Require Import OrderService OrderPayment OrderRefund OrderBooks OrderRefine System.

(** ** Money *)

Definition sum_amounts (m : gmap string Z) : Z := map_fold (fun _ x acc => x + acc) 0 m.

(** The succeeded payments of an order, and its refunds. *)
Definition paid_in (d : PG) (id : UUID) : gmap string Z :=
  omap (fun p => if decide (p_OrderID p = id /\ p_Status p = StatusSucceeded) then Some (p_AmountVnd p) else None) (payments d).
Definition refunds_of (d : PG) (id : UUID) : gmap string Z :=
  omap (fun f => if decide (f_OrderID f = id) then Some (f_AmountVnd f) else None) (refunds d).

Lemma sum_amounts_insert m k x : m !! k = None -> sum_amounts (<[k := x]> m) = x + sum_amounts m.
Proof. intros Hk. unfold sum_amounts. apply map_fold_insert_L; [|done]. intros; lia. Qed.

Lemma paid_in_Some d id txn x :
  paid_in d id !! txn = Some x <->
  exists p, payments d !! txn = Some p /\ p_OrderID p = id /\ p_Status p = StatusSucceeded /\ p_AmountVnd p = x.
Proof.
  unfold paid_in. rewrite lookup_omap. destruct (payments d !! txn) as [p|]; simpl; [|naive_solver].
  case_decide; naive_solver.
Qed.

Lemma refunds_of_Some d id txn x :
  refunds_of d id !! txn = Some x <-> exists f, refunds d !! txn = Some f /\ f_OrderID f = id /\ f_AmountVnd f = x.
Proof.
  unfold refunds_of. rewrite lookup_omap. destruct (refunds d !! txn) as [f|]; simpl; [|naive_solver].
  case_decide; naive_solver.
Qed.

(** A refund is a succeeded payment of its order, of the same amount. *)
Lemma refund_is_payment d id txn x : books_ok d -> refunds_of d id !! txn = Some x -> paid_in d id !! txn = Some x.
Proof.
  intros Hok Hf. apply refunds_of_Some in Hf as (f & Hf & <- & <-).
  destruct (ok_refund d Hok txn f Hf) as (p & st & Hp & Hoc & Hid & Ham & _). apply paid_in_Some. exists p. split_and!; try done.
  destruct (ok_payment d Hok txn p Hp) as (st' & _ & Hps & _). unfold payment_state in Hps. rewrite Hoc in Hps. apply Hps.
Qed.

(** A succeeded payment without a refund is the one applied to its order. *)
Lemma unrefunded_applied d id txn x :
  books_ok d -> paid_in d id !! txn = Some x -> refunds_of d id !! txn = None ->
  exists p r, payments d !! txn = Some p /\ is_applied p /\ p_OrderID p = id /\ orders d !! id = Some r /\
    is_sold (r_Status r) = true /\ x = r_TotalVnd r.
Proof.
  intros Hok Hp Hn. apply paid_in_Some in Hp as (p & Hp & Hid & Hst & <-).
  destruct (ok_payment d Hok txn p Hp) as (st & Hstat & Hps & _). unfold payment_state in Hps. rewrite Hid in Hstat.
  destruct (status_at_orders d id st Hstat) as (r & Hr & <-). destruct (p_Outcome p) as [[]|] eqn:Hoc; try done.
  - exists p, r. destruct Hps as (_ & _ & Ht & Hs). split_and!; try done. unfold total_at in Ht. rewrite Hid, Hr in Ht. by injection Ht.
  - destruct Hps as (_ & _ & [f Hf]). destruct (ok_refund d Hok txn f Hf) as (p' & _ & Hp' & _ & Hid' & _).
    assert (p' = p) as -> by congruence. assert (refunds_of d id !! txn = Some (f_AmountVnd f)) as Hx; [|congruence].
    apply refunds_of_Some. exists f. split_and!; congruence.
  - rewrite Hst in Hps. done.
Qed.

Lemma books_balance d id r :
  books_ok d -> orders d !! id = Some r ->
  sum_amounts (paid_in d id) = (if is_sold (r_Status r) then r_TotalVnd r else 0) + sum_amounts (refunds_of d id).
Proof.
  intros Hok Hr. pose proof (status_at_Some d id r Hr) as Hst. destruct (is_sold (r_Status r)) eqn:Hs.
  - destruct (proj1 (ok_settled d Hok id _ Hst) Hs) as (txn & p & Hp & Hid & Ha).
    destruct (ok_payment d Hok txn p Hp) as (st & _ & Hps & _). unfold payment_state in Hps. rewrite Ha in Hps.
    destruct Hps as (Hsucc & _ & Htot & _). unfold total_at in Htot. rewrite Hid, Hr in Htot. injection Htot as Htot.
    assert (refunds_of d id !! txn = None) as Hn.
    { destruct (refunds_of d id !! txn) as [x|] eqn:Hx; [|done]. apply refunds_of_Some in Hx as (f & Hf & _).
      destruct (ok_refund d Hok txn f Hf) as (p' & _ & Hp' & Hoc & _). assert (p' = p) as -> by congruence.
      unfold is_applied in Ha. congruence. }
    rewrite <- (sum_amounts_insert _ txn) by done. f_equal. apply map_eq. intros t. destruct (decide (t = txn)) as [->|Hne].
    + rewrite lookup_insert_eq. apply paid_in_Some. by exists p.
    + rewrite lookup_insert_ne by done. destruct (refunds_of d id !! t) as [x|] eqn:Hx; [by apply refund_is_payment|].
      destruct (paid_in d id !! t) as [x|] eqn:Hpx; [|done].
      destruct (unrefunded_applied d id t x Hok Hpx Hx) as (p' & r' & Hp' & Ha' & Hid' & _). destruct Hne.
      apply (ok_applied d Hok t txn p' p); congruence.
  - rewrite Z.add_0_l. f_equal. apply map_eq. intros t. destruct (refunds_of d id !! t) as [x|] eqn:Hx; [by apply refund_is_payment|].
    destruct (paid_in d id !! t) as [x|] eqn:Hpx; [|done].
    destruct (unrefunded_applied d id t x Hok Hpx Hx) as (p' & r' & _ & _ & _ & Hr' & Hs' & _). congruence.
Qed.

(** ** Messages *)

(** Along ledger steps, a status that changed has its message: numbered from
    the first free number on, about the order, of the type of the status. *)
Lemma ledger_steps_announced `{UuidLib} C now x y id q :
  rtc (ledger_step C now) x y -> outbox_below x -> orders y.2 !! id = Some q ->
  orders x.2 !! id = Some q \/
  exists n m, x.1 <= n < y.1 /\ outbox y.2 !! n = Some m /\ ob_EventType m = event_type_of (r_Status q) /\
    ob_MsgKey m = uuid_String id /\ ev_OrderID (ob_Payload m) = id /\ ob_PublishedAt m = None.
Proof.
  intros Hs Hb Hq. revert Hq. induction Hs as [x|x y z Hxy Hyz IH]; intros Hq; [by left|].
  destruct (ledger_steps_outbox _ _ _ _ (rtc_once _ _ Hxy) Hb) as (Hxy1 & _ & _).
  assert (outbox_below y) as Hby.
  { destruct Hxy as (e & d1 & Hs & He). apply book_step_outbox in Hs. intros i. destruct e as [a|].
    - destruct He as (_ & m & _ & _ & ->). simpl. rewrite Hs, lookup_insert_is_Some'. intros [<-|Hi]; [lia|].
      specialize (Hb i Hi). simpl in Hb. lia.
    - subst y. simpl. rewrite Hs. apply Hb. }
  destruct (ledger_steps_outbox _ _ _ _ Hyz Hby) as (Hyz1 & Hkeep & _).
  destruct (IH Hby Hq) as [Hy|(n & m & Hn & Hrest)]; [|right; exists n, m; split; [lia|done]].
  destruct Hxy as (e & d1 & Hs & He).
  assert (Hann : announced e id (r_Status q) -> exists n m, x.1 <= n < z.1 /\ outbox z.2 !! n = Some m /\
    ob_EventType m = event_type_of (r_Status q) /\ ob_MsgKey m = uuid_String id /\ ev_OrderID (ob_Payload m) = id /\ ob_PublishedAt m = None).
  { intros (a & -> & Ha & Ht). destruct He as (_ & m & (M1 & M2 & M3 & M4 & M5) & Hn & ->).
    exists x.1, (outbox_row x.1 now m). simpl in Hyz1. split; [lia|]. split; [apply Hkeep; simpl; by rewrite lookup_insert_eq|].
    simpl. split_and!; congruence. }
  assert (orders d1 !! id = Some q) as Hd1.
  { destruct e; [destruct He as (_ & m & _ & _ & ->)|subst y]; done. }
  destruct (orders x.2 !! id) as [r|] eqn:Hr.
  - destruct (book_step_order _ _ _ _ _ _ Hs Hr) as (q' & Hq' & _ & Hcase). assert (q' = q) as -> by congruence.
    destruct Hcase as [->|[_ Ha]]; [by left|right; by apply Hann].
  - destruct (book_step_new _ _ _ _ _ _ Hs Hr Hd1) as [Hst Ha]. right. apply Hann. by rewrite Hst.
Qed.

(** ** The guarantees *)

Section guarantees.
Context {R : Type} `{UuidLib}.
Implicit Types (w : World R) (c : list (prog (World R) unit) * World R).

(** C1. No seat is ever sold twice. In every reachable world, at most one
    ticket names a seat of an event; a ticket belongs to a PAID or TICKETED
    order of that event that holds the seat; and every seat of such an order
    has its ticket. *)
Theorem no_seat_sold_twice w c (Hfresh : fresh w) (Hreach : reaches ([], w) c) :
  let d := pg c.2 in
  (forall i j t u, tickets d !! i = Some t -> tickets d !! j = Some u ->
     t_EventID t = t_EventID u -> t_SeatID t = t_SeatID u -> i = j) /\
  (forall i t, tickets d !! i = Some t ->
     exists r, orders d !! t_OrderID t = Some r /\ is_sold (r_Status r) = true /\
       r_EventID r = t_EventID t /\ has_seat d (t_OrderID t) (t_SeatID t)) /\
  (forall id r s, orders d !! id = Some r -> is_sold (r_Status r) = true -> has_seat d id s ->
     exists i t, tickets d !! i = Some t /\ t_OrderID t = id /\ t_SeatID t = s).
Proof.
  pose proof (wi_books _ (reachable_winv _ _ Hfresh Hreach)) as Hok. intros d. split_and!.
  - apply (ok_unique d Hok).
  - intros i t Ht. destruct (ok_ticket d Hok i t Ht) as (st & Hst & Hts & Hev & Hseat).
    destruct (status_at_orders d _ st Hst) as (r & Hr & <-). exists r. unfold event_at in Hev. rewrite Hr in Hev. injection Hev as Hev.
    split_and!; try done. by destruct Hts as [[-> _]|[-> _]].
  - intros id r s Hr Hs. apply (ok_sold d Hok id (r_Status r)); [by apply status_at_Some|done].
Qed.

(** C2. The money balances. In every reachable world, the succeeded payments
    of an order add up to the price of the seats, if it is sold, plus the
    refunds recorded for it; a sold order has been paid exactly once at its
    own price. *)
Theorem payments_balance w c (Hfresh : fresh w) (Hreach : reaches ([], w) c) :
  let d := pg c.2 in
  forall id r, orders d !! id = Some r ->
  sum_amounts (paid_in d id) = (if is_sold (r_Status r) then r_TotalVnd r else 0) + sum_amounts (refunds_of d id) /\
  r_TotalVnd r = sum64 (prices_of d id) /\
  (is_sold (r_Status r) = true -> exists! txn, exists p, payments d !! txn = Some p /\ p_OrderID p = id /\ is_applied p).
Proof.
  pose proof (wi_books _ (reachable_winv _ _ Hfresh Hreach)) as Hok. intros d id r Hr. split_and!.
  - by apply books_balance.
  - destruct (ok_total d Hok id ltac:(eauto)) as [_ Ht]. unfold total_at in Ht. rewrite Hr in Ht. by injection Ht.
  - intros Hs. destruct (proj1 (ok_settled d Hok id _ (status_at_Some d id r Hr)) Hs) as (txn & p & Hp & Hid & Ha).
    exists txn. split; [by exists p|]. intros txn' (p' & Hp' & Hid' & Ha'). apply (ok_applied d Hok txn txn' p p'); congruence.
Qed.

(** C6. In every reachable world a user has at most one order per idempotency
    key, and at most one HELD order per event. *)
Theorem one_order_per_key w c (Hfresh : fresh w) (Hreach : reaches ([], w) c) :
  let d := pg c.2 in
  forall i j r q, orders d !! i = Some r -> orders d !! j = Some q -> r_UserID r = r_UserID q ->
  (r_IdempotencyKey r = r_IdempotencyKey q \/
   r_Status r = StatusHeld /\ r_Status q = StatusHeld /\ r_EventID r = r_EventID q) -> i = j.
Proof.
  pose proof (wi_books _ (reachable_winv _ _ Hfresh Hreach)) as Hok. intros d i j r q Hi Hj Hu [Hk|(H1 & H2 & He)].
  - by apply (ok_key d Hok i j r q).
  - by apply (ok_held d Hok i j r q).
Qed.

(** C3. Every action of every handler changes an order only along the state
    machine, keeps its owner, event, total and key, and leaves in the same
    commit an unpublished outbox message that names the order and the type of
    its new status. A new order starts HELD, announced the same way. *)
Theorem status_changes_announced w c c' id q
  (Hfresh : fresh w) (Hreach : reaches ([], w) c) (Hstep : sys_step Handler environment c c')
  (Hq : orders (pg c'.2) !! id = Some q) :
  match orders (pg c.2) !! id with
  | Some r => same_order r q /\ rtc (fun a b => CanTransition a b = true) (r_Status r) (r_Status q)
  | None => True
  end /\
  (orders (pg c.2) !! id = Some q \/
   exists n m, outbox_seq c.2 <= n < outbox_seq c'.2 /\ outbox (pg c.2) !! n = None /\ outbox (pg c'.2) !! n = Some m /\
     ob_EventType m = event_type_of (r_Status q) /\ ob_MsgKey m = uuid_String id /\ ev_OrderID (ob_Payload m) = id /\
     ob_PublishedAt m = None).
Proof.
  destruct (reachable_step _ _ _ Hfresh Hreach Hstep) as [Hw Hs]. destruct (world_step_ok _ _ Hw Hs) as [_ Hpr]. split.
  - destruct (orders (pg c.2) !! id) as [r|] eqn:Hr; [|done].
    destruct (ev_orders _ _ (pr_books _ _ Hpr) id r Hr) as (q' & Hq' & Hso & Hst). assert (q' = q) as -> by congruence. done.
  - assert (Hsame : orders (pg c'.2) = orders (pg c.2) -> orders (pg c.2) !! id = Some q) by congruence.
    destruct Hs as [C (_ & _ & _ & [[Hp _]|Hl]) _|Hp|Hp|l ks _ _ _ _ _ [Hp|(_ & now & Hp)]|l _ Hp|txn f _ _ Hp];
      try (left; apply Hsame; by rewrite Hp).
    destruct (ledger_steps_announced _ _ _ _ id q Hl (wi_below _ Hw) Hq) as [?|(n & m & Hn & Hrest)]; [by left|right].
    exists n, m. split; [done|]. split; [|done]. simpl in Hn. destruct (outbox (pg c.2) !! n) eqn:Ho; [|done].
    assert (n < outbox_seq c.2) by (apply (wi_below _ Hw); simpl; eauto). lia.
Qed.

(** C4. No message is lost. Once a transaction has written a message into the
    outbox, in every later world it is still there, to be published, or its
    record is in the Kafka log; and a row marked as published is in the log. *)
Theorem outbox_never_lost w c c' (Hfresh : fresh w) (Hreach : reaches ([], w) c) (Hlater : reaches c c') :
  (forall id m, outbox (pg c.2) !! id = Some m ->
     (exists m', outbox (pg c'.2) !! id = Some m' /\ record_of (id, m') = record_of (id, m)) \/
     record_of (id, m) ∈ klog c'.2) /\
  (forall id m, outbox (pg c'.2) !! id = Some m -> is_Some (ob_PublishedAt m) -> record_of (id, m) ∈ klog c'.2) /\
  klog c.2 `prefix_of` klog c'.2.
Proof.
  destruct (reachable_progress _ _ _ Hfresh Hreach Hlater) as [Hw' Hpr]. split_and!.
  - apply (pr_outbox _ _ Hpr).
  - apply (wi_published _ Hw').
  - apply (pr_log _ _ Hpr).
Qed.

(** Nothing but committed messages reaches Kafka: a record an action adds
    to the log is the record of an outbox row that was in the tables before
    that action, not yet published. *)
Theorem log_only_outbox w c c' (Hfresh : fresh w) (Hreach : reaches ([], w) c) (Hstep : sys_step Handler environment c c') :
  exists ks, klog c'.2 = klog c.2 ++ ks /\
    forall k, k ∈ ks -> exists id m, outbox (pg c.2) !! id = Some m /\ ob_PublishedAt m = None /\ k = record_of (id, m).
Proof.
  destruct (reachable_step _ _ _ Hfresh Hreach Hstep) as [Hw Hs].
  assert (Hsame : klog c'.2 = klog c.2 -> exists ks, klog c'.2 = klog c.2 ++ ks /\
    forall k, k ∈ ks -> exists id m, outbox (pg c.2) !! id = Some m /\ ob_PublishedAt m = None /\ k = record_of (id, m)).
  { intros ->. exists []. rewrite app_nil_r. split; [done|]. intros k Hk. by apply not_elem_of_nil in Hk. }
  destruct Hs as [C (Hk & _) _|_ _ Hk _|_ _ Hk _|l ks Hl Hk Hks _ _ _|l _ _ Hk|txn f _ _ _ Hk]; try (by apply Hsame).
  exists ks. split; [done|]. intros k Hin. apply Hks, list_elem_of_fmap in Hin as ([id m] & -> & Hin).
  destruct (Hl _ Hin) as [Ho Hp]. by exists id, m.
Qed.

(** C5. Refunds, with a gateway that forgets everything when it is restarted.
    In every reachable world: the gateway was only ever asked for what a refund
    row says, and that is a succeeded payment of the order, of the same amount,
    which was not applied; one process of the gateway pays a transaction back
    at most once, so between two payments of the same refund the gateway was
    restarted; a refund marked SUCCEEDED has been paid back; and once it is
    marked and no handler is under way, the gateway is never asked for it
    again, restarted or not. What the gateway has logged stays logged. *)
Theorem refunds_paid_back_once w c c' (Hfresh : fresh w) (Hreach : reaches ([], w) c) (Hlater : reaches c c') :
  let log := gw_log (gateway c.2) in
  let log' := gw_log (gateway c'.2) in
  (forall q repeat, Refunded q repeat ∈ log ->
     exists p, payments (pg c.2) !! rq_ProviderTxnID q = Some p /\ p_Status p = StatusSucceeded /\ ~ is_applied p /\
       q = mkRefundRequest (p_OrderID p) (rq_ProviderTxnID q) (p_AmountVnd p)) /\
  (forall before q between q' after, log = before ++ Refunded q false :: between ++ Refunded q' false :: after ->
     rq_ProviderTxnID q = rq_ProviderTxnID q' -> GatewayStarted ∈ between) /\
  (forall txn f, refunds (pg c.2) !! txn = Some f -> f_Status f = RefundSucceeded ->
     Refunded (mkRefundRequest (f_OrderID f) txn (f_AmountVnd f)) false ∈ log /\
     (c.1 = [] -> filter (about_refund txn) log' = filter (about_refund txn) log)) /\
  log `prefix_of` log'.
Proof.
  destruct (reachable_progress _ _ _ Hfresh Hreach Hlater) as [_ Hpr].
  pose proof (reachable_winv _ _ Hfresh Hreach) as Hw. pose proof (wi_books _ Hw) as Hok. cbv zeta. split_and!.
  - intros q repeat Hq. destruct (wi_gateway _ Hw q repeat Hq) as (f & Hf & He).
    destruct (ok_refund _ Hok _ f Hf) as (p & st & Hp & Hoc & Hid & Ham & _). exists p.
    destruct (ok_payment _ Hok _ p Hp) as (st' & _ & Hps & _). unfold payment_state in Hps. rewrite Hoc in Hps.
    split_and!; [done|apply Hps|unfold is_applied; congruence|rewrite He at 1; unfold request_of; congruence].
  - intros before q between q' after. apply remembered_once, Hw.
  - intros txn f Hf Hst. split; [exact (winv_paid _ _ _ Hw Hf (wi_refunded _ Hw _ _ Hf Hst))|]. intros Hc.
    by apply (refund_asked_no_more txn w c c' f).
  - apply (pr_gateway _ _ Hpr).
Qed.

(** C7. Nothing is forgotten. From a reachable world on: orders stay, with
    their owner, event, total, key and deadline, and their status moves only
    along the state machine; the seats of an order, the recorded payments and
    their outcomes never change; a ticket keeps its order and seat, and an
    issued ticket never changes; a refund keeps its order, amount and reason,
    and a completed one never changes. *)
Theorem records_only_evolve w c c' (Hfresh : fresh w) (Hreach : reaches ([], w) c) (Hlater : reaches c c') :
  let d := pg c.2 in let d' := pg c'.2 in
  (forall id r, orders d !! id = Some r -> exists q, orders d' !! id = Some q /\ same_order r q /\
     rtc (fun a b => CanTransition a b = true) (r_Status r) (r_Status q)) /\
  (forall id s, is_Some (orders d !! id) -> order_seats d' !! (id, s) = order_seats d !! (id, s)) /\
  (forall txn p, payments d !! txn = Some p -> payments d' !! txn = Some p) /\
  (forall i t, tickets d !! i = Some t -> exists u, tickets d' !! i = Some u /\ ticket_kept t u) /\
  (forall txn f, refunds d !! txn = Some f -> exists g, refunds d' !! txn = Some g /\ refund_kept f g).
Proof.
  destruct (reachable_progress _ _ _ Hfresh Hreach Hlater) as [_ [[E1 E2 E3 E4 E5 E6] _ _ _ _]]. intros d d'. by split_and!.
Qed.
End guarantees.
