(* ===== verification/Flows.v ===== *)
(** * What each operation does when nothing fails

    The functional behaviour of the handlers, branch by branch: one handler
    run alone on a world whose next calls all succeed. *)

From S2P Require Import Prelude GoLib Effects Ticket OrderState World Frame OrderDB Inventory Outbox Payment.
From S2P Require Import OrderService OrderPayment OrderRefund OrderTickets OrderExpiry OrderBooks OrderRefine.
Local Open Scope tr_scope.

Section flows.
Context {R : Type} `{UuidLib}.
Implicit Types w : World R.

(** ** The shared steps *)

(** The next calls succeed and the next outbox number is free. *)
Definition calm w : Prop := faults w = [] /\ outbox_below (outbox_seq w, pg w).

(** The rows ListOrderSeats returns, and the order as the service shows it. *)
Definition seat_list (d : PG) (id : UUID) : list (string * Z) :=
  (fun kv => (kv.1, os_PriceVnd kv.2)) <$> seats_of (order_seats d) id.
Definition order_of (d : PG) (r : OrderRow) : Order := fromRow r (seat_list d (r_ID r)).

(** A world whose tables and outbox number changed. *)
Definition put (seq : Z) (d : PG) w : World R := set_pg d (set_outbox_seq seq w).

Definition event_message (topic ty : string) (ev : OrderEvent) : Message := mkMessage topic (uuid_String (ev_OrderID ev)) ty ev.

Lemma put_put s s' d d' w : put s d (put s' d' w) = put s d w.
Proof. done. Qed.

Lemma put_id w : put (outbox_seq w) (pg w) w = w.
Proof. by destruct w. Qed.

Lemma set_pg_put d w : set_pg d w = put (outbox_seq w) d w.
Proof. by destruct w. Qed.

Lemma mbind_eq {A B} (m : M R A) (k : A -> M R B) w a w1 : m w = (Ok a, w1) -> mbind m k w = k a w1.
Proof. unfold mbind. by intros ->. Qed.

Lemma mbind_err {A B} (m : M R A) (k : A -> M R B) w e w1 : m w = (Err e, w1) -> mbind m k w = (Err e, w1).
Proof. unfold mbind. by intros ->. Qed.

Lemma select_calm {A} (q : Z -> PG -> res GoErr (A * PG)) a w :
  faults w = [] -> q (pg_now w) (pg w) = Ok (a, pg w) -> stmt q w = (Ok a, w).
Proof. intros Hf Hq. by rewrite stmt_nofault, Hq, set_pg_id. Qed.

Lemma stmt_calm {A} (q : Z -> PG -> res GoErr (A * PG)) a d w :
  faults w = [] -> q (pg_now w) (pg w) = Ok (a, d) -> stmt q w = (Ok a, put (outbox_seq w) d w).
Proof. intros Hf Hq. by rewrite stmt_nofault, Hq, set_pg_put. Qed.

Lemma stmt_calm_err {A} (q : Z -> PG -> res GoErr (A * PG)) e w :
  faults w = [] -> q (pg_now w) (pg w) = Err e -> stmt q w = (Err e, w).
Proof. intros Hf Hq. by rewrite stmt_nofault, Hq. Qed.

Lemma ListOrderSeats_calm id w : faults w = [] -> stmt (ListOrderSeats id) w = (Ok (seat_list (pg w) id), w).
Proof. intros Hf. by apply select_calm. Qed.

Lemma GetOrderForUpdate_calm id w r :
  faults w = [] -> orders (pg w) !! id = Some r -> stmt (GetOrderForUpdate id) w = (Ok r, w).
Proof. intros Hf Hr. apply select_calm; [done|]. unfold GetOrderForUpdate. by rewrite Hr. Qed.

Lemma transition_calm id from to w r :
  faults w = [] -> CanTransition from to = true -> orders (pg w) !! id = Some r -> r_Status r = from ->
  transition id from to w = (Ok (set_status to (pg_now w) r), put (outbox_seq w) (move id to (pg_now w) r (pg w)) w).
Proof.
  intros Hf Hc Hr Hs. unfold transition. rewrite Hc. apply stmt_calm; [done|].
  unfold TransitionOrder. by rewrite Hr, bool_decide_eq_true_2.
Qed.

Lemma writeEvent_calm topic ty ev w :
  faults w = [] -> outbox (pg w) !! outbox_seq w = None ->
  writeEvent topic ty ev w =
    (Ok tt, put (outbox_seq w + 1) (log_row (outbox_seq w) (pg_now w) (event_message topic ty ev) (pg w)) w).
Proof.
  intros Hf Hn. unfold writeEvent. erewrite mbind_eq; [|by apply Write_nofault]. done.
Qed.

Lemma below_free w : outbox_below (outbox_seq w, pg w) -> outbox (pg w) !! outbox_seq w = None.
Proof.
  intros Hb. destruct (outbox (pg w) !! outbox_seq w) eqn:Ho; [|done].
  assert (outbox_seq w < outbox_seq w) by (apply Hb; simpl; eauto). lia.
Qed.

(** A committed transaction of a calm world. *)
Lemma BeginFunc_calm {A} (m : M R A) w a w' :
  faults w = [] -> m w = (Ok a, w') -> faults w' = [] -> BeginFunc m w = (Ok a, w').
Proof. intros Hf Hm Hf'. rewrite BeginFunc_nofault; [by rewrite Hm|done|by rewrite Hm]. Qed.

Lemma BeginFunc_calm_err {A} (m : M R A) w e : faults w = [] -> m w = (Err e, w) -> BeginFunc m w = (Err e, w).
Proof. intros Hf Hm. rewrite BeginFunc_nofault; [|done|by rewrite Hm]. rewrite Hm. simpl. by rewrite set_pg_id. Qed.

(** A failed transaction left the tables alone, unless its commit was lost. *)
Lemma BeginFunc_err {A} (m : M R A) w e w' : BeginFunc m w = (Err e, w') -> pg w' = pg w \/ e = EPg Infra.
Proof.
  unfold BeginFunc, Transaction. destruct (pop_fault w) as [fl w0] eqn:Hp. destruct (pop_fault_spec _ _ _ Hp) as (Hpg & _).
  destruct fl; [|intros [= <- <-]; by left..]. destruct (m w0) as [[a|e'] w1]; [|intros [= <- <-]; by left].
  destruct (pop_fault w1) as [fl2 w2]. destruct fl2; intros [= <- <-]; auto.
Qed.

(** ** Get and Cancel *)

Lemma Get_calm userID id w :
  faults w = [] ->
  run (Get userID id) w =
    (match orders (pg w) !! id with
     | Some r => if bool_decide (r_UserID r = userID) then Ok (fromRow r (seat_list (pg w) id)) else Err ErrNotFound
     | None => Err ErrNotFound
     end, w).
Proof.
  intros Hf. unfold Get. rewrite run_bind, run_act. destruct (orders (pg w) !! id) as [r|] eqn:Hr.
  - rewrite (select_calm (GetOrder id) r) by (first [done|unfold GetOrder; by rewrite Hr]). cbn [fst snd].
    case_bool_decide; cbn [negb]; [|done]. rewrite run_bind, run_act, ListOrderSeats_calm by done. done.
  - rewrite (stmt_calm_err (GetOrder id) (EPg NoRows)) by (first [done|unfold GetOrder; by rewrite Hr]). done.
Qed.

Definition cancelled_row w (r : OrderRow) : OrderRow := set_status StatusCancelled (pg_now w) r.

(** The world of a committed cancellation. *)
Definition after_cancel w (id : UUID) (r : OrderRow) : World R :=
  put (outbox_seq w + 1)
    (log_row (outbox_seq w) (pg_now w)
       (event_message TopicOrders OrderCancelled (orderEvent (order_of (pg w) (cancelled_row w r))))
       (move id StatusCancelled (pg_now w) r (pg w))) w.

Lemma Cancel_tx_held userID id r w :
  calm w -> orders (pg w) !! id = Some r -> r_ID r = id -> r_UserID r = userID -> r_Status r = StatusHeld ->
  Cancel_tx userID id w = (Ok (order_of (pg w) (cancelled_row w r), true), after_cancel w id r).
Proof.
  intros [Hf Hb] Hr Hid Hu Hs. unfold Cancel_tx. erewrite mbind_eq.
  2:{ unfold on_no_rows, mcatch. by rewrite (GetOrderForUpdate_calm id w r). }
  rewrite bool_decide_eq_true_2 by done. cbn [negb]. rewrite Hs. erewrite mbind_eq.
  2:{ erewrite mbind_eq; [|by apply transition_calm]. reflexivity. }
  cbv beta iota. erewrite mbind_eq; [|by apply ListOrderSeats_calm]. cbv zeta. unfold writeOrderEvent.
  erewrite mbind_eq; [|apply writeEvent_calm; [done|by apply below_free]]. unfold mret, after_cancel, order_of.
  cbn [r_ID cancelled_row set_status]. rewrite Hid. done.
Qed.

(** ** Issue *)

Lemma issue_all_calm secret l w :
  faults w = [] -> exists d, issue_all secret l w = (Ok tt, put (outbox_seq w) d w).
Proof.
  revert w. induction l as [|[i t] l IH]; intros w Hf; cbn [issue_all]; [exists (pg w); by rewrite put_id|].
  destruct (t_QrPayload t); [by apply IH|]. erewrite mbind_eq; [|by apply stmt_calm].
  destruct (IH (put (outbox_seq w) (set_tickets (alter (issue_qr (Payload secret i) (pg_now w)) i (tickets (pg w))) (pg w)) w) Hf)
    as [d Hd]. by exists d.
Qed.

Definition ticketed_row w (r : OrderRow) : OrderRow := set_status StatusTicketed (pg_now w) r.

(** The world of a committed issue. *)
Definition after_issue secret w (id : UUID) (r : OrderRow) : World R :=
  put (outbox_seq w + 1)
    (log_row (outbox_seq w) (pg_now w)
       (event_message TopicTickets TicketIssued (orderEvent (order_of (pg w) (ticketed_row w r))))
       (move id StatusTicketed (pg_now w) r (issue_tickets id (Payload secret) (pg_now w) (pg w)))) w.

Lemma issued_books secret w id l d :
  issue_all secret l w = (Ok tt, put (outbox_seq w) d w) -> NoDup l.*1 ->
  (forall i t, (i, t) ∈ l <-> tickets (pg w) !! i = Some t /\ t_OrderID t = id) ->
  d = issue_tickets id (Payload secret) (pg_now w) (pg w).
Proof.
  intros Hi Hnd Hl. destruct (issue_all_step _ _ _ _ _ Hi Hnd) as (m & Hm & _ & Hlk); [intros i t Hin; by apply Hl|].
  simpl in Hm. subst d. unfold issue_tickets. f_equal. apply map_eq. intros i. rewrite Hlk, map_lookup_imap.
  destruct (tickets (pg w) !! i) as [t|] eqn:Ht; simpl; [|by case_decide]. destruct (decide (t_OrderID t = id)) as [He|He].
  - rewrite decide_True; [done|]. apply list_elem_of_fmap. exists (i, t). split; [done|]. by apply Hl.
  - rewrite decide_False; [done|]. intros Hc. apply list_elem_of_fmap in Hc as ([i' t'] & Hi' & Hc). simpl in Hi'. subst i'.
    apply Hl in Hc as [Ht' ?]. congruence.
Qed.

Lemma paid_has_ticket d id r :
  books_ok d -> orders d !! id = Some r -> r_Status r = StatusPaid -> exists i t, tickets d !! i = Some t /\ t_OrderID t = id.
Proof.
  intros Hok Hr Hs. destruct (ok_total _ Hok id ltac:(eauto)) as [Hp _]. unfold prices_of in Hp.
  destruct (seats_of (order_seats d) id) as [|[sid x] ss] eqn:Hss; [done|].
  assert ((sid, x) ∈ seats_of (order_seats d) id) as Hin by (rewrite Hss; constructor). apply seats_of_elem in Hin.
  destruct (ok_sold _ Hok id StatusPaid sid) as (i & t & Ht & Hid & _); [rewrite <- Hs; by apply status_at_Some|done|by eexists|].
  by exists i, t.
Qed.

Lemma Issue_tx_paid secret id r w :
  calm w -> books_ok (pg w) -> orders (pg w) !! id = Some r -> r_Status r = StatusPaid ->
  Issue_tx secret id w = (Ok StatusTicketed, after_issue secret w id r).
Proof.
  intros [Hf Hb] Hok Hr Hs. unfold Issue_tx. erewrite mbind_eq.
  2:{ unfold on_no_rows, mcatch. by rewrite (GetOrderForUpdate_calm id w r). }
  rewrite bool_decide_eq_true_2 by done. cbn [negb].
  set (l := merge_sort by_ticket_seat (map_to_list (filter (of_order id) (tickets (pg w))))).
  assert (stmt (ListOrderTickets id) w = (Ok l, w)) as Hl by by apply select_calm.
  destruct (ListOrderTickets_step _ _ _ _ Hl) as (Hnd & Hel & _). rewrite (mbind_eq _ _ _ _ _ Hl).
  assert (Hne : exists x l', l = x :: l').
  { destruct (paid_has_ticket _ id r Hok Hr Hs) as (i & t & Ht & Hid).
    assert ((i, t) ∈ l) as Hit by (by apply Hel). destruct l; [by apply not_elem_of_nil in Hit|eauto]. }
  destruct (issue_all_calm secret l w Hf) as [d Hd]. pose proof (issued_books _ _ _ _ _ Hd Hnd Hel) as ->.
  destruct Hne as (x & l' & ->). rewrite (mbind_eq _ _ _ _ _ Hd).
  erewrite mbind_eq; [|by apply (transition_calm id StatusPaid StatusTicketed _ r)].
  erewrite mbind_eq; [|by apply ListOrderSeats_calm].
  erewrite mbind_eq; [|apply writeEvent_calm; [done|by apply below_free in Hb]].
  unfold mret, after_issue, order_of. cbn [r_ID ticketed_row set_status]. by rewrite (ok_id _ Hok id r Hr).
Qed.

(** ** Refunds *)

Definition refunded_books (txn : string) (f : RefundRow) (r : OrderRow) (now : Z) (d : PG) : PG :=
  let d1 := add_refund txn (completed now f) d in
  if bool_decide (f_Reason f = ReasonDoublePayment) then d1 else move (f_OrderID f) StatusRefunded now r d1.

Definition refunded_row (f : RefundRow) (r : OrderRow) (now : Z) : OrderRow :=
  if bool_decide (f_Reason f = ReasonDoublePayment) then r else set_status StatusRefunded now r.

(** The world of a completed refund. *)
Definition after_refund w (txn : string) (f : RefundRow) (r : OrderRow) : World R :=
  put (outbox_seq w + 1)
    (log_row (outbox_seq w) (pg_now w)
       (event_message TopicOrders OrderRefunded
          (refundEvent (order_of (pg w) (refunded_row f r (pg_now w))) txn (f_AmountVnd f) (f_Reason f)))
       (refunded_books txn f r (pg_now w) (pg w))) w.

Lemma complete_tx_pending txn f r w :
  calm w -> books_ok (pg w) -> refunds (pg w) !! txn = Some f -> f_Status f = RefundPending ->
  orders (pg w) !! f_OrderID f = Some r -> complete_tx txn w = (Ok tt, after_refund w txn f r).
Proof.
  intros [Hf Hb] Hok Hr Hp Ho. unfold complete_tx, mcatch.
  rewrite (stmt_calm (CompleteRefund txn) (completed (pg_now w) f) (add_refund txn (completed (pg_now w) f) (pg w)))
    by (first [done|unfold CompleteRefund; by rewrite Hr, bool_decide_eq_true_2]).
  erewrite mbind_eq; [|by apply (GetOrderForUpdate_calm _ _ r)]. cbn [f_Reason completed].
  destruct (ok_refund _ Hok txn f Hr) as (p & st & _ & _ & _ & _ & Hst & Hstate & _).
  rewrite (status_at_Some _ _ _ Ho) in Hst. injection Hst as <-. unfold refund_state in Hstate.
  unfold after_refund, refunded_books, refunded_row. case_bool_decide as Hd; cbn [negb andb].
  - erewrite mbind_eq; [|reflexivity]. erewrite mbind_eq; [|by apply ListOrderSeats_calm].
    rewrite writeEvent_calm; [|done|by apply below_free in Hb]. unfold order_of. by rewrite (ok_id _ Hok _ _ Ho).
  - rewrite decide_False in Hstate by done. destruct Hstate as [[Hrs _]|[_ Hbad]]; [|rewrite Hp in Hbad; done].
    rewrite bool_decide_eq_true_2 by done. erewrite mbind_eq; [|by apply (transition_calm _ _ _ _ r)].
    erewrite mbind_eq; [|by apply ListOrderSeats_calm]. rewrite writeEvent_calm; [|done|by apply below_free in Hb].
    unfold order_of. cbn [r_ID set_status]. by rewrite (ok_id _ Hok _ _ Ho).
Qed.

(** A refund row is one the gateway accepts. *)
Lemma refund_acceptable d txn f :
  books_ok d -> refunds d !! txn = Some f ->
  bool_decide (txn = EmptyString) || bool_decide (f_OrderID f = uuid_Nil) || (f_AmountVnd f <=? 0) = false.
Proof.
  intros Hok Hf. destruct (ok_refund d Hok txn f Hf) as (p & st & Hp & Hoc & Hid & Ham & _).
  destruct (ok_payment d Hok txn p Hp) as (st' & _ & Hps & Htxn & Hnil). unfold payment_state in Hps. rewrite Hoc in Hps.
  rewrite Hid in Hnil. rewrite !bool_decide_eq_false_2 by done. apply Z.leb_gt. lia.
Qed.

Lemma Gateway_Refund_calm txn f w :
  faults w = [] -> books_ok (pg w) -> refunds (pg w) !! txn = Some f ->
  exists g, Gateway_Refund (mkRefundRequest (f_OrderID f) txn (f_AmountVnd f)) w = (Ok tt, set_gateway g w) /\
    gw_refunds g !! txn = Some (default (mkRefundRequest (f_OrderID f) txn (f_AmountVnd f)) (gw_refunds (gateway w) !! txn)).
Proof.
  intros Hf Hok Hr. unfold Gateway_Refund, call. rewrite pop_fault_nil by done. unfold handleRefund.
  cbn [rq_ProviderTxnID rq_OrderID rq_AmountVND]. rewrite (refund_acceptable (pg w)) by done.
  eexists. split; [done|]. cbn [gw_refunds].
  destruct (gw_refunds (gateway w) !! txn) as [q|] eqn:Hq; [by rewrite bool_decide_eq_true_2 by eauto|].
  rewrite bool_decide_eq_false_2 by (by intros []). by rewrite lookup_insert_eq.
Qed.
End flows.

(** ** Properties *)

(** Cancel, branch by branch, when no call fails. An unknown order and
    somebody else's order are answered alike (ErrNotFound) and nothing
    changes; a HELD order becomes CANCELLED, its order.cancelled message is
    written in the same commit, and its seats are released afterwards; an
    order already CANCELLED is answered again and nothing changes; any other
    order is refused with its status. *)
Theorem cancel_order {R} `{UuidLib} (s : Service R) (userID : Z) (id : UUID) (w : World R)
    (Hcalm : calm w) (Hid : forall r, orders (pg w) !! id = Some r -> r_ID r = id) :
  let result := run (Cancel s userID id) w in
  match orders (pg w) !! id with
  | None => result = (Err ErrNotFound, w)
  | Some r =>
      if bool_decide (r_UserID r = userID) then
        match r_Status r with
        | StatusHeld =>
            let o := order_of (pg w) (set_status StatusCancelled (pg_now w) r) in
            result = (Ok o, (run (releaseSeats (svc_inv s) (r_EventID r) (SeatIDs o) id) (after_cancel w id r)).2)
        | StatusCancelled => result = (Ok (order_of (pg w) r), w)
        | st => result = (Err (ErrNotCancellable st), w)
        end
      else result = (Err ErrNotFound, w)
  end.
Proof.
  destruct Hcalm as [Hf Hb]. unfold Cancel. destruct (orders (pg w) !! id) as [r|] eqn:Hr; cbv zeta; rewrite run_bind, run_act.
  2:{ rewrite (BeginFunc_calm_err _ w ErrNotFound); [done|done|]. unfold Cancel_tx. apply mbind_err. unfold on_no_rows, mcatch.
      by rewrite (stmt_calm_err (GetOrderForUpdate id) (EPg NoRows)) by (first [done|unfold GetOrderForUpdate; by rewrite Hr]). }
  specialize (Hid r eq_refl).
  assert (Hget : on_no_rows (stmt (GetOrderForUpdate id)) ErrNotFound w = (Ok r, w)).
  { unfold on_no_rows, mcatch. by rewrite (GetOrderForUpdate_calm id w r). }
  case_bool_decide as Hu.
  2:{ rewrite (BeginFunc_calm_err _ w ErrNotFound); [done|done|]. unfold Cancel_tx.
      rewrite (mbind_eq _ _ _ _ _ Hget), bool_decide_eq_false_2 by done. done. }
  destruct (r_Status r) eqn:Hs.
  1:{ rewrite (BeginFunc_calm _ w _ _ Hf (Cancel_tx_held userID id r w (conj Hf Hb) Hr Hid Hu Hs) Hf).
      cbn [fst snd]. rewrite run_bind. cbn [run fst snd]. subst id. reflexivity. }
  4:{ erewrite BeginFunc_calm; [|done| |done].
      2:{ unfold Cancel_tx. rewrite (mbind_eq _ _ _ _ _ Hget), bool_decide_eq_true_2 by done. cbn [negb]. rewrite Hs.
          erewrite mbind_eq; [|reflexivity]. cbv beta iota. erewrite mbind_eq; [|by apply ListOrderSeats_calm]. reflexivity. }
      cbn [fst snd]. unfold order_of. by rewrite Hid. }
  all: erewrite BeginFunc_calm_err; [reflexivity|done|]; unfold Cancel_tx;
    rewrite (mbind_eq _ _ _ _ _ Hget), bool_decide_eq_true_2 by done; cbn [negb]; rewrite Hs; by apply mbind_err.
Qed.

(** Get shows an order with its seats to its owner, and answers everybody
    else as if the order did not exist. *)
Theorem get_hides_orders {R} `{UuidLib} (userID : Z) (id : UUID) (w : World R) (Hf : faults w = []) :
  run (Get userID id) w =
    (match orders (pg w) !! id with
     | Some r => if bool_decide (r_UserID r = userID) then Ok (fromRow r (seat_list (pg w) id)) else Err ErrNotFound
     | None => Err ErrNotFound
     end, w).
Proof. by apply Get_calm. Qed.

(** C33. Issue, branch by branch, when no call fails, on well-formed books. An
    unknown order is refused; an order that is not PAID is left alone, so a
    redelivered event does nothing; a PAID order becomes TICKETED with its
    message, and each of its tickets, none of which had one, now has a QR
    payload that verifies to exactly that ticket. *)
Theorem issue_tickets_once {R} `{UuidLib} (secret : string) (id : UUID) (w : World R)
    (Hcalm : calm w) (Hok : books_ok (pg w)) :
  let result := run (Issue secret id) w in
  match orders (pg w) !! id with
  | None => result = (Err ErrNotFound, w)
  | Some r =>
      if bool_decide (r_Status r = StatusPaid)
      then result = (Ok StatusTicketed, after_issue secret w id r) /\
        (forall i t, tickets (pg w) !! i = Some t -> t_OrderID t = id ->
           t_QrPayload t = None /\
           exists u qr, tickets (pg result.2) !! i = Some u /\ t_QrPayload u = Some qr /\ Verify secret qr = Some i) /\
        run (Issue secret id) result.2 = (Ok StatusTicketed, result.2)
      else result = (Ok (r_Status r), w)
  end.
Proof.
  destruct Hcalm as [Hf Hb]. unfold Issue. cbv zeta. rewrite !run_act. destruct (orders (pg w) !! id) as [r|] eqn:Hr.
  2:{ apply BeginFunc_calm_err; [done|]. unfold Issue_tx. apply mbind_err. unfold on_no_rows, mcatch.
      by rewrite (stmt_calm_err (GetOrderForUpdate id) (EPg NoRows)) by (first [done|unfold GetOrderForUpdate; by rewrite Hr]). }
  assert (Hskip : forall (v : World R) q, faults v = [] -> orders (pg v) !! id = Some q -> r_Status q <> StatusPaid ->
    BeginFunc (Issue_tx secret id) v = (Ok (r_Status q), v)).
  { intros v q Hv Hq Hst. apply BeginFunc_calm; [done| |done]. unfold Issue_tx. erewrite mbind_eq.
    2:{ unfold on_no_rows, mcatch. by rewrite (GetOrderForUpdate_calm id v q). }
    by rewrite bool_decide_eq_false_2. }
  case_bool_decide as Hs; [|by apply Hskip].
  rewrite (BeginFunc_calm _ w _ _ Hf (Issue_tx_paid secret id r w (conj Hf Hb) Hok Hr Hs) Hf). cbn [fst snd]. split_and!; [done|..].
  - intros i t Ht Hid. assert (t_QrPayload t = None) as Hqr.
    { destruct (ok_ticket _ Hok i t Ht) as (st & Hst & Hts & _). rewrite Hid, (status_at_Some _ _ _ Hr), Hs in Hst.
      injection Hst as <-. by destruct Hts as [(_ & Hq & _)|(? & _)]. }
    split; [done|]. exists (issue_qr (Payload secret i) (pg_now w) t), (Payload secret i).
    assert (tickets (pg (after_issue secret w id r)) = tickets (issue_tickets id (Payload secret) (pg_now w) (pg w))) as -> by done.
    split_and!; [|unfold issue_qr; by rewrite Hqr|apply Verify_Payload].
    apply issue_tickets_lookup. exists t. by rewrite decide_True.
  - by apply (Hskip _ (ticketed_row w r)); [|simpl; rewrite lookup_insert_eq|].
Qed.

(** Process completes a pending refund when no call fails, on well-formed
    books: the gateway has the refund (accepting it once only), the row is
    SUCCEEDED, the order is REFUNDED unless the refund is of a double payment,
    and the message is written in the same commit. Processing it again changes
    nothing, and a transaction without refund is reported. *)
Theorem process_completes_refund {R} `{UuidLib} (txn : string) (w : World R) (Hcalm : calm w) (Hok : books_ok (pg w)) :
  match refunds (pg w) !! txn with
  | None => run (Process txn) w = (Err ErrRefundNotFound, w)
  | Some f =>
      if bool_decide (f_Status f = RefundSucceeded) then run (Process txn) w = (Ok tt, w)
      else exists r g w', orders (pg w) !! f_OrderID f = Some r /\
        gw_refunds g !! txn = Some (default (mkRefundRequest (f_OrderID f) txn (f_AmountVnd f)) (gw_refunds (gateway w) !! txn)) /\
        w' = after_refund (set_gateway g w) txn f r /\
        run (Process txn) w = (Ok tt, w') /\ run (Process txn) w' = (Ok tt, w')
  end.
Proof.
  destruct Hcalm as [Hf Hb]. unfold Process.
  assert (Hskip : forall (v : World R) f, faults v = [] -> refunds (pg v) !! txn = Some f -> f_Status f = RefundSucceeded ->
    run (Process txn) v = (Ok tt, v)).
  { intros v f Hv Hr Hs. unfold Process. rewrite run_bind, run_act.
    rewrite (select_calm (GetRefund txn) f) by (first [done|unfold GetRefund; by rewrite Hr]). cbn [fst snd].
    by rewrite bool_decide_eq_true_2. }
  destruct (refunds (pg w) !! txn) as [f|] eqn:Hr.
  2:{ rewrite run_bind, run_act.
      by rewrite (stmt_calm_err (GetRefund txn) (EPg NoRows)) by (first [done|unfold GetRefund; by rewrite Hr]). }
  case_bool_decide as Hs; [by apply (Hskip w f)|].
  destruct (ok_refund _ Hok txn f Hr) as (p & st & _ & _ & _ & _ & Hst & _ & Hfs).
  destruct (status_at_orders _ _ _ Hst) as (r & Ho & _).
  assert (f_Status f = RefundPending) as Hp by (by destruct Hfs).
  destruct (Gateway_Refund_calm txn f w Hf Hok Hr) as (g & Hg & Hacc).
  assert (Hfirst : run (Process txn) w = (Ok tt, after_refund (set_gateway g w) txn f r)).
  { unfold Process. rewrite run_bind, run_act.
    rewrite (select_calm (GetRefund txn) f) by (first [done|unfold GetRefund; by rewrite Hr]). cbn [fst snd].
    rewrite bool_decide_eq_false_2 by done. rewrite run_bind, run_act, Hg. cbn [fst snd]. rewrite run_act.
    by apply BeginFunc_calm; [|apply complete_tx_pending|]. }
  exists r, g, (after_refund (set_gateway g w) txn f r). split_and!; try done.
  apply (Hskip _ (completed (pg_now w) f)); [done| |done]. simpl. unfold refunded_books.
  case_bool_decide; simpl; by rewrite lookup_insert_eq.
Qed.
