(* ===== verification/PaymentFlow.v ===== *)
(** * What a payment webhook does

    The decision table of SPEC.md 9.3 as the code implements it, and the
    harmlessness of repeated webhooks. *)

From S2P Require Import Prelude GoLib Effects OrderState World Frame OrderDB Inventory Outbox Payment.
From S2P Require Import OrderService OrderPayment OrderBooks OrderRefine PaymentRefine Flows.
Local Open Scope tr_scope.

(** ** The decision table *)

(** [active]: the hold still runs by the database clock; [taken]: the seats a
    late payment could not hold again; [conflict]: a seat already has a
    ticket. *)
Definition payment_plan (p : Webhook) (r : OrderRow) (active : bool) (taken : list string) (conflict : bool) : PaymentResult :=
  let refunded reason := mkPaymentResult OutcomeRefundRequired reason (Some StatusRefunding) in
  if bool_decide (wh_Status p = StatusFailed)
  then mkPaymentResult OutcomeIgnoredFailed EmptyString (Some (r_Status r))
  else match r_Status r with
  | StatusPaid | StatusTicketed | StatusRefunding | StatusRefunded =>
      mkPaymentResult OutcomeRefundRequired ReasonDoublePayment (Some (r_Status r))
  | StatusCancelled =>
      refunded (if wh_AmountVND p =? r_TotalVnd r then ReasonPaidAfterCancel else ReasonAmountMismatch)
  | StatusHeld | StatusExpired =>
      if negb (wh_AmountVND p =? r_TotalVnd r) then refunded ReasonAmountMismatch
      else if negb (bool_decide (r_Status r = StatusHeld) && active) && negb (bool_decide (taken = []))
      then refunded ReasonLatePaymentSeatTaken
      else if conflict then refunded ReasonSeatConflict
      else mkPaymentResult OutcomeApplied EmptyString (Some StatusPaid)
  end.

(** A seat of the order has a ticket already. *)
Definition seat_conflict (d : PG) (ev : Z) (seats : list string) : bool :=
  bool_decide (Exists (fun s => filter (same_seat ev s) (tickets d) <> ∅) seats).

(** ** Inserting tickets *)

Lemma filter_seat_insert ev s (m : gmap UUID TicketRow) i id t :
  t <> s -> m !! i = None ->
  filter (same_seat ev s) (<[i := mkTicketRow id ev t None None]> m) = filter (same_seat ev s) m.
Proof.
  intros Hne Hi. rewrite map_filter_insert. case_decide as Hs.
  - destruct Hs as [_ Hs]. by destruct Hne.
  - by rewrite delete_id.
Qed.

Lemma insert_tickets_calm id ev l seats d :
  length l = length seats -> NoDup l -> (forall i, i ∈ l -> tickets d !! i = None) -> NoDup seats ->
  if seat_conflict d ev seats
  then exists c, insert_tickets id ev (zip l seats) d = Err (EPg (UniqueViolation c))
  else exists d', insert_tickets id ev (zip l seats) d = Ok d'.
Proof.
  revert seats d. induction l as [|i l IH]; intros [|s seats] d Hlen Hnd Hfree Hns; try done.
  { assert (seat_conflict d ev [] = false) as ->; [|by eexists]. unfold seat_conflict. apply bool_decide_eq_false_2. intros Hc. inversion Hc. }
  apply NoDup_cons in Hnd as [Hi Hnd], Hns as [Hs Hns]. cbn [zip zip_with insert_tickets]. unfold insert_ticket. cbn [fst snd].
  rewrite bool_decide_eq_false_2 by (rewrite Hfree by constructor; by intros [? ?]).
  destruct (decide (filter (same_seat ev s) (tickets d) = ∅)) as [He|He].
  - rewrite bool_decide_eq_true_2 by done. cbn [negb].
    set (d1 := set_tickets _ d). assert (seat_conflict d ev (s :: seats) = seat_conflict d1 ev seats) as ->.
    { unfold seat_conflict. apply bool_decide_ext. rewrite Exists_cons, !Exists_exists. split.
      - intros [?|(t & Ht & Hc)]; [done|]. exists t. split; [done|]. unfold d1. simpl.
        rewrite filter_seat_insert; [done|intros ->; done|by apply Hfree; constructor].
      - intros (t & Ht & Hc). right. exists t. split; [done|]. unfold d1 in Hc. simpl in Hc.
        rewrite filter_seat_insert in Hc; [done|intros ->; done|by apply Hfree; constructor]. }
    apply IH; [by injection Hlen|done| |done]. intros j Hj. unfold d1. simpl.
    rewrite lookup_insert_ne by (intros ->; done). apply Hfree. by constructor.
  - rewrite (bool_decide_eq_false_2 (filter _ _ = ∅)) by done. cbn [negb].
    assert (seat_conflict d ev (s :: seats) = true) as ->; [|by eexists]. unfold seat_conflict. apply bool_decide_eq_true_2.
    by apply Exists_cons_hd.
Qed.

Section calm.
Context {R : Type} `{UuidLib} (inv : Inventory R).
Implicit Types w : World R.

(** What the tail of a webhook transaction needs. *)
Definition ready (p : Webhook) (r : OrderRow) w : Prop :=
  calm w /\ orders (pg w) !! wh_OrderID p = Some r /\ refunds (pg w) !! wh_ProviderTxnID p = None /\
  is_Some (payments (pg w) !! wh_ProviderTxnID p).

Definition returns {A} (m : M R A) w (a : A) : Prop := exists w', m w = (Ok a, w') /\ faults w' = [].

Lemma returns_bind {A B} (m : M R A) (k : A -> M R B) w a w1 b :
  m w = (Ok a, w1) -> returns (k a) w1 b -> returns (mbind m k) w b.
Proof. intros Hm (w' & Hk & Hf). exists w'. by rewrite (mbind_eq _ _ _ _ _ Hm). Qed.

Lemma returns_catch {A B} (m : M R A) (k : res GoErr A -> M R B) w x w1 b :
  m w = (x, w1) -> returns (k x) w1 b -> returns (mcatch m k) w b.
Proof. intros Hm (w' & Hk & Hf). exists w'. unfold mcatch. by rewrite Hm. Qed.

Lemma new_ids_calm n l rest w :
  length l = n -> ids w = (Some <$> l) ++ rest -> new_ids n w = (Ok l, set_ids rest w).
Proof.
  revert l w. induction n as [|n IH]; intros [|i l] w Hn Hi; try done; cbn [new_ids].
  { simpl in Hi. subst rest. unfold mret. by destruct w. }
  injection Hn as Hn. erewrite mbind_eq; [|unfold NewV7; rewrite Hi; reflexivity].
  erewrite mbind_eq; [|by apply (IH l)]. done.
Qed.

Section one.
Context (p : Webhook) (o : Order) (r : OrderRow).
Hypothesis Hid : o_ID o = wh_OrderID p.
Hypothesis Hev : o_EventID o = r_EventID r.
Hypothesis Hst : o_Status o = r_Status r.
Hypothesis Htotal : o_TotalVND o = r_TotalVnd r.

Lemma moveTo_calm to w :
  calm w -> orders (pg w) !! wh_OrderID p = Some r -> CanTransition (r_Status r) to = true ->
  moveTo o to w = (Ok (with_status o to), put (outbox_seq w) (move (wh_OrderID p) to (pg_now w) r (pg w)) w).
Proof.
  intros [Hf Hb] Ho Hc. unfold moveTo. rewrite Hid, Hst. erewrite mbind_eq; [done|].
  by apply transition_calm.
Qed.

Lemma refund_calm reason to after w :
  ready p r w -> match to with Some st => CanTransition (r_Status r) st = true | None => True end ->
  returns (refund p o reason to after) w
    (mkPaymentResult OutcomeRefundRequired reason (Some (default (r_Status r) to)), after).
Proof.
  intros ((Hf & Hb) & Ho & Hr & Hp) Hto. unfold refund.
  assert (Hrest : forall o1 w1, faults w1 = [] -> o_ID o1 = wh_OrderID p -> o_Status o1 = default (r_Status r) to ->
    outbox_below (outbox_seq w1, pg w1) -> is_Some (orders (pg w1) !! wh_OrderID p) ->
    refunds (pg w1) = refunds (pg w) -> payments (pg w1) = payments (pg w) ->
    returns (let* _ := stmt (InsertRefund (wh_ProviderTxnID p) (o_ID o1) (wh_AmountVND p) reason) in
      let* _ := writeEvent TopicOrders OrderRefundRequested (refundEvent o1 (wh_ProviderTxnID p) (wh_AmountVND p) reason) in
      mret (mkPaymentResult OutcomeRefundRequired reason (Some (o_Status o1)), after)) w1
      (mkPaymentResult OutcomeRefundRequired reason (Some (default (r_Status r) to)), after)).
  { intros o1 w1 Hf1 Hid1 Hst1 Hb1 Ho1 Hr1 Hp1. eapply returns_bind.
    { apply stmt_calm; [done|]. unfold InsertRefund. rewrite Hr1, Hp1, Hid1.
      rewrite bool_decide_eq_false_2 by (rewrite Hr; by intros [? ?]). by rewrite !bool_decide_eq_true_2. }
    eapply returns_bind; [apply writeEvent_calm; [done|by apply below_free in Hb1]|]. rewrite Hst1. eexists. done. }
  destruct to as [st|].
  - eapply returns_bind; [by apply moveTo_calm|]. apply Hrest; try done. simpl. by rewrite lookup_insert_eq.
  - eapply returns_bind; [reflexivity|]. apply Hrest; try done.
Qed.

Lemma pay_calm w :
  calm w -> orders (pg w) !! wh_OrderID p = Some r -> CanTransition (r_Status r) StatusPaid = true ->
  returns (pay o) w (mkPaymentResult OutcomeApplied EmptyString (Some StatusPaid), mkAfter true false).
Proof.
  intros [Hf Hb] Ho Hc. unfold pay. eapply returns_bind; [by apply moveTo_calm|].
  eapply returns_bind; [apply writeEvent_calm; [done|by apply below_free in Hb]|]. eexists. done.
Qed.

(** A run of ids long enough, none of them in use. *)
Definition fresh_ids n w : Prop :=
  exists l rest, length l = n /\ ids w = (Some <$> l) ++ rest /\ NoDup l /\ forall i, i ∈ l -> tickets (pg w) !! i = None.

Lemma insertTickets_calm w :
  ready p r w -> fresh_ids (length (SeatIDs o)) w -> NoDup (SeatIDs o) ->
  exists w', insertTickets o w = (Ok (negb (seat_conflict (pg w) (r_EventID r) (SeatIDs o))), w') /\ ready p r w'.
Proof.
  intros ((Hf & Hb) & Ho & Hr & Hp) (l & rest & Hl & Hi & Hnd & Hfree) Hns. unfold insertTickets. cbn zeta.
  erewrite mbind_eq; [|by apply (new_ids_calm _ l rest)]. set (w1 := set_ids rest w).
  assert (Hsp : forall w0, faults w0 = [] -> sql_savepoint w0 = (Ok tt, w0)) by (intros w0 Hf0; by apply select_calm).
  rewrite (mbind_eq _ _ w1 tt w1) by by apply Hsp.
  pose proof (insert_tickets_calm (o_ID o) (r_EventID r) l (SeatIDs o) (pg w) Hl Hnd Hfree Hns) as Hins.
  unfold mcatch, or_rollback. destruct (seat_conflict _ _ _).
  - destruct Hins as [c Hc]. erewrite stmt_calm_err; [|done|].
    2:{ unfold InsertTickets. rewrite bool_decide_eq_true_2 by done. cbn [negb]. rewrite Hev. change (pg w1) with (pg w). by rewrite Hc. }
    eexists. split; [done|]. done.
  - destruct Hins as [d' Hd]. erewrite stmt_calm; [|done|].
    2:{ unfold InsertTickets. rewrite bool_decide_eq_true_2 by done. cbn [negb]. rewrite Hev. change (pg w1) with (pg w). rewrite Hd.
        rewrite Hid, bool_decide_eq_true_2 by eauto. done. }
    apply insert_tickets_ok in Hd as (-> & _).
    erewrite mbind_eq; [|by apply Hsp]. eexists. split; [done|]. done.
Qed.

Lemma sell_calm w :
  ready p r w -> fresh_ids (length (SeatIDs o)) w -> NoDup (SeatIDs o) ->
  (r_Status r = StatusHeld \/ r_Status r = StatusExpired) ->
  returns (sell p o) w
    (if seat_conflict (pg w) (r_EventID r) (SeatIDs o)
     then (mkPaymentResult OutcomeRefundRequired ReasonSeatConflict (Some StatusRefunding), mkAfter false true)
     else (mkPaymentResult OutcomeApplied EmptyString (Some StatusPaid), mkAfter true false)).
Proof.
  intros Hw Hids Hns Hs. destruct (insertTickets_calm w Hw Hids Hns) as (w1 & H1 & Hw1). unfold sell.
  eapply returns_bind; [exact H1|]. destruct (seat_conflict _ _ _); cbn [negb].
  - apply (refund_calm _ (Some StatusRefunding)); [done|]. by destruct Hs as [-> | ->].
  - apply pay_calm; [apply Hw1..|]. by destruct Hs as [-> | ->].
Qed.

(** The late branch asks the inventory; [Hhold] is its answer. *)
Lemma decide_calm active taken w w1 :
  ready p r w -> fresh_ids (length (SeatIDs o)) w -> NoDup (SeatIDs o) ->
  run (Hold inv (o_EventID o) (SeatIDs o) (o_ID o) latePaymentHoldTTL) w = (Ok taken, w1) ->
  ready p r w1 -> fresh_ids (length (SeatIDs o)) w1 -> tickets (pg w1) = tickets (pg w) ->
  exists after, returns (decide_payment inv p o active) w
    (payment_plan p r active taken (seat_conflict (pg w) (r_EventID r) (SeatIDs o)), after).
Proof.
  intros Hw Hids Hns Hhold Hw1 Hids1 Htk. unfold decide_payment, payment_plan. cbn zeta. rewrite Hst, Htotal.
  destruct (bool_decide (wh_Status p = StatusFailed)); [eexists _, w; split; [done|apply Hw]|].
  assert (Hlate : (r_Status r = StatusHeld \/ r_Status r = StatusExpired) -> exists after,
    returns (let* taken := (run (Hold inv (o_EventID o) (SeatIDs o) (o_ID o) latePaymentHoldTTL) : M R (list string)) in
      match taken with
      | _ :: _ => refund p o ReasonLatePaymentSeatTaken (Some StatusRefunding) no_after
      | [] => sell p o
      end) w
    (if negb (bool_decide (taken = [])) then mkPaymentResult OutcomeRefundRequired ReasonLatePaymentSeatTaken (Some StatusRefunding)
     else if seat_conflict (pg w) (r_EventID r) (SeatIDs o)
     then mkPaymentResult OutcomeRefundRequired ReasonSeatConflict (Some StatusRefunding)
     else mkPaymentResult OutcomeApplied EmptyString (Some StatusPaid), after)).
  { intros Hs. destruct taken as [|x l].
    - rewrite bool_decide_eq_true_2 by done. cbn [negb].
      assert (seat_conflict (pg w) (r_EventID r) (SeatIDs o) = seat_conflict (pg w1) (r_EventID r) (SeatIDs o)) as ->
        by (unfold seat_conflict; by rewrite Htk).
      pose proof (sell_calm w1 Hw1 Hids1 Hns Hs) as Hsell.
      destruct (seat_conflict _ _ _); eexists; (eapply returns_bind; [exact Hhold|exact Hsell]).
    - rewrite bool_decide_eq_false_2 by done. eexists. eapply returns_bind; [exact Hhold|].
      apply (refund_calm _ (Some StatusRefunding)); [done|]. by destruct Hs as [-> | ->]. }
  destruct (r_Status r) eqn:Hs in Hlate |- *; cbn -[Z.eqb].
  all: try (eexists; pose proof (refund_calm ReasonDoublePayment None no_after w Hw I) as Hx;
    cbn in Hx; rewrite Hs in Hx; exact Hx).
  all: destruct (wh_AmountVND p =? r_TotalVnd r); cbn -[Z.eqb]; try (eexists; apply (refund_calm _ (Some StatusRefunding)); [done|by rewrite Hs]).
  - destruct active; cbn; [|specialize (Hlate (or_introl eq_refl)); cbn in Hlate; exact Hlate].
    pose proof (sell_calm w Hw Hids Hns (or_introl Hs)) as Hsell.
    destruct (seat_conflict _ _ _); eexists; exact Hsell.
  - specialize (Hlate (or_intror eq_refl)). cbn in Hlate. exact Hlate.
Qed.
End one.

(** ** The transaction *)

Lemma ApplyPayment_tx_calm `{!InventoryFrame inv} p r taken w w3 :
  calm w -> books_ok (pg w) -> Validate p = None ->
  orders (pg w) !! wh_OrderID p = Some r -> payments (pg w) !! wh_ProviderTxnID p = None ->
  fresh_ids (length (seat_list (pg w) (wh_OrderID p))) w ->
  run (Hold inv (r_EventID r) (seat_list (pg w) (wh_OrderID p)).*1 (wh_OrderID p) latePaymentHoldTTL)
    (put (outbox_seq w) (recorded p (pg w)) w) = (Ok taken, w3) ->
  faults w3 = [] -> ids w3 = ids w ->
  exists after, returns (ApplyPayment_tx inv p) w
    (payment_plan p r (pg_now w <=? r_HoldExpiresAt r) taken
       (seat_conflict (pg w) (r_EventID r) (seat_list (pg w) (wh_OrderID p)).*1),
     Some (fromRow r (seat_list (pg w) (wh_OrderID p))), after).
Proof.
  intros [Hf Hb] Hok Hv Hr Hnew Hids Hhold Hf3 Hi3.
  set (w2 := put (outbox_seq w) (recorded p (pg w)) w). set (o := fromRow r (seat_list (pg w) (wh_OrderID p))). fold w2 in Hhold.
  pose proof (keeps_books_run (Hold inv (r_EventID r) (seat_list (pg w) (wh_OrderID p)).*1 (wh_OrderID p) latePaymentHoldTTL)
    w2 (Hold_frame _ _ _ _)) as (P3 & Q3 & _). rewrite Hhold in P3, Q3. simpl in P3, Q3.
  assert (Hready : ready p r w2).
  { split; [done|]. split; [done|]. split; [|simpl; rewrite lookup_insert_eq; by eexists].
    simpl. destruct (refunds (pg w) !! wh_ProviderTxnID p) as [f|] eqn:Hfr; [|done].
    destruct (ok_refund _ Hok _ f Hfr) as (q & st & Hq & _). congruence. }
  assert (Hready3 : ready p r w3).
  { destruct Hready as (_ & H2 & H3 & H4). unfold ready, calm. rewrite P3, Q3. done. }
  assert (Hnd : NoDup (SeatIDs o)) by (unfold o, seat_list; rewrite seat_ids_spec; apply seats_of_NoDup).
  assert (Hlen : length (SeatIDs o) = length (seat_list (pg w) (wh_OrderID p))) by apply length_fmap.
  rewrite <- Hlen in Hids.
  assert (Hids3 : fresh_ids (length (SeatIDs o)) w3).
  { destruct Hids as (l & rest & H1 & H2 & H3 & H4). exists l, rest. rewrite P3, Hi3. done. }
  destruct (decide_calm p o r (ok_id _ Hok _ _ Hr) eq_refl eq_refl eq_refl (pg_now w <=? r_HoldExpiresAt r) taken w2 w3)
    as (after & w4 & Hd & Hf4); try done.
  { unfold o. simpl. rewrite (ok_id _ Hok _ _ Hr). exact Hhold. }
  { by rewrite P3. }
  exists after. unfold ApplyPayment_tx. eapply returns_catch.
  { apply (select_calm (LockOrderForPayment (wh_OrderID p)) (r, pg_now w <=? r_HoldExpiresAt r)); [done|].
    unfold LockOrderForPayment. by rewrite Hr. }
  cbv beta iota. eapply returns_catch.
  { apply (stmt_calm _ (wh_ProviderTxnID p) (recorded p (pg w))); [done|].
    unfold InsertPayment. destruct (Validate_ok _ Hv) as (_ & _ & Hst & _). rewrite Hnew, Hr.
    assert (negb (bool_decide (wh_Status p = StatusSucceeded)) && negb (bool_decide (wh_Status p = StatusFailed)) = false) as ->.
    { destruct Hst as [->|[-> _]]; reflexivity. }
    rewrite bool_decide_eq_false_2, bool_decide_eq_true_2 by (first [by intros [? ?]|by eexists]). done. }
  cbn zeta. eapply returns_bind; [by apply ListOrderSeats_calm|]. eapply returns_bind; [exact Hd|].
  eapply returns_bind; [by apply stmt_calm|]. eexists. done.
Qed.
End calm.

(** The steps after the commit change the inventory only. *)
Lemma ApplyPayment_run {R} `{UuidLib} (inv : Inventory R) `{!InventoryFrame inv} (p : Webhook) (w : World R) :
  let b := BeginFunc (ApplyPayment_tx inv p) w in
  let r := run (ApplyPayment inv p) w in
  r.1 = match b.1 with Ok (res, _, _) => Ok res | Err e => Err e end /\ books_kept b.2 r.2.
Proof.
  cbv zeta. unfold ApplyPayment. rewrite run_bind, run_act.
  destruct (BeginFunc (ApplyPayment_tx inv p) w) as [[[[res [o|]] after]|e] w1]; cbn [fst snd]; [|done..].
  rewrite !run_bind. split; [done|]. cbn [run fst snd].
  set (c := if after_confirm after then _ else _). set (rl := if after_release after then _ else _).
  assert (keeps_books c) as Hc.
  { subst c. destruct (after_confirm after); [|done]. unfold discard. apply respects_bind; [apply Confirm_frame|done]. }
  assert (keeps_books rl) as Hr.
  { subst rl. destruct (after_release after); [|done]. unfold releaseSeats, discard. apply respects_bind; [apply Release_frame|done]. }
  by transitivity (run c w1).2; apply keeps_books_run.
Qed.

(** The row a committed webhook leaves. *)
Definition payment_row (p : Webhook) (oc : Outcome) : PaymentRow :=
  mkPaymentRow (wh_OrderID p) (wh_AmountVND p) (wh_Status p) (Some oc).

Lemma settled_payment {R} `{UuidLib} p row d res a d1 (w w' : World R) :
  settled (pg_now w) p row (recorded p d) res a d1 ->
  (let d2 := with_outcome (wh_ProviderTxnID p) (pr_Outcome res) d1 in
   match a with
   | None => outbox_seq w' = outbox_seq w /\ pg w' = d2
   | Some a => exists m, announces a m /\ outbox d2 !! outbox_seq w = None /\
       outbox_seq w' = outbox_seq w + 1 /\ pg w' = log_row (outbox_seq w) (pg_now w) m d2
   end) ->
  payments (pg w') !! wh_ProviderTxnID p = Some (payment_row p (pr_Outcome res)).
Proof.
  intros Hset Ha. cbn zeta in Ha.
  assert (payments (pg w') = payments (with_outcome (wh_ProviderTxnID p) (pr_Outcome res) d1)) as ->.
  { destruct a; [destruct Ha as (m & _ & _ & _ & ->)|destruct Ha as [_ ->]]; done. }
  assert (payments d1 = payments (recorded p d)) as Hpay by (by destruct Hset).
  unfold with_outcome. simpl. rewrite Hpay. simpl. by rewrite lookup_alter_eq, lookup_insert_eq.
Qed.

(** A webhook adds no other row, even when its answer is lost. *)
Lemma ApplyPayment_payment {R} `{UuidLib} (inv : Inventory R) `{!InventoryFrame inv} (p : Webhook) (w : World R) :
  books_ok (pg w) ->
  let d := pg (run (ApplyPayment inv p) w).2 in
  payments d !! wh_ProviderTxnID p = payments (pg w) !! wh_ProviderTxnID p \/
  exists oc, payments d !! wh_ProviderTxnID p = Some (payment_row p oc).
Proof.
  intros Hok. cbv zeta. destruct (ApplyPayment_run inv p w) as [_ [-> _]].
  destruct (BeginFunc_cases (ApplyPayment_tx inv p) w) as [->|(w0 & [[res mo] after] & w1 & Hb & P0 & _ & _ & _ & -> & _)]; [by left|].
  rewrite <- P0 in *.
  destruct (ApplyPayment_tx_cases inv _ _ _ _ _ _ Hb Hok) as [(-> & _)|(row & a & d1 & _ & _ & Hset & Ha)]; [by left|].
  right. exists (pr_Outcome res). by apply (settled_payment p row (pg w0) res a d1 w0 w1).
Qed.

(** What an answer of ApplyPayment says of the tables, whatever fails. *)
Lemma ApplyPayment_spec {R} `{UuidLib} (inv : Inventory R) `{!InventoryFrame inv} (p : Webhook) (w : World R) :
  books_ok (pg w) ->
  let r := run (ApplyPayment inv p) w in
  match r.1 with
  | Ok res =>
      (orders (pg w) !! wh_OrderID p = None /\ pr_Outcome res = OutcomeUnknownOrder /\ pg r.2 = pg w) \/
      (is_Some (payments (pg w) !! wh_ProviderTxnID p) /\ pr_Outcome res = OutcomeDuplicate /\ pg r.2 = pg w) \/
      (is_Some (orders (pg w) !! wh_OrderID p) /\ payments (pg w) !! wh_ProviderTxnID p = None /\
       payments (pg r.2) !! wh_ProviderTxnID p = Some (payment_row p (pr_Outcome res)))
  | Err e => pg r.2 = pg w \/ e = EPg Infra
  end.
Proof.
  intros Hok. cbv zeta. destruct (ApplyPayment_run inv p w) as [H1 [P1 _]]. rewrite H1, P1. clear H1 P1.
  destruct (BeginFunc _ w) as [[[[res mo] after]|e] w1] eqn:Hb; cbn [fst snd]; [|by apply BeginFunc_err in Hb].
  apply BeginFunc_ok in Hb as (w0 & w2 & Htx & P0 & _ & _ & _ & -> & _). rewrite <- P0 in *.
  destruct (ApplyPayment_tx_cases inv _ _ _ _ _ _ Htx Hok) as [(Hd & _ & [[Ho Hr]|[Hp Hr]])|(row & a & d1 & Hrow & Hnew & Hset & Ha)];
    [by left|by right; left|].
  right. right. split; [by eexists|]. split; [done|]. by apply (settled_payment p row (pg w0) res a d1 w0 w2).
Qed.

(** ** Properties *)

(** C27. What a new, valid webhook does to an order, when no call fails, on
    well-formed books: the answer is the one of the decision table; the order
    has the status answered; the payment is recorded with its outcome; a
    refund of its amount is requested exactly when the outcome says so; every
    seat of the order gets a ticket when the payment is applied, and no ticket
    is touched otherwise. *)
Theorem apply_payment_plan {R} `{UuidLib} (inv : Inventory R) `{!InventoryFrame inv} (p : Webhook) (r : OrderRow)
    (taken : list string) (w w3 : World R)
    (Hcalm : calm w) (Hok : books_ok (pg w)) (Hv : Validate p = None)
    (Hr : orders (pg w) !! wh_OrderID p = Some r) (Hnew : payments (pg w) !! wh_ProviderTxnID p = None)
    (Hids : fresh_ids (length (seat_list (pg w) (wh_OrderID p))) w)
    (Hhold : run (Hold inv (r_EventID r) (seat_list (pg w) (wh_OrderID p)).*1 (wh_OrderID p) latePaymentHoldTTL)
       (put (outbox_seq w) (recorded p (pg w)) w) = (Ok taken, w3))
    (Hf3 : faults w3 = []) (Hi3 : ids w3 = ids w) :
  let seats := (seat_list (pg w) (wh_OrderID p)).*1 in
  let res := payment_plan p r (pg_now w <=? r_HoldExpiresAt r) taken (seat_conflict (pg w) (r_EventID r) seats) in
  let result := run (ApplyPayment inv p) w in
  let d := pg result.2 in
  result.1 = Ok res /\
  status_at d (wh_OrderID p) = pr_Status res /\
  payments d !! wh_ProviderTxnID p = Some (mkPaymentRow (wh_OrderID p) (wh_AmountVND p) (wh_Status p) (Some (pr_Outcome res))) /\
  refunds d !! wh_ProviderTxnID p =
    (if bool_decide (pr_Outcome res = OutcomeRefundRequired)
     then Some (mkRefundRow (wh_OrderID p) (wh_AmountVND p) (pr_Reason res) RefundPending (pg_now w) None) else None) /\
  (if bool_decide (pr_Outcome res = OutcomeApplied)
   then forall s, s ∈ seats -> exists i t, tickets d !! i = Some t /\ t_OrderID t = wh_OrderID p /\ t_SeatID t = s
   else tickets d = tickets (pg w)).
Proof.
  intros seats res. destruct (ApplyPayment_tx_calm inv p r taken w w3) as (after & w1 & Htx & Hf1); try done.
  fold seats res in Htx. pose proof Hcalm as [Hf _].
  destruct (ApplyPayment_run inv p w) as [H1 [Hp' _]]. rewrite (BeginFunc_calm _ w _ w1 Hf Htx Hf1) in H1, Hp'. cbn [fst snd] in H1, Hp'.
  cbn zeta. rewrite Hp'. split; [done|].
  destruct (ApplyPayment_tx_cases inv _ _ _ _ _ _ Htx Hok) as [(_ & _ & [[Hbad _]|[[q Hbad] _]])|(row & a & d1 & Hrow & _ & Hset & Ha)]; [congruence..|].
  assert (row = r) as -> by congruence. cbn zeta in Ha.
  assert (Hd : same_books (pg w1) (with_outcome (wh_ProviderTxnID p) (pr_Outcome res) d1)).
  { destruct a; [destruct Ha as (m & _ & _ & _ & ->)|destruct Ha as [_ ->]]; done. }
  destruct Hd as (E1 & _ & E3 & E4 & E5). unfold status_at. rewrite <- E1, <- E3, <- E4, <- E5. clear E1 E3 E4 E5 Ha.
  assert (Hpay : payments d1 = payments (recorded p (pg w))) by (by destruct Hset).
  assert (Hnoref : refunds (pg w) !! wh_ProviderTxnID p = None).
  { destruct (refunds (pg w) !! wh_ProviderTxnID p) as [f|] eqn:Hfr; [|done].
    destruct (ok_refund _ Hok _ f Hfr) as (q & st & Hq & _). congruence. }
  split_and!.
  - destruct Hset; simpl; rewrite ?Hr, ?lookup_insert_eq; done.
  - unfold with_outcome. simpl. rewrite Hpay. simpl. by rewrite lookup_alter_eq, lookup_insert_eq.
  - destruct Hset; simpl; rewrite ?lookup_insert_eq; done.
  - destruct Hset as [|l _ _ _ Hn1 _ Hin| |]; simpl; try done. intros s Hs.
    assert (s ∈ l.*2) as Hsl.
    { apply Hin. subst seats. unfold seat_list in Hs. rewrite <- list_fmap_compose in Hs.
      apply list_elem_of_fmap in Hs as ([s' x] & -> & Hs). apply seats_of_elem in Hs. by exists x. }
    apply list_elem_of_fmap in Hsl as ([i s'] & -> & Hsl). exists i, (mkTicketRow (wh_OrderID p) (r_EventID r) s' None None).
    split; [|done]. apply (add_tickets_lookup (wh_OrderID p) (r_EventID r) l (recorded p (pg w))); [done|]. left. by exists s'.
Qed.

(** A webhook repeated is harmless. Once a transaction id has been
    recorded, a webhook carrying it changes no table, whatever fails; when no
    call fails it is answered DUPLICATE (or UNKNOWN_ORDER, for an order that
    does not exist), with the order's present status. *)
Theorem webhook_replay_harmless {R} `{UuidLib} (inv : Inventory R) `{!InventoryFrame inv} (p : Webhook) (w : World R)
    (Hseen : is_Some (payments (pg w) !! wh_ProviderTxnID p)) (Hok : books_ok (pg w)) :
  pg (run (ApplyPayment inv p) w).2 = pg w /\
  (faults w = [] -> Validate p = None ->
   (run (ApplyPayment inv p) w).1 =
     Ok (match orders (pg w) !! wh_OrderID p with
         | Some r => mkPaymentResult OutcomeDuplicate EmptyString (Some (r_Status r))
         | None => mkPaymentResult OutcomeUnknownOrder EmptyString None
         end)).
Proof.
  destruct (ApplyPayment_run inv p w) as [H1 [P1 _]]. split.
  - rewrite P1.
    destruct (BeginFunc_cases (ApplyPayment_tx inv p) w) as [->|(w0 & [[res mo] after] & w1 & Hb & P0 & _ & _ & _ & -> & _)]; [done|].
    rewrite <- P0 in Hok, Hseen |- *.
    destruct (ApplyPayment_tx_cases inv _ _ _ _ _ _ Hb Hok) as [(-> & _)|(row & a & d1 & _ & Hn & _)]; [done|].
    rewrite Hn in Hseen. by destruct Hseen.
  - intros Hf Hv.
    assert (Htx : exists mo after, ApplyPayment_tx inv p w = (Ok (match orders (pg w) !! wh_OrderID p with
         | Some r => mkPaymentResult OutcomeDuplicate EmptyString (Some (r_Status r))
         | None => mkPaymentResult OutcomeUnknownOrder EmptyString None
         end, mo, after), w)).
    { unfold ApplyPayment_tx, mcatch. destruct (orders (pg w) !! wh_OrderID p) as [r|] eqn:Hr.
      - rewrite (select_calm (LockOrderForPayment (wh_OrderID p)) (r, pg_now w <=? r_HoldExpiresAt r))
          by (first [done|unfold LockOrderForPayment; by rewrite Hr]).
        rewrite (stmt_calm_err (InsertPayment _ _ _ _) (EPg NoRows)).
        2:{ done. }
        2:{ unfold InsertPayment. destruct (Validate_ok _ Hv) as (_ & _ & Hst & _).
            assert (negb (bool_decide (wh_Status p = StatusSucceeded)) && negb (bool_decide (wh_Status p = StatusFailed)) = false) as ->.
            { destruct Hst as [->|[-> _]]; reflexivity. }
            by rewrite bool_decide_eq_true_2. }
        cbn zeta. rewrite (mbind_eq _ _ _ _ _ (ListOrderSeats_calm _ w Hf)). by eexists _, _.
      - rewrite (stmt_calm_err (LockOrderForPayment (wh_OrderID p)) (EPg NoRows))
          by (first [done|unfold LockOrderForPayment; by rewrite Hr]). by eexists _, _. }
    destruct Htx as (mo & after & Htx). by rewrite (BeginFunc_calm _ w _ _ Hf Htx Hf) in H1.
Qed.
