(* ===== verification/CreateFlow.v ===== *)
(** * What the answer of Create means

    The create flow with every call free to fail: its answer, success or
    error, tells the truth about the tables. *)

From S2P Require Import Auth Prelude GoLib Effects OrderState CatalogEvent World Frame OrderDB Inventory Locker Ledger Catalog Outbox.
From S2P Require Import OrderRequest OrderService OrderBooks OrderRefine System Flows.
Local Open Scope tr_scope.

Section create.
Context {R : Type} `{UuidLib}.
Implicit Types w : World R.

(** An order with the key, as stored. *)
Definition stored (d : PG) (userID : Z) (idemKey hash : string) (o : Order) : Prop :=
  exists r, orders d !! o_ID o = Some r /\ r_UserID r = userID /\ r_IdempotencyKey r = idemKey /\ r_RequestHash r = hash /\
    o = fromRow r (seat_list d (o_ID o)).

(** What an answer says of the tables before and after. *)
Definition truthful (userID : Z) (idemKey hash : string) (d d' : PG) (ans : res GoErr (Order * bool)) : Prop :=
  match ans with
  | Ok (o, true) => stored d' userID idemKey hash o /\ orders d !! o_ID o = None /\ o_Status o = StatusHeld
  | Ok (o, false) => stored d userID idemKey hash o /\ d' = d
  | Err e => d' = d \/ e = EPg Infra
  end.

Lemma findByKey_spec userID key w :
  books_ok (pg w) ->
  match (run (findByKey userID key) w).1 with
  | Ok (o, hash) => stored (pg w) userID key hash o
  | Err _ => True
  end /\ pg (run (findByKey userID key) w).2 = pg w.
Proof.
  intros Hok. split; [|by apply keeps_books_run, findByKey_frame]. unfold findByKey. rewrite run_bind, run_act.
  destruct (stmt (GetOrderByKey userID key) w) as [[r|e] w1] eqn:H1; [|done]. cbn [fst snd].
  apply stmt_step in H1 as [Hq _]. unfold GetOrderByKey, select, no_rows in Hq.
  destruct (map_to_list _) as [|[id r'] l] eqn:Hl; [done|]. injection Hq as -> Hpg.
  assert ((id, r) ∈ map_to_list (filter (same_key userID key) (orders (pg w)))) as Hin by (rewrite Hl; constructor).
  apply elem_of_map_to_list, map_lookup_filter_Some in Hin as [Ho [Hu Hk]]. cbn [snd] in Hu, Hk.
  rewrite run_bind, run_act. destruct (stmt (ListOrderSeats (r_ID r)) w1) as [[seats|e] w2] eqn:H2; [|done]. cbn [fst snd run].
  apply ListOrderSeats_step in H2 as (Hs & _). rewrite <- Hpg in Hs. exists r. simpl. rewrite (ok_id _ Hok id r Ho) in *. subst seats. by split_and!.
Qed.

Lemma insertHeld_tx_spec ttl id user key hash ev req w o w' :
  insertHeld_tx ttl id user key hash ev req w = (Ok o, w') -> normal_request req -> books_ok (pg w) ->
  stored (pg w') user key hash o /\ orders (pg w) !! o_ID o = None /\ o_Status o = StatusHeld.
Proof.
  intros Hr (Hne & Hnd & Hsort) Hok. unfold insertHeld_tx in Hr. cbn zeta in Hr. set (prices := price_of ev <$> cr_SeatIDs req) in *.
  apply mbind_ok in Hr as (row & w1 & H1 & Hr). apply InsertHeldOrder_step in H1 as (Hn1 & _ & _ & -> & P1 & _).
  apply mbind_ok in Hr as ([] & w2 & H2 & Hr). apply InsertOrderSeats_step in H2 as (Hlen & P2 & _).
  apply mbind_ok in Hr as ([] & w3 & H3 & Hr). unfold mret in Hr. injection Hr as <- <-.
  apply writeEvent_step in H3 as (_ & _ & _ & P4). rewrite P2, P1 in P4. simpl in Hn1. split; [|done].
  exists (held_row (mkInsertHeldOrder id (Event_ID ev) user (sum64 prices) key hash ttl) (pg_now w)).
  rewrite P4. simpl. rewrite lookup_insert_eq. split_and!; try done. unfold seat_list. cbn [log_row order_seats set_outbox].
  rewrite (seats_of_added id (Event_ID ev) (zip (cr_SeatIDs req) prices) (set_orders _ (pg w))).
  - rewrite <- list_fmap_compose. f_equal. rewrite <- (list_fmap_id (zip _ _)) at 1. apply list_fmap_ext. intros i [s x] _. done.
  - by rewrite fst_zip by lia.
  - by rewrite fst_zip by lia.
  - intros s. simpl. destruct (order_seats (pg w) !! (id, s)) as [x|] eqn:Hx; [|done].
    apply (ok_seat _ Hok) in Hx. unfold event_at in Hx. by rewrite Hn1 in Hx.
Qed.

Lemma insertHeld_spec ttl id user key hash ev req w :
  normal_request req -> books_ok (pg w) ->
  let r := run (insertHeld ttl id user key hash ev req) w in
  match r.1 with
  | Ok o => stored (pg r.2) user key hash o /\ orders (pg w) !! o_ID o = None /\ o_Status o = StatusHeld
  | Err e => pg r.2 = pg w \/ e = EPg Infra
  end.
Proof.
  intros Hn Hok. unfold insertHeld. rewrite run_act. destruct (BeginFunc _ w) as [[o|e] w'] eqn:Hb; cbn [fst snd].
  - apply BeginFunc_ok in Hb as (w0 & w1 & Hb & P0 & _ & _ & _ & P1 & _). rewrite P1, <- P0. eapply insertHeld_tx_spec; [exact Hb|done|by rewrite P0].
  - by apply BeginFunc_err in Hb.
Qed.

Section service.
Context (s : Service R) `{!Framed s}.

Lemma claim_step_frame adm orderID claimed : keeps_books (claim_step s adm orderID claimed).
Proof.
  unfold claim_step. destruct adm as [a|]; [|done]. destruct (svc_admissions s) as [l|] eqn:Hl; [|done].
  pose proof (framed_ledger l Hl). destruct claimed; [done|]. apply respects_bind; [apply Claim_frame|]. by intros [[]|].
Qed.

(** One round: an answer, or [None] (try again) with the tables untouched. *)
Lemma place_step_spec user key hash ev norm orderID w :
  normal_request norm -> books_ok (pg w) ->
  let r := run (place_step s user key hash ev norm orderID) w in
  match r.1 with Some ans => truthful user key hash (pg w) (pg r.2) ans | None => pg r.2 = pg w end.
Proof.
  intros Hn Hok. unfold place_step. cbv zeta. rewrite run_bind.
  pose proof (keeps_books_run (Hold (svc_inv s) (Event_ID ev) (cr_SeatIDs norm) orderID (add64 (svc_holdTTL s) (svc_holdGrace s))) w
    (Hold_frame _ _ _ _)) as (Ph & _).
  destruct (run (Hold _ _ _ _ _) w) as [[[|x l]|e] w1]; cbn [fst snd] in *; [|by left..].
  rewrite run_bind. rewrite <- Ph in *. pose proof (insertHeld_spec (svc_holdTTL s) orderID user key hash ev norm w1 Hn Hok) as Hins.
  cbv zeta in Hins. destruct (run (insertHeld _ _ _ _ _ _ _) w1) as [[o|e] w2]; cbn [fst snd] in *; [done|].
  rewrite run_bind.
  destruct (keeps_books_run _ w2 (releaseSeats_frame (svc_inv s) (Event_ID ev) (cr_SeatIDs norm) orderID)) as (Pr & _).
  case_bool_decide as H1; [|case_bool_decide as H2]; cbn [run fst snd truthful]; rewrite Pr.
  - destruct Hins as [Hd|He]; [by left|]. rewrite He in H1. done.
  - destruct Hins as [Hd|He]; [done|]. rewrite He in H2. done.
  - done.
Qed.

Lemma rounds_spec user key hash ev norm adm orderID n claimed w :
  normal_request norm -> books_ok (pg w) ->
  let r := run (rounds s user key hash ev norm adm orderID n claimed) w in truthful user key hash (pg w) (pg r.2) r.1.1.
Proof.
  intros Hn. revert claimed w. induction n as [|n IH]; intros claimed w Hok; cbv zeta; [by left|]. cbn [rounds]. rewrite run_bind.
  destruct (findByKey_spec user key w Hok) as [Hf Pf]. destruct (run (findByKey user key) w) as [found w1]. cbn [fst snd] in *.
  destruct (replay hash found) as [ans|] eqn:Hrep.
  - cbn [run fst snd]. unfold replay in Hrep. destruct found as [[o h]|e].
    + case_bool_decide as Hh; injection Hrep as <-; [|by left]. subst h. done.
    + case_err e; try done; injection Hrep as <-; by left.
  - rewrite run_bind. destruct (keeps_books_run _ w1 (claim_step_frame adm orderID claimed)) as (Pc & _).
    destruct (run (claim_step s adm orderID claimed) w1) as [[c|e] w2]; cbn [fst snd] in *; [|cbn [run fst snd truthful]; left; congruence].
    rewrite run_bind. assert (pg w2 = pg w) as P2 by congruence. rewrite <- P2 in *.
    pose proof (place_step_spec user key hash ev norm orderID w2 Hn Hok) as Hp. cbv zeta in Hp.
    destruct (run (place_step s user key hash ev norm orderID) w2) as [[ans|] w3]; cbn [fst snd run] in *; [done|].
    rewrite <- Hp in *. apply IH. done.
Qed.

(** A step that only reads or calls other systems does not change what an
    answer says. *)
Lemma truthful_before user key hash d d1 d2 ans : d1 = d -> truthful user key hash d1 d2 ans -> truthful user key hash d d2 ans.
Proof. by intros ->. Qed.

Lemma create_locked_spec user key hash ev norm adm w :
  normal_request norm -> books_ok (pg w) ->
  let r := run (create_locked s user key hash ev norm adm) w in truthful user key hash (pg w) (pg r.2) r.1.
Proof.
  intros Hn Hok. cbv zeta. unfold create_locked. rewrite run_bind, run_act.
  assert (pg (NewV7 w).2 = pg w) as P1 by (unfold NewV7; by destruct (ids w) as [|[u|] rest]).
  destruct (NewV7 w) as [[orderID|e] w1]; cbn [fst snd] in *; [|by left]. rewrite run_bind. rewrite <- P1 in *.
  pose proof (rounds_spec user key hash ev norm adm orderID 2 false w1 Hn Hok) as Hr. cbv zeta in Hr.
  destruct (run (rounds s user key hash ev norm adm orderID 2 false) w1) as [[ans claimed] w2]. cbn [fst snd] in *.
  rewrite run_bind. set (un := match adm with Some _ => _ | None => _ end).
  assert (keeps_books un) as Hu.
  { subst un. destruct adm as [a|]; [|done]. destruct (svc_admissions s) as [l|] eqn:Hl; [|done].
    pose proof (framed_ledger l Hl). destruct (_ && _); [|done]. unfold discard. apply respects_bind; [apply Unclaim_frame|done]. }
  destruct (keeps_books_run un w2 Hu) as (P3 & _). cbn [run fst snd]. by rewrite P3.
Qed.
End service.
End create.

(** The whole of [create]. *)
Lemma create_spec {R} `{UuidLib} (s : Service R) `{!Framed s} (userID : Z) (key : UUID) (req : CreateRequest)
    (adm : option Admission) (w : World R) (Hok : books_ok (pg w)) :
  let r := run (create s userID key req adm) w in
  match r.1 with
  | Ok (o, created) =>
      exists ev norm, normalize req ev = Ok norm /\
        truthful userID (uuid_String key) (requestHash norm) (pg w) (pg r.2) (Ok (o, created))
  | Err e => pg r.2 = pg w \/ e = EPg Infra
  end.
Proof.
  cbv zeta. unfold create. rewrite run_bind.
  destruct (keeps_books_run _ w (Catalog_Event_frame (svc_proc s) (cr_EventID req))) as (P1 & _).
  destruct (run (Catalog_Event (svc_proc s) (cr_EventID req)) w) as [[ev|e] w1]; cbn [fst snd] in *.
  2:{ destruct e; by left. }
  destruct (normalize req ev) as [norm|e] eqn:Hn; [|by left]. rewrite run_bind.
  destruct (keeps_books_run _ w1 (SaleOpen_frame (svc_proc s) (Event_ID ev))) as (P2 & _).
  destruct (run (SaleOpen (svc_proc s) (Event_ID ev)) w1) as [[[]|e] w2]; cbn [fst snd negb run] in *; [|left; congruence..].
  cbv zeta. rewrite run_bind.
  destruct (keeps_books_run _ w2 (TryLock_frame (idempotencyLockKey userID (uuid_String key)) idempotencyLockTTL)) as (P3 & _).
  destruct (run (TryLock _ _ _) w2) as [[[token|]|e] w3]; cbn [fst snd run] in *; [..|left; congruence].
  - assert (pg w3 = pg w) as P by congruence. rewrite <- P in *. rewrite run_bind.
    pose proof (create_locked_spec s userID (uuid_String key) (requestHash norm) ev norm adm w3 (normalize_normal _ _ _ Hn) Hok) as Hr.
    cbv zeta in Hr. destruct (run (create_locked _ _ _ _ _ _ _) w3) as [ans w4]. cbn [fst snd] in *. rewrite run_bind.
    assert (keeps_books (discard (Unlock (svc_locks s) (idempotencyLockKey userID (uuid_String key)) token))) as Hu.
    { unfold discard. apply respects_bind; [apply Unlock_frame|done]. }
    destruct (keeps_books_run _ w4 Hu) as (P5 & _). cbn [run fst snd]. rewrite P5.
    destruct ans as [[o created]|e]; [|done]. by exists ev, norm.
  - assert (pg w3 = pg w) as P by congruence. rewrite <- P in *. rewrite run_bind.
    destruct (findByKey_spec userID (uuid_String key) w3 Hok) as [Hf Pf].
    destruct (run (findByKey userID (uuid_String key)) w3) as [found w4]. cbn [fst snd] in *.
    destruct (replay (requestHash norm) found) as [ans|] eqn:Hrep; cbn [run fst snd]; [|by left].
    unfold replay in Hrep. destruct found as [[o h]|e].
    + case_bool_decide as Hh; injection Hrep as <-; [|by left]. subst h. exists ev, norm. done.
    + case_err e; try done; injection Hrep as <-; by left.
Qed.

(** ** Properties *)

(** The answer of Create and CreateAdmitted is the truth, whichever calls
    fail on the way. Success with a new order: the order is stored, HELD, for
    this user, key and request hash, with the seats and prices answered, and
    was not there before. Success with a replay: the order answered is the
    stored one of this user and key, for the same request, and no table
    changed. An error: no table changed, except that after an infrastructure
    error an order may have been committed. *)
Theorem create_answers_truth {R} `{UuidLib} (s : Service R) `{!Framed s} (userID : Z) (key : UUID) (req : CreateRequest)
    (adm : option Admission) (w : World R) (Hok : books_ok (pg w)) :
  let r := run (create s userID key req adm) w in
  match r.1 with
  | Ok (o, created) =>
      exists ev norm, normalize req ev = Ok norm /\
        truthful userID (uuid_String key) (requestHash norm) (pg w) (pg r.2) (Ok (o, created))
  | Err e => pg r.2 = pg w \/ e = EPg Infra
  end.
Proof. by apply create_spec. Qed.
