(* ===== verification/Background.v ===== *)
(** * The background loops: relay, cleanup, expirer

    What one round of each does when nothing fails, and that repeated rounds
    get the work done. *)

From S2P Require Import Prelude GoLib Effects OrderState World Frame OrderDB Inventory Outbox.
From S2P Require Import OrderService OrderExpiry OrderBooks OrderRefine System Flows.
Local Open Scope tr_scope.

(** ** The backlog of the outbox *)

Definition backlog (d : PG) : list (Z * OutboxRow) := merge_sort by_id (map_to_list (filter (unpublished ∅) (outbox d))).

Definition marked (now : Z) (rows : list (Z * OutboxRow)) (d : PG) : PG := set_outbox (mark_all now rows.*1 (outbox d)) d.

#[global] Instance by_id_total {X} : Total (@by_id X).
Proof. intros a b. unfold by_id. lia. Qed.
#[global] Instance by_id_trans {X} : Transitive (@by_id X).
Proof. intros a b c. unfold by_id. lia. Qed.

Lemma backlog_elem d id r : (id, r) ∈ backlog d <-> outbox d !! id = Some r /\ ob_PublishedAt r = None.
Proof.
  unfold backlog. rewrite merge_sort_Permutation, elem_of_map_to_list, map_lookup_filter_Some. unfold unpublished. simpl.
  split; [by intros (? & ? & _)|]. intros [? ?]. split_and!; [done..|]. apply not_elem_of_empty.
Qed.

Lemma backlog_NoDup d : NoDup (backlog d).*1.
Proof. unfold backlog. rewrite merge_sort_Permutation. apply NoDup_fst_map_to_list. Qed.

Lemma sorted_fst {X} (l : list (Z * X)) : StronglySorted by_id l -> StronglySorted Z.le l.*1.
Proof.
  induction 1 as [|x l Hl IH Hx]; [constructor|]. rewrite fmap_cons. constructor; [done|].
  apply Forall_fmap. eapply Forall_impl; [exact Hx|done].
Qed.

Lemma backlog_sorted d : StronglySorted Z.le (backlog d).*1.
Proof. apply sorted_fst, (StronglySorted_merge_sort by_id). Qed.

(** A sorted list of the unpublished rows is the backlog. *)
Lemma backlog_unique d l :
  StronglySorted Z.le l.*1 -> NoDup l.*1 ->
  (forall id r, (id, r) ∈ l <-> outbox d !! id = Some r /\ ob_PublishedAt r = None) -> backlog d = l.
Proof.
  intros Hs Hnd Hin.
  assert (Hp : backlog d ≡ₚ l).
  { apply NoDup_Permutation; [by apply (NoDup_fmap_1 fst), backlog_NoDup|by apply (NoDup_fmap_1 fst)|].
    intros [id r]. by rewrite backlog_elem, Hin. }
  assert (Hk : (backlog d).*1 = l.*1).
  { apply (sorted_elem_eq Z.le); [apply backlog_sorted|done|by apply fmap_Permutation]. }
  assert (Hf : forall k : list (Z * OutboxRow), (forall id r, (id, r) ∈ k -> outbox d !! id = Some r) ->
    k = omap (fun id => (fun r => (id, r)) <$> outbox d !! id) k.*1).
  { induction k as [|[id r] k IH]; intros Hkk; [done|]. cbn. rewrite (Hkk id r) by constructor. simpl. f_equal.
    apply IH. intros. apply Hkk. by constructor. }
  rewrite (Hf (backlog d)) by (intros id r Hi; by apply backlog_elem in Hi as [? _]). rewrite Hk. symmetry. apply Hf.
  intros id r Hi. by apply Hin in Hi as [? _].
Qed.

(** Publishing the first [n] rows leaves the rest. *)
Lemma backlog_marked now n d : backlog (marked now (take n (backlog d)) d) = drop n (backlog d).
Proof.
  set (l := backlog d). assert (Hl : l = take n l ++ drop n l) by (by rewrite take_drop).
  pose proof (backlog_NoDup d) as Hnd. fold l in Hnd. rewrite Hl, fmap_app in Hnd. apply NoDup_app in Hnd as (_ & Hdis & Hnd2).
  apply backlog_unique.
  - pose proof (backlog_sorted d) as Hs. fold l in Hs. rewrite Hl, fmap_app in Hs. by apply StronglySorted_app in Hs as (_ & _ & ?).
  - done.
  - intros id r. assert (Hel : (id, r) ∈ l <-> (id, r) ∈ take n l \/ (id, r) ∈ drop n l) by (rewrite Hl at 1; apply elem_of_app).
    pose proof (backlog_elem d id r) as Hbe. fold l in Hbe. rewrite Hbe in Hel. cbn [marked set_outbox outbox]. rewrite mark_all_lookup.
    assert (Hfst : forall k : list (Z * OutboxRow), (id, r) ∈ k -> id ∈ k.*1) by (intros k Hk; apply list_elem_of_fmap; by exists (id, r)).
    case_decide as Hin.
    + split.
      * intros Hd. destruct (Hdis id Hin). by apply Hfst.
      * intros [Hm Hpub]. apply fmap_Some in Hm as (r0 & _ & ->). done.
    + rewrite Hel. split; [by right|]. intros [Ht|Hd]; [|done]. destruct Hin. by apply Hfst.
Qed.

Section relay.
Context {R : Type}.
Implicit Types w : World R.

(** The world after a round of the relay. *)
Definition after_relay w : World R :=
  let rows := take RelayBatchSize (backlog (pg w)) in
  set_klog (klog w ++ (record_of <$> rows)) (set_pg (marked (pg_now w) rows (pg w)) w).

Lemma ProduceSync_calm rs w : faults w = [] -> ProduceSync rs w = (Ok tt, set_klog (klog w ++ rs) w).
Proof.
  revert w. induction rs as [|r rs IH]; intros w Hf; cbn [ProduceSync]; [rewrite app_nil_r; by destruct w|].
  unfold mcatch. unfold produce at 1. unfold call. rewrite pop_fault_nil by done. rewrite IH by done. simpl. by rewrite <- app_assoc.
Qed.

Lemma Relay_calm w :
  faults w = [] -> run (Relay_RunOnce ∅) w = (Ok (length (take RelayBatchSize (backlog (pg w)))), after_relay w).
Proof.
  intros Hf. unfold Relay_RunOnce. rewrite run_act. apply BeginFunc_calm; [done| |done]. unfold RunOnce_tx.
  rewrite (mbind_eq _ _ w (take RelayBatchSize (backlog (pg w))) w) by by apply select_calm.
  unfold after_relay. destruct (take RelayBatchSize (backlog (pg w))) as [|x l] eqn:Hl.
  - unfold mret, marked. simpl. rewrite app_nil_r. by destruct w as [[] ? ? ? ? ? ? ? ? ? ? ? ?].
  - rewrite (mbind_eq _ _ _ _ _ (ProduceSync_calm _ w Hf)).
    erewrite mbind_eq; [|by apply stmt_calm]. unfold mret. by destruct w.
Qed.

(** [n] rounds in a row. *)
Fixpoint relay_rounds (n : nat) w : World R :=
  match n with O => w | S n => relay_rounds n (run (Relay_RunOnce ∅) w).2 end.

Lemma relay_rounds_calm n w :
  faults w = [] ->
  faults (relay_rounds n w) = [] /\ backlog (pg (relay_rounds n w)) = drop (n * RelayBatchSize) (backlog (pg w)) /\
  klog (relay_rounds n w) = klog w ++ (record_of <$> take (n * RelayBatchSize) (backlog (pg w))).
Proof.
  revert w. induction n as [|n IH]; intros w Hf; [cbn [relay_rounds]; by rewrite take_0, app_nil_r|].
  cbn [relay_rounds]. rewrite Relay_calm by done. cbn [snd].
  destruct (IH (after_relay w) Hf) as (H1 & H2 & H3). split; [done|].
  assert (backlog (pg (after_relay w)) = drop RelayBatchSize (backlog (pg w))) as Hb by apply backlog_marked.
  rewrite H2, H3, Hb, drop_drop. split; [f_equal; lia|]. unfold after_relay. cbn [klog set_klog]. rewrite <- app_assoc. f_equal.
  rewrite <- fmap_app, take_take_drop. done.
Qed.
End relay.

(** ** Expired orders *)

Section expiry.
Context {R : Type} `{UuidLib} (inv : Inventory R).
Implicit Types w : World R.

Definition expiry_message (o : Order) : Message := event_message TopicOrders OrderExpired (orderEvent o).

Lemma write_all_calm l w :
  calm w ->
  exists m, write_all l w = (Ok tt, put (outbox_seq w + Z.of_nat (length l)) (set_outbox m (pg w)) w) /\
    (forall i, i < outbox_seq w -> m !! i = outbox (pg w) !! i) /\
    (forall i, is_Some (m !! i) -> i < outbox_seq w + Z.of_nat (length l)) /\
    forall j o, l !! j = Some o ->
      m !! (outbox_seq w + Z.of_nat j) = Some (outbox_row (outbox_seq w + Z.of_nat j) (pg_now w) (expiry_message o)).
Proof.
  revert w. induction l as [|o l IH]; intros w [Hf Hb]; cbn [write_all].
  { exists (outbox (pg w)). split; [|split_and!; [done|intros i Hi; apply Hb in Hi; cbn in *; lia|done]]. unfold mret. rewrite Z.add_0_r. by destruct w as [[] ? ? ? ? ? ? ? ? ? ? ? ?]. }
  set (w1 := put (outbox_seq w + 1) (log_row (outbox_seq w) (pg_now w) (expiry_message o) (pg w)) w).
  assert (Hc1 : calm w1).
  { split; [done|]. intros i [x Hx]. cbn in Hx |- *. apply lookup_insert_Some in Hx as [[<- _]|[_ Hx]]; [lia|].
    specialize (Hb i ltac:(eauto)). cbn in Hb. lia. }
  destruct (IH w1 Hc1) as (m & Hm & Hold & Hlt & Hnew). exists m. split_and!.
  - unfold writeOrderEvent. rewrite (mbind_eq _ _ w tt w1); [rewrite Hm; cbn [length]|].
    + by replace (outbox_seq w + Z.of_nat (S (length l))) with (outbox_seq w1 + Z.of_nat (length l)) by (cbn; lia).
    + apply writeEvent_calm; [done|]. by apply below_free in Hb.
  - intros i Hi. rewrite Hold by (cbn; lia). cbn. by rewrite lookup_insert_ne by lia.
  - intros i Hi. apply Hlt in Hi. cbn in *. lia.
  - intros [|j] o' Hj; cbn in Hj.
    + injection Hj as <-. rewrite Z.add_0_r, Hold by (cbn; lia). cbn. by rewrite lookup_insert_eq.
    + specialize (Hnew j o' Hj). cbn in Hnew. replace (outbox_seq w + Z.of_nat (S j)) with (outbox_seq w + 1 + Z.of_nat j) by lia. done.
Qed.

Lemma expire_all_lookup now l (m : gmap UUID OrderRow) id :
  NoDup l.*1 -> (forall i r, (i, r) ∈ l -> m !! i = Some r) ->
  expire_all now l m !! id = if decide (id ∈ l.*1) then set_status StatusExpired now <$> m !! id else m !! id.
Proof.
  unfold expire_all. revert m. induction l as [|[i r] l IH]; intros m Hnd Hl; cbn [fold_left].
  { rewrite decide_False by apply not_elem_of_nil. done. }
  rewrite fmap_cons in *. apply NoDup_cons in Hnd as [Hni Hnd]. cbn [fst snd] in *.
  rewrite IH; [|done|].
  2:{ intros j q Hj. rewrite lookup_insert_ne; [apply Hl; by constructor|]. intros <-. apply Hni, list_elem_of_fmap. by exists (i, q). }
  destruct (decide (id = i)) as [->|Hne].
  - rewrite decide_False, decide_True by (done || constructor). by rewrite lookup_insert_eq, (Hl i r) by constructor.
  - rewrite lookup_insert_ne by done. by rewrite (decide_ext (id ∈ l.*1) (id ∈ i :: l.*1)) by set_solver.
Qed.

(** A full batch, or every order that was due. *)
Lemma due_orders_complete batch skip now d id r :
  orders d !! id = Some r -> due now skip (id, r) ->
  id ∈ (due_orders batch skip now d).*1 \/ length (due_orders batch skip now d) = batch.
Proof.
  intros Hr Hd. unfold due_orders. set (l := merge_sort _ _).
  assert ((id, r) ∈ l) as Hin.
  { unfold l. rewrite merge_sort_Permutation, elem_of_map_to_list. by apply map_lookup_filter_Some. }
  destruct (decide (batch <= length l)%nat); [right; rewrite length_take; lia|left].
  rewrite take_ge by lia. apply list_elem_of_fmap. by exists (id, r).
Qed.

(** The batch [l] has expired: its orders changed status, one message each. *)
Definition expired_batch (l : list (UUID * OrderRow)) (w w' : World R) : Prop :=
  (forall id, orders (pg w') !! id =
     if decide (id ∈ l.*1) then set_status StatusExpired (pg_now w) <$> orders (pg w) !! id else orders (pg w) !! id) /\
  (forall i, i < outbox_seq w -> outbox (pg w') !! i = outbox (pg w) !! i) /\
  forall j id r, l !! j = Some (id, r) ->
    exists o, o_ID o = id /\ o_Status o = StatusExpired /\
      outbox (pg w') !! (outbox_seq w + Z.of_nat j) =
        Some (outbox_row (outbox_seq w + Z.of_nat j) (pg_now w) (expiry_message o)).

(** The seats of each order of a batch are attached by its id. *)
Lemma seats_attached (d : PG) ids id :
  id ∈ ids ->
  omap (fun x : UUID * string * Z => if decide (x.1.1 = id) then Some (x.1.2, x.2) else None)
    (mjoin ((fun id => (fun kv : string * OrderSeatRow => (id, kv.1, os_PriceVnd kv.2)) <$> seats_of (order_seats d) id)
              <$> merge_sort N.le (remove_dups ids))) = seat_list d id.
Proof.
  intros Hin. set (l := merge_sort _ _). assert (id ∈ l /\ NoDup l) as [Hl Hnd].
  { unfold l. rewrite !merge_sort_Permutation, elem_of_remove_dups. split; [done|apply NoDup_remove_dups]. }
  clearbody l. set (g := fun x : UUID * string * Z => _).
  assert (forall j (k : list (string * OrderSeatRow)), omap g ((fun kv => (j, kv.1, os_PriceVnd kv.2)) <$> k) =
    if decide (j = id) then (fun kv => (kv.1, os_PriceVnd kv.2)) <$> k else []) as Hg.
  { intros j k. induction k as [|[s x] k IH]; [by case_decide|]. cbn. rewrite IH. unfold g. cbn. by destruct (decide (j = id)). }
  set (f := fun id => (fun kv : string * OrderSeatRow => (id, kv.1, os_PriceVnd kv.2)) <$> seats_of (order_seats d) id).
  assert (forall j k, omap g (mjoin (f <$> j :: k)) =
    (if decide (j = id) then seat_list d j else []) ++ omap g (mjoin (f <$> k))) as Hcons.
  { intros j k. rewrite fmap_cons. cbn. rewrite omap_app. f_equal. unfold f. rewrite Hg. done. }
  assert (forall k, id ∉ k -> omap g (mjoin (f <$> k)) = []) as Hnone.
  { induction k as [|j k IH]; intros Hk; [done|]. apply not_elem_of_cons in Hk as [Hne Hk]. by rewrite Hcons, decide_False, IH. }
  change (omap g (mjoin (f <$> l)) = seat_list d id).
  clear Hin. induction l as [|j l IH]; [by apply not_elem_of_nil in Hl|]. apply NoDup_cons in Hnd as [Hni Hnd]. rewrite Hcons.
  destruct (decide (j = id)) as [->|Hne]; [by rewrite Hnone, app_nil_r|]. apply IH; [|done].
  by apply elem_of_cons in Hl as [->|].
Qed.

(** The orders of a batch as [RunOnce] keeps them. *)
Definition expired_view (d : PG) (r : OrderRow) : Order :=
  mkOrder (r_ID r) (r_EventID r) (r_UserID r) StatusExpired (r_TotalVnd r) 0 0 0 (seat_list d (r_ID r)).

Lemma expire_tx_calm w :
  calm w -> (forall id r, orders (pg w) !! id = Some r -> r_ID r = id) ->
  let l := due_orders ExpiryBatchSize (locked w) (pg_now w) (pg w) in
  exists n d, expire_tx w = (Ok (expired_view (pg w) <$> (snd <$> l)), put n d w) /\ outbox_below (n, d) /\
    tickets d = tickets (pg w) /\ order_seats d = order_seats (pg w) /\ expired_batch l w (put n d w).
Proof.
  intros Hc Hid l. destruct (due_orders_spec ExpiryBatchSize (locked w) (pg_now w) (pg w)) as [Hnd Hl]. fold l in Hnd, Hl.
  set (w1 := put (outbox_seq w) (set_orders (expire_all (pg_now w) l (orders (pg w))) (pg w)) w).
  assert (Hs : expire_stmt w = (Ok (snd <$> l), w1)) by (apply stmt_calm; [apply Hc|done]).
  assert (Horders : forall id, orders (pg w1) !! id =
     if decide (id ∈ l.*1) then set_status StatusExpired (pg_now w) <$> orders (pg w) !! id else orders (pg w) !! id).
  { intros id. apply expire_all_lookup; [done|]. intros i r Hi. by apply Hl. }
  unfold expire_tx. rewrite (mbind_eq _ _ _ _ _ Hs). destruct (snd <$> l) as [|r0 rs] eqn:Hrows.
  { exists (outbox_seq w), (pg w1). apply fmap_nil_inv in Hrows as Hnil. split_and!; [done|apply Hc|done..|].
    split_and!; [done..|]. intros j id r Hj. by rewrite Hnil in Hj. }
  rewrite <- Hrows. erewrite mbind_eq; [|by apply select_calm; [apply Hc|]]. cbv zeta.
  assert (expired_order (mjoin ((fun id => (fun kv : string * OrderSeatRow => (id, kv.1, os_PriceVnd kv.2)) <$>
      seats_of (order_seats (pg w1)) id) <$> merge_sort N.le (remove_dups (r_ID <$> (snd <$> l))))) <$> (snd <$> l) =
    expired_view (pg w) <$> (snd <$> l)) as ->.
  { apply list_fmap_ext. intros i r Hi. unfold expired_order, expired_view. f_equal.
    transitivity (seat_list (pg w1) (r_ID r)); [|done]. apply seats_attached, list_elem_of_fmap.
    exists r. split; [done|]. by eapply list_elem_of_lookup_2. }
  set (os := expired_view (pg w) <$> (snd <$> l)).
  destruct (write_all_calm os w1 Hc) as (m & Hm & Hold & Hlt & Hnew). do 2 eexists. split; [by rewrite (mbind_eq _ _ _ _ _ Hm)|].
  split_and!; [exact Hlt|done..|]. split_and!; [exact Horders|exact Hold|]. intros j id r Hj.
  unfold os in *. eexists. split_and!; [| |apply Hnew; by rewrite !list_lookup_fmap, Hj]; [|done].
  destruct (Hl id r) as (Hr & _); [by eapply list_elem_of_lookup_2|]. by apply Hid.
Qed.

(** A round: the batch commits, and then its seats are given back. *)
Lemma Expirer_calm_run w :
  calm w -> (forall id r, orders (pg w) !! id = Some r -> r_ID r = id) ->
  let l := due_orders ExpiryBatchSize (locked w) (pg_now w) (pg w) in
  let os := expired_view (pg w) <$> (snd <$> l) in
  exists n d, let w1 := put n d w in
    run (Expirer_RunOnce inv) w = (Ok (length l), match os with [] => w1 | _ => (run (releaseExpired inv os) w1).2 end) /\
    outbox_below (n, d) /\ tickets d = tickets (pg w) /\ order_seats d = order_seats (pg w) /\ expired_batch l w w1.
Proof.
  intros Hc Hid l os. destruct (expire_tx_calm w Hc Hid) as (n & d & Hm & Hrest). fold l os in Hm, Hrest. exists n, d. cbv zeta. split; [|done].
  assert (length os = length l) as Hlen by (unfold os; by rewrite !length_fmap).
  unfold Expirer_RunOnce. change (negb (CanTransition StatusHeld StatusExpired)) with false. cbv iota.
  rewrite run_bind, run_act, (BeginFunc_calm _ w os (put n d w)) by (done || apply Hc). cbn [fst snd].
  destruct os as [|o os']; [by rewrite <- Hlen|]. rewrite run_bind. unfold discard. rewrite run_bind. cbn [run fst snd]. by rewrite Hlen.
Qed.

Lemma Expirer_calm w :
  InventoryFrame inv -> calm w -> (forall id r, orders (pg w) !! id = Some r -> r_ID r = id) ->
  let l := due_orders ExpiryBatchSize (locked w) (pg_now w) (pg w) in
  exists w', run (Expirer_RunOnce inv) w = (Ok (length l), w') /\ expired_batch l w w'.
Proof.
  intros Hinv Hc Hid l. destruct (Expirer_calm_run w Hc Hid) as (n & d & Hr & _ & _ & _ & Hb). fold l in Hr, Hb. eexists. split; [exact Hr|].
  destruct (expired_view (pg w) <$> (snd <$> l)) as [|o os]; [done|].
  destruct (keeps_books_run _ (put n d w) (releaseExpired_frame inv (o :: os))) as (Hpg & _). unfold expired_batch. by rewrite Hpg.
Qed.
End expiry.

(** ** Cleaning the outbox up *)

Section cleanup.
Context {R : Type}.
Implicit Types w : World R.

(** What Cleanup is to delete, and what it is to keep. *)
Definition too_old (now : Z) : Z * OutboxRow -> Prop := published_before (now - Microseconds Retention).
#[global] Instance too_old_dec now kv : Decision (too_old now kv).
Proof. unfold too_old. apply _. Defined.

Definition old_count (now : Z) (d : PG) : nat := size (filter (too_old now) (outbox d)).
Definition keep_recent (now : Z) (d : PG) : PG := set_outbox (filter (fun kv => ~ too_old now kv) (outbox d)) d.

Lemma old_rows_facts n now d :
  length (old_rows Retention n now d) = Nat.min n (old_count now d) /\
  NoDup (old_rows Retention n now d).*1 /\
  forall id r, (id, r) ∈ old_rows Retention n now d -> outbox d !! id = Some r /\ too_old now (id, r).
Proof.
  unfold old_rows, old_count. change (filter (published_before _) (outbox d)) with (filter (too_old now) (outbox d)).
  set (l := merge_sort _ _). assert (l ≡ₚ map_to_list (filter (too_old now) (outbox d))) as Hp by apply merge_sort_Permutation.
  split_and!.
  - by rewrite length_take, Hp, length_map_to_list.
  - rewrite fmap_take. eapply sublist_NoDup; [|apply sublist_take]. rewrite Hp. apply NoDup_fst_map_to_list.
  - intros id r Hin. assert ((id, r) ∈ l) as Hl by (rewrite <- (take_drop n l); apply elem_of_app; by left).
    rewrite Hp in Hl. by apply elem_of_map_to_list, map_lookup_filter_Some in Hl.
Qed.

(** A chunk of [n] rows: either all the old rows are gone, or [n] fewer are left. *)
Lemma delete_chunk n now d :
  let l := old_rows Retention n now d in
  let d' := set_outbox (fold_left (fun m kv => delete kv.1 m) l (outbox d)) d in
  keep_recent now d' = keep_recent now d /\ old_count now d' = (old_count now d - length l)%nat.
Proof.
  intros l d'. destruct (old_rows_facts n now d) as (Hlen & Hnd & Hl). fold l in Hlen, Hnd, Hl.
  assert (Hlk : forall id, outbox d' !! id = if decide (id ∈ l.*1) then None else outbox d !! id) by apply delete_all_lookup.
  assert (Hold : forall id, id ∈ l.*1 -> exists r, outbox d !! id = Some r /\ too_old now (id, r)).
  { intros id Hin. apply list_elem_of_fmap in Hin as ([i r] & -> & Hin). exists r. by apply Hl. }
  split.
  - transitivity (set_outbox (filter (fun kv => ~ too_old now kv) (outbox d')) d); [done|].
    unfold keep_recent. f_equal. apply map_eq. intros id. apply option_eq. intros r. rewrite !map_lookup_filter_Some, Hlk. case_decide as Hin; [|done]. split; [by intros [? _]|].
    intros [Hr Hn]. destruct (Hold id Hin) as (r' & Hr' & Ho). assert (r' = r) as -> by congruence. done.
  - unfold old_count. rewrite <- !size_dom.
    assert (dom (filter (too_old now) (outbox d')) = dom (filter (too_old now) (outbox d)) ∖ (list_to_set l.*1 : gset Z)) as ->.
    { apply set_eq. intros id. rewrite elem_of_difference, elem_of_list_to_set, !elem_of_dom. split.
      - intros [r Hr]. apply map_lookup_filter_Some in Hr as [Hr Ho]. rewrite Hlk in Hr. case_decide; [done|].
        split; [|done]. exists r. by apply map_lookup_filter_Some.
      - intros [[r Hr] Hni]. apply map_lookup_filter_Some in Hr as [Hr Ho]. exists r. apply map_lookup_filter_Some.
        by rewrite Hlk, decide_False. }
    rewrite size_difference.
    + rewrite size_list_to_set by done. by rewrite length_fmap.
    + intros id Hin. apply elem_of_list_to_set in Hin. destruct (Hold id Hin) as (r & Hr & Ho). apply elem_of_dom. exists r.
      by apply map_lookup_filter_Some.
Qed.

Lemma no_old_rows now d : old_count now d = O -> keep_recent now d = d.
Proof.
  unfold old_count, keep_recent. intros He. apply map_size_empty_inv in He.
  assert (filter (fun kv => ~ too_old now kv) (outbox d) = outbox d) as ->; [|by destruct d].
  apply map_eq. intros id. apply option_eq. intros r. rewrite map_lookup_filter_Some. split; [by intros [? _]|].
  intros Hr. split; [done|]. intros Ho. eapply map_filter_empty_not_lookup in He; [|exact Ho]. done.
Qed.

Lemma cleanup_loop_calm fuel total w :
  faults w = [] -> (old_count (pg_now w) (pg w) < fuel * cleanupMaxBatch)%nat ->
  run (cleanup_loop fuel total) w =
    (((total + old_count (pg_now w) (pg w))%nat, None), put (outbox_seq w) (keep_recent (pg_now w) (pg w)) w).
Proof.
  assert (0 < cleanupMaxBatch)%nat as Hpos by (unfold cleanupMaxBatch; lia).
  revert total w. induction fuel as [|fuel IH]; intros total w Hf Hfuel; [lia|]. cbn [cleanup_loop]. rewrite run_bind, run_act.
  set (n := cleanupMaxBatch) in *. set (d := pg w) in *. set (now := pg_now w) in *.
  destruct (old_rows_facts n now d) as (Hlen & _). destruct (delete_chunk n now d) as [Hk Hc].
  set (d1 := set_outbox _ _) in Hk, Hc.
  rewrite (stmt_calm _ (length (old_rows Retention n now d)) d1) by done. cbn [fst snd].
  case_match eqn:Hlt.
  - apply Nat.ltb_lt in Hlt. cbn [run]. f_equal; [f_equal; lia|]. rewrite <- Hk, no_old_rows by lia. done.
  - apply Nat.ltb_ge in Hlt. rewrite IH; [|done|].
    + change (pg_now (put _ _ w)) with now. change (pg (put _ d1 w)) with d1. rewrite Hk, Hc. do 2 f_equal. lia.
    + change (pg_now (put _ _ w)) with now. change (pg (put _ d1 w)) with d1. rewrite Hc. lia.
Qed.
(** What [n] deletions may do to the outbox, counted or not. *)
Record cleaned (now : Z) (n : nat) (d d' : PG) : Prop := {
  cl_only : d' = set_outbox (outbox d') d;
  cl_sub id row : outbox d' !! id = Some row -> outbox d !! id = Some row;
  cl_recent : keep_recent now d' = keep_recent now d;
  cl_count : (n + size (outbox d') <= size (outbox d))%nat;
}.

Lemma size_old_recent now (d : PG) : size (outbox d) = (old_count now d + size (outbox (keep_recent now d)))%nat.
Proof.
  unfold old_count, keep_recent. cbn. rewrite <- map_size_disj_union by apply map_disjoint_filter_complement. by rewrite map_filter_union_complement.
Qed.

Lemma delete_chunk_cleaned n now d :
  let l := old_rows Retention n now d in
  cleaned now (length l) d (set_outbox (fold_left (fun m kv => delete kv.1 m) l (outbox d)) d).
Proof.
  cbv zeta. destruct (old_rows_facts n now d) as (Hlen & _). destruct (delete_chunk n now d) as [Hk Hc]. split; [done| |done|].
  - intros id row. cbn. rewrite delete_all_lookup. by case_decide.
  - rewrite (size_old_recent now d), (size_old_recent now (set_outbox _ _)), Hk, Hc. lia.
Qed.

Lemma cleaned_trans now n m d1 d2 d3 : cleaned now n d1 d2 -> cleaned now m d2 d3 -> cleaned now (n + m) d1 d3.
Proof. intros [A1 A2 A3 A4] [B1 B2 B3 B4]. split; [rewrite B1; by rewrite A1|auto|congruence|lia]. Qed.

Lemma cleaned_refl now d : cleaned now 0 d d.
Proof. split; [by destruct d|done|done|lia]. Qed.

(** However the chunks go, and whatever they answer. *)
Lemma cleanup_loop_cleaned fuel total w :
  let r := run (cleanup_loop fuel total) w in
  exists n, r.1.1 = (total + n)%nat /\ cleaned (pg_now w) n (pg w) (pg r.2).
Proof.
  cbv zeta. revert total w. induction fuel as [|fuel IH]; intros total w; cbn [cleanup_loop run fst snd]; [exists 0%nat; split; [lia|apply cleaned_refl]|].
  rewrite run_bind, run_act. set (x := stmt _ w).
  assert (Hx : pg_now x.2 = pg_now w /\ exists n, (forall k, x.1 = Ok k -> k = n) /\ cleaned (pg_now w) (if is_ok x.1 then n else 0) (pg w) (pg x.2)).
  { subst x. unfold stmt, call. destruct (pop_fault w) as [fl w0] eqn:Hp. apply pop_fault_books in Hp as [(P0 & Q0 & G0 & K0 & N0) _].
    set (l := old_rows Retention cleanupMaxBatch (pg_now w0) (pg w0)). pose proof (delete_chunk_cleaned cleanupMaxBatch (pg_now w0) (pg w0)) as Hc.
    rewrite <- P0, <- N0. destruct fl; cbn; (split; [done|]); exists (length l).
    - split; [by intros k [= <-]|exact Hc].
    - split; [done|apply cleaned_refl].
    - split; [done|]. destruct Hc as [C1 C2 C3 C4]. split; try done. lia. }
  destruct Hx as (Hn & n & Hk & Hc). destruct x as [[k|e] w1]; cbn [fst snd is_ok run] in *; [|by exists 0%nat; split; [lia|]].
  rewrite (Hk k eq_refl) in *. destruct (Nat.ltb n cleanupMaxBatch); cbn [run fst snd]; [by exists n|].
  destruct (IH (total + n)%nat w1) as (m & Hm & Hcm). exists (n + m)%nat. rewrite Hm. split; [lia|]. rewrite Hn in Hcm. by eapply cleaned_trans.
Qed.
End cleanup.

(** ** Properties *)

(** The relay drains the outbox: [n] rounds in which no call fails
    publish the first [500 n] unpublished rows, each once and in the order of
    their ids, and exactly those stop being unpublished. *)
Theorem relay_drains {R} (n : nat) (w : World R) (Hf : faults w = []) :
  klog (relay_rounds n w) = klog w ++ (record_of <$> take (n * RelayBatchSize) (backlog (pg w))) /\
  backlog (pg (relay_rounds n w)) = drop (n * RelayBatchSize) (backlog (pg w)).
Proof. destruct (relay_rounds_calm n w Hf) as (_ & H1 & H2). done. Qed.

(** C32. Cleanup deletes what is old and nothing else. Whatever calls fail: it
    changes the outbox only, by deleting rows, never one that was not published
    or was published within the last seven days, and it reports no more rows
    than it deleted. When no call fails, with fuel for one chunk of 10000 more
    than the old rows fill, it ends without error, no row published before
    that is left, and its answer is the number of rows deleted. *)
Theorem cleanup_deletes_old {R} (fuel : nat) (w : World R) :
  let r := run (Cleanup fuel) w in
  let recent row := forall t, ob_PublishedAt row = Some t -> pg_now w - 7 * 24 * 3600 * 1000000 <= t in
  pg r.2 = set_outbox (outbox (pg r.2)) (pg w) /\
  (forall id row, outbox (pg r.2) !! id = Some row -> outbox (pg w) !! id = Some row) /\
  (forall id row, outbox (pg w) !! id = Some row -> recent row -> outbox (pg r.2) !! id = Some row) /\
  (r.1.1 + size (outbox (pg r.2)) <= size (outbox (pg w)))%nat /\
  (faults w = [] -> (old_count (pg_now w) (pg w) < fuel * cleanupMaxBatch)%nat ->
     r = ((old_count (pg_now w) (pg w), None), put (outbox_seq w) (keep_recent (pg_now w) (pg w)) w) /\
     (forall id row, outbox (pg r.2) !! id = Some row -> recent row) /\
     (r.1.1 + size (outbox (pg r.2)) = size (outbox (pg w)))%nat).
Proof.
  cbv zeta. unfold Cleanup. destruct (cleanup_loop_cleaned fuel 0 w) as (n & Hn & [C1 C2 C3 C4]).
  assert (Hrecent : forall (d : PG) id row, outbox (keep_recent (pg_now w) d) !! id = Some row <->
    outbox d !! id = Some row /\ forall t, ob_PublishedAt row = Some t -> pg_now w - 7 * 24 * 3600 * 1000000 <= t).
  { intros d id row. cbn. rewrite map_lookup_filter_Some. unfold too_old, published_before. cbn [snd].
    change (Microseconds Retention) with (7 * 24 * 3600 * 1000000). destruct (ob_PublishedAt row) as [t|]; [|naive_solver].
    split; intros [Hr Ht]; (split; [done|]); [intros ? [= <-]; lia|specialize (Ht t eq_refl); lia]. }
  split_and!; [exact C1|exact C2| |lia|].
  - intros id row Hr Ht. assert (outbox (keep_recent (pg_now w) (pg (run (cleanup_loop fuel 0) w).2)) !! id = Some row) as Hk.
    { rewrite C3. by apply Hrecent. }
    by apply Hrecent in Hk as [Hk _].
  - intros Hf Hfuel. rewrite cleanup_loop_calm by done. split; [done|]. cbn [fst snd]. split.
    + intros id row Hr. change (pg (put _ ?d w)) with d in Hr. by apply Hrecent in Hr as [_ Ht].
    + change (pg (put _ ?d w)) with d. symmetry. apply size_old_recent.
Qed.

(** One round of the expirer when no call fails: the batch it takes (at
    most 500 orders, all HELD, past their deadline and not locked) becomes
    EXPIRED and every other order is untouched; every order of the batch has
    its order.expired message, numbered in the order of the batch; it returns
    the size of the batch, and unless that is 500 no order that was due is left. *)
Theorem expirer_round {R} `{UuidLib} (inv : Inventory R) (w : World R) (Hinv : InventoryFrame inv) (Hcalm : calm w)
    (Hid : forall id r, orders (pg w) !! id = Some r -> r_ID r = id) :
  let l := due_orders ExpiryBatchSize (locked w) (pg_now w) (pg w) in
  exists w', run (Expirer_RunOnce inv) w = (Ok (length l), w') /\ expired_batch l w w' /\
    (length l <> ExpiryBatchSize -> forall id r, orders (pg w) !! id = Some r -> due (pg_now w) (locked w) (id, r) ->
       orders (pg w') !! id = Some (set_status StatusExpired (pg_now w) r)).
Proof.
  intros l. destruct (Expirer_calm inv w Hinv Hcalm Hid) as (w' & Hr & Hb). fold l in Hr, Hb. exists w'. split_and!; [done..|].
  intros Hne id r Ho Hd. destruct (due_orders_complete ExpiryBatchSize _ _ _ id r Ho Hd) as [Hin|]; [|done].
  destruct Hb as (Horders & _). by rewrite Horders, decide_True, Ho.
Qed.
