(* ===== verification/Consumer.v ===== *)
(** * Kafka consumers (internal/platform/kafka/consume.go, internal/events/handler.go)

    The loop that hands polled records to a handler, retrying each until it
    succeeds, and commits a batch once all of it is handled; the filter that
    decodes events; the handlers of the ticket issuer and the refund processor
    (order/tickets.go, order/refund.go). The Kafka client is outside the
    repository: what a poll returns is the list [polls], committing offsets
    the parameter [commit]. *)

From S2P Require Import Prelude GoLib Effects OrderState World Frame Outbox.
From S2P Require Import OrderService OrderRefund OrderTickets.
Local Open Scope tr_scope.

(** ** The consumer loop *)

(** What a handler returns: [None] is nil; [kafka.Permanent] marks an error as
    not worth retrying. *)
Inductive HandlerErr := Failed (e : GoErr) | Permanent (e : GoErr).

Definition IsPermanent (e : HandlerErr) : bool := match e with Permanent _ => true | Failed _ => false end.

Definition retryMin : Z := 100 * 1000000.
Definition retryMax : Z := 5 * Second.
Definition next_wait (wait : Z) : Z := Z.min (wait * 2) retryMax.

Section consume.
Context {R : Type}.
Implicit Types w : World R.

Definition KHandler : Type := KRecord -> prog (World R) (option HandlerErr).

(** [time.After(d)] *)
Definition sleep (d : Z) : World R -> unit * World R := fun w =>
  (tt, set_clocks (pg_now w + Microseconds d) (redis_now w + Milliseconds d) w).

(** [process] retries until the record is done with; [patience] is how many
    backoff waits end before ctx does. It returns the waits that are left, or
    [None] when ctx ended first. *)
Fixpoint process (patience : nat) (wait : Z) (handle : KHandler) (r : KRecord) : prog (World R) (option nat) :=
  let! err := handle r in
  match err with
  | None => Ret (Some patience)
  | Some e =>
      if IsPermanent e then Ret (Some patience)
      else
        match patience with
        | O => Ret None
        | S patience =>
            let! _ := act (sleep wait) in
            process patience (next_wait wait) handle r
        end
  end.

Fixpoint process_all (patience : nat) (handle : KHandler) (rs : list KRecord) : prog (World R) (option nat) :=
  match rs with
  | [] => Ret (Some patience)
  | r :: rs =>
      let! left := process patience retryMin handle r in
      match left with
      | None => Ret None
      | Some patience => process_all patience handle rs
      end
  end.

(** The batches polled until ctx ends; the result is how many of them were
    handled as a whole, so that their offsets were committed. *)
Fixpoint Consume (commit : list KRecord -> World R -> res GoErr unit * World R)
    (patience : nat) (handle : KHandler) (polls : list (list KRecord)) : prog (World R) nat :=
  match polls with
  | [] => Ret 0%nat
  | rs :: polls =>
      let! left := process_all patience handle rs in
      match left with
      | None => Ret 0%nat
      | Some patience =>
          let! _ := act (commit rs) in
          let! n := Consume commit patience handle polls in
          Ret (S n)
      end
  end.

Definition Header (r : KRecord) (key : string) : string :=
  match list_find (fun h : string * string => h.1 = key) (k_Headers r) with
  | Some (_, h) => h.2
  | None => EmptyString
  end.

(** ** Subscriptions

    What [NewConsumer] is given: a group reads all of its topics from the
    oldest retained record. Partitions, and who of the group owns them, are the
    client's business: [polls] holds the subscribed records in any order. *)
Record Subscription := mkSubscription { sub_group : string; sub_topics : list string; sub_handler : KHandler }.

Definition subscribed (s : Subscription) (k : KRecord) : Prop := k_Topic k ∈ sub_topics s.
#[global] Instance subscribed_dec s k : Decision (subscribed s k).
Proof. unfold subscribed. apply _. Defined.

Definition kafka_Run (commit : list KRecord -> World R -> res GoErr unit * World R)
    (patience : nat) (s : Subscription) (polls : list (list KRecord)) : prog (World R) nat :=
  Consume commit patience (sub_handler s) polls.

(** The polls of a group that has been through the log. *)
Definition read_all (s : Subscription) (polls : list (list KRecord)) (log : list KRecord) : Prop :=
  mjoin polls ≡ₚ filter (subscribed s) log.

Lemma read_all_elem s polls log k : read_all s polls log -> k ∈ log -> k_Topic k ∈ sub_topics s -> k ∈ mjoin polls.
Proof. intros -> Hk Ht. by apply list_elem_of_filter. Qed.

End consume.
Arguments KHandler R : clear implicits.
Arguments Subscription R : clear implicits.
Arguments mkSubscription {R} sub_group sub_topics sub_handler.

(** ** events.Handler

    [Unmarshal] is encoding/json on the record's value. *)
Module Events.
Definition Handler {R} (Unmarshal : KRecord -> option OrderEvent)
    (fn : OrderEvent -> prog (World R) (option HandlerErr)) (types : list string) : KHandler R := fun r =>
  let t := Header r HeaderEventType in
  if negb (bool_decide (t = EmptyString)) && negb (bool_decide (t ∈ types)) then Ret None
  else
    match Unmarshal r with
    | None => Ret (Some (Permanent (EOther "decode event")))
    | Some ev =>
        if negb (bool_decide (ev_EventType ev ∈ types)) then Ret None else fn ev
    end.
End Events.

(** ** The ticket issuer and the refund processor *)

Section handlers.
Context {R : Type} `{UuidLib} (Unmarshal : KRecord -> option OrderEvent).

Definition TicketIssuer_handle (secret : string) (ev : OrderEvent) : prog (World R) (option HandlerErr) :=
  let! r := Issue secret (ev_OrderID ev) in
  Ret (match r with
       | Err ErrNotFound => Some (Permanent ErrNotFound)
       | Err e => Some (Failed e)
       | Ok _ => None
       end).
Definition TicketIssuer_Handler (secret : string) : KHandler R :=
  Events.Handler Unmarshal (TicketIssuer_handle secret) [OrderPaid].

Definition RefundProcessor_handle (ev : OrderEvent) : prog (World R) (option HandlerErr) :=
  if bool_decide (ev_ProviderTxnID ev = EmptyString)
  then Ret (Some (Permanent (EOther "order.refund_requested without provider_txn_id")))
  else
    let! r := Process (ev_ProviderTxnID ev) in
    Ret (match r with
         | Err ErrRefundNotFound => Some (Permanent ErrRefundNotFound)
         | Err e => Some (Failed e)
         | Ok _ => None
         end).
Definition RefundProcessor_Handler : KHandler R :=
  Events.Handler Unmarshal RefundProcessor_handle [OrderRefundRequested].

(** cmd/ticket/main.go and cmd/refunder/main.go *)
Definition ticket_service (secret : string) : Subscription R :=
  mkSubscription "ticket" [TopicOrders] (TicketIssuer_Handler secret).
Definition refunder_service : Subscription R := mkSubscription "refunder" [TopicOrders] RefundProcessor_Handler.
End handlers.

(** ** The backoff *)

Lemma next_wait_bounds wait : retryMin <= wait <= retryMax -> retryMin <= next_wait wait <= retryMax.
Proof. unfold next_wait, retryMin, retryMax, Second. lia. Qed.

(** The wait before the retry number [n] (from 0). *)
Definition nth_wait (n : nat) : Z := Nat.iter n next_wait retryMin.

Lemma nth_wait_eq n : nth_wait n = Z.min (retryMin * 2 ^ Z.of_nat n) retryMax.
Proof.
  induction n as [|n IH]; [done|]. unfold nth_wait in *. simpl Nat.iter. unfold next_wait at 1. rewrite IH.
  rewrite Nat2Z.inj_succ, Z.pow_succ_r by lia. unfold retryMin, retryMax, Second. lia.
Qed.

(** ** Termination

    A failure that can only come from a failing call uses up one of the
    world's faults, so the retries end. *)
Section live.
Context {R : Type}.
Implicit Types w : World R.

(** The calls that are still to fail. *)
Definition bad w : nat := length (filter (fun f => f <> FOk) (faults w)).

Context (I : World R -> Prop) (handle : KHandler R).
Context (done_ : KRecord -> World R -> Prop).
Context (commit : list KRecord -> World R -> res GoErr unit * World R).

(** A handled record is done with for good; a failure is due to a failing call. *)
Class Handles : Prop := {
  handle_ok r w : I w ->
    let '(e, w') := run (handle r) w in
    I w' /\ (forall q, done_ q w -> done_ q w') /\
    match e with
    | Some (Failed _) => (bad w' < bad w)%nat
    | _ => (bad w' <= bad w)%nat /\ done_ r w'
    end;
  sleep_ok d w : 0 <= d -> I w -> I (sleep d w).2 /\ forall q, done_ q w -> done_ q (sleep d w).2;
  commit_ok rs w : I w ->
    I (commit rs w).2 /\ (bad (commit rs w).2 <= bad w)%nat /\ forall q, done_ q w -> done_ q (commit rs w).2;
}.
Context `{Handles}.

Lemma process_live n wait r w :
  0 <= wait -> I w -> (bad w <= n)%nat ->
  exists m w', run (process n wait handle r) w = (Some m, w') /\ (bad w' <= m)%nat /\ I w' /\ done_ r w' /\
    (forall q, done_ q w -> done_ q w') /\ (bad w' <= bad w)%nat.
Proof.
  revert wait w. induction n as [|n IH]; intros wait w Hwait Hw Hn; cbn [process]; rewrite run_bind;
    pose proof (handle_ok r w Hw) as Hh; destruct (run (handle r) w) as [e w1]; destruct Hh as (Hw1 & Hst & He); cbn [fst snd].
  - destruct e as [[e|e]|]; cbn [IsPermanent]; [lia|..]; destruct He as [Hb Hd]; exists 0%nat, w1; split_and!; (done || lia).
  - destruct e as [[e|e]|]; cbn [IsPermanent]; [|destruct He as [Hb Hd]; exists (S n), w1; split_and!; (done || lia)..].
    rewrite run_bind, run_act. destruct (sleep_ok wait w1 Hwait Hw1) as [Hw2 Hst2].
    destruct (IH (next_wait wait) (sleep wait w1).2) as (m & w' & Hr & Hm & Hi & Hd & Hk & Hb);
      [unfold next_wait, retryMax, Second; lia|done| |].
    { unfold sleep, bad in *. cbn. lia. }
    exists m, w'. split_and!; auto. unfold sleep, bad in *. cbn in *. lia.
Qed.

Lemma process_all_live n rs w :
  I w -> (bad w <= n)%nat ->
  exists m w', run (process_all n handle rs) w = (Some m, w') /\ (bad w' <= m)%nat /\ I w' /\
    (forall r, r ∈ rs -> done_ r w') /\ (forall q, done_ q w -> done_ q w') /\ (bad w' <= bad w)%nat.
Proof.
  revert n w. induction rs as [|r rs IH]; intros n w Hw Hn; cbn [process_all].
  { exists n, w. split_and!; try done. intros r Hr. by apply not_elem_of_nil in Hr. }
  rewrite run_bind. destruct (process_live n retryMin r w ltac:(done) Hw Hn) as (m & w1 & -> & Hm & Hw1 & Hd & Hk & Hb). cbn [fst snd].
  destruct (IH m w1 Hw1 Hm) as (m' & w2 & Hr & Hm' & Hw2 & Hall & Hk2 & Hb2). exists m', w2. split_and!; auto; [|lia].
  intros q Hq. apply elem_of_cons in Hq as [->|Hq]; auto.
Qed.

Lemma Consume_live n polls w :
  I w -> (bad w <= n)%nat ->
  exists w', run (Consume commit n handle polls) w = (length polls, w') /\ I w' /\
    (forall r, r ∈ mjoin polls -> done_ r w') /\ (forall q, done_ q w -> done_ q w') /\ (bad w' <= bad w)%nat.
Proof.
  revert n w. induction polls as [|rs polls IH]; intros n w Hw Hn; cbn [Consume].
  { exists w. split_and!; try done. intros r Hr. by apply not_elem_of_nil in Hr. }
  rewrite run_bind. destruct (process_all_live n rs w Hw Hn) as (m & w1 & -> & Hm & Hw1 & Hd & Hk & Hb1). cbn [fst snd].
  rewrite run_bind, run_act. destruct (commit_ok rs w1 Hw1) as (Hw2 & Hb & Hk2). rewrite run_bind.
  destruct (IH m (commit rs w1).2 Hw2 ltac:(lia)) as (w3 & -> & Hw3 & Hd3 & Hk3 & Hb3). cbn [fst snd run].
  exists w3. split_and!; auto; [|lia]. intros q Hq. apply (elem_of_app rs (mjoin polls) q) in Hq as [Hq|Hq]; auto.
Qed.
End live.
