(* ===== verification/Delivery.v ===== *)
(** * What the consumers achieve

    A failure of a handler on well-formed books can only come from a failing
    call, so the retries of the consumer loop end; what it commits has been
    handled; and, with the relay before it, every paid order gets its
    tickets. *)

From S2P Require Import Prelude GoLib Effects OrderState World Frame OrderDB Inventory Outbox.
From S2P Require Import OrderService OrderPayment OrderRefund OrderTickets OrderBooks OrderRefine System Guarantees Flows Background Consumer.
Local Open Scope tr_scope.

(** ** Where errors come from *)

Section failures.
Context {R : Type} `{UuidLib}.
Implicit Types w : World R.

Definition infra (e : GoErr) : Prop := e = EPg Infra \/ e = EInfra.

(** An error of [m] in [w] is one of [E], or it reports a failing call and
    uses up that fault. *)
Definition fails_by {A} (E : GoErr -> Prop) (m : M R A) w : Prop :=
  match m w with
  | (Ok _, w') => (bad w' <= bad w)%nat
  | (Err e, w') => (bad w' < bad w)%nat /\ infra e \/ (bad w' <= bad w)%nat /\ E e
  end.

Lemma pop_fault_bad w f w0 :
  pop_fault w = (f, w0) -> pg w0 = pg w /\ outbox_seq w0 = outbox_seq w /\ pg_now w0 = pg_now w /\
  gateway w0 = gateway w /\ klog w0 = klog w /\
  (bad w0 <= bad w)%nat /\ (f <> FOk -> (bad w0 < bad w)%nat).
Proof.
  intros Hp. pose proof (pop_fault_books _ _ _ Hp) as [(P & Q & G & K & N) _].
  assert ((bad w0 <= bad w)%nat /\ (f <> FOk -> (bad w0 < bad w)%nat)) as [Hb Hlt]; [|by split_and!].
  unfold pop_fault, bad in *. destruct (faults w) as [|g l] eqn:Hf; injection Hp as <- <-; [by rewrite Hf|].
  cbn [faults set_faults]. rewrite filter_cons. case_decide as Hg; cbn [length]; split; intros; (lia || congruence).
Qed.

Lemma fb_mono {A} (E E' : GoErr -> Prop) (m : M R A) w : (forall e, E e -> E' e) -> fails_by E m w -> fails_by E' m w.
Proof. unfold fails_by. intros HE. destruct (m w) as [[a|e] w']; [done|]. intros [?|[? ?]]; auto. Qed.

Lemma fb_ret {A} E (a : A) w : fails_by E (mret a) w.
Proof. unfold fails_by, mret. lia. Qed.

Lemma fb_bind {A B} E (m : M R A) (k : A -> M R B) w :
  fails_by E m w -> (forall a w1, m w = (Ok a, w1) -> fails_by E (k a) w1) -> fails_by E (mbind m k) w.
Proof.
  unfold fails_by, mbind. destruct (m w) as [[a|e] w1] eqn:Hm; intros Hw Hk; [|done].
  specialize (Hk a w1 eq_refl). destruct (k a w1) as [[b|e] w2]; [lia|]. destruct Hk as [[? ?]|[? ?]]; [left|right]; (split; [lia|done]).
Qed.

Lemma fb_catch {A B} E E' (m : M R A) (k : res GoErr A -> M R B) w :
  fails_by E' m w -> (forall a w1, m w = (Ok a, w1) -> fails_by E (k (Ok a)) w1) ->
  (forall e w1, m w = (Err e, w1) -> E' e -> fails_by E (k (Err e)) w1) ->
  (forall e w1, infra e -> k (Err e) w1 = (Err e, w1)) -> fails_by E (mcatch m k) w.
Proof.
  unfold fails_by, mcatch. destruct (m w) as [[a|e] w1] eqn:Hm; intros Hw Ho He Hi.
  - specialize (Ho a w1 eq_refl). destruct (k (Ok a) w1) as [[b|e] w2]; [lia|]. destruct Ho as [[? ?]|[? ?]]; [left|right]; (split; [lia|done]).
  - destruct Hw as [[Hb Hinf]|[Hb HE]]; [rewrite Hi by done; by left|]. specialize (He e w1 eq_refl HE).
    destruct (k (Err e) w1) as [[b|e'] w2]; [lia|]. destruct He as [[? ?]|[? ?]]; [left|right]; (split; [lia|done]).
Qed.

Lemma fb_call {A} E err (f : M R A) w :
  infra err ->
  (forall v, bad (f v).2 = bad v) ->
  (forall v e, pg v = pg w -> outbox_seq v = outbox_seq w -> pg_now v = pg_now w -> gateway v = gateway w -> (f v).1 = Err e -> E e) ->
  fails_by E (call err f) w.
Proof.
  intros Hi Hf He. unfold fails_by, call. destruct (pop_fault w) as [fl w0] eqn:Hp.
  destruct (pop_fault_bad _ _ _ Hp) as (P & Q & N & G & _ & Hb & Hlt). specialize (Hf w0). specialize (fun e => He w0 e P Q N G).
  destruct (f w0) as [[a|e] w1]; cbn [fst snd] in *; destruct fl; try lia;
    try (left; specialize (Hlt ltac:(done)); split; [lia|done]).
  right. split; [lia|]. by apply He.
Qed.

Lemma fb_stmt {A} E (q : Z -> PG -> res GoErr (A * PG)) w :
  (forall e, q (pg_now w) (pg w) = Err e -> E e) -> fails_by E (stmt q) w.
Proof.
  intros He. apply fb_call; [by left| |].
  - intros v. by destruct (q (pg_now v) (pg v)) as [[a d]|e].
  - intros v e P _ N _. rewrite P, N. destruct (q (pg_now w) (pg w)) as [[a d]|e']; simpl; [done|]. intros [= ->]. by apply He.
Qed.

Lemma fb_on_no_rows {A} E E' (m : M R A) err w :
  fails_by E' m w -> (forall e, E' e -> if decide (e = EPg NoRows) then E err else E e) -> fails_by E (on_no_rows m err) w.
Proof.
  unfold fails_by, on_no_rows, mcatch. destruct (m w) as [[a|e] w1]; intros Hw HE; [done|].
  case_err e; destruct Hw as [[? Hi]|[? He]]; try (by left); try (by destruct Hi); right; (split; [done|]); specialize (HE _ He);
    case_decide; simplify_eq; done.
Qed.

Lemma fb_writeEvent E topic ty ev w : outbox (pg w) !! outbox_seq w = None -> fails_by E (writeEvent topic ty ev) w.
Proof.
  intros Hn. unfold writeEvent. apply fb_bind; [|intros; apply fb_ret]. apply fb_call; [by left| |].
  - intros v. cbv zeta. by case_bool_decide.
  - intros v e P Q _ _. cbv zeta. rewrite Q, P, Hn, bool_decide_eq_false_2; [done|by intros [? ?]].
Qed.

Lemma fb_transition E id from to w r :
  CanTransition from to = true -> orders (pg w) !! id = Some r -> r_Status r = from -> fails_by E (transition id from to) w.
Proof.
  intros Hc Hr Hs. unfold transition. rewrite Hc. apply fb_stmt. intros e He. unfold TransitionOrder in He.
  by rewrite Hr, bool_decide_eq_true_2 in He.
Qed.

Lemma fb_tx {A} E (m : M R A) w :
  (forall v, pg v = pg w -> outbox_seq v = outbox_seq w -> pg_now v = pg_now w -> gateway v = gateway w -> fails_by E m v) ->
  fails_by E (BeginFunc m) w.
Proof.
  intros Hm. unfold fails_by, BeginFunc, Transaction. destruct (pop_fault w) as [fl w0] eqn:Hp.
  destruct (pop_fault_bad _ _ _ Hp) as (P & Q & N & G & _ & Hb & Hlt).
  destruct fl; [|left; split; [by apply Hlt|by left]..]. specialize (Hm w0 P Q N G). unfold fails_by in Hm.
  destruct (m w0) as [[a|e] w1].
  - destruct (pop_fault w1) as [f2 w2] eqn:Hp2. destruct (pop_fault_bad _ _ _ Hp2) as (_ & _ & _ & _ & _ & Hb2 & Hlt2).
    destruct f2; [lia|left; specialize (Hlt2 ltac:(done)); unfold bad in *; simpl; (split; [lia|by left])..].
  - destruct Hm as [[? ?]|[? ?]]; [left|right]; (split; [|done]); unfold bad in *; simpl; lia.
Qed.

(** ** The ticket issuer *)

Lemma issue_all_fb E secret l w : fails_by E (issue_all secret l) w.
Proof.
  revert w. induction l as [|[i t] l IH]; intros w; cbn [issue_all]; [apply fb_ret|]. destruct (t_QrPayload t); [done|].
  apply fb_bind; [by apply fb_stmt|]. intros. apply IH.
Qed.

(** On well-formed books Issue fails only when a call fails or there is no
    such order. *)
Lemma Issue_tx_fb secret id w :
  books_ok (pg w) -> outbox_below (outbox_seq w, pg w) ->
  fails_by (fun e => e = ErrNotFound /\ orders (pg w) !! id = None) (Issue_tx secret id) w.
Proof.
  intros Hok Hb. unfold Issue_tx. apply fb_bind.
  { apply (fb_on_no_rows _ (fun e => e = EPg NoRows /\ orders (pg w) !! id = None)); [|intros e [-> Hn]; by rewrite decide_True].
    apply fb_stmt. intros e. unfold GetOrderForUpdate, no_rows, select. by destruct (orders (pg w) !! id); intros [= <-]. }
  intros r w1 Hr. apply on_no_rows_ok, GetOrderForUpdate_step in Hr as (Hr & P1 & Q1 & N1). case_bool_decide as Hs; [|apply fb_ret].
  cbn [negb]. apply fb_bind; [by apply fb_stmt|]. intros l w2 Hl. apply ListOrderTickets_step in Hl as (Hnd & Hl & P2 & Q2 & N2).
  destruct (paid_has_ticket (pg w) id r Hok Hr Hs) as (i & t & Ht & Hid).
  assert ((i, t) ∈ l) as Hin by (apply Hl; by rewrite P1). destruct l as [|x l]; [by apply not_elem_of_nil in Hin|].
  apply fb_bind; [apply issue_all_fb|]. intros [] w3 H3.
  destruct (issue_all_step _ _ _ _ _ H3 Hnd) as (m & P3 & [Q3 N3] & _); [intros j u Hj; rewrite P2; by apply Hl|].
  apply fb_bind; [apply (fb_transition _ _ _ _ _ r); [done| |done]; rewrite P3; simpl; congruence|].
  intros row w4 H4. apply transition_step in H4 as (_ & r' & _ & _ & -> & P4 & Q4 & N4).
  apply fb_bind; [by apply fb_stmt|]. intros ss w5 H5. apply ListOrderSeats_step in H5 as (_ & P5 & Q5 & N5).
  apply fb_bind; [|intros; apply fb_ret]. apply fb_writeEvent. rewrite P5, P4, P3, P2, P1, Q5, Q4, Q3, Q2, Q1. simpl. by apply below_free in Hb.
Qed.

(** What Issue does to the orders. *)
Lemma Issue_tx_orders secret id w st w' :
  Issue_tx secret id w = (Ok st, w') ->
  exists r, orders (pg w) !! id = Some r /\
    (r_Status r <> StatusPaid /\ pg w' = pg w \/
     orders (pg w') = <[id := set_status StatusTicketed (pg_now w) r]> (orders (pg w))).
Proof.
  intros Hr. unfold Issue_tx in Hr. apply mbind_ok in Hr as (r & w1 & H1 & Hr).
  apply on_no_rows_ok, GetOrderForUpdate_step in H1 as (Ho & P1 & Q1 & N1). exists r. split; [done|].
  case_bool_decide as Hs; cbn [negb] in Hr; [right|left; unfold mret in Hr; injection Hr as _ <-; done].
  apply mbind_ok in Hr as (l & w2 & H2 & Hr). apply ListOrderTickets_step in H2 as (Hnd & Hl & P2 & Q2 & N2).
  destruct l as [|x l]; [done|]. apply mbind_ok in Hr as ([] & w3 & H3 & Hr).
  destruct (issue_all_step _ _ _ _ _ H3 Hnd) as (m & P3 & [Q3 N3] & _); [intros j u Hj; rewrite P2; by apply Hl|].
  apply mbind_ok in Hr as (row & w4 & H4 & Hr). apply transition_step in H4 as (_ & r' & Hr' & _ & -> & P4 & Q4 & N4).
  apply mbind_ok in Hr as (ss & w5 & H5 & Hr). apply ListOrderSeats_step in H5 as (_ & P5 & Q5 & N5).
  apply mbind_ok in Hr as ([] & w6 & H6 & Hr). apply writeEvent_step in H6 as (_ & _ & _ & P6). unfold mret in Hr. injection Hr as _ <-.
  rewrite P3, P2, P1 in Hr'. simpl in Hr'. assert (r' = r) as -> by congruence.
  rewrite P6, P5, P4, P3, P2, P1. simpl. congruence.
Qed.

Lemma Issue_orders secret id w :
  let w' := (BeginFunc (Issue_tx secret id) w).2 in
  (orders (pg w') = orders (pg w) \/
   exists now r, orders (pg w) !! id = Some r /\ orders (pg w') = <[id := set_status StatusTicketed now r]> (orders (pg w))) /\
  (is_ok (BeginFunc (Issue_tx secret id) w).1 -> forall q, orders (pg w') !! id = Some q -> r_Status q <> StatusPaid).
Proof.
  intros w'. split.
  - unfold w'. destruct (BeginFunc_cases (Issue_tx secret id) w) as [->|(w0 & st & w1 & Hm & P & _ & _ & _ & P' & _)]; [by left|].
    apply Issue_tx_orders in Hm as (r & Hr & Hcase). rewrite P in *. rewrite P'.
    destruct Hcase as [[_ Hp]|Hp]; [left; by rewrite Hp|right; eauto].
  - destruct (BeginFunc (Issue_tx secret id) w) as [[st|e] w1] eqn:Hb; cbn [fst snd is_ok] in *; [intros _|by intros []].
    apply BeginFunc_ok in Hb as (w0 & w2 & Hm & P & _ & _ & _ & P' & _). apply Issue_tx_orders in Hm as (r & Hr & Hcase).
    intros q Hq. unfold w' in Hq. rewrite P' in Hq. destruct Hcase as [[Hs Hp]|Ho].
    + rewrite Hp in Hq. congruence.
    + rewrite Ho, lookup_insert_eq in Hq. injection Hq as <-. done.
Qed.

(** ** The refund processor *)

Lemma complete_tx_fb txn f w :
  books_ok (pg w) -> outbox_below (outbox_seq w, pg w) -> refunds (pg w) !! txn = Some f ->
  fails_by (fun _ => False) (complete_tx txn) w.
Proof.
  intros Hok Hb Hf. unfold complete_tx. apply (fb_catch _ (fun e => e = EPg NoRows)).
  - apply fb_stmt. intros e. unfold CompleteRefund, no_rows. rewrite Hf. case_bool_decide; intros [= <-]; done.
  - intros g w1 Hc. apply CompleteRefund_step in Hc as (f' & Hf' & _ & -> & P1 & Q1 & N1). assert (f' = f) as -> by congruence.
    destruct (ok_refund _ Hok txn f Hf) as (p & st & _ & _ & _ & _ & Hst & _). destruct (status_at_orders _ _ _ Hst) as (r & Hr & _).
    assert (orders (pg w1) = orders (pg w)) as Ho by (by rewrite P1). cbn [f_OrderID completed] in *.
    apply fb_bind; [apply fb_stmt; intros e; unfold GetOrderForUpdate; rewrite Ho, Hr; done|].
    intros r' w2 Hr'. apply GetOrderForUpdate_step in Hr' as (Hr' & P2 & Q2 & N2). rewrite Ho, Hr in Hr'. injection Hr' as <-.
    assert (Hfree : forall v : World R, outbox (pg v) = outbox (pg w) -> outbox_seq v = outbox_seq w -> outbox (pg v) !! outbox_seq v = None).
    { intros v -> ->. by apply below_free in Hb. }
    apply fb_bind.
    { destruct (_ && _) eqn:Hc; [|apply fb_ret]. bool_to_prop. apply (fb_transition _ _ _ _ _ r); [done|by rewrite P2, Ho|done]. }
    intros row w3 Hrow.
    assert (outbox (pg w3) = outbox (pg w) /\ outbox_seq w3 = outbox_seq w) as [P3 Q3].
    { destruct (_ && _) in Hrow; [|unfold mret in Hrow; injection Hrow as _ <-; rewrite P2, P1; split; [done|congruence]].
      apply transition_step in Hrow as (_ & q & _ & _ & _ & P3 & Q3 & N3). rewrite P3, P2, P1. split; [done|congruence]. }
    apply fb_bind; [by apply fb_stmt|]. intros ss w4 H4. apply ListOrderSeats_step in H4 as (_ & P4 & Q4 & N4).
    apply fb_writeEvent, Hfree; congruence.
  - intros e w1 _ ->. apply fb_ret.
  - intros e w1 [->| ->]; done.
Qed.

Lemma complete_tx_done txn f w u w' :
  complete_tx txn w = (Ok u, w') -> refunds (pg w) !! txn = Some f -> f_Status f = RefundPending ->
  exists g, refunds (pg w') !! txn = Some g /\ f_Status g = RefundSucceeded.
Proof.
  intros Hr Hf Hp. unfold complete_tx, mcatch in Hr. destruct (stmt (CompleteRefund txn) w) as [[g|e] w1] eqn:H1.
  2:{ assert (fails_by (fun _ => False) (stmt (CompleteRefund txn)) w) as Hfb.
      { apply fb_stmt. intros e'. unfold CompleteRefund. by rewrite Hf, bool_decide_eq_true_2. }
      unfold fails_by in Hfb. rewrite H1 in Hfb. destruct Hfb as [[_ [->| ->]]|[_ []]]; done. }
  apply CompleteRefund_step in H1 as (f' & _ & _ & -> & P1 & _).
  apply mbind_ok in Hr as (r & w2 & H2 & Hr). apply GetOrderForUpdate_step in H2 as (_ & P2 & _).
  apply mbind_ok in Hr as (row & w3 & H3 & Hr). assert (refunds (pg w3) = refunds (pg w2)) as P3.
  { destruct (_ && _) in H3; [|unfold mret in H3; by injection H3 as _ <-].
    apply transition_step in H3 as (_ & q & _ & _ & _ & P3 & _). by rewrite P3. }
  apply mbind_ok in Hr as (ss & w4 & H4 & Hr). apply ListOrderSeats_step in H4 as (_ & P4 & _).
  apply writeEvent_step in Hr as (_ & _ & _ & P5). exists (completed (pg_now w) f'). split; [|done].
  rewrite P5. simpl. rewrite P4, P3, P2, P1. simpl. by rewrite lookup_insert_eq.
Qed.

Lemma GetRefund_reads txn now d f d' : GetRefund txn now d = Ok (f, d') -> d' = d /\ refunds d !! txn = Some f.
Proof. unfold GetRefund, select, no_rows. case_match; naive_solver. Qed.

Lemma Gateway_Refund_books req w :
  pg (Gateway_Refund req w).2 = pg w /\ outbox_seq (Gateway_Refund req w).2 = outbox_seq w.
Proof.
  unfold Gateway_Refund, call. destruct (pop_fault w) as [fl w0] eqn:Hp. destruct (pop_fault_bad _ _ _ Hp) as (P & Q & _).
  destruct fl; simpl; [|done|]; destruct (handleRefund req (gateway w0)) as [[] g]; simpl; done.
Qed.

(** Process, on well-formed books: done, no such refund, or a failed call. *)
Lemma Process_run txn w :
  winv w ->
  let '(r, w') := run (Process txn) w in
  winv w' /\ progress w w' /\
  match r with
  | Ok _ => (bad w' <= bad w)%nat /\ exists f, refunds (pg w') !! txn = Some f /\ f_Status f = RefundSucceeded
  | Err e => (bad w' < bad w)%nat /\ infra e \/ (bad w' <= bad w)%nat /\ e = ErrRefundNotFound /\ refunds (pg w') !! txn = None
  end.
Proof.
  intros Hw. destruct (safe_run winv world_step progress (Process txn) w world_step_ok (Process_safe txn w I) Hw) as [Hw' Hpr].
  destruct (run (Process txn) w) as [r w'] eqn:Hr. cbn [fst snd] in *. split_and!; [done..|].
  unfold Process in Hr. rewrite run_bind, run_act in Hr.
  assert (fails_by (fun e => e = EPg NoRows /\ refunds (pg w) !! txn = None) (stmt (GetRefund txn)) w) as Hfb.
  { apply fb_stmt. intros e. unfold GetRefund, no_rows, select. by destruct (refunds (pg w) !! txn); intros [= <-]. }
  pose proof (read_frame (R := R) (GetRefund txn) (fun now d f d' H => proj1 (GetRefund_reads txn now d f d' H))) as Hfr.
  pose proof (keeps_books_run _ w Hfr) as (P1 & Q1 & _). rewrite run_act in P1, Q1.
  unfold fails_by in Hfb. destruct (stmt (GetRefund txn) w) as [[f|e] w1] eqn:Hs; cbn [fst snd] in *.
  2:{ destruct Hfb as [[Hb Hi]|[Hb [-> Hn]]].
      - destruct Hi as [->| ->]; injection Hr as <- <-; left; (split; [done|]); [by left|by right].
      - injection Hr as <- <-. right. by rewrite P1. }
  apply stmt_step in Hs as [Hq _]. apply GetRefund_reads in Hq as [_ Hf]. case_bool_decide as Hst.
  { injection Hr as <- <-. split; [done|]. exists f. by rewrite P1. }
  rewrite run_bind, run_act in Hr. assert (books_ok (pg w1)) as Hok by (rewrite P1; apply Hw).
  assert (refunds (pg w1) !! txn = Some f) as Hf1 by (by rewrite P1).
  assert (fails_by (fun _ => False) (Gateway_Refund (mkRefundRequest (f_OrderID f) txn (f_AmountVnd f))) w1) as Hg.
  { apply fb_call; [by right|intros v; destruct (handleRefund _ _) as [[] g]; done|]. intros v e _ _ _ _.
    unfold handleRefund. cbn [rq_ProviderTxnID rq_OrderID rq_AmountVND]. rewrite (refund_acceptable _ _ _ Hok Hf1).
    done. }
  pose proof (Gateway_Refund_books (mkRefundRequest (f_OrderID f) txn (f_AmountVnd f)) w1) as [P2 Q2].
  unfold fails_by in Hg. destruct (Gateway_Refund _ w1) as [[[]|e] w2]; cbn [fst snd] in *.
  2:{ injection Hr as <- <-. left. destruct Hg as [[? ?]|[_ []]]. split; [lia|done]. }
  rewrite run_act in Hr. rewrite <- P2 in Hf1, Hok.
  assert (fails_by (fun _ => False) (BeginFunc (complete_tx txn)) w2) as Hfb2.
  { apply fb_tx. intros v P Q _ _. apply (complete_tx_fb txn f); rewrite P; [done| |done]. intros i Hi. simpl in *. rewrite Q, Q2, Q1.
    apply (wi_below _ Hw). simpl. rewrite P2, P1 in Hi. done. }
  unfold fails_by in Hfb2. rewrite Hr in Hfb2. destruct r as [u|e]; [|left; destruct Hfb2 as [[? ?]|[_ []]]; split; [lia|done]].
  split; [lia|]. apply BeginFunc_ok in Hr as (w3 & w4 & Hm & P3 & _ & _ & _ & P4 & _). rewrite P4.
  apply (complete_tx_done txn f) in Hm; [done|by rewrite P3|].
  destruct (ok_refund _ Hok txn f Hf1) as (p & st & _ & _ & _ & _ & _ & _ & [Hx|Hx]); done.
Qed.
End failures.

(** ** The handlers behind the consumer loop *)

(** Committing offsets touches nothing but the broker. *)
Class OffsetCommit {R} (commit : list KRecord -> World R -> res GoErr unit * World R) : Prop := {
  commit_books rs w : books_kept w (commit rs w).2;
  commit_bad rs w : (bad (commit rs w).2 <= bad w)%nat;
  commit_quiet rs w :
    rds (commit rs w).2 = rds w /\ redis_now (commit rs w).2 = redis_now w /\ chat (commit rs w).2 = chat w;
}.

Section consumers.
Context {R : Type} `{UuidLib}.
Context (Unmarshal : KRecord -> option OrderEvent).
Context (commit : list KRecord -> World R -> res GoErr unit * World R) `{!OffsetCommit commit}.
Implicit Types w : World R.

(** The record reaches the handler of [types], as the event [ev]. *)
Definition delivers (types : list string) (r : KRecord) (ev : OrderEvent) : Prop :=
  (Header r HeaderEventType = EmptyString \/ Header r HeaderEventType ∈ types) /\
  Unmarshal r = Some ev /\ ev_EventType ev ∈ types.

Lemma Handler_cases (fn : OrderEvent -> prog (World R) (option HandlerErr)) types r :
  (exists ev, delivers types r ev /\ Events.Handler Unmarshal fn types r = fn ev) \/
  (exists e, (forall err, e <> Some (Failed err)) /\ Events.Handler Unmarshal fn types r = Ret e /\ forall ev, ~ delivers types r ev).
Proof.
  unfold Events.Handler, delivers. destruct (negb _ && negb _) eqn:Hh.
  { bool_to_prop. right. exists None. split_and!; [done..|]. intros ev (Hd & _). tauto. }
  destruct (Unmarshal r) as [ev|] eqn:Hu.
  2:{ right. eexists. split_and!; [|done|]; [intros err [=]|]. intros ev (_ & Hc & _). congruence. }
  destruct (bool_decide (ev_EventType ev ∈ types)) eqn:Ht; cbn [negb]; bool_to_prop.
  - left. exists ev. split_and!; try done. apply andb_false_iff in Hh. destruct Hh as [Hh|Hh]; bool_to_prop; auto.
  - right. exists None. split_and!; [done..|]. intros ev' (_ & Hc & Hin). congruence.
Qed.

Section since.
Context (w0 : World R).

(** What the loop keeps: well-formed books that evolved from [w0]. *)
Definition since w : Prop := winv w /\ progress w0 w.

Lemma since_step w w' : since w -> world_step w w' -> since w' /\ progress w w'.
Proof. intros [Hw Hp] Hs. destruct (world_step_ok w w' Hw Hs) as [Hw' Hp']. split; [split; [done|by etrans]|done]. Qed.

Lemma since_books w w' : since w -> books_kept w w' -> since w' /\ progress w w'.
Proof. intros Hw (P & Q & G & K & _). apply since_step; [done|]. apply ws_other; congruence || lia. Qed.

Lemma since_sleep d w : since w -> since (sleep d w).2 /\ progress w (sleep d w).2.
Proof. intros Hw. apply since_step; [done|]. by apply ws_other. Qed.

(** *** Tickets *)

(** The order named by a delivered order.paid record is not PAID (any more). *)
Definition ticket_done (r : KRecord) w : Prop :=
  forall ev q, delivers [OrderPaid] r ev -> orders (pg w) !! ev_OrderID ev = Some q -> r_Status q <> StatusPaid.

Lemma ticket_done_ext r w w' : orders (pg w') = orders (pg w) -> ticket_done r w -> ticket_done r w'.
Proof. unfold ticket_done. by intros ->. Qed.

Lemma Issue_keeps_done secret id r w : ticket_done r w -> ticket_done r (BeginFunc (Issue_tx secret id) w).2.
Proof.
  destruct (Issue_orders secret id w) as [[Ho|(now & q & Hq & Ho)] _]; [by apply ticket_done_ext|].
  intros Hd ev q' He Hq'. rewrite Ho in Hq'. apply lookup_insert_Some in Hq' as [[_ <-]|[_ Hq']]; [done|by eapply Hd].
Qed.

#[export] Instance ticket_handles secret :
  Handles since (TicketIssuer_Handler Unmarshal secret) ticket_done commit.
Proof.
  split.
  - intros r w Hw. unfold TicketIssuer_Handler.
    destruct (Handler_cases (TicketIssuer_handle secret) [OrderPaid] r) as [(ev & Hd & ->)|(e & He & -> & Hn)].
    2:{ cbn [run]. split_and!; try apply Hw; try done.
        destruct e as [[err|err]|]; [by destruct (He err)|..]; (split; [done|]); intros ev q Hd; by destruct (Hn ev). }
    unfold TicketIssuer_handle. rewrite run_bind. unfold Issue. rewrite run_act. set (id := ev_OrderID ev).
    assert (since (BeginFunc (Issue_tx secret id) w).2) as Hw'.
    { pose proof (Issue_respects (R := R) (G := fun _ => True) secret id) as [Hr _]. destruct Hw as [Hw Hp]. by apply (since_step w), Hr. }
    pose proof (fun q => Issue_keeps_done secret id q w) as Hkeep. destruct (Issue_orders secret id w) as [Hsame Hok].
    assert (fails_by (fun e => e = ErrNotFound /\ orders (pg w) !! id = None) (BeginFunc (Issue_tx secret id)) w) as Hfb.
    { apply fb_tx. intros v P Q _ _. rewrite <- P. apply Issue_tx_fb; rewrite P; [apply Hw|]. rewrite Q. apply Hw. }
    assert (Heq : forall ev', delivers [OrderPaid] r ev' -> ev' = ev).
    { intros ev' (_ & Hu & _). destruct Hd as (_ & Hu' & _). congruence. }
    unfold fails_by in Hfb. destruct (BeginFunc (Issue_tx secret id) w) as [[st|e] w1]; cbn [fst snd run is_ok] in *;
      (split; [done|split; [done|]]).
    + split; [done|]. intros ev' q He Hq. rewrite (Heq ev' He) in Hq. by eapply Hok.
    + destruct Hfb as [[Hb [->| ->]]|[Hb [-> Hn]]]; [done..|]. split; [done|]. intros ev' q He Hq. rewrite (Heq ev' He) in Hq.
      fold id in Hq. destruct Hsame as [Hs|(now & r' & Hr' & _)]; [|congruence]. rewrite Hs in Hq. congruence.
  - intros d w Hw. split; [by apply since_sleep|]. intros q. by apply ticket_done_ext.
  - intros rs w Hw. pose proof (commit_books rs w) as Hb. split; [by eapply since_books|]. split; [apply commit_bad|].
    intros q. apply ticket_done_ext. destruct Hb as (-> & _). done.
Qed.

(** *** Refunds *)

(** The refund, asked for in [w0], has been paid back. *)
Definition refund_done (r : KRecord) w : Prop :=
  forall ev, delivers [OrderRefundRequested] r ev -> is_Some (refunds (pg w0) !! ev_ProviderTxnID ev) ->
  exists f, refunds (pg w) !! ev_ProviderTxnID ev = Some f /\ f_Status f = RefundSucceeded.

Lemma refund_done_later r w w' : progress w w' -> refund_done r w -> refund_done r w'.
Proof.
  intros Hp Hd ev He Hs. destruct (Hd ev He Hs) as (f & Hf & Hst).
  destruct (ev_refunds _ _ (pr_books _ _ Hp) _ f Hf) as (g & Hg & (_ & _ & _ & [->|Hpen])); [by exists f|]. rewrite Hst in Hpen. done.
Qed.

Lemma no_empty_txn w f : winv w -> refunds (pg w) !! EmptyString = Some f -> False.
Proof. intros Hw Hf. pose proof (refund_acceptable _ _ _ (wi_books _ Hw) Hf) as Hc. by rewrite bool_decide_eq_true_2 in Hc. Qed.

#[export] Instance refund_handles : Handles since (RefundProcessor_Handler Unmarshal) refund_done commit.
Proof.
  split.
  - intros r w [Hw Hp]. unfold RefundProcessor_Handler.
    destruct (Handler_cases RefundProcessor_handle [OrderRefundRequested] r) as [(ev & Hd & ->)|(e & He & -> & Hn)].
    2:{ cbn [run]. split_and!; try done. destruct e as [[err|err]|]; [by destruct (He err)|..]; (split; [done|]); intros ev Hd; by destruct (Hn ev). }
    assert (Heq : forall ev', delivers [OrderRefundRequested] r ev' -> ev' = ev).
    { intros ev' (_ & Hu & _). destruct Hd as (_ & Hu' & _). congruence. }
    assert (Hrow : is_Some (refunds (pg w0) !! ev_ProviderTxnID ev) -> is_Some (refunds (pg w) !! ev_ProviderTxnID ev)).
    { intros [f Hf]. destruct (ev_refunds _ _ (pr_books _ _ Hp) _ f Hf) as (g & Hg & _). eauto. }
    unfold RefundProcessor_handle. case_bool_decide as Ht.
    { cbn [run]. split_and!; try done. intros ev' He Hs. rewrite (Heq ev' He), Ht in *. destruct (Hrow Hs) as [f Hf].
      by destruct (no_empty_txn w f Hw). }
    rewrite run_bind. pose proof (Process_run (ev_ProviderTxnID ev) w Hw) as Hr.
    destruct (run (Process (ev_ProviderTxnID ev)) w) as [res w1]. destruct Hr as (Hw1 & Hp1 & Hres). cbn [fst snd run].
    split; [split; [done|by etrans]|]. split; [intros q; by apply refund_done_later|].
    destruct res as [u|e]; [destruct Hres as [Hb Hf]; split; [done|]; intros ev' He _; by rewrite (Heq ev' He)|].
    destruct Hres as [[Hb [->| ->]]|(Hb & -> & Hn)]; [done..|]. split; [done|]. intros ev' He Hs. rewrite (Heq ev' He) in *.
    destruct (Hrow Hs) as [f Hf]. destruct (ev_refunds _ _ (pr_books _ _ Hp1) _ f Hf) as (g & Hg & _). congruence.
  - intros d w _ Hw. destruct (since_sleep d w Hw) as [Hi Hp]. split; [done|]. intros q. by apply refund_done_later.
  - intros rs w Hw. destruct (since_books w (commit rs w).2 Hw (commit_books rs w)) as [Hi Hp].
    split; [done|]. split; [apply commit_bad|]. intros q. by apply refund_done_later.
Qed.
End since.
End consumers.
