(* ===== verification/Pipeline.v ===== *)
(** * From the payment to the tickets, from the refund request to the refund

    Every PAID order and every pending refund has its message; the relay
    publishes it on the topic of its type; the service that subscribes to the
    topic acts on it. *)

From S2P Require Import Prelude GoLib Effects OrderState World Frame OrderDB Inventory Outbox.
From S2P Require Import OrderService OrderPayment OrderRefund OrderTickets OrderBooks OrderRefine System Guarantees Flows Background Consumer Delivery.

Section told.
Context {R : Type} `{UuidLib}.
Implicit Types (w : World R) (c : list (prog (World R) unit) * World R).

(** ** What has been announced *)

(** A record the outbox is to publish. *)
Definition pending_record (d : PG) (k : KRecord) : Prop := exists n m, outbox d !! n = Some m /\ record_of (n, m) = k.

(** A record with [P] is in the log, or the outbox is to publish it. *)
Definition told (P : KRecord -> Prop) w : Prop := exists k, P k /\ (pending_record (pg w) k \/ k ∈ klog w).

(** Ticket events have a topic of their own. *)
Definition topic_of (ty : string) : string := if bool_decide (ty = TicketIssued) then TopicTickets else TopicOrders.

Definition of_type (ty : string) (k : KRecord) : Prop :=
  k_Topic k = topic_of ty /\ Header k HeaderEventType = ty /\ ev_EventType (k_Value k) = ty /\ exists id m, k = record_of (id, m).
(** The event of an order that has come to [st]; only events about a refund
    name a payment. *)
Definition about_order (st : Status) (id : UUID) (k : KRecord) : Prop :=
  of_type (event_type_of st) k /\ ev_OrderID (k_Value k) = id /\
  (is_refund st = false -> ev_ProviderTxnID (k_Value k) = EmptyString).

Definition refund_type (f : RefundRow) : string :=
  if bool_decide (f_Status f = RefundPending) then OrderRefundRequested else OrderRefunded.
Definition about_refund (txn : string) (f : RefundRow) (k : KRecord) : Prop :=
  of_type (refund_type f) k /\ ev_OrderID (k_Value k) = f_OrderID f /\ ev_ProviderTxnID (k_Value k) = txn.

(** The status of every order and of every refund is announced. *)
Record announced_work (order_told : UUID -> Status -> Prop) (refund_told : string -> RefundRow -> Prop) (d : PG) : Prop := {
  aw_order id q : orders d !! id = Some q -> order_told id (r_Status q);
  aw_refund txn f : refunds d !! txn = Some f -> refund_told txn f;
}.

Definition work_told w : Prop :=
  announced_work (fun id st => told (about_order st id) w) (fun txn f => told (about_refund txn f) w) (pg w).

Lemma told_later P w w' : progress w w' -> told P w -> told P w'.
Proof.
  intros Hp (k & Hk & [(n & m & Hm & <-)|Hl]); [|exists k; split; [done|right; eapply prefix_elem; [apply (pr_log _ _ Hp)|done]]].
  destruct (pr_outbox _ _ Hp n m Hm) as [(m' & Hm' & He)|Hl]; exists (record_of (n, m)); (split; [done|]); [|by right].
  left. by exists n, m'.
Qed.

(** A refund that is new, or paid back, is announced by its step. *)
Lemma book_step_refund now d e d' txn f :
  book_step now d e d' -> refunds d' !! txn = Some f ->
  refunds d !! txn = Some f \/
  exists a, e = Some a /\ an_type a = refund_type f /\ an_order a = f_OrderID f /\ an_txn a = txn.
Proof.
  intros Hs Hf. destruct Hs; try (by left); simpl in Hf; apply lookup_insert_Some in Hf as [[<- <-]|[_ Hf]]; try (by left).
  all: right; eexists; done.
Qed.

Lemma book_step_txn now d a d' st :
  book_step now d (Some a) d' -> an_type a = event_type_of st -> is_refund st = false -> an_txn a = EmptyString.
Proof. intros Hs Ht Hst. inversion Hs; subst; try done; by destruct st. Qed.

Lemma book_step_topic now d a d' : book_step now d (Some a) d' -> an_topic a = topic_of (an_type a).
Proof. intros Hs. by inversion Hs. Qed.

Lemma announced_row a m n now :
  announces a m -> an_topic a = topic_of (an_type a) -> of_type (an_type a) (record_of (n, outbox_row n now m)) /\
  ev_OrderID (k_Value (record_of (n, outbox_row n now m))) = an_order a /\
  ev_ProviderTxnID (k_Value (record_of (n, outbox_row n now m))) = an_txn a.
Proof. intros (Htop & Ht & _ & Ho & Hx) Htopic. unfold of_type. cbn. rewrite Htop, Ht, Ho, Hx. split_and!; try done. by eexists _, _. Qed.

Definition tells (d : PG) (P : KRecord -> Prop) : Prop := exists k, P k /\ pending_record d k.

(** What is to be told in [y] was already to be told in [x], or is announced in [y]. *)
Definition new_work_told (x y : PG) : Prop :=
  announced_work
    (fun id st => (exists r, orders x !! id = Some r /\ r_Status r = st) \/ tells y (about_order st id))
    (fun txn f => refunds x !! txn = Some f \/ tells y (about_refund txn f)) y.

Lemma ledger_step_work C now x y : ledger_step C now x y -> new_work_told x.2 y.2.
Proof.
  intros (e & d1 & Hs & He).
  assert (orders y.2 = orders d1 /\ refunds y.2 = refunds d1) as [Ho Hf].
  { destruct e; [destruct He as (_ & m & _ & _ & ->)|subst y]; done. }
  assert (Htell : forall a, e = Some a -> exists k, pending_record y.2 k /\ of_type (an_type a) k /\
    ev_OrderID (k_Value k) = an_order a /\ ev_ProviderTxnID (k_Value k) = an_txn a).
  { intros a ->. destruct He as (_ & m & Hm & Hn & ->). exists (record_of (x.1, outbox_row x.1 now m)).
    split; [|apply announced_row; [done|by eapply book_step_topic]]. exists x.1, (outbox_row x.1 now m). split; [|done]. simpl. apply lookup_insert_eq. }
  split; rewrite ?Ho, ?Hf.
  - intros id q Hq. assert (Hann : announced e id (r_Status q) -> tells y.2 (about_order (r_Status q) id)).
    { intros (a & -> & <- & Ht). destruct (Htell a eq_refl) as (k & Hk & Hty & Hid & Htxn). exists k. rewrite Ht in Hty.
      split; [|done]. split_and!; [done..|]. rewrite Htxn. by eapply book_step_txn. }
    destruct (orders x.2 !! id) as [r|] eqn:Hr.
    + destruct (book_step_order _ _ _ _ _ _ Hs Hr) as (q' & Hq' & _ & Hcase). assert (q' = q) as -> by congruence.
      destruct Hcase as [->|[_ Ha]]; [left; eauto|right; by apply Hann].
    + destruct (book_step_new _ _ _ _ _ _ Hs Hr Hq) as [Hheld Ha]. rewrite <- Hheld in Ha. right. by apply Hann.
  - intros txn f Hx. destruct (book_step_refund _ _ _ _ _ _ Hs Hx) as [?|(a & Ha & Ht & Hid & Htx)]; [by left|right].
    destruct (Htell a Ha) as (k & Hk & Hty & Ho' & Ht'). exists k. rewrite Ht in Hty. unfold about_refund. by rewrite Ho', Ht'.
Qed.

Lemma new_work_trans x y z :
  (forall k, pending_record y k -> pending_record z k) -> new_work_told x y -> new_work_told y z -> new_work_told x z.
Proof.
  intros Hk [A1 A2] [B1 B2].
  assert (Ht : forall P, tells y P -> tells z P) by (intros P (k & HP & Hp); exists k; auto). split.
  - intros id q Hq. destruct (B1 id q Hq) as [(r & Hr & <-)|?]; [|by right]. destruct (A1 id r Hr); auto.
  - intros txn f Hf. destruct (B2 txn f Hf) as [Hg|?]; [|by right]. destruct (A2 txn f Hg); auto.
Qed.

Lemma ledger_steps_work C now x y :
  rtc (ledger_step C now) x y -> books_ok x.2 -> outbox_below x -> new_work_told x.2 y.2.
Proof.
  induction 1 as [x|x y z Hxy Hyz IH]; intros Hok Hb; [split; eauto|].
  destruct (ledger_step_ok C now x y Hxy Hok Hb) as (Hok1 & Hb1 & _).
  apply (new_work_trans _ y.2); [|by eapply ledger_step_work|by apply IH].
  intros k (n & m & Hm & <-). destruct (ledger_steps_outbox _ _ _ _ Hyz Hb1) as (_ & Hkeep & _). exists n, m. auto.
Qed.

(** Whatever an action does, every status has been told. *)
Lemma world_step_told w w' : winv w -> world_step w w' -> work_told w -> work_told w'.
Proof.
  intros Hw Hs [A1 A2]. destruct (world_step_ok w w' Hw Hs) as [_ Hpr].
  assert (Hsame : orders (pg w') = orders (pg w) -> refunds (pg w') = refunds (pg w) -> work_told w').
  { intros Ho Hf. split; rewrite ?Ho, ?Hf; intros; (eapply told_later; [exact Hpr|]); eauto. }
  destruct Hs as [C (_ & _ & _ & [[Hp _]|Hl]) _|Hp|Hp|l ks _ _ _ _ _ [Hp|(_ & now & Hp)]|l _ Hp|txn f _ _ Hp];
    try (apply Hsame; by rewrite Hp).
  destruct (ledger_steps_work _ _ _ _ Hl (wi_books _ Hw) (wi_below _ Hw)) as [B1 B2]. cbn [fst snd] in *.
  assert (Ht : forall P, tells (pg w') P -> told P w') by (intros P (k & HP & Hk); exists k; auto). split.
  - intros id q Hq. destruct (B1 id q Hq) as [(r & Hr & <-)|?]; [|by apply Ht]. eapply told_later; [exact Hpr|]. eauto.
  - intros txn f Hf. destruct (B2 txn f Hf) as [Hg|?]; [|by apply Ht]. eapply told_later; [exact Hpr|]. eauto.
Qed.

Lemma reachable_told w c : fresh w -> reaches ([], w) c -> work_told c.2.
Proof.
  intros Hf Hr. revert Hr. unfold reaches. intros Hr. pattern c. eapply rtc_ind_r; [| |exact Hr].
  - destruct Hf as (H1 & _ & _ & H2 & _). split; cbn [snd]; intros ??; by rewrite ?H1, ?H2.
  - intros c1 c2 H1 Hs Hi. destruct (reachable_step w c1 c2 Hf H1 Hs) as [Hw Hst]. by apply (world_step_told c1.2).
Qed.

(** ** After the relay *)

(** The relay touches the outbox alone. *)
Lemma relay_rounds_tables n w :
  faults w = [] -> orders (pg (relay_rounds n w)) = orders (pg w) /\ refunds (pg (relay_rounds n w)) = refunds (pg w).
Proof.
  revert w. induction n as [|n IH]; intros w Hf; cbn [relay_rounds]; [done|]. rewrite Relay_calm by done. cbn [snd].
  by destruct (IH (after_relay w) Hf) as [-> ->].
Qed.

(** Once the backlog is published, everything told is in the log. *)
Lemma relay_publishes n w P :
  winv w -> faults w = [] -> (length (backlog (pg w)) <= n * RelayBatchSize)%nat -> told P w ->
  exists k, P k /\ k ∈ klog (relay_rounds n w).
Proof.
  intros Hw Hf Hn (k & HP & Hk). destruct (relay_rounds_calm n w Hf) as (_ & _ & Hl). exists k. split; [done|]. rewrite Hl.
  apply elem_of_app. destruct Hk as [(i & m & Hm & <-)|Hk]; [|by left].
  destruct (ob_PublishedAt m) as [t|] eqn:Hp; [left; apply (wi_published _ Hw); [done|by rewrite Hp]|right].
  rewrite take_ge by done. apply list_elem_of_fmap. exists (i, m). split; [done|]. by apply backlog_elem.
Qed.
End told.

(** ** Properties *)

Lemma paid_then st : rtc (fun a b => CanTransition a b = true) StatusPaid st -> st = StatusPaid \/ st = StatusTicketed.
Proof.
  intros Hr. apply rtc_inv in Hr as [->|(y & H1 & H2)]; [by left|right]. apply CanTransition_arrow in H1. inversion H1; subst.
  apply rtc_inv in H2 as [->|(z & H2 & _)]; [done|]. apply CanTransition_arrow in H2. inversion H2.
Qed.

Section pipeline.
Context {R : Type} `{UuidLib}.
Context (Unmarshal : KRecord -> option OrderEvent).
Context (commit : list KRecord -> World R -> res GoErr unit * World R) `{!OffsetCommit commit}.
Implicit Types (w : World R) (c : list (prog (World R) unit) * World R).

(** The consumer loop ends and does its work, for the ticket issuer: from
    any reachable world, with at least as many backoff waits before shutdown
    as there are calls still to fail, it handles every polled batch and
    commits it, and no order an order.paid record names is PAID any more. *)
Theorem ticket_consumer_live (secret : string) w c (patience : nat) (polls : list (list KRecord))
    (Hfresh : fresh w) (Hreach : reaches ([], w) c) (Hpatience : (bad c.2 <= patience)%nat) :
  exists w', run (Consume commit patience (TicketIssuer_Handler Unmarshal secret) polls) c.2 = (length polls, w') /\
    forall r ev q, r ∈ mjoin polls -> delivers Unmarshal [OrderPaid] r ev -> orders (pg w') !! ev_OrderID ev = Some q ->
      r_Status q <> StatusPaid.
Proof.
  pose proof (reachable_winv _ _ Hfresh Hreach) as Hw.
  destruct (Consume_live (since c.2) (TicketIssuer_Handler Unmarshal secret) (ticket_done Unmarshal) commit patience polls c.2)
    as (w' & Hr & _ & Hd & _); [by split|done|]. exists w'. split; [done|]. intros r ev q Hin He Hq. by eapply (Hd r Hin).
Qed.

(** The consumer loop ends and does its work, for the refund processor:
    under the same conditions it handles and commits every polled batch, and
    every refund asked for by a polled record has been paid back by the
    gateway and is SUCCEEDED. *)
Theorem refund_consumer_live w c (patience : nat) (polls : list (list KRecord))
    (Hfresh : fresh w) (Hreach : reaches ([], w) c) (Hpatience : (bad c.2 <= patience)%nat) :
  exists w', run (Consume commit patience (RefundProcessor_Handler Unmarshal) polls) c.2 = (length polls, w') /\
    forall r ev, r ∈ mjoin polls -> delivers Unmarshal [OrderRefundRequested] r ev ->
      is_Some (refunds (pg c.2) !! ev_ProviderTxnID ev) ->
      exists f, refunds (pg w') !! ev_ProviderTxnID ev = Some f /\ f_Status f = RefundSucceeded /\
        paid_back (gateway w') (request_of (ev_ProviderTxnID ev) f).
Proof.
  pose proof (reachable_winv _ _ Hfresh Hreach) as Hw.
  destruct (Consume_live (since c.2) (RefundProcessor_Handler Unmarshal) (refund_done Unmarshal c.2) commit patience polls c.2)
    as (w' & Hr & [Hw' _] & Hd & _); [by split|done|]. exists w'. split; [done|]. intros r ev Hin He Hs.
  destruct (Hd r Hin ev He Hs) as (f & Hf & Hst). exists f. split_and!; [done..|].
  exact (winv_paid _ _ _ Hw' Hf (wi_refunded _ Hw' _ _ Hf Hst)).
Qed.

(** *** The services as programs of the system *)

Lemma Consume_safe (n : nat) (handle : KHandler R) polls w :
  (forall r v, safe winv world_step progress (handle r) v) -> safe winv world_step progress (Consume commit n handle polls) w.
Proof.
  intros Hh. assert (Hact : forall X (f : World R -> X * World R), (forall v, world_step v (f v).2) ->
    forall v, safe winv world_step progress (act f) v) by (intros X f Hf v v' _ _; done).
  assert (Hp : forall r m wait v, safe winv world_step progress (process m wait handle r) v).
  { intros r m. induction m as [|m IH]; intros wait v; cbn [process]; (apply safe_bind; [apply Hh|]); intros [e|] v1; cbn [safe]; try done;
      destruct (IsPermanent e); try done. apply safe_bind; [apply Hact; intros u; by apply ws_other|]. intros _ v2. apply IH. }
  assert (Hall : forall rs m v, safe winv world_step progress (process_all m handle rs) v).
  { intros rs. induction rs as [|r rs IH]; intros m v; cbn [process_all]; [done|]. apply safe_bind; [apply Hp|].
    intros [m'|] v1; [apply IH|done]. }
  revert n w. induction polls as [|rs polls IH]; intros n w; cbn [Consume]; [done|]. apply safe_bind; [apply Hall|].
  intros [m|] w1; [|done]. apply safe_bind.
  { apply Hact. intros v. destruct (commit_books rs v) as (P & Q & G & K & _). apply ws_other; congruence || lia. }
  intros _ w2. apply safe_bind; [apply IH|done].
Qed.

Lemma Handler_safe (fn : OrderEvent -> prog (World R) (option HandlerErr)) types r w :
  (forall ev v, safe winv world_step progress (fn ev) v) -> safe winv world_step progress (Events.Handler Unmarshal fn types r) w.
Proof. intros Hf. destruct (Handler_cases Unmarshal fn types r) as [(ev & _ & ->)|(e & _ & -> & _)]; [apply Hf|done]. Qed.

Lemma ticket_service_safe n secret polls w :
  safe winv world_step progress (kafka_Run commit n (ticket_service Unmarshal secret) polls) w.
Proof.
  apply Consume_safe. intros r v. apply Handler_safe. intros ev u. apply safe_bind; [|done]. apply respects_safe, Issue_respects.
Qed.

Lemma refunder_service_safe n polls w : safe winv world_step progress (kafka_Run commit n (refunder_service Unmarshal) polls) w.
Proof.
  apply Consume_safe. intros r v. apply Handler_safe. intros ev u. unfold RefundProcessor_handle. case_bool_decide; [done|].
  apply safe_bind; [by apply Process_safe|done].
Qed.

(** Every status stays told, whatever runs. *)
Definition told_inv w : Prop := winv w /\ work_told w.

Lemma safe_told {A} (p : prog (World R) A) w :
  safe winv world_step progress p w -> told_inv w -> told_inv (run p w).2 /\ progress w (run p w).2.
Proof.
  intros Hp [Hw Ht]. destruct (safe_run winv world_step progress p w world_step_ok Hp Hw) as [Hw' Hpr]. split; [split; [done|]|done].
  eapply (safe_keeps winv world_step progress work_told); [apply world_step_ok|intros v v'; apply world_step_told|done..].
Qed.

Lemma relay_rounds_told n w : told_inv w -> told_inv (relay_rounds n w) /\ progress w (relay_rounds n w).
Proof.
  revert w. induction n as [|n IH]; intros w Hw; cbn [relay_rounds]; [done|].
  destruct (safe_told (Relay_RunOnce ∅) w) as [Hw1 Hp1]; [apply respects_safe, Relay_respects|done|].
  destruct (IH _ Hw1) as [Hw2 Hp2]. split; [done|by etrans].
Qed.

Lemma reachable_told_inv w c : fresh w -> reaches ([], w) c -> told_inv c.2.
Proof. intros Hf Hr. split; [by eapply reachable_winv|by eapply reachable_told]. Qed.

Lemma environment_told w w' : environment w w' -> told_inv w -> told_inv w' /\ progress w w'.
Proof.
  intros He [Hw Ht]. pose proof (environment_step (G := fun _ => True) w w' Hw He) as Hs. destruct (world_step_ok w w' Hw Hs) as [Hw' Hp].
  split; [split; [done|by apply (world_step_told w)]|done].
Qed.

(** Records decode to what was encoded (encoding/json on the relay's records). *)
Hypothesis Unmarshal_record : forall id m, Unmarshal (record_of (id, m)) = Some (k_Value (record_of (id, m))).

Lemma log_delivers ty (k : KRecord) : of_type ty k -> delivers Unmarshal [ty] k (k_Value k).
Proof.
  intros (_ & H1 & H2 & id & m & ->). split_and!; [right; rewrite H1; constructor|apply Unmarshal_record|rewrite H2; constructor].
Qed.

(** What a service that has been through [log] has done. *)
Definition tickets_for (log : list KRecord) w w' : Prop :=
  forall id r k, orders (pg w) !! id = Some r -> r_Status r = StatusPaid -> k ∈ log -> about_order StatusPaid id k ->
    exists q, orders (pg w') !! id = Some q /\ same_order r q /\ r_Status q = StatusTicketed.
Definition refunds_for (log : list KRecord) w w' : Prop :=
  forall txn f k, refunds (pg w) !! txn = Some f -> k ∈ log -> of_type OrderRefundRequested k -> ev_ProviderTxnID (k_Value k) = txn ->
    exists g, refunds (pg w') !! txn = Some g /\ refund_kept f g /\ f_Status g = RefundSucceeded /\
      paid_back (gateway w') (request_of txn f).
Lemma tickets_served secret (patience : nat) polls log w :
  told_inv w -> (bad w <= patience)%nat -> read_all (R := R) (ticket_service Unmarshal secret) polls log ->
  let w' := (run (kafka_Run commit patience (ticket_service Unmarshal secret) polls) w).2 in
  told_inv w' /\ progress w w' /\ (bad w' <= bad w)%nat /\
  tickets_for log w w'.
Proof.
  intros Hw Hb Hpolls. destruct (safe_told _ w (ticket_service_safe patience secret polls w) Hw) as [Hw' Hp].
  destruct (Consume_live (since w) (TicketIssuer_Handler Unmarshal secret) (ticket_done Unmarshal) commit patience polls w)
    as (w' & Hrun & _ & Hd & _ & Hbad); [by split; [apply Hw|]|done|].
  unfold kafka_Run in *. cbn [sub_handler ticket_service] in *. rewrite Hrun in *. cbn [snd] in *. split_and!; [apply Hw'..|done|done|].
  intros id r k Hr Hst Hk (Hty & Hid & _). destruct (ev_orders _ _ (pr_books _ _ Hp) id r Hr) as (q & Hq & Hs & Ht).
  exists q. split_and!; [done..|]. rewrite Hst in Ht. destruct (paid_then _ Ht) as [Hc|]; [|done]. exfalso.
  eapply (Hd k) with (ev := k_Value k); [|by apply log_delivers|by rewrite Hid|done].
  eapply read_all_elem; [done..|]. rewrite (proj1 Hty). by left.
Qed.

Lemma refunds_served (patience : nat) polls log w :
  told_inv w -> (bad w <= patience)%nat -> read_all (R := R) (refunder_service Unmarshal) polls log ->
  let w' := (run (kafka_Run commit patience (refunder_service Unmarshal) polls) w).2 in
  told_inv w' /\ progress w w' /\ (bad w' <= bad w)%nat /\
  refunds_for log w w'.
Proof.
  intros Hw Hb Hpolls. destruct (safe_told _ w (refunder_service_safe patience polls w) Hw) as [Hw' Hp].
  destruct (Consume_live (since w) (RefundProcessor_Handler Unmarshal) (refund_done Unmarshal w) commit patience polls w)
    as (w' & Hrun & _ & Hd & _ & Hbad); [by split; [apply Hw|]|done|].
  unfold kafka_Run in *. cbn [sub_handler refunder_service] in *. rewrite Hrun in *. cbn [snd] in *. split_and!; [apply Hw'..|done|done|].
  intros txn f k Hf Hk Hty Htxn. destruct (ev_refunds _ _ (pr_books _ _ Hp) txn f Hf) as (g & Hg & Hkept).
  destruct (Hd k) with (ev := k_Value k) as (g' & Hg' & Hs); [|by apply log_delivers|rewrite Htxn; eauto|].
  { eapply read_all_elem; [done..|]. rewrite (proj1 Hty). by left. }
  rewrite Htxn in Hg'. assert (g' = g) as -> by congruence. exists g. split_and!; [done..|].
  pose proof (winv_paid _ _ _ (proj1 Hw') Hg (wi_refunded _ (proj1 Hw') txn g Hg Hs)) as Hpaid.
  destruct Hkept as (E1 & E2 & _). unfold request_of in *. by rewrite <- E1, <- E2.
Qed.

(** Every paid order gets its tickets. From any reachable world in which
    no more call fails: after enough rounds of the relay to publish the
    backlog, once the ticket service has been through its topic, in whatever
    batches and order, every order that was PAID is TICKETED. *)
Theorem paid_orders_get_tickets (secret : string) w c (n patience : nat) (polls : list (list KRecord))
    (Hfresh : fresh w) (Hreach : reaches ([], w) c) (Hcalm : faults c.2 = [])
    (Hrounds : (length (backlog (pg c.2)) <= n * RelayBatchSize)%nat)
    (Hpolls : read_all (R := R) (ticket_service Unmarshal secret) polls (klog (relay_rounds n c.2))) :
  let w' := (run (kafka_Run commit patience (ticket_service Unmarshal secret) polls) (relay_rounds n c.2)).2 in
  forall id r, orders (pg c.2) !! id = Some r -> r_Status r = StatusPaid ->
    exists q, orders (pg w') !! id = Some q /\ same_order r q /\ r_Status q = StatusTicketed.
Proof.
  pose proof (reachable_told_inv _ _ Hfresh Hreach) as Hw. destruct (relay_rounds_told n c.2 Hw) as [Hw1 Hp1].
  destruct (relay_rounds_calm n c.2 Hcalm) as (Hf1 & _). intros w' id r Hr Hst.
  destruct (fun Hb => tickets_served secret patience polls _ _ Hw1 Hb Hpolls) as (_ & _ & _ & Hd); [unfold bad; rewrite Hf1; simpl; lia|].
  pose proof (aw_order _ _ _ (proj2 Hw) id r Hr) as Ht. rewrite Hst in Ht.
  destruct (relay_publishes n c.2 _ (proj1 Hw) Hcalm Hrounds Ht) as (k & Hk & Hin).
  rewrite <- (proj1 (relay_rounds_tables n c.2 Hcalm)) in Hr. by apply (Hd id r k).
Qed.

(** Every refund that is owed is paid back: likewise, once the refund
    service has been through its topic, every refund that was PENDING has been
    paid back by the gateway and is SUCCEEDED. *)
Theorem owed_refunds_are_paid w c (n patience : nat) (polls : list (list KRecord))
    (Hfresh : fresh w) (Hreach : reaches ([], w) c) (Hcalm : faults c.2 = [])
    (Hrounds : (length (backlog (pg c.2)) <= n * RelayBatchSize)%nat)
    (Hpolls : read_all (R := R) (refunder_service Unmarshal) polls (klog (relay_rounds n c.2))) :
  let w' := (run (kafka_Run commit patience (refunder_service Unmarshal) polls) (relay_rounds n c.2)).2 in
  forall txn f, refunds (pg c.2) !! txn = Some f -> f_Status f = RefundPending ->
    exists g, refunds (pg w') !! txn = Some g /\ refund_kept f g /\ f_Status g = RefundSucceeded /\
      paid_back (gateway w') (request_of txn f).
Proof.
  pose proof (reachable_told_inv _ _ Hfresh Hreach) as Hw. destruct (relay_rounds_told n c.2 Hw) as [Hw1 Hp1].
  destruct (relay_rounds_calm n c.2 Hcalm) as (Hf1 & _). intros w' txn f Hf Hst.
  destruct (fun Hb => refunds_served patience polls _ _ Hw1 Hb Hpolls) as (_ & _ & _ & Hd); [unfold bad; rewrite Hf1; simpl; lia|].
  destruct (relay_publishes n c.2 _ (proj1 Hw) Hcalm Hrounds (aw_refund _ _ _ (proj2 Hw) txn f Hf)) as (k & (Hk & _ & Hid) & Hin).
  unfold refund_type in Hk. rewrite bool_decide_eq_true_2 in Hk by done.
  rewrite <- (proj2 (relay_rounds_tables n c.2 Hcalm)) in Hf. by apply (Hd txn f k).
Qed.
End pipeline.
