(* ===== verification/Notifier.v ===== *)
(** * Messages to the buyers (internal/notifier/notifier.go)

    The handler behind the notifier's consumer: one message for every issued
    order and every refund, remembered in Redis so that a redelivered record
    is not told twice. The Telegram chat is [chat] of the world. *)

From S2P Require Import Prelude GoLib Money Effects RedisServer World Frame Outbox Consumer Delivery.
Local Open Scope tr_scope.

Section notifier.
Context {R : Type} `{RedisServer R} `{UuidLib}.
Implicit Types w : World R.

(** ** Senders *)

Definition Sender : Type := string -> M R unit.

(** The log is not part of the world. *)
Definition LogSender_Send : Sender := fun _ => mret tt.

(** One request to the Bot API; an answer other than 200 is an error, like a
    request that does not arrive. *)
Definition Telegram_Send : Sender := fun text => call EInfra (fun w => (Ok tt, set_chat (chat w ++ [text]) w)).

(** ** What was told already *)

Definition seenTTL : Z := 7 * 24 * 3600 * Second.
Definition seenKey (key : string) : string := "notified:" +:+ key.

Definition redis_Seen (key : string) : M R bool :=
  redis_call (fun now r => (bool_decide (is_Some (GET r now (seenKey key))), r)).
Definition redis_Mark (key : string) : M R unit :=
  redis_call (fun now r => (tt, SET r now (seenKey key) "1" (Some (Milliseconds seenTTL)))).

(** ** Notify *)

Definition DedupeKey (ev : OrderEvent) : string :=
  let key := ev_EventType ev +:+ ":" +:+ uuid_String (ev_OrderID ev) in
  if bool_decide (ev_ProviderTxnID ev = EmptyString) then key else key +:+ ":" +:+ ev_ProviderTxnID ev.

Definition Message (ev : OrderEvent) : string :=
  if bool_decide (ev_EventType ev = TicketIssued)
  then "Đã xuất " +:+ FormatInt (Z.of_nat (length (ev_SeatIDs ev))) +:+ " vé cho đơn " +:+ uuid_String (ev_OrderID ev) +:+
       " (sự kiện " +:+ FormatInt (ev_Event ev) +:+ "): " +:+ String.concat ", " (ev_SeatIDs ev) +:+
       ". Tổng " +:+ FormatVND (ev_TotalVND ev) +:+ " đ."
  else if bool_decide (ev_EventType ev = OrderRefunded)
  then "Đã hoàn " +:+ FormatVND (ev_AmountVND ev) +:+ " đ cho đơn " +:+ uuid_String (ev_OrderID ev) +:+
       " (giao dịch " +:+ ev_ProviderTxnID ev +:+ ", lý do " +:+ ev_Reason ev +:+ ")."
  else EmptyString.

Definition Notify (send : Sender) (ev : OrderEvent) : prog (World R) (option HandlerErr) :=
  let key := DedupeKey ev in
  let! seen := act (redis_Seen key) in
  match seen with
  | Err e => Ret (Some (Failed e))
  | Ok true => Ret None
  | Ok false =>
      let text := Message ev in
      if bool_decide (text = EmptyString) then Ret None
      else
        let! r := act (send text) in
        match r with
        | Err e => Ret (Some (Failed e))
        | Ok _ => let! _ := act (redis_Mark key) in Ret None
        end
  end.

Definition notified : list string := [TicketIssued; OrderRefunded].
Definition Notifier_Handler (Unmarshal : KRecord -> option OrderEvent) (send : Sender) : KHandler R :=
  Events.Handler Unmarshal (Notify send) notified.

(** cmd/notifier/main.go: Telegram when there is a token, else the log. *)
Definition notifier_sender (TelegramBotToken : string) : Sender :=
  if bool_decide (TelegramBotToken = EmptyString) then LogSender_Send else Telegram_Send.
Definition notifier_service (Unmarshal : KRecord -> option OrderEvent) (TelegramBotToken : string) : Subscription R :=
  mkSubscription "notifier" [TopicOrders; TopicTickets] (Notifier_Handler Unmarshal (notifier_sender TelegramBotToken)).

(** ** What Notify does *)

Lemma Message_notified ev : ev_EventType ev ∈ notified -> Message ev <> EmptyString.
Proof.
  unfold notified, Message. intros Hev. case_bool_decide; [done|]. case_bool_decide; [done|]. set_solver.
Qed.

(** The key is remembered in [w]. *)
Definition marked (key : string) w : Prop := is_Some (GET (rds w) (redis_now w) (seenKey key)).
#[global] Instance marked_dec key w : Decision (marked key w).
Proof. unfold marked. apply _. Defined.

Lemma seenKey_inj key key' : seenKey key = seenKey key' -> key = key'.
Proof. apply string_app_inv_head. Qed.

(** A message about [key] is in the chat. *)
Definition told_about (key : string) w : Prop := exists ev, DedupeKey ev = key /\ Message ev ∈ chat w.

(** ** Calls *)

Lemma pop_fault_quiet w f w0 : pop_fault w = (f, w0) -> rds w0 = rds w /\ redis_now w0 = redis_now w /\ chat w0 = chat w.
Proof. unfold pop_fault. destruct (faults w); by intros [= <- <-]. Qed.

(** A call to Redis leaves the chat alone; a failure uses up a fault. *)
Lemma redis_call_quiet {A} (f : Z -> R -> A * R) w :
  let '(r, w') := redis_call f w in
  chat w' = chat w /\ redis_now w' = redis_now w /\ (bad w' <= bad w)%nat /\
  match r with
  | Ok x => (x, rds w') = f (redis_now w) (rds w)
  | Err _ => (bad w' < bad w)%nat /\ (rds w' = rds w \/ rds w' = (f (redis_now w) (rds w)).2)
  end.
Proof.
  unfold redis_call, call. destruct (pop_fault w) as [fl w0] eqn:Hp. destruct (pop_fault_quiet _ _ _ Hp) as (R1 & N1 & C1).
  destruct (pop_fault_bad _ _ _ Hp) as (_ & _ & _ & _ & _ & Hb & Hlt).
  destruct fl; rewrite ?R1, ?N1; [|specialize (Hlt ltac:(done)); destruct (f _ _) as [x r]..].
  - destruct (f _ _) as [x r]. by split_and!.
  - split_and!; [done..|by left].
  - split_and!; [done..|by right].
Qed.

(** A message is in the chat when the sender says so, and it says so unless a
    call failed; nothing else changes. *)
Class SenderFrame (send : Sender) : Prop := {
  send_frame text w :
    let '(r, w') := send text w in
    rds w' = rds w /\ redis_now w' = redis_now w /\ (bad w' <= bad w)%nat /\ chat w `prefix_of` chat w' /\
    match r with Ok _ => text ∈ chat w' | Err _ => (bad w' < bad w)%nat end;
}.

#[global] Instance telegram_frame : SenderFrame Telegram_Send.
Proof.
  split. intros text w. unfold Telegram_Send, call. destruct (pop_fault w) as [fl w1] eqn:Hp.
  destruct (pop_fault_quiet _ _ _ Hp) as (R1 & N1 & C1). destruct (pop_fault_bad _ _ _ Hp) as (_ & _ & _ & _ & _ & Hb & Hlt).
  destruct fl; cbn; rewrite <- C1; [|specialize (Hlt ltac:(done))..]; split_and!; try done; try by eexists.
  apply elem_of_app. right. constructor.
Qed.
End notifier.

(** ** The consumer *)

Section consumer.
Context {R : Type} `{RedisServer R} `{UuidLib}.
Context (Unmarshal : KRecord -> option OrderEvent) (send : Sender (R := R)) `{!SenderFrame send}.
Context (commit : list KRecord -> World R -> res GoErr unit * World R) `{!OffsetCommit commit}.
Context (w0 : World R).
Implicit Types w : World R.

(** What was remembered since [w0] was told. *)
Definition remembers w : Prop :=
  chat w0 `prefix_of` chat w /\ redis_now w0 <= redis_now w /\
  forall key, marked key w -> marked key w0 \/ told_about key w.

(** The event of the record was told, or had been remembered. *)
Definition tell_done (r : KRecord) w : Prop :=
  forall ev, delivers Unmarshal notified r ev -> marked (DedupeKey ev) w0 \/ told_about (DedupeKey ev) w.

Lemma told_about_later key w w' : chat w `prefix_of` chat w' -> told_about key w -> told_about key w'.
Proof. intros [l Hl] (ev & Hk & Hm). exists ev. split; [done|]. rewrite Hl. apply elem_of_app. by left. Qed.

(** Time passing and changes elsewhere. *)
Lemma remembers_later w w' :
  rds w' = rds w -> redis_now w <= redis_now w' -> chat w `prefix_of` chat w' -> remembers w ->
  remembers w' /\ forall q, tell_done q w -> tell_done q w'.
Proof.
  intros Hr Hn Hc (Hw1 & Hw2 & Hw3). split.
  - split; [by etrans|]. split; [lia|]. intros key [v Hv]. rewrite Hr in Hv. destruct (Hw3 key) as [Hk|Hk]; [|by left|right; by eapply told_about_later].
    exists v. by eapply GET_mono.
  - intros q Hq ev He. destruct (Hq ev He) as [Hk|Hk]; [by left|right; by eapply told_about_later].
Qed.

(** Remembering what was told. *)
Lemma remembers_mark key w w' :
  chat w' = chat w -> redis_now w' = redis_now w -> told_about key w ->
  (rds w' = rds w \/ rds w' = SET (rds w) (redis_now w) (seenKey key) "1" (Some (Milliseconds seenTTL))) ->
  remembers w -> remembers w'.
Proof.
  intros Hc Hn Ht Hr Hw. destruct Hr as [Hr|Hr]; [apply (remembers_later w); (done || lia || by rewrite Hc)|].
  destruct Hw as (Hw1 & Hw2 & Hw3). split; [by rewrite Hc|]. split; [lia|]. intros key' Hk. unfold marked in Hk. rewrite Hr, Hn in Hk.
  destruct (decide (key' = key)) as [->|Hne]; [right; eapply told_about_later; [|exact Ht]; by rewrite Hc|].
  rewrite GET_SET_ne in Hk by (intros Heq; by apply seenKey_inj in Heq). destruct (Hw3 key' Hk) as [?|Hx]; [by left|right].
  eapply told_about_later; [|exact Hx]. by rewrite Hc.
Qed.

Lemma Notify_run ev w :
  remembers w -> ev_EventType ev ∈ notified ->
  let '(e, w') := run (Notify send ev) w in
  remembers w' /\ chat w `prefix_of` chat w' /\
  match e with
  | Some (Failed _) => (bad w' < bad w)%nat
  | Some (Permanent _) => False
  | None => (bad w' <= bad w)%nat /\ (marked (DedupeKey ev) w0 \/ told_about (DedupeKey ev) w')
  end.
Proof.
  intros Hw Hev. unfold Notify. rewrite run_bind, run_act. unfold redis_Seen.
  match goal with |- context [redis_call ?f w] => pose proof (redis_call_quiet f w) as Hc end.
  destruct (redis_call _ w) as [[seen|e] w1]; destruct Hc as (C1 & N1 & B1 & Hx); cbn [fst snd] in *.
  2:{ destruct Hx as [Hb Hr]. assert (rds w1 = rds w) as Hr1 by (by destruct Hr). cbn [run].
      destruct (remembers_later w w1) as [Hw1 _]; [done|lia|by rewrite C1|done|]. split; [done|]. split; [by rewrite C1|done]. }
  injection Hx as Hs Hr1. destruct (remembers_later w w1) as [Hw1 _]; [done|lia|by rewrite C1|done|].
  destruct seen; cbn [run].
  { split; [done|]. split; [by rewrite C1|]. split; [done|]. symmetry in Hs. apply bool_decide_eq_true in Hs.
    destruct Hw as (_ & _ & Hw3). destruct (Hw3 _ Hs) as [?|Ht]; [by left|right]. eapply told_about_later; [|exact Ht]. by rewrite C1. }
  rewrite bool_decide_eq_false_2 by (by apply Message_notified). rewrite run_bind, run_act.
  pose proof (send_frame (Message ev) w1) as Hf. destruct (send (Message ev) w1) as [[[]|e] w2]; destruct Hf as (R2 & N2 & B2 & C2 & Hf); cbn [fst snd run].
  2:{ destruct (remembers_later w1 w2) as [Hw2 _]; [done|lia|done|done|]. split; [done|]. split; [by rewrite <- C1|lia]. }
  destruct (remembers_later w1 w2) as [Hw2 _]; [done|lia|done|done|]. assert (told_about (DedupeKey ev) w2) as Ht by (by exists ev).
  rewrite run_bind, run_act. unfold redis_Mark.
  match goal with |- context [redis_call ?f w2] => pose proof (redis_call_quiet f w2) as Hc end.
  destruct (redis_call _ w2) as [rr w3]; destruct Hc as (C3 & N3 & B3 & Hx3); cbn [fst snd run].
  assert (remembers w3) as Hw3.
  { apply (remembers_mark (DedupeKey ev) w2); [done..| |done]. destruct rr as [x|e]; [right; by injection Hx3|by destruct Hx3]. }
  split; [done|]. split; [by rewrite C3, <- C1|]. split; [lia|]. right. eapply told_about_later; [|exact Ht]. by rewrite C3.
Qed.

#[export] Instance notifier_handles : Handles remembers (Notifier_Handler Unmarshal send) tell_done commit.
Proof.
  split.
  - intros r w Hw. unfold Notifier_Handler.
    destruct (Handler_cases Unmarshal (Notify send) notified r) as [(ev & Hd & ->)|(e & He & -> & Hn)].
    + pose proof (Notify_run ev w Hw (proj2 (proj2 Hd))) as Hr. destruct (run (Notify send ev) w) as [e w'].
      destruct Hr as (Hw' & Hc & He). split; [done|]. split.
      { intros q Hq ev' Hev. destruct (Hq ev' Hev) as [?|?]; [by left|right; by eapply told_about_later]. }
      destruct e as [[e|e]|]; [done..|]. destruct He as [Hb He]. split; [done|]. intros ev' Hev'.
      destruct Hd as (_ & Hu & _), Hev' as (_ & Hu' & _). by simplify_eq.
    + cbn [run]. split; [done|]. split; [done|]. destruct e as [[err|err]|]; [by destruct (He err)|..]; (split; [done|]); intros ev Hev; by destruct (Hn ev).
  - intros d w Hd Hw. apply (remembers_later w); [done| |done|done]. cbn. unfold Milliseconds. pose proof (Z.quot_pos d 1000000 Hd). lia.
  - intros rs w Hw. destruct (commit_quiet rs w) as (H1 & H2 & H3).
    destruct (remembers_later w (commit rs w).2) as [Hw' Hk]; [done|lia|by rewrite H3|done|]. split; [done|]. split; [apply commit_bad|done].
Qed.
End consumer.

(** ** When every call answers *)

Section once.
Context {R : Type} `{RedisServer R} `{UuidLib}.
Context (Unmarshal : KRecord -> option OrderEvent).
Context (commit : list KRecord -> World R -> res GoErr unit * World R) `{!OffsetCommit commit}.
Implicit Types (w : World R) (S : gset string).

(** The event a record brings to [Notify]. *)
Definition event_in (r : KRecord) : option OrderEvent :=
  let t := Header r HeaderEventType in
  if bool_decide (t = EmptyString) || bool_decide (t ∈ notified) then
    match Unmarshal r with
    | Some ev => if bool_decide (ev_EventType ev ∈ notified) then Some ev else None
    | None => None
    end
  else None.

(** The messages for the events not yet in [S]: the first of each topic. *)
Fixpoint announce S (evs : list OrderEvent) : list string :=
  match evs with
  | [] => []
  | ev :: evs =>
      if bool_decide (DedupeKey ev ∈ S) then announce S evs
      else Message ev :: announce ({[DedupeKey ev]} ∪ S) evs
  end.

Definition after S (evs : list OrderEvent) : gset string := list_to_set (DedupeKey <$> evs) ∪ S.

Lemma announce_app S l1 l2 : announce S (l1 ++ l2) = announce S l1 ++ announce (after S l1) l2.
Proof.
  revert S. induction l1 as [|ev l1 IH]; intros S; cbn [announce app].
  { unfold after. cbn. by rewrite (left_id_L ∅ (∪)). }
  unfold after in *. case_bool_decide as Hin; cbn [app]; rewrite IH; [|f_equal]; do 2 f_equal; cbn; set_solver.
Qed.

(** Every call answers, and [S] is what is remembered. *)
Definition knows S w : Prop := bad w = 0%nat /\ forall key, marked key w <-> key ∈ S.

(** The chat after the events [evs]. *)
Definition tells S (evs : list OrderEvent) w w' : Prop := knows (after S evs) w' /\ chat w' = chat w ++ announce S evs.

Lemma redis_call_answers {A} (f : Z -> R -> A * R) w :
  bad w = 0%nat ->
  exists w', redis_call f w = (Ok (f (redis_now w) (rds w)).1, w') /\ rds w' = (f (redis_now w) (rds w)).2 /\
    redis_now w' = redis_now w /\ chat w' = chat w /\ bad w' = 0%nat.
Proof.
  intros Hb. pose proof (redis_call_quiet f w) as Hc. destruct (redis_call f w) as [[x|e] w']; destruct Hc as (C & N & B & Hx); [|lia].
  exists w'. rewrite <- Hx. split_and!; (done || lia).
Qed.

Lemma Telegram_answers text w :
  bad w = 0%nat -> exists w', Telegram_Send text w = (Ok tt, w') /\ rds w' = rds w /\ redis_now w' = redis_now w /\
    chat w' = chat w ++ [text] /\ bad w' = 0%nat.
Proof.
  intros Hb. unfold Telegram_Send, call. destruct (pop_fault w) as [fl w1] eqn:Hp.
  destruct (pop_fault_quiet _ _ _ Hp) as (R1 & N1 & C1). destruct (pop_fault_bad _ _ _ Hp) as (_ & _ & _ & _ & _ & Hb1 & Hlt).
  destruct fl; [|specialize (Hlt ltac:(done)); lia..]. eexists. split; [reflexivity|]. cbn. rewrite <- C1. split_and!; try done.
  unfold bad in *. cbn. lia.
Qed.

Lemma Notify_once S ev w :
  knows S w -> ev_EventType ev ∈ notified ->
  (run (Notify Telegram_Send ev) w).1 = None /\ tells S [ev] w (run (Notify Telegram_Send ev) w).2.
Proof.
  intros [Hb HS] Hev. unfold Notify. rewrite run_bind, run_act. unfold redis_Seen.
  match goal with |- context [redis_call ?f w] => destruct (redis_call_answers f w Hb) as (w1 & -> & R1 & N1 & C1 & B1) end. cbn [fst snd] in *.
  assert (HS1 : forall key, marked key w1 <-> key ∈ S) by (intros key; unfold marked; rewrite R1, N1; apply HS).
  unfold tells, knows, after. cbn [announce].
  destruct (decide (DedupeKey ev ∈ S)) as [Hin|Hin].
  - rewrite (bool_decide_eq_true_2 (is_Some _)) by (by apply (HS (DedupeKey ev))). rewrite bool_decide_eq_true_2 by done. cbn [run fst snd].
    split; [done|]. split; [|by rewrite C1, app_nil_r]. split; [done|]. intros key. rewrite HS1. cbn. set_solver.
  - rewrite (bool_decide_eq_false_2 (is_Some _)) by (by intros Hm; apply Hin, (HS (DedupeKey ev))). rewrite bool_decide_eq_false_2 by (by apply Message_notified).
    rewrite run_bind, run_act. destruct (Telegram_answers (Message ev) w1 B1) as (w2 & -> & R2 & N2 & C2 & B2). cbn [fst snd].
    rewrite run_bind, run_act. unfold redis_Mark.
    match goal with |- context [redis_call ?f w2] => destruct (redis_call_answers f w2 B2) as (w3 & -> & R3 & N3 & C3 & B3) end. cbn [fst snd run] in *.
    rewrite bool_decide_eq_false_2 by done. split; [done|]. split; [|by rewrite C3, C2, C1]. split; [done|]. intros key. unfold marked in *. rewrite R3, N3.
    destruct (decide (key = DedupeKey ev)) as [->|Hne].
    + rewrite GET_SET_now by (intros ttl [= <-]; reflexivity). cbn. set_solver.
    + rewrite GET_SET_ne by (intros Heq; apply seenKey_inj in Heq; congruence). rewrite R2, N2, HS1. cbn. set_solver.
Qed.

Definition events_of (rs : list KRecord) : list OrderEvent := omap event_in rs.

Lemma tells_trans S l1 l2 w1 w2 w3 : tells S l1 w1 w2 -> tells (after S l1) l2 w2 w3 -> tells S (l1 ++ l2) w1 w3.
Proof.
  intros [_ H1] [H2 H3]. split; [|by rewrite H3, H1, announce_app, (assoc_L (++))].
  destruct H2 as [Hb Hk]. split; [done|]. intros key. rewrite Hk. unfold after. rewrite fmap_app, list_to_set_app_L. set_solver.
Qed.

Lemma Handler_once S r w :
  knows S w ->
  let p := Notifier_Handler Unmarshal Telegram_Send r in
  (forall e, (run p w).1 <> Some (Failed e)) /\ tells S (events_of [r]) w (run p w).2.
Proof.
  intros HS. cbv zeta. unfold Notifier_Handler, Events.Handler, events_of, event_in. cbn [omap list_omap].
  assert (Hnil : tells S [] w w) by (split; [unfold after; cbn; by rewrite (left_id_L ∅ (∪))|cbn [announce]; by rewrite app_nil_r]).
  destruct (bool_decide (Header r HeaderEventType = EmptyString)), (bool_decide (Header r HeaderEventType ∈ notified)); cbn [negb andb orb];
    [..|by split]; (destruct (Unmarshal r) as [ev|]; [|by split]); case_bool_decide as H3; cbn [negb]; [|by split| |by split| |by split];
    by destruct (Notify_once S ev w HS H3) as [-> Ht].
Qed.

Lemma process_all_once n S rs w :
  knows S w ->
  let r := run (process_all n (Notifier_Handler Unmarshal Telegram_Send) rs) w in
  r.1 = Some n /\ tells S (events_of rs) w r.2.
Proof.
  cbv zeta. revert S w. induction rs as [|r rs IH]; intros S w HS; cbn [process_all].
  { split; [done|]. split; [unfold after; cbn; by rewrite (left_id_L ∅ (∪))|cbn [run snd events_of announce]; by rewrite app_nil_r]. }
  destruct (Handler_once S r w HS) as [Hne Ht]. rewrite run_bind.
  assert (Hp : run (process n retryMin (Notifier_Handler Unmarshal Telegram_Send) r) w =
    (Some n, (run (Notifier_Handler Unmarshal Telegram_Send r) w).2)).
  { destruct n; cbn [process]; rewrite run_bind; destruct (run (Notifier_Handler _ _ r) w) as [[[e|e]|] w1];
      cbn [fst snd IsPermanent run] in *; (done || by destruct (Hne e)). }
  rewrite Hp. cbn [fst snd]. destruct (IH (after S (events_of [r])) _ (proj1 Ht)) as [H1 H2]. split; [done|].
  replace (events_of (r :: rs)) with (events_of [r] ++ events_of rs) by (unfold events_of; cbn; by destruct (event_in r)).
  by eapply tells_trans.
Qed.

Lemma Consume_once n S polls w :
  knows S w ->
  let r := run (Consume commit n (Notifier_Handler Unmarshal Telegram_Send) polls) w in
  r.1 = length polls /\ tells S (events_of (mjoin polls)) w r.2.
Proof.
  cbv zeta. revert S w. induction polls as [|rs polls IH]; intros S w HS; cbn [Consume].
  { split; [done|]. split; [unfold after; cbn; by rewrite (left_id_L ∅ (∪))|cbn [mjoin list_join run snd]; by rewrite app_nil_r]. }
  rewrite run_bind. destruct (process_all_once n S rs w HS) as [-> Ht]. set (w1 := (run (process_all _ _ rs) w).2) in *.
  rewrite run_bind, run_act. destruct (commit_quiet rs w1) as (C1 & C2 & C3).
  assert (Hc : tells S (events_of rs) w (commit rs w1).2).
  { destruct Ht as [[Hb Hk] Hch]. split; [|by rewrite C3]. split; [pose proof (commit_bad rs w1); lia|].
    intros key. unfold marked. rewrite C1, C2. apply Hk. }
  rewrite run_bind. destruct (IH (after S (events_of rs)) _ (proj1 Hc)) as [H1 H2]. cbn [fst snd]. rewrite H1. split; [done|].
  replace (events_of (mjoin (rs :: polls))) with (events_of rs ++ events_of (mjoin polls)) by (symmetry; apply omap_app).
  cbn [run snd]. by eapply tells_trans.
Qed.
End once.

(** ** Properties *)

(** C35. Buyers are told, and told once. Whatever fails finitely often on the
    way to Redis, Telegram and the broker: the notifier handles and commits
    every polled batch, and the topic (the tickets of an order, or one
    refunded payment) of every ticket.issued and order.refunded record in it
    has a message in the chat, unless Redis remembered it from before. When
    every call answers, the chat gets exactly one message per topic not
    remembered yet, in the order of the records. *)
Theorem buyers_are_told {R : Type} `{RedisServer R} `{UuidLib} (Unmarshal : KRecord -> option OrderEvent)
    (commit : list KRecord -> World R -> res GoErr unit * World R) `{!OffsetCommit commit}
    (patience : nat) (polls : list (list KRecord)) (w : World R) (Hpatience : (bad w <= patience)%nat) :
  let r := run (Consume commit patience (Notifier_Handler Unmarshal Telegram_Send) polls) w in
  r.1 = length polls /\ chat w `prefix_of` chat r.2 /\
  (forall k ev, k ∈ mjoin polls -> delivers Unmarshal notified k ev -> marked (DedupeKey ev) w \/ told_about (DedupeKey ev) r.2) /\
  (bad w = 0%nat -> forall S, (forall key, marked key w <-> key ∈ S) ->
     chat r.2 = chat w ++ announce S (events_of Unmarshal (mjoin polls))).
Proof.
  cbv zeta. destruct (Consume_live (remembers w) (Notifier_Handler Unmarshal Telegram_Send) (tell_done Unmarshal w) commit patience polls w)
    as (w' & Hr & (Hc & _) & Hd & _); [by split_and!; auto|done|].
  split_and!.
  - by rewrite Hr.
  - by rewrite Hr.
  - rewrite Hr. intros k ev Hk. by apply Hd.
  - intros Hb S HS. destruct (Consume_once Unmarshal commit patience S polls w) as [_ [_ ->]]; [by split|done].
Qed.
