(* ===== verification/Buyers.v ===== *)
(** * From the payment to the buyer's message

    The services behind the topics, one after the other: the relay publishes,
    the ticket service and the refunder act, the relay publishes what they
    announced, the notifier writes to the buyers. *)

From S2P Require Import Prelude GoLib Effects RedisServer OrderState World Frame OrderDB Outbox.
From S2P Require Import OrderService OrderRefund OrderBooks System Background Consumer Delivery Pipeline Notifier.

Section buyers.
Context {R : Type} `{RedisServer R} `{UuidLib}.
Context (Unmarshal : KRecord -> option OrderEvent).
Context (commit : list KRecord -> World R -> res GoErr unit * World R) `{!OffsetCommit commit}.
Implicit Types (w : World R) (c : list (prog (World R) unit) * World R).

(** ** The notifier among the services *)

Lemma Notify_frame send ev : (forall text v, books_kept v (send text v).2) -> keeps_books (Notify (R := R) send ev).
Proof.
  intros Hs. unfold Notify. apply respects_bind; [apply act_redis_call_frame|]. intros [[]|e]; [done| |done].
  case_bool_decide; [done|]. apply respects_bind; [apply respects_act; intros v _; split; [done|apply Hs]|]. intros [x|e]; [|done].
  apply respects_bind; [apply act_redis_call_frame|done].
Qed.

Lemma Telegram_books text w : books_kept w (Telegram_Send text w).2.
Proof.
  unfold Telegram_Send, call. destruct (pop_fault w) as [fl w1] eqn:Hp. apply pop_fault_books in Hp as [Hk _]. by destruct fl.
Qed.

Lemma notifier_service_safe n token polls w :
  safe winv world_step progress (kafka_Run commit n (notifier_service Unmarshal token) polls) w.
Proof.
  apply Consume_safe; [done|]. intros r v. apply Handler_safe. intros ev u. apply respects_safe, sys_frame, Notify_frame.
  intros text x. unfold notifier_sender. case_bool_decide; [done|apply Telegram_books].
Qed.

(** ** What the notifier has told *)

(** The topic of the message about an order's tickets, about a refund. *)
Definition tickets_notice (id : UUID) : string := TicketIssued +:+ ":" +:+ uuid_String id.
Definition refund_notice (id : UUID) (txn : string) : string := OrderRefunded +:+ ":" +:+ uuid_String id +:+ ":" +:+ txn.

Lemma tickets_noticed id k : about_order StatusTicketed id k -> DedupeKey (k_Value k) = tickets_notice id.
Proof.
  intros ((_ & _ & Ht & _) & Hid & Htxn). unfold DedupeKey. by rewrite Htxn, Ht, Hid.
Qed.

Lemma refund_noticed txn f k :
  about_refund txn f k -> f_Status f <> RefundPending -> txn <> EmptyString ->
  DedupeKey (k_Value k) = refund_notice (f_OrderID f) txn.
Proof.
  intros ((_ & _ & Ht & _) & Hid & Htxn) Hst Hne. unfold DedupeKey. rewrite Htxn, Ht, Hid, bool_decide_eq_false_2 by done.
  unfold refund_type. rewrite bool_decide_eq_false_2 by done. unfold refund_notice. by rewrite <- !string_app_assoc.
Qed.

(** The buyer is told, or Redis had remembered in [w] that she was. *)
Definition hears (key : string) w w' : Prop := marked key w \/ told_about key w'.

Definition notices (log : list KRecord) w w' : Prop :=
  forall ty k, k ∈ log -> of_type ty k -> ty ∈ notified -> hears (DedupeKey (k_Value k)) w w'.

Hypothesis Unmarshal_record : forall id m, Unmarshal (record_of (id, m)) = Some (k_Value (record_of (id, m))).

Lemma notifier_served token (patience : nat) polls log w :
  token <> EmptyString -> (bad w <= patience)%nat -> read_all (R := R) (notifier_service Unmarshal token) polls log ->
  let w' := (run (kafka_Run commit patience (notifier_service Unmarshal token) polls) w).2 in
  notices log w w'.
Proof.
  intros Htoken Hb Hpolls w' ty k Hk Hty Hin.
  destruct (Consume_live (remembers w) (Notifier_Handler Unmarshal Telegram_Send) (tell_done Unmarshal w) commit patience polls w)
    as (w2 & Hrun & _ & Hd & _); [by split_and!; auto|done|].
  unfold w', kafka_Run. cbn [sub_handler notifier_service]. unfold notifier_sender. rewrite bool_decide_eq_false_2 by done.
  rewrite Hrun. cbn [snd]. apply (Hd k).
  - eapply read_all_elem; [done..|]. rewrite (proj1 Hty). unfold topic_of. cbn. case_bool_decide; set_solver.
  - destruct Hty as (_ & H1 & H2 & id & m & ->). split_and!; [right; by rewrite H1|apply Unmarshal_record|by rewrite H2].
Qed.

(** ** Property *)

Lemma ticketed_stays w w' id q :
  progress w w' -> orders (pg w) !! id = Some q -> r_Status q = StatusTicketed ->
  exists q', orders (pg w') !! id = Some q' /\ r_Status q' = StatusTicketed.
Proof.
  intros Hp Hq Hst. destruct (ev_orders _ _ (pr_books _ _ Hp) id q Hq) as (q' & Hq' & _ & Ht). exists q'. split; [done|].
  rewrite Hst in Ht. apply rtc_inv in Ht as [<-|(y & Hy & _)]; [done|]. apply CanTransition_arrow in Hy. inversion Hy.
Qed.

Lemma succeeded_stays w w' txn f :
  progress w w' -> refunds (pg w) !! txn = Some f -> f_Status f = RefundSucceeded -> refunds (pg w') !! txn = Some f.
Proof.
  intros Hp Hf Hst. destruct (ev_refunds _ _ (pr_books _ _ Hp) txn f Hf) as (g & Hg & (_ & _ & _ & [->|Hpen])); [done|].
  rewrite Hst in Hpen. done.
Qed.

(** Everything told in [w] is in [log]. *)
Definition in_log (log : list KRecord) w : Prop := forall P, told P w -> exists k, P k /\ k ∈ log.

Lemma relay_published n w :
  told_inv w -> faults w = [] -> (length (backlog (pg w)) <= n * RelayBatchSize)%nat -> in_log (klog (relay_rounds n w)) w.
Proof. intros [Hw _] Hf Hn P. by apply relay_publishes. Qed.

Lemma sold_ticketed log w0 w1 w2 :
  told_inv w0 -> in_log log w0 -> progress w0 w1 -> progress w1 w2 -> tickets_for log w1 w2 ->
  forall id r, orders (pg w0) !! id = Some r -> r_Status r = StatusPaid \/ r_Status r = StatusTicketed ->
    exists q, orders (pg w2) !! id = Some q /\ r_Status q = StatusTicketed.
Proof.
  intros [_ Htold] Hlog P1 P2 Dt id r Hr Hst. destruct (ev_orders _ _ (pr_books _ _ P1) id r Hr) as (r1 & Hr1 & _ & Ht1).
  destruct Hst as [Hst|Hst]; [|eapply (ticketed_stays w0); [by etrans|done..]].
  rewrite Hst in Ht1. destruct (paid_then _ Ht1) as [Hp|Ht]; [|by eapply ticketed_stays].
  pose proof (aw_order _ _ _ Htold id r Hr) as Hk. rewrite Hst in Hk. destruct (Hlog _ Hk) as (k & Hak & Hin).
  destruct (Dt id r1 k Hr1 Hp Hin Hak) as (q & ? & _ & ?). eauto.
Qed.

Lemma refund_succeeds log w0 w2 w3 :
  told_inv w0 -> in_log log w0 -> progress w0 w2 -> progress w2 w3 -> refunds_for log w2 w3 ->
  forall txn f, refunds (pg w0) !! txn = Some f ->
    exists g, refunds (pg w3) !! txn = Some g /\ refund_kept f g /\ f_Status g = RefundSucceeded.
Proof.
  intros [Hw Htold] Hlog P1 P2 Dr txn f Hf. destruct (Hlog _ (aw_refund _ _ _ Htold txn f Hf)) as (k & (Hty & _ & Htxn) & Hin).
  unfold refund_type in Hty. case_bool_decide as Hpen.
  - destruct (ev_refunds _ _ (pr_books _ _ P1) txn f Hf) as (f2 & Hf2 & Hk2).
    destruct (Dr txn f2 k Hf2 Hin Hty Htxn) as (g & Hg & Hkept & Hgs & _). exists g. split_and!; try done.
    destruct Hk2 as (? & ? & ? & _), Hkept as (? & ? & ? & _). unfold refund_kept. split_and!; try congruence. by right.
  - destruct (ok_refund _ (wi_books _ Hw) txn f Hf) as (? & ? & _ & _ & _ & _ & _ & _ & [Hs|Hs]); [done|].
    exists f. split_and!; [eapply (succeeded_stays w0); [by etrans|done..]|unfold refund_kept; auto|done].
Qed.

(** A TICKETED order, a SUCCEEDED refund of [w], after the notifier has been
    through everything told in [w]. *)
Section told_of.
Context (log : list KRecord) (w w' w'' : World R).
Context (Hw : told_inv w) (Hlog : in_log log w) (Hnotified : notices log w' w'').

Lemma ticketed_heard id q : orders (pg w) !! id = Some q -> r_Status q = StatusTicketed -> hears (tickets_notice id) w' w''.
Proof.
  intros Hq Hqs. pose proof (aw_order _ _ _ (proj2 Hw) id q Hq) as Ht. rewrite Hqs in Ht. destruct (Hlog _ Ht) as (k & Hk & Hin).
  rewrite <- (tickets_noticed id k Hk). eapply (Hnotified TicketIssued k Hin); [apply Hk|by left].
Qed.

Lemma refund_heard txn g :
  refunds (pg w) !! txn = Some g -> f_Status g = RefundSucceeded -> hears (refund_notice (f_OrderID g) txn) w' w''.
Proof.
  intros Hg Hgs. destruct (Hlog _ (aw_refund _ _ _ (proj2 Hw) txn g Hg)) as (k & Hk & Hin).
  rewrite <- (refund_noticed txn g k Hk); [|by rewrite Hgs|intros ->; by apply (no_empty_txn w g (proj1 Hw))].
  eapply (Hnotified OrderRefunded k Hin); [|right; left]. destruct Hk as (Hty & _). unfold refund_type in Hty. by rewrite Hgs in Hty.
Qed.
End told_of.

(** C11. Buyers hear of their tickets and of their money. From any reachable
    world [c.2] in which no call fails: the relay publishes the backlog, the
    ticket service and the refunder go through their topic, time passes, the
    relay publishes what they announced, and the notifier, with a Telegram
    token, goes through its topics. Then every order that was paid for is
    TICKETED and its buyer has been told, and every refund there was is
    SUCCEEDED, is paid back by the gateway, and its buyer has been told;
    but for what Redis remembers as told before. *)
Theorem buyers_hear (secret token : string) w c w4 (n m p1 p2 p3 : nat) (polls1 polls2 polls3 : list (list KRecord))
    (Hfresh : fresh w) (Hreach : reaches ([], w) c) (Hcalm : faults c.2 = []) (Htoken : token <> EmptyString)
    (Hrounds : (length (backlog (pg c.2)) <= n * RelayBatchSize)%nat) :
  let w1 := relay_rounds n c.2 in
  read_all (R := R) (ticket_service Unmarshal secret) polls1 (klog w1) ->
  let w2 := (run (kafka_Run commit p1 (ticket_service Unmarshal secret) polls1) w1).2 in
  read_all (R := R) (refunder_service Unmarshal) polls2 (klog w1) ->
  let w3 := (run (kafka_Run commit p2 (refunder_service Unmarshal) polls2) w2).2 in
  environment w3 w4 -> faults w4 = [] -> (length (backlog (pg w4)) <= m * RelayBatchSize)%nat ->
  let w5 := relay_rounds m w4 in
  read_all (R := R) (notifier_service Unmarshal token) polls3 (klog w5) ->
  let w6 := (run (kafka_Run commit p3 (notifier_service Unmarshal token) polls3) w5).2 in
  (forall id r, orders (pg c.2) !! id = Some r -> r_Status r = StatusPaid \/ r_Status r = StatusTicketed ->
     (exists q, orders (pg w6) !! id = Some q /\ r_Status q = StatusTicketed) /\ hears (tickets_notice id) w5 w6) /\
  (forall txn f, refunds (pg c.2) !! txn = Some f ->
     (exists g, refunds (pg w6) !! txn = Some g /\ f_Status g = RefundSucceeded) /\
     paid_back (gateway w6) (request_of txn f) /\ hears (refund_notice (f_OrderID f) txn) w5 w6).
Proof.
  intros w1 Hpolls1 w2 Hpolls2 w3 Hidle Hcalm4 Hrounds4 w5 Hpolls3 w6.
  pose proof (reachable_told_inv _ _ Hfresh Hreach) as T0. destruct (relay_rounds_told n c.2 T0) as [T1 P1]. fold w1 in T1, P1.
  assert (bad w1 = 0%nat) as B1 by (unfold bad, w1; by rewrite (proj1 (relay_rounds_calm n c.2 Hcalm))).
  destruct (tickets_served Unmarshal commit Unmarshal_record secret p1 polls1 (klog w1) w1 T1 ltac:(lia) Hpolls1) as (T2 & P2 & B2 & Dt).
  destruct (refunds_served Unmarshal commit Unmarshal_record p2 polls2 (klog w1) w2 T2 ltac:(unfold w2; lia) Hpolls2) as (T3 & P3 & B3 & Dr).
  fold w2 in T2, P2, B2, Dt. fold w3 in T3, P3, B3, Dr. destruct (environment_told w3 w4 Hidle T3) as [T4 P4].
  destruct (relay_rounds_told m w4 T4) as [T5 P5]. fold w5 in T5, P5.
  assert (bad w5 = 0%nat) as B5 by (unfold bad, w5; by rewrite (proj1 (relay_rounds_calm m w4 Hcalm4))).
  destruct (safe_told _ w5 (notifier_service_safe p3 token polls3 w5) T5) as [T6 P6]. fold w6 in T6, P6.
  pose proof (notifier_served token p3 polls3 (klog w5) w5 Htoken ltac:(lia) Hpolls3) as Dn. cbv zeta in Dn. fold w6 in Dn.
  pose proof (relay_published n c.2 T0 Hcalm Hrounds) as L1. pose proof (relay_published m w4 T4 Hcalm4 Hrounds4) as L5.
  fold w1 in L1. fold w5 in L5. assert (progress c.2 w2) as P02 by (by etrans). assert (progress w3 w6) as P36 by (etrans; [exact P4|by etrans]).
  split.
  - intros id r Hr Hst. destruct (sold_ticketed _ _ _ _ T0 L1 P1 P2 Dt id r Hr Hst) as (q & Hq & Hqs).
    destruct (ticketed_stays w2 w4 id q ltac:(by etrans) Hq Hqs) as (q4 & Hq4 & Hs4).
    split; [eapply (ticketed_stays w4 w6); [by etrans|done..]|by apply (ticketed_heard (klog w5) w4 w5 w6 T4 L5 Dn id q4)].
  - intros txn f Hf. destruct (refund_succeeds _ _ _ _ T0 L1 P02 P3 Dr txn f Hf) as (g & Hg & Hkept & Hgs).
    pose proof (succeeded_stays w3 w6 txn g P36 Hg Hgs) as Hg6. pose proof (succeeded_stays w3 w4 txn g P4 Hg Hgs) as Hg4.
    pose proof (winv_paid _ _ _ (proj1 T6) Hg6 (wi_refunded _ (proj1 T6) txn g Hg6 Hgs)) as Hpaid.
    destruct Hkept as (E1 & E2 & _). split; [by exists g|]. split.
    + unfold request_of in *. by rewrite <- E1, <- E2.
    + rewrite <- E1. by apply (refund_heard (klog w5) w4 w5 w6 T4 L5 Dn txn g).
Qed.
End buyers.
