(* ===== verification/Queue.v ===== *)
(** * The queue of an event (internal/queue/queue.go, join.lua)

    Buyers wait in a sorted set per event, ordered by the time they joined
    (Redis' clock). Pipelined commands are sent together but are separate
    commands to Redis: other clients' commands may run between them, and each
    has its own reply. *)

From S2P Require Import Prelude GoLib Effects RedisServer RedisQueue World Frame.
Local Open Scope tr_scope.

(** [queue.Entry] and [queue.Status]; times are durations in nanoseconds. *)
Record Entry := mkEntry { en_QueueID : UUID; en_Position : Z }.
Record QueueStatus := mkQueueStatus { qs_Position : Z; qs_Token : string; qs_ExpiresIn : Z }.

Definition userKeyTTL : Z := 2 * 3600 * Second.

(** The first error of a pipeline's replies; [redis.Nil] (here [Some None])
    counts as one. *)
Definition reply_err {A} (r : res GoErr (option A)) : option (option GoErr) :=
  match r with Ok (Some _) => None | Ok None => Some None | Err e => Some (Some e) end.
Definition call_err {A} (r : res GoErr A) : option (option GoErr) :=
  match r with Ok _ => None | Err e => Some (Some e) end.
Fixpoint first_err (l : list (option (option GoErr))) : option (option GoErr) :=
  match l with [] => None | None :: l => first_err l | Some e :: _ => Some e end.

Section queue.
Context {R : Type} `{RedisQueue R} `{UuidLib}.
Implicit Types (w : World R) (r : R).

Definition queueKey (eventID : Z) : string := "queue:{" +:+ FormatInt eventID +:+ "}".
Definition userKey (eventID userID : Z) : string := queueKey eventID +:+ ":user:" +:+ FormatInt userID.
Definition ownerKey (eventID : Z) : string := queueKey eventID +:+ ":owner".
Definition AdmittedKey (queueID : UUID) : string := "admitted:" +:+ uuid_String queueID.

(** The script's reply: the queue id, and its rank or -1. *)
Definition join_lua (queue user owner new userId : string) (ttl_s : Z) (spent : string) (now : Z) r : (string * Z) * R :=
  match GET r now user with
  | Some cur =>
      if negb (bool_decide (cur = spent)) then ((cur, default (-1) (zrank cur (ZSET r queue))), r)
      else
        let r := SET (HSET (ZADD r queue now new) owner new userId) now user new (Some (ttl_s * 1000)) in
        ((new, default (-1) (zrank new (ZSET r queue))), r)
  | None =>
      let r := SET (HSET (ZADD r queue now new) owner new userId) now user new (Some (ttl_s * 1000)) in
      ((new, default (-1) (zrank new (ZSET r queue))), r)
  end.

Definition Status (eventID : Z) (queueID : UUID) : prog (World R) (res GoErr QueueStatus) :=
  let! token := act (redis_call (fun now r => (GET r now (AdmittedKey queueID), r))) in
  let! ttl := act (redis_call (fun now r => (PTTL r now (AdmittedKey queueID), r))) in
  let! rank := act (redis_call (fun _ r => (zrank (uuid_String queueID) (ZSET r (queueKey eventID)), r))) in
  match first_err [reply_err token; call_err ttl; reply_err rank] with
  | Some (Some e) => Ret (Err e)
  | _ =>
      match token with
      | Ok (Some t) =>
          Ret (Ok (mkQueueStatus 0 t (Z.max (match ttl with Ok ms => ms * 1000000 | Err _ => 0 end) 0)))
      | _ =>
          match rank with
          | Ok (Some n) => Ret (Ok (mkQueueStatus (n + 1) EmptyString 0))
          | _ => Ret (Err ErrNotQueued)
          end
      end
  end.

(** The part of [Join] after the user's current entry was found spent. *)
Definition join_queue (eventID userID : Z) (spent : string) : prog (World R) (res GoErr Entry) :=
  let? id := act NewV7 in
  let? res := act (redis_call (join_lua (queueKey eventID) (userKey eventID userID) (ownerKey eventID)
                    (uuid_String id) (FormatInt userID) (Z.quot userKeyTTL Second) spent)) in
  match uuid_Parse res.1 with
  | None => Ret (Err (EOther "join queue: bad queue id"))
  | Some got => Ret (Ok (mkEntry got (res.2 + 1)))
  end.

Definition Join (eventID userID : Z) : prog (World R) (res GoErr Entry) :=
  let? cur := act (redis_call (fun now r => (GET r now (userKey eventID userID), r))) in
  match cur with
  | None => join_queue eventID userID EmptyString
  | Some cur =>
      match uuid_Parse cur with
      | Some id =>
          let! st := Status eventID id in
          match st with
          | Ok st => Ret (Ok (mkEntry id (qs_Position st)))
          | Err ErrNotQueued => join_queue eventID userID cur
          | Err e => Ret (Err e)
          end
      | None => join_queue eventID userID cur
      end
  end.

Definition Length (eventID : Z) : prog (World R) (res GoErr Z) :=
  act (redis_call (fun _ r => (Z.of_nat (length (ZSET r (queueKey eventID))), r))).
End queue.
