(* ===== verification/Worker.v ===== *)
(** * The admitting worker (internal/queue/worker.go, lease.lua)

    One tick: the lease of each open event, the tokens of the buyers at the head
    of its queue, and their leaving. The loop is in Loops.v. *)

From S2P Require Import Prelude GoLib Effects RedisServer RedisQueue World Auth Frame Catalog Locker Queue.
Local Open Scope tr_scope.

Definition leaseTTL : Z := 3 * Second.

(** [queue.Issuer]: signs admission tokens. *)
Record Issuer (R : Type) := mkIssuer { Issuer_Issue : Z -> Z -> UUID -> M R string; Issuer_TTL : Z }.
Arguments Issuer_Issue {R}. Arguments Issuer_TTL {R}.

(** What the worker relies on: issuing touches neither Redis nor the clocks
    nor what other calls meet. *)
Class IssuerFrame {R} (i : Issuer R) : Prop := {
  Issue_frame userID eventID queueID w :
    let w' := (Issuer_Issue i userID eventID queueID w).2 in
    rds w' = rds w /\ redis_now w' = redis_now w /\ faults w' = faults w /\ books_kept w w' /\
    (forall u, Some u ∈ ids w' -> Some u ∈ ids w);
}.

(** The issuer the waiting room is started with; [clock] is the process'. *)
Definition AdmissionIssuer {R} `{JwtLib} `{UuidLib} (t : AdmissionTokens) (clock : World R -> Z) : Issuer R :=
  mkIssuer R (fun userID eventID queueID w =>
    (let* r := AdmissionTokens_Issue t (clock w) userID eventID queueID in mret r.1) w) (at_ttl t).

#[global] Instance admission_issuer_frame {R} `{JwtLib} `{UuidLib} t (clock : World R -> Z) :
  IssuerFrame (AdmissionIssuer t clock).
Proof.
  split. intros u e q w. cbn. unfold AdmissionTokens_Issue, mbind, NewV7.
  destruct (ids w) as [|[j|] l] eqn:Hi; cbn; try (destruct (SignedString _ _); cbn);
    (split; [done|]; split; [done|]; split; [done|]; split; [done|]); intros x Hx; rewrite ?Hi in *; first [done|by right].
Qed.

Record Worker (R : Type) := mkWorker {
  wk_tokens : Issuer R;
  wk_events : prog (World R) (res GoErr (list Z));
  wk_batch : Z;
  wk_instance : string;
}.
Arguments wk_tokens {R}. Arguments wk_events {R}. Arguments wk_batch {R}. Arguments wk_instance {R}.

Section worker.
Context {R : Type} `{RedisQueue R} `{UuidLib}.
Implicit Types (w : World R) (r : R).

Definition lockKey (eventID : Z) : string := "admit:lock:{" +:+ FormatInt eventID +:+ "}".

Definition lease_lua (key instance : string) (ttl_ms : Z) (now : Z) r : Z * R :=
  match GET r now key with
  | Some v => if bool_decide (v = instance) then (1, PEXPIRE r now key ttl_ms) else (0, r)
  | None => (1, SET r now key instance (Some ttl_ms))
  end.

(** The tokens of the buyers at the head; entries without a usable owner get
    none. *)
Fixpoint issue_tokens (i : Issuer R) (eventID : Z) (entries : list (string * option string))
  : prog (World R) (res GoErr (list (UUID * string))) :=
  match entries with
  | [] => Ret (Ok [])
  | (member, owner) :: entries =>
      match uuid_Parse member, owner with
      | Some qid, Some uid =>
          match ParseInt uid with
          | Some userID =>
              let? token := act (Issuer_Issue i userID eventID qid) in
              let? rest := issue_tokens i eventID entries in
              Ret (Ok ((qid, token) :: rest))
          | None => issue_tokens i eventID entries
          end
      | _, _ => issue_tokens i eventID entries
      end
  end.

(** The SETNX commands of the pipeline; the result is their first error. *)
Fixpoint set_tokens (ttl : Z) (tokens : list (UUID * string)) : prog (World R) (option (option GoErr)) :=
  match tokens with
  | [] => Ret None
  | (qid, token) :: tokens =>
      let! ok := act (redis_call (setnx (AdmittedKey qid) token (Milliseconds ttl))) in
      let! err := set_tokens ttl tokens in
      Ret (first_err [call_err ok; err])
  end.

(** The part of [Admit] after the head of the queue is read. *)
Definition admit_head (k : Worker R) (eventID : Z) (head : list string) : prog (World R) (res GoErr Z) :=
  let? owners := act (redis_call (fun _ r => ((HGET r (ownerKey eventID) <$> head) : list (option string), r))) in
  let? tokens := issue_tokens (wk_tokens k) eventID (zip head owners) in
  let! stored := set_tokens (Issuer_TTL (wk_tokens k)) tokens in
  let! left := act (redis_call (fun _ r => (tt, ZREM r (queueKey eventID) head))) in
  let! forgot := act (redis_call (fun _ r => (tt, HDEL r (ownerKey eventID) head))) in
  match first_err [stored; call_err left; call_err forgot] with
  | Some (Some e) => Ret (Err e)
  | _ => Ret (Ok (Z.of_nat (length tokens)))
  end.

Definition Admit (k : Worker R) (eventID : Z) : prog (World R) (res GoErr Z) :=
  let? held := act (redis_call (lease_lua (lockKey eventID) (wk_instance k) (Milliseconds leaseTTL))) in
  if negb (held =? 1) then Ret (Ok 0)
  else
    let? head := act (redis_call (fun _ r => (zrange (wk_batch k - 1) (ZSET r (queueKey eventID)), r))) in
    if bool_decide (head = []) then Ret (Ok 0) else admit_head k eventID head.

Fixpoint admit_events (k : Worker R) (eventIDs : list Z) (total : Z) : prog (World R) (Z * res GoErr unit) :=
  match eventIDs with
  | [] => Ret (total, Ok tt)
  | eventID :: eventIDs =>
      let! n := Admit k eventID in
      match n with
      | Err e => Ret (total, Err e)
      | Ok n => admit_events k eventIDs (total + n)
      end
  end.

Definition Tick (k : Worker R) : prog (World R) (Z * res GoErr unit) :=
  let! ids := wk_events k in
  match ids with
  | Err e => Ret (0, Err e)
  | Ok ids => admit_events k ids 0
  end.
End worker.
