(* ===== verification/Waiting.v ===== *)
(** * Fairness of the waiting room

    What the buyers in a queue can rely on, whatever the interleaving of the
    waiting room's instances, their crashes and the passing of time: nobody who
    joined later gets ahead, and nobody leaves the queue without a token having
    been stored. *)

From S2P Require Import Prelude GoLib Effects History RedisServer RedisQueue World Frame Locker Ledger Queue Worker.

(** ** The keys are distinct *)

Section keys.
Context `{UuidLib}.

Lemma queueKey_app e s : (queueKey e +:+ s)%string = ("queue:{" +:+ FormatInt e +:+ String "}" s)%string.
Proof. unfold queueKey. by rewrite !string_app_assoc. Qed.

Lemma queueKey_sep e e' s s' : (queueKey e +:+ s)%string = (queueKey e' +:+ s')%string -> e = e' /\ s = s'.
Proof.
  rewrite !queueKey_app. intros Hs%string_app_inv_head.
  apply (sep_unique int_char "}"%char) in Hs as [He Hs]; [|done|apply FormatInt_chars..].
  by apply (inj FormatInt) in He.
Qed.

Lemma queueKey_nil e : (queueKey e +:+ "")%string = queueKey e.
Proof. apply string_app_nil_r. Qed.

#[global] Instance queueKey_inj : Inj (=) (=) queueKey.
Proof. intros a b Hab. rewrite <- (queueKey_nil a), <- (queueKey_nil b) in Hab. by apply queueKey_sep in Hab as [? _]. Qed.
#[global] Instance ownerKey_inj : Inj (=) (=) ownerKey.
Proof. intros a b Hab. unfold ownerKey in Hab. by apply queueKey_sep in Hab as [? _]. Qed.

Lemma queue_user e e' u : userKey e u <> queueKey e'.
Proof. rewrite <- (queueKey_nil e'). unfold userKey. by intros [_ ?]%queueKey_sep. Qed.
Lemma queue_owner e e' : ownerKey e <> queueKey e'.
Proof. rewrite <- (queueKey_nil e'). unfold ownerKey. by intros [_ ?]%queueKey_sep. Qed.
Lemma owner_user e e' u : userKey e u <> ownerKey e'.
Proof. unfold userKey, ownerKey. by intros [_ ?]%queueKey_sep. Qed.
Lemma admitted_queue q e s : AdmittedKey q <> (queueKey e +:+ s)%string.
Proof. unfold AdmittedKey, queueKey. by destruct (uuid_String q). Qed.
Lemma lock_queue e e' s : lockKey e <> (queueKey e' +:+ s)%string.
Proof. unfold lockKey, queueKey. done. Qed.
Lemma admitted_lock q e : AdmittedKey q <> lockKey e.
Proof. unfold AdmittedKey, lockKey. done. Qed.
#[global] Instance AdmittedKey_inj : Inj (=) (=) AdmittedKey.
Proof. intros a b Hab. by apply string_app_inv_head, (inj uuid_String) in Hab. Qed.

Lemma admitted_queueKey q e : AdmittedKey q <> queueKey e.
Proof. rewrite <- queueKey_nil. apply admitted_queue. Qed.
Lemma admitted_owner q e : AdmittedKey q <> ownerKey e.
Proof. apply admitted_queue. Qed.
Lemma lock_queueKey e e' : lockKey e <> queueKey e'.
Proof. rewrite <- queueKey_nil. apply lock_queue. Qed.
Lemma lock_owner e e' : lockKey e <> ownerKey e'.
Proof. apply lock_queue. Qed.
End keys.
Create HintDb wait discriminated.
#[export] Hint Resolve queue_user queue_owner owner_user admitted_queueKey admitted_owner lock_queueKey lock_owner admitted_lock : wait.
Ltac keys := solve [auto with wait | apply not_eq_sym; auto with wait].

(** ** What the scripts do to a queue *)

Section effects.
Context {R : Type} `{RedisQueue R} `{UuidLib}.
Implicit Types (w : World R) (r : R).

(** The queue of an event and the owner of an entry. *)
Definition waiters w (e : Z) : list (Z * string) := ZSET (rds w) (queueKey e).
Definition owner w (e : Z) (m : string) : option string := HGET (rds w) (ownerKey e) m.

(** A user's new entry at the back. *)
Definition joined (e u : Z) (new : string) (now : Z) r : R :=
  SET (HSET (ZADD r (queueKey e) now new) (ownerKey e) new (FormatInt u)) now (userKey e u) new
    (Some (Z.quot userKeyTTL Second * 1000)).

Abbreviation join_script e u new spent :=
  (join_lua (queueKey e) (userKey e u) (ownerKey e) new (FormatInt u) (Z.quot userKeyTTL Second) spent).

Lemma join_lua_cases e u new spent now r :
  join_script e u new spent now r =
    match GET r now (userKey e u) with
    | Some cur =>
        if bool_decide (cur = spent)
        then ((new, default (-1) (zrank new (ZSET (joined e u new now r) (queueKey e)))), joined e u new now r)
        else ((cur, default (-1) (zrank cur (ZSET r (queueKey e)))), r)
    | None => ((new, default (-1) (zrank new (ZSET (joined e u new now r) (queueKey e)))), joined e u new now r)
    end.
Proof. unfold join_lua. destruct (GET _ _ _) as [cur|]; [|done]. by destruct (bool_decide (cur = spent)). Qed.

Lemma joined_waiters e u new now r e' :
  ZSET (joined e u new now r) (queueKey e') =
    if decide (e = e') then zadd now new (ZSET r (queueKey e')) else ZSET r (queueKey e').
Proof.
  unfold joined. rewrite ZSET_SET, ZSET_HSET by keys. case_decide as He.
  - subst. apply ZSET_ZADD_eq.
  - apply ZSET_ZADD_ne. by intros ?%(inj queueKey).
Qed.

Lemma joined_owner e u new now r e' m :
  HGET (joined e u new now r) (ownerKey e') m =
    if decide (e = e' /\ m = new) then Some (FormatInt u) else HGET r (ownerKey e') m.
Proof.
  unfold joined. rewrite HGET_SET by keys. case_decide as He.
  - destruct He as [-> ->]. apply HGET_HSET_eq.
  - rewrite HGET_HSET_ne, HGET_ZADD; [done|keys|]. intros [Hk ->]%pair_equal_spec. apply He. split; [by apply (inj ownerKey)|done].
Qed.

Lemma joined_other e u new now r t k :
  k <> queueKey e -> k <> ownerKey e -> k <> userKey e u -> GET (joined e u new now r) t k = GET r t k.
Proof. intros. unfold joined. by rewrite GET_SET_ne, GET_HSET, GET_ZADD by done. Qed.

Lemma lease_lua_waiters e e' i ms now r : ZSET (lease_lua (lockKey e) i ms now r).2 (queueKey e') = ZSET r (queueKey e').
Proof.
  unfold lease_lua. destruct (GET _ _ _) as [v|]; [destruct (bool_decide _); [|done]|]; cbn [snd];
    [apply ZSET_PEXPIRE|apply ZSET_SET]; keys.
Qed.
Lemma lease_lua_owner e e' i ms now r m : HGET (lease_lua (lockKey e) i ms now r).2 (ownerKey e') m = HGET r (ownerKey e') m.
Proof.
  unfold lease_lua. destruct (GET _ _ _) as [v|]; [destruct (bool_decide _); [|done]|]; cbn [snd];
    [apply HGET_PEXPIRE|apply HGET_SET]; keys.
Qed.
Lemma setnx_waiters q token ms now r e : ZSET (setnx (AdmittedKey q) token ms now r).2 (queueKey e) = ZSET r (queueKey e).
Proof. unfold setnx. destruct (GET _ _ _); [done|]. apply ZSET_SET. keys. Qed.
Lemma setnx_owner q token ms now r e m : HGET (setnx (AdmittedKey q) token ms now r).2 (ownerKey e) m = HGET r (ownerKey e) m.
Proof. unfold setnx. destruct (GET _ _ _); [done|]. apply HGET_SET. keys. Qed.
Lemma setnx_sets k token ms now r : 0 < ms -> is_Some (GET (setnx k token ms now r).2 now k).
Proof.
  intros Hms. unfold setnx. destruct (GET r now k) eqn:Hg; [cbn [snd]; rewrite Hg; eauto|]. simpl. rewrite GET_SET_now; [eauto|].
  intros ttl [= <-]. done.
Qed.
Lemma zrem_waiters e ms r e' :
  ZSET (ZREM r (queueKey e) ms) (queueKey e') = if decide (e = e') then zrem ms (ZSET r (queueKey e')) else ZSET r (queueKey e').
Proof.
  case_decide as He; [subst; apply ZSET_ZREM_eq|]. apply ZSET_ZREM_ne. by intros ?%(inj queueKey).
Qed.

(** ** The handlers of the system *)

(** Handlers of other components: they use other keys. *)
Definition apart w w' : Prop :=
  (forall e, waiters w' e = waiters w e) /\ (forall e m, owner w' e m = owner w e m) /\
  redis_now w' = redis_now w /\ (forall u, Some u ∈ ids w' -> Some u ∈ ids w) /\
  (Forall (fun f => f <> FErr) (faults w) -> Forall (fun f => f <> FErr) (faults w')).

Inductive waiting_room : prog (World R) unit -> Prop :=
| wr_Join e u : waiting_room (discard (Join e u))
| wr_Status e q : waiting_room (discard (Status e q))
| wr_Length e : waiting_room (discard (Length e))
| wr_Admit k e : IssuerFrame (wk_tokens k) -> 1000000 <= Issuer_TTL (wk_tokens k) -> waiting_room (discard (Admit k e))
| wr_Tick k : IssuerFrame (wk_tokens k) -> 1000000 <= Issuer_TTL (wk_tokens k) ->
    respects (fun _ => True) apart (wk_events k) -> waiting_room (discard (Tick k))
| wr_other p : respects (fun _ => True) apart p -> waiting_room p.
End effects.

(** ** Nobody overtakes *)

Section overtaking.
Context {R : Type} `{RedisQueue R} `{UuidLib}.
Implicit Types (w : World R) (r : R).

(** Entries appear only with the current time as their score. *)
Definition only_new w w' : Prop :=
  redis_now w' = redis_now w /\
  forall e x, x ∈ waiters w' e -> x ∈ waiters w e \/ x.1 = redis_now w.

#[local] Instance only_new_preorder : PreOrder only_new.
Proof.
  split; [split; auto|]. intros a b c [Hn Hab] [Hn' Hbc]. split; [congruence|].
  intros e x Hx. destruct (Hbc e x Hx) as [Hb|Hb]; [auto|right; congruence].
Qed.

Lemma call_only_new {A} (f : Z -> R -> A * R) :
  (forall now r e x, x ∈ ZSET (f now r).2 (queueKey e) -> x ∈ ZSET r (queueKey e) \/ x.1 = now) ->
  respects (fun _ => True) only_new (act (redis_call f)).
Proof.
  intros Hf. apply respects_act. intros w _. split; [done|]. pose proof (redis_call_cases f w) as Hc.
  specialize (Hf (redis_now w) (rds w)). destruct (redis_call f w) as [res w'].
  destruct (f (redis_now w) (rds w)) as [x r']. destruct Hc as [Hn Hc]. split; [done|]. unfold waiters. cbn [snd] in *.
  destruct res; [destruct Hc as [_ ->]|destruct Hc as [_ [-> | ->]]]; auto.
Qed.
Lemma read_only_new {A} (f : Z -> R -> A) : respects (fun _ => True) only_new (act (redis_call (fun now r => (f now r, r)))).
Proof. apply call_only_new. auto. Qed.

Lemma apart_only_new {A} (p : prog (World R) A) : respects (fun _ => True) apart p -> respects (fun _ => True) only_new p.
Proof. apply respects_mono. intros w w' (Hq & _ & Hn & _). split; [done|]. intros e x. rewrite Hq. auto. Qed.

Lemma NewV7_rds w : rds (NewV7 w).2 = rds w /\ redis_now (NewV7 w).2 = redis_now w /\ faults (NewV7 w).2 = faults w.
Proof. unfold NewV7. by destruct (ids w) as [|[]]. Qed.

Lemma Status_only_new e q : respects (fun _ => True) only_new (Status e q).
Proof. unfold Status. repeat (apply respects_bind; [apply read_only_new|intros ?]). by repeat case_match. Qed.

Lemma join_queue_only_new e u spent : respects (fun _ => True) only_new (join_queue e u spent).
Proof.
  apply respects_bind.
  { apply respects_act. intros w _. split; [done|]. destruct (NewV7_rds w) as (Hr & Hn & _). split; [done|].
    unfold waiters. rewrite Hr. auto. }
  intros [id|]; [|done]. apply respects_bind; [|intros [res|]; [by case_match|done]].
  apply call_only_new. intros now r e' x. rewrite join_lua_cases.
  assert (forall new, x ∈ ZSET (joined e u new now r) (queueKey e') -> x ∈ ZSET r (queueKey e') \/ x.1 = now) as Hj.
  { intros new. rewrite joined_waiters. case_decide; [|auto]. rewrite elem_of_zadd. intros [->|[_ ?]]; auto. }
  destruct (GET _ _ _); [case_bool_decide|]; cbn [snd]; first [apply Hj|auto].
Qed.

Lemma Join_only_new e u : respects (fun _ => True) only_new (Join e u).
Proof.
  apply respects_bind; [apply read_only_new|]. intros [[cur|]|]; [|apply join_queue_only_new|done].
  destruct (uuid_Parse cur) as [id|]; [|apply join_queue_only_new].
  apply respects_bind; [apply Status_only_new|]. intros [st|err]; [done|]. case_err err; try done. apply join_queue_only_new.
Qed.

Lemma issue_tokens_only_new i e entries : IssuerFrame i -> respects (fun _ => True) only_new (issue_tokens i e entries).
Proof.
  intros Hi. induction entries as [|[member o] entries IH]; cbn [issue_tokens]; [done|].
  destruct (uuid_Parse member) as [qid|]; [|done]. destruct o as [uid|]; [|done]. destruct (ParseInt uid) as [u|]; [|done].
  apply respects_bind; [|intros [token|]; [|done]; apply respects_bind; [done|by intros [|]]].
  apply respects_act. intros w _. split; [done|]. destruct (Issue_frame u e qid w) as (Hr & Hn & _).
  split; [done|]. unfold waiters. rewrite Hr. auto.
Qed.

Lemma set_tokens_only_new ttl l : respects (fun _ => True) only_new (set_tokens (R := R) ttl l).
Proof.
  induction l as [|[q token] l IH]; cbn [set_tokens]; [done|].
  apply respects_bind; [|intros ?; by apply respects_bind].
  apply call_only_new. intros now r e x. rewrite setnx_waiters. auto.
Qed.

Lemma Admit_only_new k e : IssuerFrame (wk_tokens k) -> respects (fun _ => True) only_new (Admit k e).
Proof.
  intros Hi. apply respects_bind; [apply call_only_new; intros now r e' x; rewrite lease_lua_waiters; auto|].
  intros [held|]; [|done]. case_match; [done|]. apply respects_bind; [apply read_only_new|].
  intros [head|]; [|done]. case_match; [done|]. unfold admit_head.
  apply respects_bind; [apply read_only_new|]. intros [owners|]; [|done].
  apply respects_bind; [by apply issue_tokens_only_new|]. intros [tokens|]; [|done].
  apply respects_bind; [apply set_tokens_only_new|intros stored]. apply respects_bind; [|intros left].
  - apply call_only_new. intros now r e' x. cbn [snd]. rewrite zrem_waiters. case_decide; [|auto].
    rewrite elem_of_zrem. intros [_ ?]. auto.
  - apply respects_bind; [|intros forgot; by repeat case_match].
    apply call_only_new. intros now r e' x. cbn [snd]. rewrite ZSET_HDEL by keys. auto.
Qed.

Lemma admit_events_only_new k es total : IssuerFrame (wk_tokens k) -> respects (fun _ => True) only_new (admit_events k es total).
Proof.
  intros Hi. revert total. induction es as [|e es IH]; intros total; cbn [admit_events]; [done|].
  apply respects_bind; [by apply Admit_only_new|]. intros [n|]; [apply IH|done].
Qed.

Lemma waiting_room_only_new p : waiting_room p -> respects (fun _ => True) only_new p.
Proof.
  intros Hp; destruct Hp as [e u|e q|e|k e Hi|k Hi _ Hev|p Hp]; [..|by apply apart_only_new]; (apply respects_bind; [|done]).
  - apply Join_only_new.
  - apply Status_only_new.
  - apply read_only_new.
  - by apply Admit_only_new.
  - apply respects_bind; [by apply apart_only_new|]. intros [es|]; [by apply admit_events_only_new|done].
Qed.

Lemma nobody_gets_ahead w c e s m :
  s < redis_now w -> rtc (sys_step waiting_room redis_tick) ([], w) c ->
  forall x, x ∈ waiters c.2 e -> zle x (s, m) -> x ∈ waiters w e.
Proof.
  intros Hs Hc. set (I := fun v : World R => s < redis_now v /\ forall x, x ∈ waiters v e -> zle x (s, m) -> x ∈ waiters w e).
  cut (I c.2); [by intros [_ ?]|].
  assert (forall v v', I v -> redis_now v <= redis_now v' ->
    (forall x, x ∈ waiters v' e -> x ∈ waiters v e \/ x.1 = redis_now v) -> I v') as Hstep.
  { intros v v' [Hv1 Hv2] Hn Hw. split; [lia|]. intros x Hx Hle. destruct (Hw x Hx) as [Hx'|Hx']; [by apply Hv2|].
    apply zle_spec in Hle. simpl in Hle. lia. }
  eapply (sys_reachable_ok waiting_room redis_tick I (fun _ _ => True)); [..|exact Hc|by split].
  - intros p Hp. assert (forall v v', only_new v v' -> I v -> I v') as Hon.
    { intros v v' [Hn Hx] Hv. apply (Hstep v); [done|lia|]. intros x. apply Hx. }
    pose proof (waiting_room_only_new p Hp) as Hr. clear -Hr Hon. induction p as [a|X f k IH]; [done|]. destruct Hr as [Hf Hk].
    split; [|by intros x; apply IH]. intros v Hv. split; [|done]. destruct (Hf v Logic.I) as [_ Hvv]. eauto.
  - intros v v' Hv (p & n & -> & Hn). split; [|done]. apply (Hstep v); [done|done|]. auto.
Qed.

(** Who is ahead in both worlds, when nobody new came in front. *)
Lemma fewer_ahead w w' e s m :
  (s, m) ∈ waiters w e -> (s, m) ∈ waiters w' e -> (forall x, x ∈ waiters w' e -> zle x (s, m) -> x ∈ waiters w e) ->
  ahead m (waiters w' e) ⊆ ahead m (waiters w e) /\
  exists n n', zrank m (waiters w e) = Some n /\ zrank m (waiters w' e) = Some n' /\ n' <= n.
Proof.
  intros Hm Hm' Hall.
  destruct (zrank_split s m (waiters w e)) as (l1 & l2 & Hl & Hr & Ha & Hel); [apply ZSET_sorted|apply ZSET_NoDup|done|].
  destruct (zrank_split s m (waiters w' e)) as (k1 & k2 & Hk & Hr' & Ha' & Hel'); [apply ZSET_sorted|apply ZSET_NoDup|done|].
  assert (k1 ⊆ l1) as Hsub.
  { intros x Hx. apply Hel' in Hx as (Hx & Hle & Hne). apply Hel. split; [|done]. by apply Hall. }
  assert (length k1 <= length l1)%nat as Hlen.
  { apply submseteq_length, NoDup_submseteq; [|done]. apply (NoDup_fmap_1 snd).
    pose proof (ZSET_NoDup (rds w') (queueKey e)) as Hd. unfold waiters in Hk. rewrite Hk, fmap_app in Hd. by apply NoDup_app in Hd as [? _]. }
  split; [rewrite Ha, Ha'; intros x (y & -> & Hy)%list_elem_of_fmap; apply list_elem_of_fmap_2; auto|].
  exists (Z.of_nat (length l1)), (Z.of_nat (length k1)). split; [done|]. split; [done|]. lia.
Qed.
End overtaking.

(** ** What a buyer is told *)

Section told.
Context {R : Type} `{RedisQueue R} `{UuidLib}.
Implicit Types (w : World R) (r : R).

Lemma redis_read_calm {A} (f : Z -> R -> A) w :
  faults w = [] -> redis_call (fun now r => (f now r, r)) w = (Ok (f (redis_now w) (rds w)), w).
Proof. intros Hf. rewrite redis_call_calm by done. by destruct w. Qed.

Definition token_of w (q : UUID) : option string := GET (rds w) (redis_now w) (AdmittedKey q).

(** When Redis answers, [Status] tells the token if there is one, otherwise the
    place in the queue, and [ErrNotQueued] only to who has neither. *)
Lemma Status_calm e q w :
  faults w = [] ->
  run (Status e q) w =
    (match token_of w q with
     | Some t => Ok (mkQueueStatus 0 t (Z.max (PTTL (rds w) (redis_now w) (AdmittedKey q) * 1000000) 0))
     | None =>
         match zrank (uuid_String q) (waiters w e) with
         | Some n => Ok (mkQueueStatus (n + 1) EmptyString 0)
         | None => Err ErrNotQueued
         end
     end, w).
Proof.
  intros Hf. unfold Status, token_of, waiters. rewrite run_bind, run_act, redis_read_calm by done. cbn [fst snd].
  rewrite run_bind, run_act, redis_read_calm by done. cbn [fst snd].
  rewrite run_bind, run_act, redis_read_calm by done. cbn [fst snd].
  destruct (GET _ _ _) as [t|]; [|by destruct (zrank _ _)]. by destruct (zrank _ _).
Qed.

Lemma zrank_None m l : zrank m l = None <-> m ∉ l.*2.
Proof.
  unfold zrank. rewrite fmap_None, list_find_None, Forall_forall. split.
  - intros Hl (x & -> & Hx)%list_elem_of_fmap. by apply (Hl x).
  - intros Hl x Hx <-. apply Hl. by apply list_elem_of_fmap_2.
Qed.
End told.

(** ** Properties *)

(** C9. Nobody overtakes: once the millisecond in which a buyer joined is over,
    under any interleaving of joins, status requests, admitting workers and
    other handlers, any failures, crashes and clock advances, while the buyer
    is still queued everybody ahead was already ahead before, so the place
    only improves; and a status request that gets through reports that
    place. *)
Theorem nobody_overtakes `{RedisQueue R} `{UuidLib} (w : World R) (e s : Z) (m : string)
    (Hm : (s, m) ∈ waiters w e) (Hs : s < redis_now w)
    (c : list (prog (World R) unit) * World R)
    (Hc : rtc (sys_step waiting_room redis_tick) ([], w) c) (Hm' : (s, m) ∈ waiters c.2 e) :
  ahead m (waiters c.2 e) ⊆ ahead m (waiters w e) /\
  exists n n', zrank m (waiters w e) = Some n /\ zrank m (waiters c.2 e) = Some n' /\ n' <= n /\
    forall q, uuid_String q = m -> faults c.2 = [] -> token_of c.2 q = None ->
      run (Status e q) c.2 = (Ok (mkQueueStatus (n' + 1) EmptyString 0), c.2).
Proof.
  destruct (fewer_ahead w c.2 e s m) as (Hsub & n & n' & Hr & Hr' & Hle); [done..|by apply nobody_gets_ahead|].
  split; [done|]. exists n, n'. split; [done|]. split; [done|]. split; [done|].
  intros q Hq Hf Ht. rewrite Status_calm, Ht, Hq, Hr' by done. done.
Qed.
