(* ===== verification/Place.v ===== *)
(** * A place in the queue is not lost

    The worker removes buyers from the queue only after their tokens are
    stored, whatever happens between its commands: executions are taken with
    their history, because the token may have expired since. *)

From S2P Require Import Prelude GoLib Effects History RedisServer RedisQueue World Frame Locker Queue Worker Waiting.
Local Open Scope tr_scope.

Section place.
Context {R : Type} `{RedisQueue R} `{UuidLib}.
Implicit Types (w : World R) (r : R) (past : list (World R)).

(** Every call takes effect; its answer may still be lost. *)
Definition effective w : Prop := Forall (fun f => f <> FErr) (faults w).

Definition queued w (e : Z) (m : string) : Prop := m ∈ (waiters w e).*2.
#[global] Instance queued_dec w e m : Decision (queued w e m).
Proof. unfold queued. apply _. Defined.
(** The worker finds the user of an entry. *)
Definition owned w (e : Z) (m : string) : Prop := exists o u, owner w e m = Some o /\ ParseInt o = Some u.

(** ** Calls that take effect *)

Lemma redis_call_effective {A} (f : Z -> R -> A * R) w :
  effective w ->
  let w' := (redis_call f w).2 in
  rds w' = (f (redis_now w) (rds w)).2 /\ redis_now w' = redis_now w /\ ids w' = ids w /\ effective w' /\
  (forall a, (redis_call f w).1 = Ok a -> a = (f (redis_now w) (rds w)).1).
Proof.
  intros He. unfold redis_call, call, effective in *. unfold pop_fault. destruct (faults w) as [|fl fs] eqn:Hf.
  - destruct (f _ _) as [a r']. cbn. rewrite Hf. split_and!; [done..|by intros ? [=]].
  - apply Forall_cons in He as [Hfl Hfs].
    destruct fl; [|done|]; cbn; destruct (f (redis_now w) (rds w)) as [a r']; cbn;
      (split_and!; [done..|by intros ? [=]]).
Qed.

(** ** The invariant of one buyer's history *)

Context (e : Z) (id : UUID).
Abbreviation m := (uuid_String id).

Definition stored past : Prop := exists v, v ∈ past /\ is_Some (token_of v id).

Definition kept past : Prop :=
  match past with
  | [] => True
  | w :: more =>
      effective w /\ Some id ∉ ids w /\
      (queued w e m -> owned w e m /\ forall v, v ∈ past -> queued v e m) /\
      (~ queued w e m -> stored past)
  end.

Lemma stored_more past past' : stored past -> past ⊆ past' -> stored past'.
Proof. intros (v & Hv & Ht) Hs. exists v. auto. Qed.

(** A step that leaves the buyer's entry alone. *)
Lemma kept_step w w' more :
  kept (w :: more) -> effective w' -> Some id ∉ ids w' ->
  (queued w' e m <-> queued w e m) -> (queued w e m -> owner w' e m = owner w e m) -> kept (w' :: w :: more).
Proof.
  intros (He & Hi & Hq & Hn) He' Hi' Hqq Ho. split; [done|]. split; [done|]. split.
  - intros Hq'. apply Hqq in Hq' as Hq1. destruct (Hq Hq1) as [Hown Hall]. split.
    + unfold owned. by rewrite (Ho Hq1).
    + intros v [->|Hv]%elem_of_cons; auto.
  - intros Hn'. eapply stored_more; [apply Hn; by rewrite <- Hqq|]. set_solver.
Qed.

(** A Redis command that leaves the buyer's entry alone. *)
Lemma kept_call {A} (f : Z -> R -> A * R) w more :
  kept (w :: more) ->
  (forall now r, (m ∈ (ZSET (f now r).2 (queueKey e)).*2 <-> m ∈ (ZSET r (queueKey e)).*2) /\
     HGET (f now r).2 (ownerKey e) m = HGET r (ownerKey e) m) ->
  kept ((redis_call f w).2 :: w :: more).
Proof.
  intros Hk Hf. pose proof Hk as (He & Hi & _).
  destruct (redis_call_effective f w He) as (Hr & Hn & Hids & He' & _).
  apply kept_step; [done|done|by rewrite Hids|..]; unfold queued, waiters, owner; rewrite Hr; [apply Hf|intros _; apply Hf].
Qed.

Lemma hsafe_call {A B} (f : Z -> R -> A * R) (k : res GoErr A -> prog (World R) B) past :
  (forall now r, (m ∈ (ZSET (f now r).2 (queueKey e)).*2 <-> m ∈ (ZSET r (queueKey e)).*2) /\
     HGET (f now r).2 (ownerKey e) m = HGET r (ownerKey e) m) ->
  (forall w more, kept (w :: more) -> past ⊆ w :: more ->
     hsafe kept (k (redis_call f w).1) ((redis_call f w).2 :: w :: more)) ->
  hsafe kept (pbind (act (redis_call f)) k) past.
Proof. intros Hf Hk. cbn. intros more w Hi Hm. split; [by apply kept_call|by apply Hk]. Qed.

Lemma hsafe_read {A B} (f : Z -> R -> A) (k : res GoErr A -> prog (World R) B) past :
  (forall a past', past ⊆ past' -> hsafe kept (k a) past') ->
  hsafe kept (pbind (act (redis_call (fun now r => (f now r, r)))) k) past.
Proof. intros Hk. apply hsafe_call; [done|]. intros w more _ Hm. apply Hk. set_solver. Qed.

Lemma hsafe_apart {A} (p : prog (World R) A) past : respects (fun _ => True) apart p -> hsafe kept p past.
Proof.
  revert past. induction p as [a|X f k IH]; intros past Hp; [done|]. destruct Hp as [Hf Hk].
  intros more w Hw _. destruct (Hf w Logic.I) as [_ (Hq & Ho & Hn & Hi & He)]. split; [|by apply IH].
  apply kept_step; [done|by apply He; destruct Hw|..].
  - intros Hin. destruct Hw as (_ & Hni & _). by apply Hni, Hi.
  - unfold queued. by rewrite Hq.
  - intros _. apply Ho.
Qed.

(** ** The handlers *)

Lemma hsafe_Status e' q past : hsafe kept (Status e' q) past.
Proof. unfold Status. do 3 (apply hsafe_read; intros ???). by repeat case_match. Qed.

Lemma kept_NewV7 w more : kept (w :: more) -> kept ((NewV7 w).2 :: w :: more) /\ forall j, (NewV7 w).1 = Ok j -> j <> id.
Proof.
  intros Hk. pose proof Hk as (He & Hi & _). destruct (NewV7_rds w) as (Hr & Hn & Hf). split.
  - apply kept_step; [done|by unfold effective; rewrite Hf|..]; unfold queued, waiters, owner; rewrite ?Hr; try done.
    intros Hin. apply Hi. revert Hin. unfold NewV7. destruct (ids w) as [|[u|] l] eqn:Hl; cbn [snd]; rewrite ?Hl; [done|by right..].
  - intros j. unfold NewV7. destruct (ids w) as [|[u|] l]; simpl; try done. intros [= ->] ->. apply Hi. left.
Qed.

Lemma join_script_kept e' u j spent now r :
  j <> id ->
  let r' := (join_lua (queueKey e') (userKey e' u) (ownerKey e') (uuid_String j) (FormatInt u) (Z.quot userKeyTTL Second) spent now r).2 in
  (m ∈ (ZSET r' (queueKey e)).*2 <-> m ∈ (ZSET r (queueKey e)).*2) /\ HGET r' (ownerKey e) m = HGET r (ownerKey e) m.
Proof.
  intros Hj. rewrite join_lua_cases.
  assert (let r' := joined e' u (uuid_String j) now r in
    (m ∈ (ZSET r' (queueKey e)).*2 <-> m ∈ (ZSET r (queueKey e)).*2) /\ HGET r' (ownerKey e) m = HGET r (ownerKey e) m) as Hn.
  { assert (m <> uuid_String j) by (by intros ?%(inj uuid_String)).
    cbn. rewrite joined_owner, decide_False by naive_solver. rewrite joined_waiters. split; [|done].
    case_decide; [|done]. rewrite members_zadd. naive_solver. }
  destruct (GET _ _ _); [case_bool_decide|]; cbn [snd]; auto.
Qed.

Lemma hsafe_join_queue e' u spent past : hsafe kept (join_queue e' u spent) past.
Proof.
  unfold join_queue. cbn [pbind act]. intros more w Hk _. destruct (kept_NewV7 w more Hk) as [Hk' Hj]. split; [done|].
  destruct (NewV7 w).1 as [j|]; [|done]. apply hsafe_call; [intros now r; apply join_script_kept; by apply Hj|].
  intros w1 more1 _ _. destruct (redis_call _ w1).1 as [res|]; [by case_match|done].
Qed.

Lemma hsafe_Join e' u past : hsafe kept (Join e' u) past.
Proof.
  apply hsafe_read. intros [[cur|]|] past' _; [|apply hsafe_join_queue|done].
  destruct (uuid_Parse cur) as [q|]; [|apply hsafe_join_queue].
  eapply hsafe_bind; [apply hsafe_Status|apply hpost_true|]. intros [st|err] past2 _ _; [done|]. case_err err; try done. apply hsafe_join_queue.
Qed.

Lemma kept_Issue i e' u q w more : IssuerFrame i -> kept (w :: more) -> kept ((Issuer_Issue i u e' q w).2 :: w :: more).
Proof.
  intros Hi Hk. pose proof Hk as (He & Hn & _). destruct (Issue_frame u e' q w) as (Hr & _ & Hf & _ & Hids).
  apply kept_step; [done|by unfold effective; rewrite Hf|auto|..]; unfold queued, waiters, owner; by rewrite Hr.
Qed.

Lemma hsafe_issue_tokens i e' entries past :
  IssuerFrame i ->
  hsafe kept (issue_tokens i e' entries) past /\
  hpost kept (issue_tokens i e' entries) past (fun res _ =>
    forall tokens o u, res = Ok tokens -> (m, Some o) ∈ entries -> ParseInt o = Some u -> id ∈ tokens.*1).
Proof.
  intros Hi. revert past. induction entries as [|[member o] entries IH]; intros past; cbn [issue_tokens].
  { split; [done|]. intros tokens o u _ Hin. by apply elem_of_nil in Hin. }
  assert (forall past, ~ (exists uid u, member = m /\ o = Some uid /\ ParseInt uid = Some u) ->
    hsafe kept (issue_tokens i e' entries) past /\
    hpost kept (issue_tokens i e' entries) past (fun res _ =>
      forall tokens o' u, res = Ok tokens -> (m, Some o') ∈ (member, o) :: entries -> ParseInt o' = Some u -> id ∈ tokens.*1)) as Hskip.
  { intros past' Hno. destruct (IH past') as [Hs Hp]. split; [done|]. eapply hpost_mono; [exact Hp|].
    intros res past2 _ Hres tokens o' u Hr Hin Hu. apply elem_of_cons in Hin as [Hin|Hin]; [|by eapply Hres].
    destruct Hno. injection Hin as -> <-. eauto. }
  destruct (uuid_Parse member) as [qid|] eqn:Hq; [|apply Hskip; intros (? & ? & -> & _); by rewrite uuid_Parse_String in Hq].
  destruct o as [uid|]; [|apply Hskip; by intros (? & ? & _ & ? & _)].
  destruct (ParseInt uid) as [u|] eqn:Hu; [|apply Hskip; intros (? & ? & _ & [= ->] & ?); congruence].
  clear Hskip. cbn [pbind act]. split.
  - intros more w Hk _. split; [by apply kept_Issue|]. destruct (Issuer_Issue i u e' qid w).1 as [token|]; [|done].
    eapply hsafe_bind; [apply IH|apply hpost_true|]. by intros [|].
  - intros more w Hk _. destruct (Issuer_Issue i u e' qid w).1 as [token|]; [|by intros ?].
    eapply hpost_bind; [apply IH|]. intros [rest|] past' _ Hrest; [|by intros ?].
    intros tokens o' u' [= <-] Hin Hu'. rewrite fmap_cons. apply elem_of_cons in Hin as [Hin|Hin].
    + injection Hin as <- ->. rewrite uuid_Parse_String in Hq. injection Hq as <-. constructor.
    + right. by eapply Hrest.
Qed.

Lemma hsafe_set_tokens ttl l past :
  1000000 <= ttl ->
  hsafe kept (set_tokens ttl l) past /\
  hpost kept (set_tokens ttl l) past (fun _ past' => id ∈ l.*1 -> stored past').
Proof.
  intros Httl. assert (0 < Milliseconds ttl) as Hms.
  { unfold Milliseconds. enough (1 <= Z.quot ttl 1000000) by lia. apply Z.quot_le_lower_bound; lia. }
  revert past. induction l as [|[q token] l IH]; intros past; cbn [set_tokens].
  { split; [done|]. cbn. intros Hin. by apply elem_of_nil in Hin. }
  assert (forall now r, (m ∈ (ZSET (setnx (AdmittedKey q) token (Milliseconds ttl) now r).2 (queueKey e)).*2 <-> m ∈ (ZSET r (queueKey e)).*2) /\
     HGET (setnx (AdmittedKey q) token (Milliseconds ttl) now r).2 (ownerKey e) m = HGET r (ownerKey e) m) as Hnx.
  { intros now r. by rewrite setnx_waiters, setnx_owner. }
  split.
  - apply hsafe_call; [done|]. intros w more _ _. eapply hsafe_bind; [apply IH|apply hpost_true|done].
  - cbn [pbind act]. intros more w Hk Hm. eapply hpost_bind; [apply IH|]. intros err past' Hsub Hst. cbn [hpost].
    rewrite fmap_cons. intros [->|Hin]%elem_of_cons; [|by apply Hst].
    exists (redis_call (setnx (AdmittedKey id) token (Milliseconds ttl)) w).2. split; [set_solver|].
    destruct (redis_call_effective (setnx (AdmittedKey id) token (Milliseconds ttl)) w) as (Hr & Hn & _); [apply Hk|].
    unfold token_of. rewrite Hr, Hn. by apply setnx_sets.
Qed.

(** The two commands at the end of the worker's pipeline. *)
Lemma kept_zrem e' head w more :
  kept (w :: more) -> (e' = e -> m ∈ head -> queued w e m -> stored (w :: more)) ->
  let w' := (redis_call (fun _ r => (tt, ZREM r (queueKey e') head)) w).2 in
  kept (w' :: w :: more) /\ (e' = e -> m ∈ head -> ~ queued w' e m).
Proof.
  intros Hk Hst w'. pose proof Hk as (He & Hi & Hq & Hn).
  destruct (redis_call_effective (fun _ r => (tt, ZREM r (queueKey e') head)) w He) as (Hr & _ & Hids & He' & _).
  fold w' in Hr, Hids, He'. cbn [snd] in Hr.
  assert (queued w' e m <-> queued w e m /\ ~ (e' = e /\ m ∈ head)) as Hqq.
  { unfold queued, waiters. rewrite Hr, zrem_waiters. case_decide; [rewrite members_zrem|]; naive_solver. }
  split; [|naive_solver]. destruct (decide (e' = e /\ m ∈ head)) as [[Hee Hm]|Hne].
  - split; [done|]. split; [by rewrite Hids|]. split; [naive_solver|]. intros _.
    destruct (decide (queued w e m)) as [Hqw|Hqw]; (eapply stored_more; [by auto|set_solver]).
  - apply kept_step; [done|done|by rewrite Hids|naive_solver|]. intros _. unfold owner. rewrite Hr. apply HGET_ZREM. keys.
Qed.

Lemma kept_hdel e' head w more :
  kept (w :: more) -> (e' = e -> m ∈ head -> ~ queued w e m) ->
  kept ((redis_call (fun _ r => (tt, HDEL r (ownerKey e') head)) w).2 :: w :: more).
Proof.
  intros Hk Hgone. pose proof Hk as (He & Hi & _).
  destruct (redis_call_effective (fun _ r => (tt, HDEL r (ownerKey e') head)) w He) as (Hr & _ & Hids & He' & _). cbn [snd] in Hr.
  apply kept_step; [done|done|by rewrite Hids|..]; unfold queued, waiters, owner; rewrite Hr.
  - by rewrite ZSET_HDEL by keys.
  - intros Hq. apply HGET_HDEL_ne. destruct (decide (e' = e)) as [Hee|Hne]; [|left; by intros ?%(inj ownerKey)].
    right. intros Hm. by apply (Hgone Hee Hm).
Qed.

Lemma zip_owned w e' head o : m ∈ head -> owner w e' m = Some o -> (m, Some o) ∈ zip head (owner w e' <$> head).
Proof.
  intros Hm Ho. apply list_elem_of_lookup in Hm as [i Hi]. apply list_elem_of_lookup. exists i.
  rewrite lookup_zip_with, list_lookup_fmap, Hi. simpl. by rewrite Ho.
Qed.

Lemma hsafe_Admit k e' past : IssuerFrame (wk_tokens k) -> 1000000 <= Issuer_TTL (wk_tokens k) -> hsafe kept (Admit k e') past.
Proof.
  intros Hi Httl. apply hsafe_call; [intros now r; by rewrite lease_lua_waiters, lease_lua_owner|]. intros w0 more0 _ _.
  destruct (redis_call _ w0).1 as [held|]; [|done]. case_match; [done|]. apply hsafe_read. intros [head|] past1 _; [|done].
  case_match; [done|]. unfold admit_head. cbn [pbind act]. intros more1 w1 Hk1 _. split; [by apply kept_call|].
  assert (queued w1 e m -> owned w1 e m) as Hown by apply Hk1.
  set (w1' := (redis_call _ w1).2). set (res := (redis_call _ w1).1).
  assert (forall owners, res = Ok owners -> owners = owner w1 e' <$> head) as Hres.
  { intros owners Ho. by apply (redis_call_effective _ w1 (proj1 Hk1)) in Ho. }
  destruct res as [owners|]; [|done]. rewrite (Hres owners eq_refl).
  destruct (hsafe_issue_tokens (wk_tokens k) e' (zip head (owner w1 e' <$> head)) (w1' :: w1 :: more1) Hi) as [Hsi Hpi].
  eapply hsafe_bind; [exact Hsi|exact Hpi|]. intros [tokens|] past2 Hsub2 Htok; [|done].
  destruct (hsafe_set_tokens (Issuer_TTL (wk_tokens k)) tokens past2 Httl) as [Hss Hps].
  eapply hsafe_bind; [exact Hss|exact Hps|]. intros stored1 past3 Hsub3 Hstored. cbn [pbind act].
  intros more4 w4 Hk4 Hsub4. destruct (kept_zrem e' head w4 more4 Hk4) as [Hk5 Hgone].
  { intros -> Hm Hq. assert (queued w1 e m) as Hq1.
    { destruct Hk4 as (_ & _ & Hall & _). apply (Hall Hq). set_solver. }
    destruct (Hown Hq1) as (o & u & Ho & Hu). eapply stored_more; [apply Hstored|done].
    eapply Htok; [done| |done]. by apply zip_owned. }
  split; [done|]. intros more6 w6 Hk6 Hsub6. split; [|by repeat case_match].
  apply kept_hdel; [done|]. intros He Hm Hq. destruct Hk6 as (_ & _ & Hall & _). apply (Hgone He Hm), (Hall Hq). set_solver.
Qed.

Lemma hsafe_admit_events k es total past :
  IssuerFrame (wk_tokens k) -> 1000000 <= Issuer_TTL (wk_tokens k) -> hsafe kept (admit_events k es total) past.
Proof.
  intros Hi Httl. revert total past. induction es as [|e' es IH]; intros total past; cbn [admit_events]; [done|].
  eapply hsafe_bind; [by apply hsafe_Admit|apply hpost_true|]. intros [n|] past' _ _; [apply IH|done].
Qed.

Lemma hsafe_waiting_room p past : waiting_room p -> hsafe kept p past.
Proof.
  assert (forall A (q : prog (World R) A) past, (forall past, hsafe kept q past) -> hsafe kept (discard q) past) as Hd.
  { intros A q past' Hq. eapply hsafe_bind; [apply Hq|apply hpost_true|done]. }
  intros Hp; destruct Hp as [e' u|e' q|e'|k e' Hi Ht|k Hi Ht Hev|p Hp]; [apply Hd..|by apply hsafe_apart]; intros past'.
  - apply hsafe_Join.
  - apply hsafe_Status.
  - cbn. intros more w Hw _. split; [by apply kept_call|done].
  - by apply hsafe_Admit.
  - eapply hsafe_bind; [by apply hsafe_apart|apply hpost_true|]. intros [es|] past2 _ _; [by apply hsafe_admit_events|done].
Qed.
End place.

(** ** Properties *)

(** C8. A place in the queue is not lost: take a buyer who is queued, with an
    owner the worker can read and a queue id that is not issued again. In
    every execution of joins, status requests, workers of any number of
    instances and handlers of other components, with crashes between any two
    commands, lost answers and time passing, as long as the commands sent to
    Redis take effect: the buyer is still queued, with the same right to a
    token, or at some point of the execution a token was stored for them. *)
Theorem place_not_lost `{RedisQueue R} `{UuidLib} (w : World R) (e : Z) (id : UUID)
    (Hq : queued w e (uuid_String id)) (Ho : owned w e (uuid_String id)) (Hid : Some id ∉ ids w) (Hf : effective w)
    (ps : list (prog (World R) unit)) (w' : World R) (past : list (World R))
    (Hr : rtc (hist_step waiting_room redis_tick) ([], [w]) (ps, w' :: past)) :
  queued w' e (uuid_String id) /\ owned w' e (uuid_String id) \/
  exists v, v ∈ w' :: past /\ is_Some (token_of v id).
Proof.
  assert (kept e id (w' :: past)) as (_ & _ & Hk & Hn).
  { eapply (hist_ok waiting_room redis_tick (kept e id)); [..|exact Hr|].
    - intros v v' more Hv (p & n & -> & Hpn). apply kept_step; [done|by destruct Hv|by apply Hv|done|done].
    - intros p past' Hp. by apply hsafe_waiting_room.
    - split; [done|]. split; [done|]. split; [|by intros []]. intros _. split; [done|]. by intros v ->%list_elem_of_singleton. }
  destruct (decide (queued w' e (uuid_String id))) as [Hqw|Hqw]; [left; split; [done|by apply Hk]|right; by apply Hn].
Qed.
