(* ===== verification/Admission.v ===== *)
(** * Joining and being admitted

    What [Join] and the worker's rounds do when Redis answers: a user has one
    place, at the back when it is new; every round of the worker that holds the
    lease admits the next buyers in the order of the queue. *)

From S2P Require Import Prelude GoLib Effects RedisServer RedisQueue World Frame Locker Queue Worker Waiting Place.
Local Open Scope tr_scope.

Section admission.
Context {R : Type} `{RedisQueue R} `{UuidLib}.
Implicit Types (w : World R) (r : R).

(** ** The worker *)

(** Every entry names a queue id and an owner. *)
Definition well_formed w (e : Z) : Prop :=
  forall m, m ∈ (waiters w e).*2 -> exists q, m = uuid_String q /\ owned w e m.

(** The lease is free or this worker's. *)
Definition leasable (k : Worker R) w (e : Z) : Prop :=
  forall v, GET (rds w) (redis_now w) (lockKey e) = Some v -> v = wk_instance k.

(** A worker whose issuer works as long as there are random ids. *)
Class Works (k : Worker R) : Prop := {
  works_frame : IssuerFrame (wk_tokens k);
  works_issue u e q w j l :
    ids w = Some j :: l ->
    is_ok (Issuer_Issue (wk_tokens k) u e q w).1 = true /\ ids (Issuer_Issue (wk_tokens k) u e q w).2 = l;
  works_ttl : 1000000 <= Issuer_TTL (wk_tokens k);
  works_batch : 0 < wk_batch k;
}.

(** The next [n] ids can be drawn; [l] are the ones after them. *)
Definition ids_ahead (n : nat) (l : list (option UUID)) w : Prop := exists js : list UUID, length js = n /\ ids w = (Some <$> js) ++ l.

Lemma ids_ahead_app n m l w :
  ids_ahead (n + m) l w -> exists l1, ids_ahead n l1 w /\ forall w', ids w' = l1 -> ids_ahead m l w'.
Proof.
  intros (js & Hlen & Hids). exists ((Some <$> drop n js) ++ l). split.
  - exists (take n js). split; [rewrite length_take; lia|]. by rewrite app_assoc, <- fmap_app, take_drop.
  - intros w' Hw'. exists (drop n js). split; [rewrite length_drop; lia|done].
Qed.

(** [w'] differs from [w] in nothing Redis keeps of the queues. *)
Definition same_redis w w' : Prop := rds w' = rds w /\ redis_now w' = redis_now w /\ faults w' = faults w.

(** [t] is a token the worker's issuer has made. *)
Definition issued (k : Worker R) (u e : Z) (q : UUID) (t : string) : Prop :=
  exists v, (Issuer_Issue (wk_tokens k) u e q v).1 = Ok t.

Lemma issue_tokens_calm k e entries l w :
  Works k -> ids_ahead (length entries) l w ->
  (forall m o, (m, o) ∈ entries -> exists q s u, m = uuid_String q /\ o = Some s /\ ParseInt s = Some u) ->
  exists tokens, (run (issue_tokens (wk_tokens k) e entries) w).1 = Ok tokens /\ uuid_String <$> tokens.*1 = entries.*1 /\
    same_redis w (run (issue_tokens (wk_tokens k) e entries) w).2 /\ ids (run (issue_tokens (wk_tokens k) e entries) w).2 = l /\
    (forall q t, (q, t) ∈ tokens -> exists s u, (uuid_String q, Some s) ∈ entries /\ ParseInt s = Some u /\ issued k u e q t).
Proof.
  intros Hk. revert w. induction entries as [|[m o] entries IH]; intros w (js & Hlen & Hids) Hen; cbn [issue_tokens].
  { exists []. destruct js; [|done]. split_and!; try done. by intros q t Hqt%elem_of_nil. }
  destruct js as [|j js]; [done|]. injection Hlen as Hlen.
  destruct (Hen m o) as (q & s & u & -> & -> & Hu); [constructor|]. rewrite uuid_Parse_String, Hu, run_bind, run_act.
  destruct (works_issue u e q w j _ Hids) as [Hi Hids']. destruct (@Issue_frame _ _ works_frame u e q w) as (Hr & Hn & Hf & _).
  destruct (Issuer_Issue _ u e q w) as [[token|] w1] eqn:Hissue; [|done]. cbn [fst snd] in *. rewrite run_bind.
  destruct (IH w1) as (tokens & Ht & Hm & (Hr' & Hn' & Hf') & Hl & Hmade); [by exists js|intros; apply Hen; by right|]. rewrite Ht. cbn [run fst snd].
  exists ((q, token) :: tokens). split; [done|]. split; [rewrite !fmap_cons; cbn [fst]; by rewrite Hm|]. split; [split_and!; congruence|]. split; [done|].
  intros q' t [[= -> ->]|Hqt]%elem_of_cons; [exists s, u; split; [by left|]; split; [done|]; exists w; by rewrite Hissue|].
  destruct (Hmade q' t Hqt) as (s' & u' & Hin & ?). exists s', u'. split; [by right|done].
Qed.

(** What the token commands leave alone. *)
Definition only_tokens w w' : Prop :=
  (forall e, waiters w' e = waiters w e) /\ (forall e m, owner w' e m = owner w e m) /\
  redis_now w' = redis_now w /\ faults w' = faults w /\
  (forall t e, GET (rds w') t (lockKey e) = GET (rds w) t (lockKey e)) /\
  (forall q tok, token_of w q = Some tok -> token_of w' q = Some tok) /\ ids w' = ids w.
#[local] Instance only_tokens_preorder : PreOrder only_tokens.
Proof.
  unfold only_tokens. split; [intros a; by split_and!|]. intros a b c (A1 & A2 & A3 & A4 & A5 & A6 & A7) (B1 & B2 & B3 & B4 & B5 & B6 & B7).
  split_and!; intros; rewrite ?B1, ?B2, ?B3, ?B4, ?B5, ?B7; auto.
Qed.

Lemma set_tokens_calm ttl tokens w :
  1000000 <= ttl -> faults w = [] ->
  let w' := (run (set_tokens ttl tokens) w).2 in
  (run (set_tokens ttl tokens) w).1 = None /\ only_tokens w w' /\
  (forall q, q ∈ tokens.*1 -> is_Some (token_of w' q)) /\
  (forall q, q ∉ tokens.*1 -> token_of w' q = token_of w q) /\
  (forall q t, token_of w q = None -> token_of w' q = Some t -> (q, t) ∈ tokens).
Proof.
  intros Httl. assert (0 < Milliseconds ttl) as Hms.
  { unfold Milliseconds. enough (1 <= Z.quot ttl 1000000) by lia. apply Z.quot_le_lower_bound; lia. }
  revert w. induction tokens as [|[q token] tokens IH]; intros w Hf; cbn [set_tokens run fst snd].
  { split; [done|]. split; [reflexivity|]. split; [intros q Hq; by apply elem_of_nil in Hq|]. split; [done|congruence]. }
  rewrite run_bind, run_act, redis_call_calm by done. cbn [fst snd]. rewrite run_bind.
  set (w1 := set_rds _ w). destruct (IH w1 Hf) as (He & Ho & Hin & Hout & Hnew). rewrite He. cbn [run fst snd].
  assert (only_tokens w w1) as Ho1.
  { unfold w1, only_tokens, waiters, owner, token_of. cbn. split_and!; intros; rewrite ?setnx_waiters, ?setnx_owner; try done.
    - unfold setnx. destruct (GET _ _ (AdmittedKey q)); [done|]. apply GET_SET_ne. keys.
    - unfold setnx. destruct (GET _ _ (AdmittedKey q)) eqn:Hg; [done|]. cbn [snd].
      rewrite GET_SET_ne; [done|]. intros Heq. congruence. }
  split; [done|]. split; [by etrans|]. split; [|split]; intros q'; rewrite ?fmap_cons.
  - intros [->|Hq]%elem_of_cons; [|by apply Hin].
    assert (is_Some (token_of w1 q)) as [t Ht] by (by apply setnx_sets). exists t. by apply Ho.
  - intros [Hne Hq]%not_elem_of_cons. rewrite Hout by done. unfold token_of, w1. cbn. unfold setnx.
    destruct (GET _ _ (AdmittedKey q)); [done|]. apply GET_SET_ne. by intros ?%(inj AdmittedKey).
  - intros t Hno Ht. destruct (token_of w1 q') as [t1|] eqn:Hk1; [|right; by apply Hnew].
    assert (token_of (run (set_tokens ttl tokens) w1).2 q' = Some t1) as Ht2 by (by apply Ho). assert (t1 = t) as -> by congruence.
    unfold token_of, w1 in Hk1. cbn in Hk1. unfold setnx in Hk1. destruct (decide (q = q')) as [->|Hne].
    + unfold token_of in Hno. rewrite Hno in Hk1. apply GET_SET_val in Hk1 as ->. left.
    + destruct (GET _ _ (AdmittedKey q)); cbn [snd] in Hk1; [|rewrite GET_SET_ne in Hk1 by (by intros ?%(inj AdmittedKey))];
        unfold token_of in Hno; congruence.
Qed.

Lemma lease_calm k e w :
  leasable k w e -> faults w = [] ->
  exists r', lease_lua (lockKey e) (wk_instance k) (Milliseconds leaseTTL) (redis_now w) (rds w) = (1, r') /\
    GET r' (redis_now w) (lockKey e) = Some (wk_instance k) /\
    (forall t q, GET r' t (AdmittedKey q) = GET (rds w) t (AdmittedKey q)).
Proof.
  intros Hl Hf. change (Milliseconds leaseTTL) with 3000. unfold lease_lua. destruct (GET (rds w) (redis_now w) (lockKey e)) as [v|] eqn:Hg.
  - rewrite (Hl v Hg), bool_decide_eq_true_2 by done. eexists. split; [done|]. split.
    + apply GET_PEXPIRE_live; [|lia..]. by rewrite Hg, (Hl v Hg).
    + intros t q. apply GET_PEXPIRE_ne. keys.
  - eexists. split; [done|]. split; [apply GET_SET_live; lia|]. intros t q. apply GET_SET_ne. keys.
Qed.

Lemma admit_head_calm k e head l w :
  Works k -> faults w = [] -> ids_ahead (length head) l w -> (forall m, m ∈ head -> exists q, m = uuid_String q /\ owned w e m) ->
  let w' := (run (admit_head k e head) w).2 in
  (run (admit_head k e head) w).1 = Ok (Z.of_nat (length head)) /\
  waiters w' e = zrem head (waiters w e) /\ (forall m, m ∉ head -> owner w' e m = owner w e m) /\
  faults w' = [] /\ redis_now w' = redis_now w /\
  (forall t, GET (rds w') t (lockKey e) = GET (rds w) t (lockKey e)) /\
  (forall q tok, token_of w q = Some tok -> token_of w' q = Some tok) /\
  (forall q, uuid_String q ∈ head -> is_Some (token_of w' q)) /\
  (forall q, uuid_String q ∉ head -> token_of w' q = token_of w q) /\ ids w' = l /\
  (forall q t, token_of w q = None -> token_of w' q = Some t ->
     exists s u, owner w e (uuid_String q) = Some s /\ ParseInt s = Some u /\ issued k u e q t).
Proof.
  intros Hk Hf Hid Hhead. unfold admit_head. rewrite run_bind, run_act, redis_read_calm by done. cbn [fst snd]. rewrite run_bind.
  set (owners := HGET (rds w) (ownerKey e) <$> head).
  assert (length (zip head owners) = length head) as Hzip by (unfold owners; rewrite length_zip_with, length_fmap; lia).
  destruct (issue_tokens_calm k e (zip head owners) l w Hk) as (tokens & Ht & Hm & (Hr & Hn & Hf1) & Hl0 & Hmade); [by rewrite Hzip| |].
  { intros m o Hmo. apply list_elem_of_lookup in Hmo as [i Hi]. unfold owners in Hi. rewrite lookup_zip_with, list_lookup_fmap in Hi.
    destruct (head !! i) as [m'|] eqn:Hm; [|done]. injection Hi as -> <-. apply list_elem_of_lookup_2 in Hm.
    destruct (Hhead m Hm) as (q & -> & o & u & Ho & Hu). eauto 10. }
  rewrite Ht. destruct (run (issue_tokens _ _ _) w) as [? w1]. cbn [fst snd] in *. clear Ht. rewrite run_bind.
  assert (uuid_String <$> tokens.*1 = head) as Hids.
  { rewrite Hm. apply fst_zip. unfold owners. by rewrite length_fmap. }
  destruct (set_tokens_calm (Issuer_TTL (wk_tokens k)) tokens w1 works_ttl) as (He & (Hq & Ho & Hn2 & Hf2 & Hl & Htok & Hi2) & Hin & Hout & Hnew); [congruence|].
  destruct (run (set_tokens _ _) w1) as [? w2]. cbn [fst snd] in *. subst.
  assert (faults w2 = []) as Hf3 by congruence.
  rewrite run_bind, run_act, redis_call_calm by done. cbn [fst snd]. rewrite run_bind, run_act, redis_call_calm by done. cbn [fst snd first_err call_err run].
  assert (length (uuid_String <$> tokens.*1) = length tokens) as -> by (by rewrite !length_fmap).
  assert (forall q, token_of w1 q = token_of w q) as Hw1 by (intros q; unfold token_of; by rewrite Hr, Hn).
  set (w' := set_rds _ _). assert (forall q, token_of w' q = token_of w2 q) as Hw'.
  { intros q. unfold token_of, w'. cbn. rewrite GET_HDEL, GET_ZREM by keys. done. }
  split; [done|]. split; [|split; [|split; [done|split; [|split; [|split; [|split; [|split; [|split]]]]]]]].
  - unfold waiters, w'. cbn. rewrite ZSET_HDEL, ZSET_ZREM_eq by keys. f_equal. rewrite <- Hr. apply Hq.
  - intros m Hnm. unfold owner, w'. cbn. rewrite HGET_HDEL_ne, HGET_ZREM by (first [keys|by right]). rewrite <- Hr. apply Ho.
  - cbn. congruence.
  - intros t. unfold w'. cbn. rewrite GET_HDEL, GET_ZREM by keys. by rewrite Hl, Hr.
  - intros q tok Hq'. rewrite Hw'. apply Htok. by rewrite Hw1.
  - intros q (q' & ->%(inj uuid_String) & Hq')%list_elem_of_fmap. rewrite Hw'. by apply Hin.
  - intros q Hq'. rewrite Hw', Hout, Hw1; [done|]. intros Hin'. apply Hq'. by apply list_elem_of_fmap_2.
  - cbn. congruence.
  - intros q t Hno Hq'. rewrite Hw' in Hq'. rewrite <- Hw1 in Hno. apply (Hnew q t Hno) in Hq'.
    destruct (Hmade q t Hq') as (s & u & Hs & Hu & Hi). exists s, u. split; [|done].
    apply list_elem_of_lookup in Hs as [i Hs]. unfold owners in Hs. rewrite lookup_zip_with, list_lookup_fmap in Hs.
    destruct ((uuid_String <$> tokens.*1) !! i); [|done]. by injection Hs as ->.
Qed.

(** One round: the first [batch] buyers get their tokens and leave. *)
Lemma Admit_calm k e l w :
  Works k -> faults w = [] -> leasable k w e -> well_formed w e ->
  ids_ahead (length (take (Z.to_nat (wk_batch k)) (waiters w e))) l w ->
  let b := Z.to_nat (wk_batch k) in
  let w' := (run (Admit k e) w).2 in
  (run (Admit k e) w).1 = Ok (Z.of_nat (length (take b (waiters w e)))) /\
  waiters w' e = drop b (waiters w e) /\ faults w' = [] /\ redis_now w' = redis_now w /\
  leasable k w' e /\ well_formed w' e /\
  (forall q tok, token_of w q = Some tok -> token_of w' q = Some tok) /\
  (forall q, uuid_String q ∈ (take b (waiters w e)).*2 -> is_Some (token_of w' q)) /\
  (forall q, uuid_String q ∉ (take b (waiters w e)).*2 -> token_of w' q = token_of w q) /\ ids w' = l /\
  (forall q t, token_of w q = None -> token_of w' q = Some t ->
     exists s u, owner w e (uuid_String q) = Some s /\ ParseInt s = Some u /\ issued k u e q t).
Proof.
  intros Hk Hf Hl Hw Hids b. fold b in Hids. unfold Admit. rewrite run_bind, run_act, redis_call_calm by done.
  destruct (lease_calm k e w Hl Hf) as (r1 & Hlua & Hlock & Hadm).
  pose proof (fun e' => lease_lua_waiters e e' (wk_instance k) (Milliseconds leaseTTL) (redis_now w) (rds w)) as Hq1.
  pose proof (fun e' m => lease_lua_owner e e' (wk_instance k) (Milliseconds leaseTTL) (redis_now w) (rds w) m) as Ho1.
  rewrite Hlua in Hq1, Ho1 |- *. cbn [fst snd negb Z.eqb Pos.eqb] in *. set (w1 := set_rds r1 w).
  assert (waiters w1 e = waiters w e) as Hw1 by apply Hq1.
  rewrite run_bind, run_act, redis_read_calm by done. cbn [fst snd].
  set (head := zrange (wk_batch k - 1) (ZSET (rds w1) (queueKey e))).
  assert (head = (take b (waiters w e)).*2) as Hhead.
  { unfold head, zrange. pose proof works_batch. destruct (Z.ltb_spec (wk_batch k - 1) 0); [lia|].
    change (ZSET (rds w1) (queueKey e)) with (waiters w1 e). rewrite Hw1. unfold b. do 2 f_equal. lia. }
  rewrite <- Hhead.
  assert (forall q, token_of w1 q = token_of w q) as Htok1 by (intros q; apply Hadm).
  assert (leasable k w1 e) as Hl1 by (intros v Hv; change (GET r1 (redis_now w) (lockKey e) = Some v) in Hv; congruence).
  assert (forall m, m ∈ (waiters w e).*2 -> exists q, m = uuid_String q /\ owned w1 e m) as Hwf1.
  { intros m Hm. destruct (Hw m Hm) as (q & -> & o & u & Ho & Hu). exists q. split; [done|]. exists o, u. split; [|done].
    unfold owner, w1. cbn. by rewrite Ho1. }
  rewrite fmap_take in Hhead. case_bool_decide as Hnil.
  - assert (waiters w e = []) as Hempty.
    { rewrite Hhead in Hnil. destruct (waiters w e) as [|x xs]; [done|]. pose proof works_batch. unfold b in Hnil.
      destruct (Z.to_nat (wk_batch k)) eqn:?; [lia|done]. }
    rewrite Hempty, take_nil, drop_nil. rewrite Hempty in Hw1. cbn [run fst snd length].
    split; [done|]. split; [done|]. split; [done|]. split; [done|]. split; [done|]. split; [intros m Hm; rewrite Hw1 in Hm; by apply elem_of_nil in Hm|].
    rewrite Hnil. split; [intros q tok Hq; by rewrite Htok1|]. split; [intros q Hq; by apply elem_of_nil in Hq|]. split; [intros; apply Htok1|].
    rewrite Hempty, take_nil in Hids. destruct Hids as ([|] & ? & Hids); [|done]. split; [exact Hids|].
    intros q t Hno Ht. rewrite Htok1 in Ht. congruence.
  - destruct (admit_head_calm k e head l w1 Hk Hf) as (E1 & E2 & E3 & E4 & E5 & E6 & E7 & E8 & E9 & E10 & E11).
    { by rewrite Hhead, <- fmap_take, length_fmap. }
    { intros m Hm. apply Hwf1. rewrite Hhead in Hm. eapply subseteq_take; exact Hm. }
    split; [rewrite E1, Hhead, <- fmap_take; by rewrite length_fmap|].
    assert (waiters (run (admit_head k e head) w1).2 e = drop b (waiters w e)) as Hdrop.
    { rewrite E2, Hw1, Hhead. apply zrem_prefix, ZSET_NoDup. }
    split; [exact Hdrop|]. split; [exact E4|]. split; [exact E5|].
    split; [intros v; rewrite E5, E6; apply Hl1|]. split; [|split; [intros q tok; rewrite <- Htok1; apply E7|split; [exact E8|split; [|split; [exact E10|]]]]].
    + intros m Hm. rewrite Hdrop in Hm.
      assert (m ∈ (waiters w e).*2) as Hm0 by (rewrite fmap_drop in Hm; eapply subseteq_drop; exact Hm).
      destruct (Hwf1 m Hm0) as (q & -> & o & u & Ho & Hu). exists q. split; [done|]. exists o, u. split; [|done].
      rewrite E3; [done|]. rewrite E2, Hw1 in Hdrop. rewrite <- Hdrop in Hm. by apply members_zrem in Hm as [? _].
    + intros q Hq. by rewrite E9, Htok1.
    + intros q t. rewrite <- Htok1. intros Hno Ht. destruct (E11 q t Hno Ht) as (s & u & Hs & ?). exists s, u.
      split; [|done]. unfold owner, w1 in Hs. cbn in Hs. by rewrite Ho1 in Hs.
Qed.

Fixpoint admit_rounds (n : nat) (k : Worker R) (e : Z) : prog (World R) unit :=
  match n with O => Ret tt | S n => let! _ := Admit k e in admit_rounds n k e end.

Lemma admit_rounds_calm n k e l w :
  Works k -> faults w = [] -> leasable k w e -> well_formed w e ->
  ids_ahead (length (take (n * Z.to_nat (wk_batch k)) (waiters w e))) l w ->
  let b := Z.to_nat (wk_batch k) in
  let w' := (run (admit_rounds n k e) w).2 in
  waiters w' e = drop (n * b) (waiters w e) /\ faults w' = [] /\
  (forall q tok, token_of w q = Some tok -> token_of w' q = Some tok) /\
  (forall q, uuid_String q ∈ (take (n * b) (waiters w e)).*2 -> is_Some (token_of w' q)) /\
  (forall q, uuid_String q ∉ (take (n * b) (waiters w e)).*2 -> token_of w' q = token_of w q).
Proof.
  intros Hk. revert w. induction n as [|n IH]; intros w Hf Hl Hw Hids b; cbn [admit_rounds run snd].
  { split_and!; [done..|by intros q Hq%elem_of_nil|done]. }
  fold b in Hids. replace (take (S n * b) (waiters w e)) with (take b (waiters w e) ++ take (n * b) (drop b (waiters w e))) in Hids
    by (by rewrite take_take_drop).
  rewrite length_app in Hids. apply ids_ahead_app in Hids as (l1 & Hids & Hnext).
  destruct (Admit_calm k e l1 w Hk Hf Hl Hw Hids) as (_ & A2 & A3 & _ & A5 & A6 & A7 & A8 & A9 & A10 & _). fold b in A2, A8, A9.
  rewrite run_bind. destruct (run (Admit k e) w) as [r1 w1]. cbn [fst snd] in *.
  destruct (IH w1 A3 A5 A6) as (B1 & B2 & B3 & B4 & B5); [by fold b; rewrite A2; apply Hnext|]. fold b in B1, B4, B5.
  assert (forall q, uuid_String q ∈ (take (S n * b) (waiters w e)).*2 <->
    uuid_String q ∈ (take b (waiters w e)).*2 \/ uuid_String q ∈ (take (n * b) (waiters w1 e)).*2) as Hsplit.
  { intros q. rewrite A2, <- elem_of_app, <- fmap_app. by rewrite take_take_drop. }
  split; [rewrite B1, A2, drop_drop; f_equal; lia|]. split; [done|]. split; [auto|]. split; intros q; rewrite Hsplit.
  - intros [Hq|Hq]; [|by apply B4]. destruct (A8 q Hq) as [t Ht]. exists t. by apply B3.
  - intros Hq. rewrite B5, A9; tauto.
Qed.

(** ** Joining *)

(** Where a queue id stands: 0 once admitted, the place while waiting. *)
Definition standing w (e : Z) (q : UUID) : option Z :=
  match token_of w q with
  | Some _ => Some 0
  | None => (fun n => n + 1) <$> zrank (uuid_String q) (waiters w e)
  end.
(** The entry a user has joined with. *)
Definition entry_of w (e u : Z) : option UUID := GET (rds w) (redis_now w) (userKey e u) ≫= uuid_Parse.

Lemma Join_standing e u w q p :
  faults w = [] -> entry_of w e u = Some q -> standing w e q = Some p -> run (Join e u) w = (Ok (mkEntry q p), w).
Proof.
  intros Hf Hq Hp. unfold entry_of in Hq. unfold Join. rewrite run_bind, run_act, redis_read_calm by done. cbn [fst snd].
  destruct (GET _ _ _) as [cur|]; [|done]. simpl in Hq. rewrite Hq, run_bind, Status_calm by done. cbn [fst snd].
  unfold standing in Hp. destruct (token_of w q); [by injection Hp as <-|]. destruct (zrank _ _); [|done]. by injection Hp as <-.
Qed.

Lemma zrank_members x l : x ∈ l.*2 -> exists n, zrank x l = Some n.
Proof. intros Hx. destruct (zrank x l) eqn:Hz; [eauto|]. by apply zrank_None in Hz. Qed.

(** A new entry. *)
Lemma join_queue_calm e u spent w id l :
  faults w = [] -> ids w = Some id :: l ->
  (forall cur, GET (rds w) (redis_now w) (userKey e u) = Some cur -> cur = spent) ->
  let w' := set_rds (joined e u (uuid_String id) (redis_now w) (rds w)) (set_ids l w) in
  exists n, run (join_queue e u spent) w = (Ok (mkEntry id (n + 1)), w') /\ zrank (uuid_String id) (waiters w' e) = Some n.
Proof.
  intros Hf Hi Hspent w'. unfold join_queue. rewrite run_bind, run_act. unfold NewV7. rewrite Hi. cbn [fst snd].
  rewrite run_bind, run_act, redis_call_calm by done. cbn [fst snd rds redis_now set_ids]. rewrite join_lua_cases.
  destruct (zrank_members (uuid_String id) (waiters w' e)) as [n Hn].
  { unfold waiters, w'. cbn. rewrite joined_waiters, decide_True by done. apply members_zadd. by left. }
  exists n. split; [|done]. unfold waiters, w' in Hn. cbn in Hn.
  destruct (GET _ _ _) as [cur|] eqn:Hg; [rewrite (Hspent cur eq_refl), bool_decide_eq_true_2 by done|];
    cbn [fst snd]; rewrite Hn, uuid_Parse_String; done.
Qed.

Lemma Join_new e u w id l :
  faults w = [] -> ids w = Some id :: l -> entry_of w e u ≫= standing w e = None ->
  let w' := set_rds (joined e u (uuid_String id) (redis_now w) (rds w)) (set_ids l w) in
  exists n, run (Join e u) w = (Ok (mkEntry id (n + 1)), w') /\ zrank (uuid_String id) (waiters w' e) = Some n.
Proof.
  intros Hf Hi Hno w'. unfold entry_of in Hno. unfold Join. rewrite run_bind, run_act, redis_read_calm by done. cbn [fst snd].
  destruct (GET _ _ _) as [cur|] eqn:Hg; [|by apply join_queue_calm; [..|by rewrite Hg]]. simpl in Hno.
  destruct (uuid_Parse cur) as [q|] eqn:Hq; [|apply join_queue_calm; [done..|rewrite Hg; congruence]].
  simpl in Hno. unfold standing in Hno. rewrite run_bind, Status_calm by done. cbn [fst snd].
  destruct (token_of w q); [done|]. destruct (zrank _ _); [done|].
  apply join_queue_calm; [done..|rewrite Hg; congruence].
Qed.
End admission.

(** ** Commands that Redis refuses *)

Section refused.
Context {R : Type} `{RedisQueue R} `{UuidLib}.
Implicit Types (w : World R) (r : R).

Lemma redis_call_answered {A} (f : Z -> R -> A * R) w fs :
  faults w = FOk :: fs ->
  redis_call f w = (Ok (f (redis_now w) (rds w)).1, set_rds (f (redis_now w) (rds w)).2 (set_faults fs w)).
Proof. intros Hw. unfold redis_call, call, pop_fault. rewrite Hw. cbn. by destruct (f _ _). Qed.
Lemma redis_call_refused {A} (f : Z -> R -> A * R) w fs :
  faults w = FErr :: fs -> redis_call f w = (Err EInfra, set_faults fs w).
Proof. intros Hw. unfold redis_call, call, pop_fault. by rewrite Hw. Qed.
Lemma run_Ret {A} (a : A) w : run (Ret a) w = (a, w).
Proof. done. Qed.

(** The pipeline for one buyer when its SETNX is refused. *)
Lemma admit_head_refused k e q w j l :
  Works k -> ids w = Some j :: l -> owned w e (uuid_String q) -> faults w = [FOk; FErr] ->
  let w' := (run (admit_head k e [uuid_String q]) w).2 in
  rds w' = HDEL (ZREM (rds w) (queueKey e) [uuid_String q]) (ownerKey e) [uuid_String q] /\
  redis_now w' = redis_now w /\ faults w' = [].
Proof.
  intros Hk Hids (o & u & Ho & Hu) Hf. unfold admit_head. rewrite run_bind, run_act, (redis_call_answered _ _ [FErr]) by done.
  cbn [fst snd fmap list_fmap zip zip_with]. change (HGET (rds w) (ownerKey e) (uuid_String q)) with (owner w e (uuid_String q)).
  rewrite Ho. cbn [issue_tokens]. rewrite uuid_Parse_String, Hu, !run_bind, run_act. set (w3 := set_rds _ _).
  destruct (works_issue u e q w3 j l Hids) as [Hi _]. destruct (@Issue_frame _ _ works_frame u e q w3) as (Hr & Hn & Hf3 & _).
  destruct (Issuer_Issue _ u e q w3) as [[token|] w4]; [|done]. cbn [fst snd] in *.
  change (run (let? rest := Ret (Ok []) in Ret (Ok ((q, token) :: rest))) w4)
    with (@Ok GoErr (list (UUID * string)) [(q, token)], w4). cbn [fst snd set_tokens length].
  rewrite !run_bind, run_act, (redis_call_refused _ _ []) by done. cbn [fst snd]. rewrite !run_Ret. cbn [fst snd].
  rewrite !run_act, (redis_call_calm (fun _ r => (tt, ZREM r _ _))) by done. cbn [fst snd].
  rewrite redis_call_calm by done. cbn [fst snd first_err call_err]. rewrite !run_Ret. cbn. by rewrite Hr, Hn.
Qed.
End refused.

(** ** The lease *)

Section lease.
Context {R : Type} `{RedisQueue R} `{UuidLib}.
Implicit Types (w : World R) (r : R).

(** Workers of other instances, and everybody who joins or asks. *)
Inductive other_instance (i : string) : prog (World R) unit -> Prop :=
| oi_Admit k e : wk_instance k <> i -> IssuerFrame (wk_tokens k) -> other_instance i (discard (Admit k e))
| oi_Join e u : other_instance i (discard (Join e u))
| oi_Status e q : other_instance i (discard (Status e q)).

Context (e : Z) (i : string) (T : Z).
Abbreviation leased := (fixed_until (lockKey e) i T).

Lemma same_GET_fixed {X} (f : World R -> X * World R) :
  (forall w, redis_now (f w).2 = redis_now w /\ forall t, GET (rds (f w).2) t (lockKey e) = GET (rds w) t (lockKey e)) ->
  respects leased same_clock (act f).
Proof.
  intros Hf. apply respects_act. intros w Hw. destruct (Hf w) as [Hn Hg]. split; [|done].
  intros Ht t Htt. rewrite Hg. apply Hw; [by rewrite Hn in Ht|done].
Qed.

Lemma Status_fixed e' q : respects leased same_clock (Status e' q).
Proof. unfold Status. repeat (apply respects_bind; [by apply redis_call_fixed|intros ?]). by repeat case_match. Qed.

Lemma join_queue_fixed e' u spent : respects leased same_clock (join_queue e' u spent).
Proof.
  apply respects_bind; [apply same_GET_fixed; intros w; destruct (NewV7_rds w) as (-> & -> & _); done|].
  intros [id|]; [|done]. apply respects_bind; [|intros [res|]; [by case_match|done]].
  apply redis_call_fixed. intros now r _ t. rewrite join_lua_cases.
  assert (forall new, GET (joined e' u new now r) t (lockKey e) = GET r t (lockKey e)) as Hj by (intros new; apply joined_other; done || keys).
  destruct (GET r now _); [case_bool_decide|]; cbn [snd]; auto.
Qed.

Lemma Join_fixed e' u : respects leased same_clock (Join e' u).
Proof.
  apply respects_bind; [by apply redis_call_fixed|]. intros [[cur|]|]; [|apply join_queue_fixed|done].
  destruct (uuid_Parse cur) as [q|]; [|apply join_queue_fixed].
  apply respects_bind; [apply Status_fixed|]. intros [st|err]; [done|]. case_err err; try done. apply join_queue_fixed.
Qed.

Lemma issue_tokens_fixed k e' entries : IssuerFrame (wk_tokens k) -> respects leased same_clock (issue_tokens (wk_tokens k) e' entries).
Proof.
  intros Hi. induction entries as [|[member o] entries IH]; cbn [issue_tokens]; [done|].
  destruct (uuid_Parse member) as [qid|]; [|done]. destruct o as [uid|]; [|done]. destruct (ParseInt uid) as [u|]; [|done].
  apply respects_bind; [|intros [token|]; [|done]; apply respects_bind; [done|by intros [|]]].
  apply same_GET_fixed. intros w. destruct (Issue_frame u e' qid w) as (-> & -> & _). done.
Qed.

Lemma set_tokens_fixed ttl l : respects leased same_clock (set_tokens (R := R) ttl l).
Proof.
  induction l as [|[q token] l IH]; cbn [set_tokens]; [done|].
  apply respects_bind; [|intros ?; by apply respects_bind]. apply redis_call_fixed. intros now r Hg t.
  by apply setnx_other with (v := i).
Qed.

Lemma Admit_fixed k e' : wk_instance k <> i -> IssuerFrame (wk_tokens k) -> respects leased same_clock (Admit k e').
Proof.
  intros Hne Hi. apply respects_bind.
  { apply redis_call_fixed. intros now r Hg t. unfold lease_lua. destruct (decide (lockKey e' = lockKey e)) as [->|Hk].
    - rewrite Hg, bool_decide_eq_false_2; [done|congruence].
    - destruct (GET r now (lockKey e')); [case_bool_decide|]; cbn [snd]; [by rewrite GET_PEXPIRE_ne|done|by rewrite GET_SET_ne]. }
  intros [held|]; [|done]. case_match; [done|]. apply respects_bind; [by apply redis_call_fixed|]. intros [head|]; [|done].
  case_match; [done|]. unfold admit_head. apply respects_bind; [by apply redis_call_fixed|]. intros [owners|]; [|done].
  apply respects_bind; [by apply issue_tokens_fixed|]. intros [tokens|]; [|done].
  apply respects_bind; [apply set_tokens_fixed|intros stored].
  apply respects_bind; [apply redis_call_fixed; intros; cbn [snd]; apply GET_ZREM; keys|intros left].
  apply respects_bind; [apply redis_call_fixed; intros; cbn [snd]; apply GET_HDEL; keys|intros ?; by repeat case_match].
Qed.
End lease.

(** ** Properties *)

(** Buyers are admitted in turn: when Redis answers, the worker that gets the
    lease (and whose issuer works) admits in every round the next [batch]
    buyers of a well-formed queue. After [n] rounds exactly the first
    [n * batch] buyers have left the queue and each of them has a token, the
    others wait in the same order and have got none; so the buyer in place [p]
    is admitted by the round [p / batch] rounded up. *)
Theorem admitted_in_turn `{RedisQueue R} `{UuidLib} (k : Worker R) (e : Z) (n : nat) (l : list (option UUID)) (w : World R)
    (Hk : Works k) (Hf : faults w = []) (Hl : leasable k w e) (Hw : well_formed w e)
    (Hids : ids_ahead (length (take (n * Z.to_nat (wk_batch k)) (waiters w e))) l w) :
  let b := Z.to_nat (wk_batch k) in
  let w' := (run (admit_rounds n k e) w).2 in
  waiters w' e = drop (n * b) (waiters w e) /\
  (forall q, uuid_String q ∈ (take (n * b) (waiters w e)).*2 -> is_Some (token_of w' q)) /\
  (forall q, uuid_String q ∉ (take (n * b) (waiters w e)).*2 -> token_of w' q = token_of w q) /\
  (forall q p, standing w e q = Some p -> p <= Z.of_nat n * wk_batch k -> standing w' e q = Some 0).
Proof.
  intros b w'. destruct (admit_rounds_calm n k e l w Hk Hf Hl Hw Hids) as (A1 & _ & A3 & A4 & A5). fold b w' in A1, A3, A4, A5.
  split; [done|]. split; [done|]. split; [done|]. intros q p Hp Hle. unfold standing in *.
  destruct (token_of w q) as [t|] eqn:Ht; [by rewrite (A3 q t Ht)|].
  destruct (zrank (uuid_String q) (waiters w e)) as [z|] eqn:Hz; [|done]. injection Hp as <-.
  enough (uuid_String q ∈ (take (n * b) (waiters w e)).*2) as Hin by (by destruct (A4 q Hin) as [t' ->]).
  unfold zrank in Hz. apply fmap_Some in Hz as ([i x] & Hfind & ->). apply list_find_Some in Hfind as (Hi & <- & _).
  apply list_elem_of_fmap_2. apply list_elem_of_lookup. exists i. rewrite lookup_take_lt; [done|].
  simpl in Hle. pose proof works_batch. unfold b. nia.
Qed.

(** C29. Joining gives every user one place: a user whose entry is waiting or
    admitted gets it back with its current place and nothing changes;
    otherwise the user gets a new entry in the order of Redis' clock, at the
    very back when no other joined in the same millisecond with a later id, is
    recorded as its owner, and a status request or another join right
    afterwards reports the same entry and place. *)
Theorem join_answers `{RedisQueue R} `{UuidLib} (e u : Z) (w : World R) (id : UUID) (l : list (option UUID))
    (Hf : faults w = []) (Hi : ids w = Some id :: l) (Hid : token_of w id = None) :
  let '(r, w') := run (Join e u) w in
  match entry_of w e u ≫= fun q => pair q <$> standing w e q with
  | Some (q, p) => r = Ok (mkEntry q p) /\ w' = w
  | None =>
      exists p, r = Ok (mkEntry id p) /\ waiters w' e = zadd (redis_now w) (uuid_String id) (waiters w e) /\
        owner w' e (uuid_String id) = Some (FormatInt u) /\
        entry_of w' e u = Some id /\ standing w' e id = Some p /\ run (Join e u) w' = (Ok (mkEntry id p), w') /\
        ((forall x, x ∈ waiters w e -> zle x (redis_now w, uuid_String id) /\ x.2 <> uuid_String id) ->
         p = Z.of_nat (length (waiters w e)) + 1)
  end.
Proof.
  destruct (entry_of w e u ≫= standing w e) as [p|] eqn:Hst.
  - destruct (entry_of w e u) as [q|] eqn:Hq; [|done]. simpl in Hst. rewrite (Join_standing e u w q p) by done.
    simpl. by rewrite Hst.
  - destruct (Join_new e u w id l Hf Hi Hst) as (n & Hrun & Hn). rewrite Hrun.
    set (w' := set_rds _ (set_ids l w)) in *. assert (entry_of w e u ≫= (fun q => pair q <$> standing w e q) = None) as ->.
    { destruct (entry_of w e u) as [q|]; [|done]. simpl in *. by rewrite Hst. }
    assert (waiters w' e = zadd (redis_now w) (uuid_String id) (waiters w e)) as Hw'.
    { unfold waiters, w'. cbn. by rewrite joined_waiters, decide_True. }
    assert (token_of w' id = None) as Ht.
    { unfold token_of, w'. cbn. rewrite joined_other; [done|keys..|]. unfold userKey. apply admitted_queue. }
    assert (entry_of w' e u = Some id) as He.
    { unfold entry_of, w', joined. change (Z.quot userKeyTTL Second * 1000) with 7200000. cbn. rewrite GET_SET_live by lia.
      simpl. apply uuid_Parse_String. }
    assert (standing w' e id = Some (n + 1)) as Hs by (unfold standing; by rewrite Ht, Hn).
    exists (n + 1). split; [done|]. split; [done|]. split; [|split; [done|split; [done|split; [by apply Join_standing|]]]].
    + unfold owner, w'. cbn. by rewrite joined_owner, decide_True.
    + intros Hall. destruct (zrank_split (redis_now w) (uuid_String id) (waiters w' e)) as (l1 & l2 & Hsplit & Hr & _ & Hel);
        [apply ZSET_sorted|apply ZSET_NoDup|rewrite Hw'; apply elem_of_zadd; by left|].
      rewrite Hr in Hn. injection Hn as <-. do 2 f_equal. apply Permutation_length, NoDup_Permutation.
      * pose proof (ZSET_NoDup (rds w') (queueKey e)) as Hd. unfold waiters in Hsplit. rewrite Hsplit, fmap_app in Hd.
        apply NoDup_app in Hd as [Hd _]. by apply NoDup_fmap_1 in Hd.
      * apply (NoDup_fmap_1 snd), ZSET_NoDup.
      * intros x. rewrite Hel, Hw', elem_of_zadd. split; [by intros ([->|[_ ?]] & _ & ?)|].
        intros Hx. destruct (Hall x Hx) as [Hle Hne]. split; [by right|]. split; [done|]. intros ->. by apply Hne.
Qed.

(** Only one instance admits: once a worker has taken an event's lease, for
    its three seconds (by Redis' clock), under any interleaving of other
    instances' workers, joins and status requests, failures, crashes and clock
    advances, another instance that asks in time admits nobody and changes
    nothing in Redis. *)
Theorem lease_exclusive `{RedisQueue R} `{UuidLib} (w : World R) (e : Z) (i : string)
    (Hl : (lease_lua (lockKey e) i (Milliseconds leaseTTL) (redis_now w) (rds w)).1 = 1)
    (c : list (prog (World R) unit) * World R)
    (Hc : rtc (sys_step (other_instance i) redis_tick)
            ([], set_rds (lease_lua (lockKey e) i (Milliseconds leaseTTL) (redis_now w) (rds w)).2 w) c)
    (Ht : redis_now c.2 < redis_now w + 3000) (Hf : faults c.2 = []) (k : Worker R) (Hk : wk_instance k <> i) :
  (run (Admit k e) c.2).1 = Ok 0 /\ rds (run (Admit k e) c.2).2 = rds c.2.
Proof.
  assert (fixed_until (lockKey e) i (redis_now w + 3000) c.2) as Hfix.
  { eapply (fixed_reachable (other_instance i)); [| |exact Hc].
    - intros p [k' e' Hne Hi|e' u|e' q]; (apply respects_bind; [|done]); [by apply Admit_fixed|apply Join_fixed|apply Status_fixed].
    - intros _ t Htt. cbn. unfold lease_lua in *. change (Milliseconds leaseTTL) with 3000 in *.
      destruct (GET (rds w) (redis_now w) (lockKey e)) as [v|] eqn:Hg; [|apply GET_SET_live; lia].
      case_bool_decide; [|done]. subst. cbn [snd]. destruct (Z.le_gt_cases (redis_now w) t) as [Hle|Hgt].
      + by apply GET_PEXPIRE_live.
      + eapply GET_mono; [|apply (GET_PEXPIRE_live _ (redis_now w) _ 3000 (redis_now w)); [done|lia..]]. lia. }
  assert (GET (rds c.2) (redis_now c.2) (lockKey e) = Some i) as Hg by (by apply Hfix).
  unfold Admit. rewrite run_bind, run_act, redis_call_calm by done. unfold lease_lua.
  rewrite Hg, bool_decide_eq_false_2 by congruence. done.
Qed.

(** C40. Where the promise of the worker's comment (a buyer leaves the queue only
    once their token is stored) and of [Status] fail: when Redis refuses the
    SETNX of the first buyer in a batch of one but executes the ZREM and HDEL
    sent after it, the buyer is removed without a token; and when ZRANK alone
    fails, [Status] tells a buyer who is waiting that they are not queued. *)
Theorem redis_errors_cost_the_place `{RedisQueue R} `{UuidLib} (k : Worker R) (e s : Z) (q j : UUID) (js : list (option UUID))
    (l : list (Z * string)) (w : World R) (Hk : Works k) (Hi : ids w = Some j :: js) (Hb : wk_batch k = 1) (Hf : faults w = []) (Hl : leasable k w e) (Hw : well_formed w e)
    (Hq : waiters w e = (s, uuid_String q) :: l) (Ht : token_of w q = None) :
  (let w' := (run (Admit k e) (set_faults [FOk; FOk; FOk; FErr] w)).2 in
   waiters w' e = l /\ token_of w' q = None /\ (run (Status e q) w').1 = Err ErrNotQueued) /\
  (run (Status e q) (set_faults [FOk; FOk; FErr] w)).1 = Err ErrNotQueued.
Proof.
  split.
  - destruct (lease_calm k e w Hl Hf) as (r1 & Hlua & _ & Hadm).
    pose proof (lease_lua_waiters e e (wk_instance k) (Milliseconds leaseTTL) (redis_now w) (rds w)) as Hq1.
    pose proof (lease_lua_owner e e (wk_instance k) (Milliseconds leaseTTL) (redis_now w) (rds w) (uuid_String q)) as Ho1.
    destruct (Hw (uuid_String q)) as (_ & _ & o & u & Ho & Hu); [rewrite Hq; constructor|].
    pose proof (ZSET_NoDup (rds w) (queueKey e)) as Hd. change (ZSET (rds w) (queueKey e)) with (waiters w e) in Hd, Hq1.
    unfold Admit. rewrite run_bind, run_act, (redis_call_answered _ _ [FOk; FOk; FErr]) by done. cbn [fst snd rds redis_now set_faults].
    rewrite Hlua in Hq1, Ho1 |- *. cbn [fst snd negb Z.eqb Pos.eqb] in *. rewrite run_bind, run_act, (redis_call_answered _ _ [FOk; FErr]) by done.
    cbn [fst snd rds set_faults set_rds]. rewrite Hb, Hq1, Hq.
    change (zrange (1 - 1) _) with [uuid_String q]. rewrite bool_decide_eq_false_2 by done. set (w3 := set_rds r1 _).
    destruct (admit_head_refused k e q w3 j js Hk Hi) as (Hr & Hn & Hf3); [exists o, u; unfold owner; cbn; by rewrite Ho1|done|].
    destruct (run _ w3) as [res w']. cbn [snd] in *.
    assert (waiters w' e = l) as Hw'.
    { unfold waiters. rewrite Hr, ZSET_HDEL, ZSET_ZREM_eq by keys. change (rds w3) with r1. rewrite Hq1.
      pose proof (zrem_prefix 1 (waiters w e) Hd) as Hz. by rewrite Hq in Hz |- *. }
    assert (token_of w' q = None) as Ht'.
    { unfold token_of. rewrite Hr, Hn, GET_HDEL, GET_ZREM by keys. change (rds w3) with r1. by rewrite Hadm. }
    split; [done|]. split; [done|]. rewrite Status_calm, Ht', Hw' by done. cbn [fst].
    assert (zrank (uuid_String q) l = None) as ->; [|done]. apply zrank_None. rewrite Hq, fmap_cons in Hd. by apply NoDup_cons in Hd as [? _].
  - unfold Status. rewrite run_bind, run_act, (redis_call_answered _ _ [FOk; FErr]) by done. cbn [fst snd].
    rewrite run_bind, run_act, (redis_call_answered _ _ [FErr]) by done. cbn [fst snd].
    rewrite run_bind, run_act, (redis_call_refused _ _ []) by done. cbn [fst snd rds redis_now set_rds set_faults].
    change (GET (rds w) (redis_now w) (AdmittedKey q)) with (token_of w q). by rewrite Ht.
Qed.
