(* ===== verification/Http.v ===== *)
(** * HTTP building blocks (internal/httpx)

    The mapping of errors to responses, the checks before a handler runs, and
    what a response consists of. A response carries the value that is encoded
    as JSON, not its text. *)

From S2P Require Import Prelude GoLib OrderState World Auth.

(** ** Responses *)

Definition StatusOK : Z := 200.
Definition StatusCreated : Z := 201.
Definition StatusNotModified : Z := 304.
Definition StatusBadRequest : Z := 400.
Definition StatusUnauthorized : Z := 401.
Definition StatusForbidden : Z := 403.
Definition StatusNotFound : Z := 404.
Definition StatusConflict : Z := 409.
Definition StatusUnprocessableEntity : Z := 422.
Definition StatusInternalServerError : Z := 500.
Definition StatusServiceUnavailable : Z := 503.

Definition StatusMethodNotAllowed : Z := 405.

Definition CodeNotFound : string := "NOT_FOUND".
Definition CodeMethodNotAllowed : string := "METHOD_NOT_ALLOWED".
Definition CodeInternal : string := "INTERNAL_ERROR".

(** A value of the [details] object. *)
Inductive Detail := DetailText (s : string) | DetailList (l : list string) | DetailStatus (s : Status).

Record ErrorBody := mkErrorBody { eb_Code : string; eb_Message : string; eb_Details : list (string * Detail) }.

(** What a handler sends: a JSON value, or the error envelope with the
    Retry-After header ("" when it is not set). *)
Inductive Reply (A : Type) :=
| WriteJSON (status : Z) (v : A)
| WriteError (retryAfter : string) (status : Z) (body : ErrorBody).
Arguments WriteJSON {A}. Arguments WriteError {A}.

Definition reply_status {A} (r : Reply A) : Z := match r with WriteJSON s _ => s | WriteError _ s _ => s end.

(** The router's fallbacks. *)
Definition NotFound {A} : Reply A := WriteError EmptyString StatusNotFound (mkErrorBody CodeNotFound "Không tìm thấy tài nguyên" []).
Definition MethodNotAllowed {A} : Reply A :=
  WriteError EmptyString StatusMethodNotAllowed (mkErrorBody CodeMethodNotAllowed "Phương thức không được hỗ trợ" []).

(** ** Errors *)

Record errorMapping := mkMapping {
  em_target : GoErr -> bool;  (* errors.Is(err, target) *)
  em_status : Z; em_code : string; em_message : string; em_retryAfter : string;
}.

Definition errorMappings : list errorMapping := [
  mkMapping (fun e => match e with ErrBadRequest => true | _ => false end)
    StatusBadRequest "BAD_REQUEST" "Body không phải JSON hợp lệ" "";
  mkMapping (fun e => match e with ErrUnauthorized => true | _ => false end)
    StatusUnauthorized "UNAUTHORIZED" "Thiếu hoặc sai access token" "";
  mkMapping (fun e => match e with ErrBadSignature => true | _ => false end)
    StatusUnauthorized "INVALID_SIGNATURE" "Chữ ký webhook không hợp lệ" "";
  mkMapping (fun e => match e with ErrInvalidWebhook => true | _ => false end)
    StatusBadRequest "BAD_REQUEST" "Nội dung webhook không hợp lệ" "";
  mkMapping (fun e => match e with ErrValidation _ _ => true | _ => false end)
    StatusUnprocessableEntity "VALIDATION_ERROR" "Dữ liệu không hợp lệ" "";
  mkMapping (fun e => match e with ErrIdempotencyKeyReused => true | _ => false end)
    StatusUnprocessableEntity "IDEMPOTENCY_KEY_REUSED" "Idempotency-Key đã dùng cho một request khác" "";
  mkMapping (fun e => match e with ErrIdempotencyKeyInProgress => true | _ => false end)
    StatusConflict "IDEMPOTENCY_KEY_IN_PROGRESS" "Request với Idempotency-Key này đang được xử lý" "1";
  mkMapping (fun e => match e with ErrSeatsUnavailable _ => true | _ => false end)
    StatusConflict "SEATS_UNAVAILABLE" "Một số ghế đã có người giữ" "";
  mkMapping (fun e => match e with ErrActiveOrderExists => true | _ => false end)
    StatusConflict "ACTIVE_ORDER_EXISTS" "Bạn đang có một đơn giữ ghế cho sự kiện này" "";
  mkMapping (fun e => match e with ErrNotCancellable _ => true | _ => false end)
    StatusConflict "ORDER_NOT_CANCELLABLE" "Đơn không ở trạng thái có thể hủy" "";
  mkMapping (fun e => match e with ErrNotFound => true | _ => false end)
    StatusNotFound "ORDER_NOT_FOUND" "Không tìm thấy đơn hàng" "";
  mkMapping (fun e => match e with ErrAdmissionRequired => true | _ => false end)
    StatusForbidden "ADMISSION_REQUIRED" "Cần vào hàng chờ và được cho vào trước khi đặt vé" "";
  mkMapping (fun e => match e with ErrInvalidAdmission => true | _ => false end)
    StatusForbidden "ADMISSION_REQUIRED" "Cần vào hàng chờ và được cho vào trước khi đặt vé" "";
  mkMapping (fun e => match e with ErrAdmissionAlreadyUsed => true | _ => false end)
    StatusForbidden "ADMISSION_ALREADY_USED" "Lượt vào này đã dùng để tạo một đơn khác" "";
  mkMapping (fun e => match e with ErrEventNotFound => true | _ => false end)
    StatusNotFound "EVENT_NOT_FOUND" "Không tìm thấy sự kiện" "";
  mkMapping (fun e => match e with ErrNotQueued => true | _ => false end)
    StatusNotFound "QUEUE_ENTRY_NOT_FOUND" "Không còn trong hàng chờ, hãy vào hàng lại" "";
  mkMapping (fun e => match e with ErrTemporarilyUnavailable => true | _ => false end)
    StatusServiceUnavailable "SERVICE_UNAVAILABLE" "Hệ thống tạm thời không xử lý được, vui lòng thử lại" "1" ].

(** The [ErrorDetails] methods of the order errors (order/errors.go). *)
Definition ErrorDetails (e : GoErr) : list (string * Detail) :=
  match e with
  | ErrValidation field reason => [("field", DetailText field); ("reason", DetailText reason)]
  | ErrSeatsUnavailable seatIDs => [("seat_ids", DetailList seatIDs)]
  | ErrNotCancellable status => [("status", DetailStatus status)]
  | _ => []
  end.

Definition WriteErr {A} (e : GoErr) : Reply A :=
  match list_find (fun m => em_target m e = true) errorMappings with
  | Some (_, m) => WriteError (em_retryAfter m) (em_status m) (mkErrorBody (em_code m) (em_message m) (ErrorDetails e))
  | None => WriteError EmptyString StatusInternalServerError (mkErrorBody CodeInternal "Lỗi hệ thống" [])
  end.

(** ** Checks before a handler *)

Section checks.
Context `{JwtLib} `{UuidLib}.

(** [RequireUser]: the user id put in the context. *)
Definition RequireUser (tokens : Tokens) (now : Z) (authorization : string) : res GoErr Z :=
  match CutPrefix "Bearer " authorization with
  | None => Err ErrUnauthorized
  | Some raw => if bool_decide (raw = EmptyString) then Err ErrUnauthorized else Tokens_Verify tokens now raw
  end.

(** [RequireAdmission]: the admission put in the context. *)
Definition RequireAdmission (tokens : AdmissionTokens) (now : Z) (userID : Z) (header : string) : res GoErr Admission :=
  if bool_decide (header = EmptyString) then Err ErrAdmissionRequired
  else
    match AdmissionTokens_Verify tokens now header with
    | Err _ => Err ErrAdmissionRequired
    | Ok adm => if negb (bool_decide (adm_UserID adm = userID)) then Err ErrAdmissionRequired else Ok adm
    end.
End checks.

Definition maxRequestIDLen : nat := 128.
Definition id_char (c : ascii) : bool :=
  let n := N_of_ascii c in
  ((97 <=? n) && (n <=? 122) || (65 <=? n) && (n <=? 90) || (48 <=? n) && (n <=? 57) ||
   (n =? 45) || (n =? 95) || (n =? 46) || (n =? 58))%N.
Definition validRequestID (id : string) : bool :=
  if bool_decide (id = EmptyString) || Nat.ltb maxRequestIDLen (String.length id) then false else all_chars id_char id.

(** [RequestID]: the caller's id if it looks sane, else the generated one. *)
Definition RequestID (header generated : string) : string := if validRequestID header then header else generated.

(** [DecodeJSON]: [Decode] reads a text that is one value without unknown
    fields or anything after it; a body over the limit is never read to its
    end. *)
Definition maxBodyBytes : nat := Z.to_nat 16384.
Definition DecodeJSON {A} (Decode : string -> option A) (body : string) : res GoErr A :=
  if Nat.ltb maxBodyBytes (String.length body) then Err ErrBadRequest
  else match Decode body with Some v => Ok v | None => Err ErrBadRequest end.

(** ** Properties *)

(** Every error is answered with its documented response: the listed
    business errors with their status, code and retry hint, anything else (a
    failed dependency, an internal inconsistency) with a 500 that says nothing
    about its cause; details appear exactly for rejected input, taken seats and
    orders that cannot be cancelled; a retry hint exactly for the two errors
    that go away by waiting. *)
Theorem errors_answered {A : Type} (e : GoErr) :
  exists retry status body, @WriteErr A e = WriteError retry status body /\
    (retry <> EmptyString <-> e = ErrIdempotencyKeyInProgress \/ e = ErrTemporarilyUnavailable) /\
    (eb_Details body <> [] <-> (exists f r, e = ErrValidation f r) \/ (exists l, e = ErrSeatsUnavailable l) \/ exists s, e = ErrNotCancellable s) /\
    (status = StatusInternalServerError <->
      (exists pe, e = EPg pe) \/ e = EInfra \/ e = ErrUnknownSeat \/ e = ErrConfirmMismatch \/ e = ErrRefundNotFound \/
      (exists a b, e = EIllegalTransition a b) \/ exists m, e = EOther m) /\
    (status = StatusInternalServerError -> body = mkErrorBody CodeInternal "Lỗi hệ thống" []) /\
    (400 <= status <= 503).
Proof.
  destruct e; do 3 eexists; (split; [cbv; reflexivity|]); unfold StatusInternalServerError; cbn [eb_Details];
    (split; [naive_solver|]; split; [naive_solver|]; split; [naive_solver|]; split; [done|lia]).
Qed.
