(* ===== verification/Middleware.v ===== *)
(** * Middleware and health probes (internal/httpx/middleware.go, health.go)

    What surrounds a handler: a panic is answered, every request is logged once
    at a level its status decides, and the probes report the process and its
    dependencies. A handler's run is the replies it wrote, in order, and
    whether it panicked; net/http sends the status of the first one. *)

From S2P Require Import Prelude GoLib Effects World Http.
Local Open Scope tr_scope.

(** A panic; [abort] is http.ErrAbortHandler. *)
Inductive Panic := Panicked (abort : bool).

Record Served (A : Type) := mkServed { sv_writes : list (Reply A); sv_panic : option Panic }.
Arguments mkServed {A}. Arguments sv_writes {A}. Arguments sv_panic {A}.

Definition internal_error {A} : Reply A := WriteError EmptyString StatusInternalServerError (mkErrorBody CodeInternal "Lỗi hệ thống" []).

Definition Recover {A} (s : Served A) : Served A :=
  match sv_panic s with
  | None => s
  | Some (Panicked true) => s
  | Some (Panicked false) => mkServed (sv_writes s ++ [internal_error]) None
  end.

(** [ww.Status()]: 0 when nothing was written. *)
Definition Status {A} (s : Served A) : Z := match sv_writes s with r :: _ => reply_status r | [] => 0 end.

Inductive Level := LevelDebug | LevelInfo | LevelError.
#[global] Instance Level_eq_dec : EqDecision Level.
Proof. solve_decision. Defined.

Record LogLine := mkLogLine { ll_Level : Level; ll_Method : string; ll_Path : string; ll_Status : Z }.

(** The line logged after the handler; a panic that is not recovered passes
    by it. *)
Definition AccessLog {A} (quietPaths : list string) (method path : string) (s : Served A) : option LogLine :=
  match sv_panic s with
  | Some _ => None
  | None =>
      let status := Status s in
      let status := if status =? 0 then StatusOK else status in
      let level := if 500 <=? status then LevelError else if bool_decide (path ∈ quietPaths) then LevelDebug else LevelInfo in
      Some (mkLogLine level method path status)
  end.

(** ** Health *)

Record healthResponse := mkHealth { hr_Status : string; hr_Checks : gmap string string }.

Definition Live : Reply healthResponse := WriteJSON StatusOK (mkHealth "ok" ∅).

Section health.
Context {W : Type}.

Record Check := mkCheck { ck_Name : string; ck_Fn : prog W (res GoErr unit) }.

(** The checks' errors, by index. They run concurrently and only read, so
    running them in order gives the same. *)
Fixpoint run_checks (checks : list Check) : prog W (list (option GoErr)) :=
  match checks with
  | [] => Ret []
  | c :: checks =>
      let! r := ck_Fn c in
      let! errs := run_checks checks in
      Ret ((match r with Err e => Some e | Ok _ => None end) :: errs)
  end.

(** The loop over the results. *)
Fixpoint collect (checks : list Check) (errs : list (option GoErr)) (status : Z) (resp : healthResponse) : Z * healthResponse :=
  match checks, errs with
  | c :: checks, Some _ :: errs =>
      collect checks errs StatusServiceUnavailable (mkHealth "unavailable" (<[ck_Name c := "fail"]> (hr_Checks resp)))
  | c :: checks, None :: errs => collect checks errs status (mkHealth (hr_Status resp) (<[ck_Name c := "ok"]> (hr_Checks resp)))
  | _, _ => (status, resp)
  end.

Definition Ready (checks : list Check) : prog W (Reply healthResponse) :=
  let! errs := run_checks checks in
  let '(status, resp) := collect checks errs StatusOK (mkHealth "ok" ∅) in
  Ret (WriteJSON status resp).

(** *** What the probes say *)

Lemma collect_spec checks errs status resp :
  length errs = length checks ->
  let r := collect checks errs status resp in
  r.1 = (if forallb (fun e => match e with None => true | Some _ => false end) errs then status else StatusServiceUnavailable) /\
  hr_Status r.2 = (if forallb (fun e => match e with None => true | Some _ => false end) errs then hr_Status resp else "unavailable").
Proof.
  revert errs status resp. induction checks as [|c checks IH]; intros [|[e|] errs] status resp Hl; try done; injection Hl as Hl; cbn [collect forallb andb].
  - destruct (IH errs StatusServiceUnavailable (mkHealth "unavailable" (<[ck_Name c := "fail"]> (hr_Checks resp))) Hl) as [H1 H2].
    cbv zeta. rewrite H1, H2. by destruct (forallb _ errs).
  - destruct (IH errs status (mkHealth (hr_Status resp) (<[ck_Name c := "ok"]> (hr_Checks resp))) Hl) as [H1 H2]. cbv zeta. by rewrite H1, H2.
Qed.

Lemma run_checks_length checks w : length (run (run_checks checks) w).1 = length checks.
Proof.
  revert w. induction checks as [|c checks IH]; intros w; [done|]. cbn [run_checks]. rewrite run_bind. destruct (run (ck_Fn c) w) as [r w1].
  cbn [fst snd]. rewrite run_bind. specialize (IH w1). destruct (run (run_checks checks) w1) as [errs w2]. cbn in *. by rewrite IH.
Qed.

(** Ready answers 200 exactly when every check passed, else 503. *)
Lemma Ready_answers checks w :
  let r := run (Ready checks) w in
  let errs := (run (run_checks checks) w).1 in
  reply_status r.1 = (if forallb (fun e => match e with None => true | Some _ => false end) errs then StatusOK else StatusServiceUnavailable) /\
  (Forall (fun e => e = None) errs <-> reply_status r.1 = StatusOK).
Proof.
  cbv zeta. unfold Ready. rewrite run_bind. pose proof (run_checks_length checks w) as Hl. destruct (run (run_checks checks) w) as [errs w1].
  cbn [fst snd] in *. destruct (collect_spec checks errs StatusOK (mkHealth "ok" ∅) Hl) as [H1 _].
  destruct (collect _ _ _ _) as [status resp]. cbn [fst snd run reply_status] in *. rewrite H1. split; [done|].
  rewrite Forall_forall. destruct (forallb _ errs) eqn:Hf; (split; [intros|]); try done.
  - intros _ e He. rewrite forallb_forall in Hf. specialize (Hf e (proj1 (list_elem_of_In _ _) He)). by destruct e.
  - assert (forallb (fun e => match e with None => true | Some _ => false end) errs = true) as Ht; [|by rewrite Ht in Hf].
    apply forallb_forall. intros e He%list_elem_of_In. by rewrite (H e He).
Qed.
End health.

(** ** A handler behind Recover and AccessLog *)

(** Every request that is not aborted on purpose is answered and logged once,
    with the status that was sent. *)
Lemma served_once {A} (quietPaths : list string) (method path : string) (s : Served A) :
  sv_panic s <> Some (Panicked true) ->
  exists line, AccessLog quietPaths method path (Recover s) = Some line /\
    (sv_panic s <> None -> sv_writes s = [] -> sv_writes (Recover s) = [internal_error] /\ ll_Status line = StatusInternalServerError) /\
    (sv_panic s = None -> Recover s = s) /\
    (ll_Level line = LevelError <-> 500 <= ll_Status line).
Proof.
  intros Hs. unfold AccessLog, Recover. destruct s as [ws p]. cbn [sv_panic sv_writes] in *.
  assert (Hlevel : forall status path, (if 500 <=? status then LevelError else if bool_decide (path ∈ quietPaths) then LevelDebug else LevelInfo) = LevelError <-> 500 <= status).
  { intros status pa. destruct (Z.leb_spec 500 status); [by split|]. case_bool_decide; (split; [done|lia]). }
  destruct p as [[[]]|]; [done| |]; cbn [sv_panic].
  - eexists. split; [reflexivity|]. split; [intros _ ->; split; [done|reflexivity]|]. split; [done|]. cbn [ll_Level ll_Status]. apply Hlevel.
  - eexists. split; [reflexivity|]. split; [done|]. split; [done|]. cbn [ll_Level ll_Status]. apply Hlevel.
Qed.
