(* ===== verification/Fakepay.v ===== *)
(** * The fake payment gateway (internal/fakepay/fakepay.go)

    Registering and completing payments, and the deliveries of their webhooks.
    The gateway's memory is [gateway] of the world; refunds are in
    OrderRefund.v. Random draws are arguments. [url_Parse] is net/url, as the
    scheme and the host it finds. *)

From S2P Require Import Prelude GoLib Crypto Effects OrderState World Frame OrderDB Payment Auth Http.
Local Open Scope tr_scope.

Record Config := mkConfig {
  fc_WebhookSecret : string; fc_PublicURL : string;
  fc_DelayMin : Z; fc_DelayMax : Z; fc_LateExtra : Z;
  fc_MaxResends : Z; fc_RetryBase : Z; fc_CallbackPrefix : string;
}.

(** [New] replaces the values that are not positive. *)
Definition New (c : Config) : Config :=
  mkConfig (fc_WebhookSecret c) (fc_PublicURL c) (fc_DelayMin c) (fc_DelayMax c) (fc_LateExtra c)
    (if fc_MaxResends c <=? 0 then 8 else fc_MaxResends c)
    (if fc_RetryBase c <=? 0 then Second else fc_RetryBase c) (fc_CallbackPrefix c).

Definition badRequest {A} (message : string) : Reply A :=
  WriteError EmptyString StatusBadRequest (mkErrorBody "BAD_REQUEST" message []).
Definition paymentNotFound {A} : Reply A :=
  WriteError EmptyString StatusNotFound (mkErrorBody "PAYMENT_NOT_FOUND" "Không có thanh toán cho đơn này" []).

Section fakepay.
Context {R : Type} `{UuidLib} (url_Parse : string -> option (string * string)) (cfg : Config).
Implicit Types w : World R.

(** ** Payments *)

(** [None] is a valid request. *)
Definition validCreate (req : CreatePaymentRequest) : option string :=
  let prefix := fc_CallbackPrefix cfg in
  if bool_decide (cp_OrderID req = uuid_Nil) then Some "invalid request: order_id is required"
  else if cp_AmountVND req <=? 0 then Some "invalid request: amount_vnd must be positive"
  else if match url_Parse (cp_CallbackURL req) with
          | None => true
          | Some (scheme, host) =>
              negb (bool_decide (scheme = "http")) && negb (bool_decide (scheme = "https")) || bool_decide (host = EmptyString)
          end
  then Some "invalid request: callback_url must be an absolute http(s) URL"
  else if negb (bool_decide (prefix = EmptyString)) && negb (bool_decide (cp_CallbackURL req = prefix)) &&
          negb (HasPrefix (prefix +:+ "/") (cp_CallbackURL req))
  then Some ("invalid request: callback_url must be under " +:+ prefix)
  else None.

(** The registration in force. *)
Definition register (req : CreatePaymentRequest) (g : Gateway) : CreatePaymentRequest * Gateway :=
  match gw_payments g !! cp_OrderID req with
  | Some p => (p, g)
  | None => (req, mkGateway (<[cp_OrderID req := req]> (gw_payments g)) (gw_refunds g) (gw_txns g) (gw_log g))
  end.

Definition paymentPage (orderID : UUID) : string := fc_PublicURL cfg +:+ "/pay/" +:+ uuid_String orderID.

(** A body is what [decode] makes of it: the decoder's message or a value. *)
Definition handleCreate (body : string + CreatePaymentRequest) (g : Gateway) : Reply string * Gateway :=
  match body with
  | inl message => (badRequest message, g)
  | inr req =>
      match validCreate req with
      | Some reason => (badRequest reason, g)
      | None => let '(p, g) := register req g in (WriteJSON StatusOK (paymentPage (cp_OrderID p)), g)
      end
  end.

(** [payment.Client.CreatePayment]: one HTTP call to the gateway. *)
Definition CreatePayment (req : CreatePaymentRequest) : M R string :=
  call EInfra (fun w =>
    let '(reply, g) := handleCreate (inr req) (gateway w) in
    match reply with
    | WriteJSON status u => if status =? StatusOK then (Ok u, set_gateway g w) else (Err EInfra, set_gateway g w)
    | WriteError _ _ _ => (Err EInfra, set_gateway g w)
    end).

Definition record_txn (txn : string) (orderID : UUID) (g : Gateway) : Gateway :=
  mkGateway (gw_payments g) (gw_refunds g) (<[txn := orderID]> (gw_txns g)) (gw_log g).

(** The transaction and the webhook scheduled for it, or why there is none. *)
Definition complete (p : CreatePaymentRequest) (result : string) : prog (World R) (string + string * Webhook) :=
  if negb (bool_decide (result = StatusSucceeded)) && negb (bool_decide (result = StatusFailed))
  then Ret (inl "invalid request: result must be SUCCEEDED or FAILED")
  else
    let! text := act (fun w => match rand_Text w with (Ok s, w) => (s, w) | (Err _, w) => (EmptyString, w) end) in
    let txn := "fp_" +:+ text in
    let! _ := act (fun w => (tt, set_gateway (record_txn txn (cp_OrderID p) (gateway w)) w)) in
    Ret (inr (txn, mkWebhook txn (cp_OrderID p) (cp_AmountVND p) result)).

(** What a completed payment leaves behind: the answer, and the delivery to
    run in the background. *)
Definition completed (p : CreatePaymentRequest) (result : string)
  : prog (World R) (Reply string * option (CreatePaymentRequest * Webhook)) :=
  let! r := complete p result in
  match r with
  | inl reason => Ret (badRequest reason, None)
  | inr (txn, wh) => Ret (WriteJSON StatusOK txn, Some (p, wh))
  end.

Definition handleComplete (orderID : string) (body : string + string)
  : prog (World R) (Reply string * option (CreatePaymentRequest * Webhook)) :=
  match uuid_Parse orderID with
  | None => Ret (paymentNotFound, None)
  | Some orderID =>
      match body with
      | inl message => Ret (badRequest message, None)
      | inr result =>
          let! p := act (fun w => (gw_payments (gateway w) !! orderID, w)) in
          match p with
          | None => Ret (paymentNotFound, None)
          | Some p => completed p result
          end
      end
  end.

Definition handleAuto (body : string + CreatePaymentRequest * string)
  : prog (World R) (Reply string * option (CreatePaymentRequest * Webhook)) :=
  match body with
  | inl message => Ret (badRequest message, None)
  | inr (req, result) =>
      let result := if bool_decide (result = EmptyString) then StatusSucceeded else result in
      match validCreate req with
      | Some reason => Ret (badRequest reason, None)
      | None =>
          let! p := act (fun w => let '(p, g) := register req (gateway w) in (p, set_gateway g w)) in
          completed p result
      end
  end.

(** ** Webhook delivery *)

Inductive Delivered := DeliveredOK | GivenUp | Cancelled.

(** [sleep]: [awake] says whether ctx is still alive when the wait is over. *)
Definition sleep (d : Z) (awake : bool) : prog (World R) bool :=
  if d <=? 0 then Ret awake
  else if awake then act (fun w => (true, set_clocks (pg_now w + Microseconds d) (redis_now w + Milliseconds d) w))
  else Ret false.

(** [post]: the status of an answer, or a transport error. [forced] are the
    draws against FailRate, [awake] what each sleep finds (all well once used
    up). [resends] is MaxResends + 1 - posts. *)
Fixpoint sendWithRetry (post : prog (World R) (res GoErr Z)) (resends : nat) (wait : Z) (forced awake : list bool)
  : prog (World R) (nat * Delivered) :=
  let! r := post in
  let ok := match r with Ok status => status =? StatusOK | Err _ => false end in
  let forcedFailure := ok && match forced with b :: _ => b | [] => false end in
  let forced := if ok then tail forced else forced in
  if ok && negb forcedFailure then Ret (1%nat, DeliveredOK)
  else
    match resends with
    | O => Ret (1%nat, GivenUp)
    | S resends =>
        let! up := sleep wait (match awake with b :: _ => b | [] => true end) in
        if negb up then Ret (1%nat, Cancelled)
        else
          let! r := sendWithRetry post resends (wrap64 (wait * 2)) forced (tail awake) in
          Ret (S r.1, r.2)
    end.

Record Draws := mkDraws { dr_delay : Z; dr_late : bool; dr_duplicates : option Z; dr_awake : bool }.

Definition delivery_delay (dr : Draws) : Z :=
  let span := wrap64 (fc_DelayMax cfg - fc_DelayMin cfg) in
  let delay := if 0 <? span then add64 (fc_DelayMin cfg) (dr_delay dr) else fc_DelayMin cfg in
  if dr_late dr then add64 delay (fc_LateExtra cfg) else delay.
Definition delivery_copies (dr : Draws) : Z := 1 + match dr_duplicates dr with Some n => 1 + n | None => 0 end.

(** [deliver] waits, then starts the copies; each is sent on its own. *)
Definition deliver (dr : Draws) (send : prog (World R) (nat * Delivered)) : prog (World R) (list (prog (World R) (nat * Delivered))) :=
  let! up := sleep (delivery_delay dr) (dr_awake dr) in
  if negb up then Ret [] else Ret (replicate (Z.to_nat (delivery_copies dr)) send).
End fakepay.

Section delivery.
Context {R : Type}.
Implicit Types w : World R.

Lemma sleep_run d awake w :
  0 <= d ->
  (run (sleep d awake) w).1 = awake /\
  redis_now w <= redis_now (run (sleep d awake) w).2 /\
  1000000 * (redis_now (run (sleep d awake) w).2 - redis_now w) <= d.
Proof.
  intros Hd. unfold sleep. destruct (Z.leb_spec d 0); [cbn; split; [done|lia]|].
  destruct awake; cbn; (split; [done|]); [|lia].
  unfold Milliseconds. pose proof (Z.quot_pos d 1000000 Hd ltac:(lia)). pose proof (Z.mul_quot_le d 1000000 Hd ltac:(lia)). lia.
Qed.

Lemma sends_bound (post : prog (World R) (res GoErr Z)) n wait forced awake w :
  (forall w, redis_now (run post w).2 = redis_now w) -> 0 < wait -> wait * 2 ^ Z.of_nat n < 2 ^ 63 ->
  let r := run (sendWithRetry post n wait forced awake) w in
  (1 <= r.1.1 <= S n)%nat /\ redis_now w <= redis_now r.2 /\
  1000000 * (redis_now r.2 - redis_now w) <= wait * (2 ^ Z.of_nat n - 1).
Proof.
  intros Hpost. revert wait forced awake w. induction n as [|n IH]; intros wait forced awake w Hw Hmax; cbn [sendWithRetry];
    rewrite run_bind; pose proof (Hpost w) as Hp; destruct (run post w) as [res w1]; cbn [fst snd] in *;
    set (ok := match res with Ok status => status =? StatusOK | Err _ => false end); set (fs := if ok then tail forced else forced);
    destruct (ok && negb _); cbn [run fst snd].
  1, 2: rewrite Hp; cbn; lia.
  - rewrite Hp. pose proof (Z.pow_pos_nonneg 2 (Z.of_nat (S n))). nia.
  - rewrite Nat2Z.inj_succ, Z.pow_succ_r in Hmax |- * by lia. pose proof (Z.pow_pos_nonneg 2 (Z.of_nat n)).
    set (aw := match awake with b :: _ => b | [] => true end). rewrite run_bind.
    destruct (sleep_run wait aw w1) as (Hs1 & Hs2 & Hs3); [lia|]. destruct (run (sleep wait aw) w1) as [up w2]. cbn [fst snd] in *. subst up.
    destruct aw; cbn [negb run fst snd]; [|nia]. rewrite run_bind.
    assert (wrap64 (wait * 2) = wait * 2) as -> by (apply wrap64_id; unfold in_int64, int64_min, int64_max; apply andb_true_iff; rewrite !Z.leb_le; nia).
    destruct (IH (wait * 2) fs (tail awake) w2) as (I1 & I2 & I3); [lia|nia|].
    destruct (run (sendWithRetry _ _ _ _ _) w2) as [r w3]. cbn [run fst snd] in *. nia.
Qed.
End delivery.

(** ** Properties *)

(** Delays that fit a duration together do not wrap around. *)
Lemma delay_bounds (c : Config) (dr : Draws) :
  0 <= fc_DelayMin c <= fc_DelayMax c -> fc_DelayMax c <= int64_max -> 0 <= fc_LateExtra c ->
  dr_late dr = false \/ fc_DelayMax c + fc_LateExtra c <= int64_max ->
  0 <= dr_delay dr <= fc_DelayMax c - fc_DelayMin c ->
  fc_DelayMin c <= delivery_delay c dr <= fc_DelayMax c + (if dr_late dr then fc_LateExtra c else 0).
Proof.
  unfold delivery_delay, add64, int64_max. intros Hs Hm Hl Hf Hd.
  rewrite (wrap64_id (fc_DelayMax c - _)) by (unfold in_int64, int64_min, int64_max; lia).
  destruct (Z.ltb_spec 0 (fc_DelayMax c - fc_DelayMin c)), (dr_late dr); destruct Hf as [?|Hf]; try done;
    rewrite ?(wrap64_id (fc_DelayMin c + dr_delay dr)) by (unfold in_int64, int64_min, int64_max; lia);
    rewrite ?wrap64_id by (unfold in_int64, int64_min, int64_max; lia); lia.
Qed.

(** A webhook's delivery stays within the gateway's settings: the delay is
    between DelayMin and DelayMax, plus LateExtra when it is late (while their
    sum fits a duration); one to four
    copies are sent; each copy is posted at least once and at most
    [MaxResends + 1] times, and spends at most
    [RetryBase * (2 ^ MaxResends - 1)] waiting between its posts, whatever
    booking answers, without the doubling wait overflowing. *)
Theorem delivery_bounds {R : Type} (c : Config) (dr : Draws) (post : prog (World R) (res GoErr Z)) (forced awake : list bool) (w : World R)
    (Hspan : 0 <= fc_DelayMin c <= fc_DelayMax c) (Hlate : 0 <= fc_LateExtra c) (Hfit : fc_DelayMax c + fc_LateExtra c <= int64_max)
    (Hdelay : 0 <= dr_delay dr <= fc_DelayMax c - fc_DelayMin c) (Hdup : forall n, dr_duplicates dr = Some n -> 0 <= n < 3)
    (Hpost : forall w, redis_now (run post w).2 = redis_now w)
    (Hmax : fc_RetryBase (New c) * 2 ^ fc_MaxResends (New c) < 2 ^ 63) :
  let r := run (sendWithRetry post (Z.to_nat (fc_MaxResends (New c))) (fc_RetryBase (New c)) forced awake) w in
  fc_DelayMin c <= delivery_delay c dr <= fc_DelayMax c + fc_LateExtra c /\
  1 <= delivery_copies dr <= 4 /\
  1 <= Z.of_nat r.1.1 <= fc_MaxResends (New c) + 1 /\
  0 <= redis_now r.2 - redis_now w /\
  1000000 * (redis_now r.2 - redis_now w) <= fc_RetryBase (New c) * (2 ^ fc_MaxResends (New c) - 1).
Proof.
  assert (0 < fc_RetryBase (New c)) as Hb by (cbn; destruct (Z.leb_spec (fc_RetryBase c) 0); [done|lia]).
  assert (0 < fc_MaxResends (New c)) as Hm by (cbn; destruct (Z.leb_spec (fc_MaxResends c) 0); lia).
  intros r. split; [|split].
  - pose proof (delay_bounds c dr). unfold int64_max in *. destruct (dr_late dr); lia.
  - unfold delivery_copies. destruct (dr_duplicates dr) as [n|]; [specialize (Hdup n eq_refl)|]; lia.
  - destruct (sends_bound post (Z.to_nat (fc_MaxResends (New c))) (fc_RetryBase (New c)) forced awake w Hpost Hb) as (H1 & H2 & H3);
      [by rewrite Z2Nat.id by lia|]. fold r in H1, H2, H3. rewrite Z2Nat.id in H3 by lia. lia.
Qed.
