(* ===== verification/Stream.v ===== *)
(** * The waiting room's API (cmd/waitingroom/api.go)

    Joining, and the stream of Server-Sent Events a buyer follows. Between two
    events the stream waits for the next tick while everybody else goes on, so
    what it tells is stated for its execution among others ([among]). *)

From S2P Require Import Prelude GoLib Float Effects History RedisServer RedisQueue CatalogEvent World Auth Frame Queue Worker Waiting Http.
Local Open Scope tr_scope.

(** ** The handlers *)

Definition pathEventID (s : string) : option Z :=
  match ParseInt s with Some id => if 0 <? id then Some id else None | None => None end.

Record joinResponse := mkJoinResponse { jr_QueueID : UUID; jr_Position : Z }.

(** The events of the stream, with the JSON value of their data. *)
Inductive StreamEvent :=
| PositionEvent (position : Z) (estimatedWaitSeconds : option Z)
| AdmittedEvent (admissionToken : string) (expiresIn : option Z)
| ExpiredEvent
| Comment.

Record waitapi (R : Type) := mkWaitApi {
  wa_tokens : Tokens;
  wa_events : Z -> prog (World R) (res GoErr Event);
  wa_batch : Z;
  wa_interval : Z;
  wa_clock : World R -> Z;
}.
Arguments wa_tokens {R}. Arguments wa_events {R}. Arguments wa_batch {R}. Arguments wa_interval {R}. Arguments wa_clock {R}.

Section api.
Context {R : Type} `{RedisQueue R} `{UuidLib} `{JwtLib} (a : waitapi R).
Implicit Types w : World R.

Definition handleJoin (userID : Z) (eventID : string) : prog (World R) (Reply joinResponse) :=
  match pathEventID eventID with
  | None => Ret (WriteErr ErrEventNotFound)
  | Some eventID =>
      let! ev := wa_events a eventID in
      match ev with
      | Err e => Ret (WriteErr e)
      | Ok _ =>
          let! e := Join eventID userID in
          match e with
          | Err e => Ret (WriteErr e)
          | Ok e => Ret (WriteJSON StatusOK (mkJoinResponse (en_QueueID e) (en_Position e)))
          end
      end
  end.

(** POST /v1/queue/{eventID}/join *)
Definition postJoin (authorization eventID : string) : prog (World R) (Reply joinResponse) :=
  let! now := act (fun w => (wa_clock a w, w)) in
  match RequireUser (wa_tokens a) now authorization with
  | Err e => Ret (WriteErr e)
  | Ok userID => handleJoin userID eventID
  end.

Definition estimatedWait (position : Z) : option Z :=
  let batches := math_Ceil (fdiv (float64_of position) (float64_of (wa_batch a))) in
  int64_of (fmul batches (Seconds (wa_interval a))).

(** The event for a status, and whether it ends the stream. *)
Definition send (st : QueueStatus) : bool * StreamEvent :=
  if negb (bool_decide (qs_Token st = EmptyString)) then (true, AdmittedEvent (qs_Token st) (int64_of (Seconds (qs_ExpiresIn st))))
  else if qs_Position st <? 0 then (false, Comment)
  else (false, PositionEvent (qs_Position st) (estimatedWait (qs_Position st))).

(** What happens at one turn of the stream: whether the event could be
    written, and whether the next tick came before the client or the server
    was done. *)
Record Turn := mkTurn { tn_written : bool; tn_tick : bool }.

(** The events written; the stream is still open when the turns are used up. *)
Fixpoint stream_loop (eventID : Z) (queueID : UUID) (st : QueueStatus) (turns : list Turn) : prog (World R) (list StreamEvent) :=
  match turns with
  | [] => Ret []
  | t :: turns =>
      let '(ended, ev) := send st in
      if negb (tn_written t) then Ret []
      else if ended then Ret [ev]
      else if negb (tn_tick t) then Ret [ev]
      else
        let! st := Status eventID queueID in
        match st with
        | Err ErrNotQueued => Ret [ev; ExpiredEvent]
        | Err _ =>
            let! rest := stream_loop eventID queueID (mkQueueStatus (-1) EmptyString 0) turns in
            Ret (ev :: rest)
        | Ok st =>
            let! rest := stream_loop eventID queueID st turns in
            Ret (ev :: rest)
        end
  end.

(** GET /v1/queue/{eventID}/stream *)
Definition handleStream (eventID queueID : string) (turns : list Turn) : prog (World R) (Reply unit + list StreamEvent) :=
  match pathEventID eventID, uuid_Parse queueID with
  | Some eventID, Some queueID =>
      let! st := Status eventID queueID in
      match st with
      | Err e => Ret (inl (WriteErr e))
      | Ok st => let! evs := stream_loop eventID queueID st turns in Ret (inr evs)
      end
  | _, _ => Ret (inl (WriteErr ErrNotQueued))
  end.
End api.

(** ** What a stream tells *)

Section told.
Context {R : Type} `{RedisQueue R} `{UuidLib} (a : waitapi R).
Context (e : Z) (q : UUID) (good : string -> Prop).
Implicit Types u v w : World R.

(** What everybody else may do meanwhile: time passes, others join behind,
    buyers leave, [good] tokens are stored for this entry; the entry's id is
    not issued again. *)
Record others w w' : Prop := {
  ot_clock : redis_now w <= redis_now w';
  ot_queue x : x ∈ waiters w' e -> x ∈ waiters w e \/ redis_now w <= x.1 /\ x.2 <> uuid_String q;
  ot_token t : token_of w' q = Some t -> token_of w q = Some t \/ good t;
}.

#[local] Instance others_preorder : PreOrder others.
Proof.
  split; [intros w; split; auto; lia|]. intros u v w [A1 A2 A3] [B1 B2 B3]. split; [lia|..].
  - intros x Hx. destruct (B2 x Hx) as [Hv|[Hle Hne]]; [by apply A2|right; split; [lia|done]].
  - intros t Ht. destruct (B3 t Ht) as [Hv|?]; [by apply A3|by right].
Qed.

Lemma rtc_others v w : rtc others v w -> others v w.
Proof. induction 1; [done|by etrans]. Qed.

Lemma read_others {A} (f : Z -> R -> A) w :
  let '(r, w') := redis_call (fun now r => (f now r, r)) w in
  others w w' /\ match r with Ok x => x = f (redis_now w) (rds w) | Err _ => True end.
Proof.
  pose proof (redis_call_cases (fun now r => (f now r, r)) w) as Hc. cbn in Hc.
  destruct (redis_call _ w) as [r w']. destruct Hc as [Hn Hr].
  assert (rds w' = rds w) as Hw by (destruct r; [apply Hr|destruct Hr as [_ [?|?]]; done]).
  split; [|by destruct r; [destruct Hr|]]. split; [lia|..]; unfold waiters, token_of; rewrite Hw, ?Hn; auto.
Qed.

Lemma read_among {A B} (f : Z -> R -> A) (k : res GoErr A -> prog (World R) B) w b w' :
  among others (pbind (act (redis_call (fun now r => (f now r, r)))) k) w b w' ->
  exists r v v', others w v /\ others v v' /\ among others (k r) v' b w' /\ match r with Ok x => x = f (redis_now v) (rds v) | Err _ => True end.
Proof.
  intros (v & Hv & Hk). pose proof (read_others f v) as Hr. destruct (redis_call _ v) as [r v']. destruct Hr as [Hx1 Hx2].
  exists r, v, v'. split; [by apply rtc_others|]. by split_and!.
Qed.

(** A status is the token or the rank of some moment. *)
Lemma Status_among w r w' :
  among others (Status e q) w r w' -> others w w' /\
  match r with
  | Ok st => exists v, others w v /\ others v w' /\
      (token_of v q = Some (qs_Token st) \/
       qs_Token st = EmptyString /\ exists n, zrank (uuid_String q) (waiters v e) = Some n /\ qs_Position st = n + 1)
  | Err _ => True
  end.
Proof.
  unfold Status. intros (token & v1 & w1 & A1 & B1 & Hk & Ht)%read_among.
  apply read_among in Hk as (ttl & v2 & w2 & A2 & B2 & Hk & _). apply read_among in Hk as (rank & v3 & w3 & A3 & B3 & Hk & Hr).
  assert (Hend : forall x, among others (Ret x) w3 r w' -> x = r /\ others w3 w').
  { intros x [-> Hx]. split; [done|by apply rtc_others]. }
  assert (others w v3) as Hv3 by (do 2 (etrans; [eassumption|]; etrans; [eassumption|]); done).
  assert (others v1 w3) as Hv1 by (etrans; [exact B1|]; etrans; [exact A2|]; etrans; [exact B2|]; by etrans).
  assert (others w w3) as Hw3 by (etrans; [exact Hv3|exact B3]).
  assert (Hok : among others (match token with
      | Ok (Some t) => Ret (Ok (mkQueueStatus 0 t (Z.max (match ttl with Ok ms => ms * 1000000 | Err _ => 0 end) 0)))
      | _ => match rank with Ok (Some n) => Ret (Ok (mkQueueStatus (n + 1) EmptyString 0)) | _ => Ret (Err ErrNotQueued) end
      end) w3 r w' -> others w w' /\
    match r with
    | Ok st => exists v, others w v /\ others v w' /\
        (token_of v q = Some (qs_Token st) \/
         qs_Token st = EmptyString /\ exists n, zrank (uuid_String q) (waiters v e) = Some n /\ qs_Position st = n + 1)
    | Err _ => True
    end).
  { intros Hrun. destruct token as [[t|]|err].
    - apply Hend in Hrun as [<- Hx]. split; [by etrans|]. exists v1. split; [done|]. split; [by etrans|]. left. symmetry. exact Ht.
    - destruct rank as [[n|]|err]; apply Hend in Hrun as [<- Hx]; (split; [by etrans|]); try done.
      exists v3. split; [done|]. split; [by etrans|]. right. split; [done|]. by exists n.
    - destruct rank as [[n|]|err']; apply Hend in Hrun as [<- Hx]; (split; [by etrans|]); try done.
      exists v3. split; [done|]. split; [by etrans|]. right. split; [done|]. by exists n. }
  destruct (first_err _) as [[err|]|]; [|by apply Hok..]. apply Hend in Hk as [<- Hx]. split; [by etrans|done].
Qed.

(** *** The loop *)

Definition positions (evs : list StreamEvent) : list Z :=
  omap (fun ev => match ev with PositionEvent p _ => Some p | _ => None end) evs.
Definition final (ev : StreamEvent) : bool :=
  match ev with AdmittedEvent _ _ | ExpiredEvent => true | _ => false end.

(** Every position was the buyer's at a moment after [u], none is behind an
    earlier one, only the last event is final, and its token is a good one. *)
Record honest u (evs : list StreamEvent) : Prop := {
  ho_sorted : StronglySorted Z.ge (positions evs);
  ho_true p : p ∈ positions evs -> exists v n, others u v /\ zrank (uuid_String q) (waiters v e) = Some n /\ p = n + 1;
  ho_final i ev : evs !! i = Some ev -> final ev = true -> S i = length evs;
  ho_token t x : AdmittedEvent t x ∈ evs -> good t;
}.

(** The status at a moment, or "unknown" (-1). *)
Definition status_at u (st : QueueStatus) : Prop :=
  qs_Token st <> EmptyString /\ good (qs_Token st) \/
  qs_Token st = EmptyString /\ (qs_Position st = -1 \/
    exists n, zrank (uuid_String q) (waiters u e) = Some n /\ qs_Position st = n + 1).

Lemma honest_nil u : honest u [].
Proof.
  split; [by constructor|..].
  - intros p Hin. by apply not_elem_of_nil in Hin.
  - intros i ev Hi. by rewrite lookup_nil in Hi.
  - intros t x Hin. by apply not_elem_of_nil in Hin.
Qed.

Section waits.
Context (w : World R) (s : Z).
Context (Hm : (s, uuid_String q) ∈ waiters w e) (Hs : s < redis_now w).
Context (Hgood : forall t, good t -> t <> EmptyString) (Htok : forall t, token_of w q = Some t -> good t).

Lemma zrank_nonneg m l n : zrank m l = Some n -> 0 <= n /\ m ∈ l.*2.
Proof.
  unfold zrank. intros (x & Hx & ->)%fmap_Some. destruct x as [i y]. apply list_find_Some in Hx as (Hi & <- & _).
  split; [simpl; lia|]. apply list_elem_of_fmap_2. by eapply list_elem_of_lookup_2.
Qed.

(** The entry stays the one that joined. *)
Lemma same_entry v s' : others w v -> (s', uuid_String q) ∈ waiters v e -> s' = s.
Proof.
  intros Hv Hx. destruct (ot_queue _ _ Hv _ Hx) as [Hw|[_ Hne]]; [|done].
  pose proof (ZSET_NoDup (rds w) (queueKey e)) as Hd. apply list_elem_of_lookup in Hw as [i Hi], Hm as [j Hj].
  assert (i = j) as ->; [|congruence].
  eapply NoDup_lookup; [exact Hd|rewrite list_lookup_fmap; unfold waiters in Hi; by rewrite Hi|rewrite list_lookup_fmap; unfold waiters in Hj; by rewrite Hj].
Qed.

Lemma rank_falls u v n n' :
  others w u -> others u v -> zrank (uuid_String q) (waiters u e) = Some n -> zrank (uuid_String q) (waiters v e) = Some n' -> n' <= n.
Proof.
  intros Hu Hv Hn Hn'.
  assert (Hent : forall x k, others w x -> zrank (uuid_String q) (waiters x e) = Some k -> (s, uuid_String q) ∈ waiters x e).
  { intros x k Hx Hk. apply zrank_nonneg in Hk as [_ Hin]. apply list_elem_of_fmap in Hin as ([s' m] & Heq & Hin). cbn in Heq. subst m.
    by rewrite (same_entry x s' Hx Hin) in Hin. }
  destruct (fewer_ahead u v e s (uuid_String q)) as (_ & k & k' & Hk & Hk' & Hle).
  - by eapply Hent.
  - eapply Hent; [by etrans|done].
  - intros x Hx Hle. destruct (ot_queue _ _ Hv x Hx) as [?|[Hnow _]]; [done|]. pose proof (ot_clock _ _ Hu). apply zle_spec in Hle. simpl in Hle. lia.
  - congruence.
Qed.

Lemma honest_cons u v ev evs :
  others w u -> others u v -> final ev = false -> honest v evs ->
  (forall p x, ev = PositionEvent p x -> exists n, zrank (uuid_String q) (waiters u e) = Some n /\ p = n + 1) ->
  honest u (ev :: evs).
Proof.
  intros Hu Hv Hf [H1' H2' H3' H4'] Hp.
  assert (Htrue : forall p, p ∈ positions evs -> exists x n, others u x /\ zrank (uuid_String q) (waiters x e) = Some n /\ p = n + 1).
  { intros p Hin. destruct (H2' p Hin) as (x & n & Hx & Hn). exists x, n. split; [by etrans|done]. }
  split.
  - destruct ev as [p x|t x| |]; cbn [positions omap list_omap] in *; try done. constructor; [done|].
    apply Forall_forall. intros p' Hin. destruct (Htrue p' Hin) as (v' & n' & Hv' & Hn' & ->).
    destruct (Hp p x eq_refl) as (n & Hn & ->). pose proof (rank_falls u v' n n' Hu Hv' Hn Hn'). lia.
  - intros p Hin. destruct ev as [p0 x|t x| |]; cbn [positions omap list_omap] in Hin; try by apply Htrue.
    apply elem_of_cons in Hin as [->|Hin]; [|by apply Htrue]. destruct (Hp p0 x eq_refl) as (n & Hn & ->). by exists u, n.
  - intros [|i] ev' Hi Hfin; cbn in Hi; [congruence|]. cbn. by rewrite (H3' i ev' Hi Hfin).
  - intros t x Hin. apply elem_of_cons in Hin as [<-|Hin]; [done|by eapply H4'].
Qed.

Lemma token_good v t : others w v -> token_of v q = Some t -> good t.
Proof. intros Hv Ht. destruct (ot_token _ _ Hv t Ht); [by apply Htok|done]. Qed.

(** The event of a status says what the status says. *)
Definition says u (ended : bool) (ev : StreamEvent) : Prop :=
  final ev = ended /\ (forall t x, ev = AdmittedEvent t x -> good t) /\
  (forall p x, ev = PositionEvent p x -> exists n, zrank (uuid_String q) (waiters u e) = Some n /\ p = n + 1).

Lemma send_says u st : status_at u st -> let '(ended, ev) := send a st in says u ended ev.
Proof.
  unfold send, says. intros [[Hne Hg]|[-> Hst]].
  - rewrite bool_decide_eq_false_2 by done. cbn [negb]. split_and!; [done| |done]. by intros ?? [= <- _].
  - rewrite bool_decide_eq_true_2 by done. cbn [negb]. destruct Hst as [->|(n & Hn & Hp)]; [done|].
    destruct (zrank_nonneg _ _ _ Hn) as [Hn0 _]. destruct (Z.ltb_spec (qs_Position st) 0); [lia|].
    split_and!; [done..|]. intros p x [= <- _]. eauto.
Qed.

Lemma honest_one u ended ev : says u ended ev -> honest u [ev].
Proof.
  intros (_ & Htk & Hpos). split.
  - destruct ev; cbn; repeat constructor.
  - intros p Hin. destruct ev as [p0 x|tok x| |]; cbn in Hin; try by apply not_elem_of_nil in Hin.
    apply list_elem_of_singleton in Hin as ->. destruct (Hpos p0 x eq_refl) as (n & Hn & ->). by exists u, n.
  - intros [|i] ev' Hi _; [done|]. by destruct i.
  - intros tok x Hin. apply list_elem_of_singleton in Hin as <-. by eapply Htk.
Qed.

Lemma stream_honest turns st u v evs v' :
  others w u -> others u v -> status_at u st -> among others (stream_loop a e q st turns) v evs v' -> honest u evs.
Proof.
  revert st u v evs v'. induction turns as [|t turns IH]; intros st u v evs v' Hu Hv Hst Hrun; cbn [stream_loop] in Hrun.
  { destruct Hrun as [-> _]. apply honest_nil. }
  pose proof (send_says u st Hst) as Hev. destruct (send a st) as [ended ev].
  pose proof (honest_one u ended ev Hev) as Hlast. destruct Hev as (Hfin & _ & Hpos).
  destruct (negb (tn_written t)); [destruct Hrun as [-> _]; apply honest_nil|].
  destruct ended; [by destruct Hrun as [-> _]|]. destruct (negb (tn_tick t)); [by destruct Hrun as [-> _]|].
  apply among_bind in Hrun as (r & v1 & Hr & Hrun). apply Status_among in Hr as [Hv1 Hr].
  assert (others u v1) as Huv1 by by etrans. assert (others w v1) as Hwv1 by by etrans.
  destruct r as [st1|err].
  - apply among_bind in Hrun as (rest & v2 & Hl & [-> _]). destruct Hr as (x & Hx & Hx1 & Hst1).
    assert (others u x) as Hux by by trans v. apply (honest_cons u x); [done..| |done].
    eapply (IH st1 x v1); [by trans u|done| |exact Hl]. destruct Hst1 as [Ht|(He & n & Hn & Hp)].
    + left. assert (good (qs_Token st1)) as Hg by (eapply (token_good x); [by trans u|done]). split; [by apply Hgood|done].
    + right. split; [done|]. right. by exists n.
  - assert (Hcont : among others (let! rest := stream_loop a e q (mkQueueStatus (-1) EmptyString 0) turns in Ret (ev :: rest)) v1 evs v' -> honest u evs).
    { intros (rest & v2 & Hl & [-> _])%among_bind. apply (honest_cons u v1); [done..| |done].
      eapply (IH _ v1 v1); [done|done| |exact Hl]. right. split; [done|by left]. }
    destruct (decide (err = ErrNotQueued)) as [->|Hne]; [|apply Hcont; destruct err; first [exact Hrun|by destruct Hne]].
    destruct Hrun as [-> _]. apply (honest_cons u v1); [done..| |done]. by apply (honest_one v1 true).
Qed.
End waits.

(** C37. A buyer who has joined the queue and opens the stream is told the
    truth, whatever else happens between two events: every position was the
    buyer's rank at some moment of the stream, positions never grow, nothing
    follows an [admitted] or an [expired] event, and an [admitted] event
    carries a token the admission worker stored for this very entry. *)
Theorem stream_tells w s eventID queueID turns v evs :
  pathEventID eventID = Some e -> uuid_Parse queueID = Some q ->
  (s, uuid_String q) ∈ waiters w e -> s < redis_now w ->
  (forall t, good t -> t <> EmptyString) -> (forall t, token_of w q = Some t -> good t) ->
  among others (handleStream a eventID queueID turns) w (inr evs) v -> honest w evs.
Proof.
  intros He Hq Hm Hs Hgood Htok Hrun. unfold handleStream in Hrun. rewrite He, Hq in Hrun.
  apply among_bind in Hrun as (r & v1 & Hr & Hrun). apply Status_among in Hr as [Hv1 Hr].
  destruct r as [st|err]; [|by destruct Hrun as [? _]]. apply among_bind in Hrun as (evs' & v2 & Hl & [[= <-] _]).
  destruct Hr as (x & Hx & Hx1 & Hst).
  assert (honest x evs) as Hh.
  { eapply (stream_honest w s Hm Hs Hgood Htok turns st x v1); [done|done| |exact Hl]. destruct Hst as [Ht|(Hst & n & Hn & Hp)].
    - left. assert (good (qs_Token st)) as Hg by (eapply (token_good w Htok x); [done|done]). split; [by apply Hgood|done].
    - right. split; [done|]. right. by exists n. }
  destruct Hh as [A1 A2 A3 A4]. split; [done| |done..].
  intros p Hp. destruct (A2 p Hp) as (y & n & Hy & Hn). exists y, n. split; [by etrans|done].
Qed.
End told.
