(* ===== verification/Seed.v ===== *)
(** * Seeding an event (internal/catalog/seed.go)

    The seats of a layout, and the transaction that stores an event with its
    seats. What it stores is what the catalog service later loads. *)

From Stdlib Require Import Decimal DecimalString DecimalPos.
From S2P Require Import Prelude GoLib Effects CatalogEvent World Frame Inventory Catalog.
Local Open Scope tr_scope.

(** ** The layout *)

Record ZoneLayout := mkLayout { zl_Zone : string; zl_Rows : Z; zl_SeatsPerRow : Z; zl_PriceVND : Z }.

(** Durations are nanoseconds. *)
Record EventSpec := mkSpec {
  sp_Name : string; sp_Venue : string; sp_StartsIn : Z; sp_SaleOpensIn : Z; sp_MaxSeatsPerOrder : Z; sp_Zones : list ZoneLayout;
}.

Definition DemoEvent : EventSpec :=
  mkSpec "TicketRush Live 2026" "Sân vận động Mỹ Đình" (30 * 24 * 3600 * Second) 0 4
    [mkLayout "VIP" 10 50 3500000; mkLayout "CAT1" 15 100 2000000; mkLayout "CAT2" 20 150 1000000].

(** The letter of a digit: 'A' + d. *)
Definition letter (d : Z) : ascii := ascii_of_N (Z.to_N (65 + d)).

(** The loop of rowLabel, from the value of [i] at its head. *)
Fixpoint label_loop (fuel : nat) (i : Z) (label : string) : string :=
  match fuel with
  | O => label
  | S fuel => if 0 <? i then label_loop fuel ((i - 1) / 26) (String (letter ((i - 1) mod 26)) label) else label
  end.
(** [i + 1] rounds are enough: each divides [i]. *)
Definition rowLabel (i : Z) : string := label_loop (Z.to_nat (i + 1)) (i + 1) EmptyString.

Definition seatID (zone row : string) (n : Z) : string := zone +:+ "-" +:+ row +:+ "-" +:+ FormatInt n.

Definition row_seats (z : ZoneLayout) (r : Z) : list Seat :=
  let row := rowLabel r in
  (fun n => mkSeat (seatID (zl_Zone z) row n) (zl_Zone z) row n (zl_PriceVND z)) <$> seqZ 1 (zl_SeatsPerRow z).
Definition zone_seats (z : ZoneLayout) : list Seat := seqZ 0 (zl_Rows z) ≫= row_seats z.
Definition Seats (s : EventSpec) : list Seat := sp_Zones s ≫= zone_seats.

(** ** Queries *)

(** The sequence of events.id is not undone by a rollback: [nextval] is a
    value it never returned before. *)
Definition CreateEvent (nextval : Z) (arg : EventSpec) (now : Z) (d : PG) : res GoErr (Z * PG) :=
  if bool_decide (is_Some (db_events d !! nextval)) then Err (EPg (UniqueViolation "events_pkey"))
  else
    let row := mkEventRow (sp_Name arg) (sp_Venue arg) (now + Microseconds (sp_StartsIn arg)) (now + Microseconds (sp_SaleOpensIn arg))
      (sp_MaxSeatsPerOrder arg) in
    Ok (nextval, mkPG (orders d) (order_seats d) (tickets d) (payments d) (refunds d) (outbox d) (<[nextval := row]> (db_events d)) (db_seats d)
      (db_users d)).

Record InsertSeatsParams := mkInsertSeats { is_EventID : Z; is_SeatID : string; is_Row : SeatRow }.

(** One row of COPY seats. *)
Definition copy_seat (d : PG) (p : InsertSeatsParams) : res GoErr PG :=
  if s_PriceVnd (is_Row p) <=? 0 then Err (EPg (CheckViolation "seats_price_vnd_check"))
  else if bool_decide (is_Some (db_seats d !! (is_EventID p, is_SeatID p))) then Err (EPg (UniqueViolation "seats_pkey"))
  else if negb (bool_decide (is_Some (db_events d !! is_EventID p))) then Err (EPg (ForeignKeyViolation "seats_event_id_fkey"))
  else Ok (mkPG (orders d) (order_seats d) (tickets d) (payments d) (refunds d) (outbox d) (db_events d)
    (<[(is_EventID p, is_SeatID p) := is_Row p]> (db_seats d)) (db_users d)).

Fixpoint copy_seats (l : list InsertSeatsParams) (d : PG) : res GoErr PG :=
  match l with
  | [] => Ok d
  | p :: l => match copy_seat d p with Ok d => copy_seats l d | Err e => Err e end
  end.

(** The rows as pgx.CopyFrom reads them. *)
Record iteratorForInsertSeats := mkIterator { it_rows : list InsertSeatsParams; it_skippedFirst : bool }.

Definition Next (r : iteratorForInsertSeats) : bool * iteratorForInsertSeats :=
  match it_rows r with
  | [] => (false, r)
  | _ :: rest =>
      if negb (it_skippedFirst r) then (true, mkIterator (it_rows r) true)
      else (negb (bool_decide (rest = [])), mkIterator rest true)
  end.
(** [r.rows[0]]; out of range there is none. *)
Definition Values (r : iteratorForInsertSeats) : option InsertSeatsParams := head (it_rows r).

Fixpoint drain (fuel : nat) (r : iteratorForInsertSeats) : list InsertSeatsParams :=
  match fuel with
  | O => []
  | S fuel =>
      let '(more, r) := Next r in
      if more then match Values r with Some row => row :: drain fuel r | None => [] end else []
  end.

(** [S (length arg)] calls of Next read every row: [drain_all]. *)
Definition InsertSeats (arg : list InsertSeatsParams) (now : Z) (d : PG) : res GoErr (nat * PG) :=
  let rows := drain (S (length arg)) (mkIterator arg false) in
  match copy_seats rows d with Ok d => Ok (length rows, d) | Err e => Err e end.

(** ** Seed *)

Definition seat_params (eventID : Z) (st : Seat) : InsertSeatsParams :=
  mkInsertSeats eventID (Seat_ID st) (mkSeatRow (Seat_Zone st) (Seat_Row st) (wrap32 (Seat_No st)) (Seat_PriceVND st)).

Section seed.
Context {R : Type}.
Implicit Types w : World R.

Definition Seed_tx (nextval : Z) (spec : EventSpec) : M R Z :=
  mbind (stmt (CreateEvent nextval spec)) (fun eventID =>
  let seats := Seats spec in
  mbind (stmt (InsertSeats (seat_params eventID <$> seats))) (fun n =>
  if negb (Nat.eqb n (length seats)) then mfail (EOther "insert seats: rows missing") else mret eventID)).

Definition Seed (nextval : Z) (spec : EventSpec) : M R Z := BeginFunc (Seed_tx nextval spec).

(** cmd/seed/main.go: the command line changes four fields of the demo event.
    The flag package is not modelled, nor are the pool and the log. *)
Definition seed_run (name venue : string) (saleOpensIn startsIn : Z) (DATABASE_URL : option string) (nextval : Z) : M R Z :=
  let spec := mkSpec name venue startsIn saleOpensIn (sp_MaxSeatsPerOrder DemoEvent) (sp_Zones DemoEvent) in
  if (sp_SaleOpensIn spec <? 0) || (sp_StartsIn spec <=? sp_SaleOpensIn spec)
  then mfail (EOther "need 0 <= -sale-opens-in < -starts-in")
  else match DATABASE_URL with
       | None | Some EmptyString => mfail (EOther "DATABASE_URL is required")
       | Some _ => Seed nextval spec
       end.
End seed.

Example demo_size : length (Seats DemoEvent) = 5000%nat.
Proof. vm_compute. reflexivity. Qed.
Example demo_ends : (Seat_ID <$> Seats DemoEvent !! 0%nat, Seat_ID <$> Seats DemoEvent !! 4999%nat) = (Some "VIP-A-1", Some "CAT2-T-150").
Proof. vm_compute. reflexivity. Qed.
Example labels : rowLabel <$> [0; 25; 26; 51; 52; 701; 702] = ["A"; "Z"; "AA"; "AZ"; "BA"; "ZZ"; "AAA"].
Proof. vm_compute. reflexivity. Qed.

(** ** Row labels

    The labels are the numerals of bijective base 26: shorter ones come
    first, labels of one length in byte order. *)

Lemma label_loop_acc f i acc : label_loop f i acc = label_loop f i EmptyString +:+ acc.
Proof.
  revert i acc. induction f as [|f IH]; intros i acc; cbn [label_loop]; [done|]. destruct (0 <? i); [|done].
  rewrite IH, (IH _ (String _ EmptyString)), string_app_assoc. done.
Qed.

Lemma label_loop_fuel f g i acc : (Z.to_nat i <= f)%nat -> (Z.to_nat i <= g)%nat -> label_loop f i acc = label_loop g i acc.
Proof.
  revert g i acc. induction f as [|f IH]; intros [|g] i acc Hf Hg; cbn [label_loop]; [done|..].
  - destruct (Z.ltb_spec 0 i); [lia|done].
  - destruct (Z.ltb_spec 0 i); [lia|done].
  - destruct (Z.ltb_spec 0 i); [|done]. apply IH; pose proof (Z.div_le_upper_bound (i - 1) 26 (i - 1)); lia.
Qed.

Definition label (i : Z) : string := label_loop (Z.to_nat i) i EmptyString.

Lemma label_step i : 0 < i -> label i = label ((i - 1) / 26) +:+ String (letter ((i - 1) mod 26)) EmptyString.
Proof.
  intros Hi. unfold label. destruct (Z.to_nat i) as [|f] eqn:Hf; [lia|]. cbn [label_loop].
  destruct (Z.ltb_spec 0 i); [|lia]. rewrite label_loop_acc. f_equal. apply label_loop_fuel; [|done].
  pose proof (Z.div_le_upper_bound (i - 1) 26 (i - 1)). lia.
Qed.

Definition upper (c : ascii) : bool := (65 <=? Z.of_N (N_of_ascii c)) && (Z.of_N (N_of_ascii c) <=? 90).

Lemma letter_code d : 0 <= d < 26 -> Z.of_N (N_of_ascii (letter d)) = 65 + d.
Proof. intros Hd. unfold letter. rewrite N_ascii_embedding; lia. Qed.

Lemma all_chars_app P s t : all_chars P (s +:+ t) = all_chars P s && all_chars P t.
Proof. induction s as [|c s IH]; [done|]. cbn [all_chars String.append]. rewrite <- andb_assoc, <- IH. done. Qed.

Lemma label_upper i : all_chars upper (label i) = true.
Proof.
  destruct (Z.lt_ge_cases i 0) as [Hi|Hi].
  { unfold label. by rewrite (Z2Nat.nonpos i) by lia. }
  revert i Hi. apply (Zlt_0_ind (fun i => all_chars upper (label i) = true)). intros i IH Hi.
  destruct (decide (i = 0)) as [->|Hne]; [done|]. rewrite label_step by lia. rewrite all_chars_app, IH.
  - cbn [all_chars andb]. rewrite andb_true_r. pose proof (Z.mod_pos_bound (i - 1) 26 ltac:(lia)) as Hm.
    unfold upper. rewrite letter_code by done. lia.
  - split; [apply Z.div_pos; lia|]. pose proof (Z.div_lt_upper_bound (i - 1) 26 i). lia.
Qed.

Definition label_lt (s t : string) : Prop :=
  (String.length s < String.length t)%nat \/ String.length s = String.length t /\ String.compare s t = Lt.

Lemma length_app1 s c : String.length (s +:+ String c EmptyString) = S (String.length s).
Proof. induction s as [|d s IH]; [done|]. exact (f_equal S IH). Qed.

Lemma compare_app s t u v :
  String.length s = String.length t ->
  String.compare (s +:+ u) (t +:+ v) = match String.compare s t with Eq => String.compare u v | c => c end.
Proof.
  revert t. induction s as [|c s IH]; intros [|d t] Hl; try done. injection Hl as Hl. specialize (IH t Hl).
  change (String.compare (String c (s +:+ u)) (String d (t +:+ v)) = match String.compare (String c s) (String d t) with Eq => String.compare u v | x => x end).
  unfold String.compare in *. destruct (Ascii.compare c d); [exact IH|done..].
Qed.

Lemma compare_refl s : String.compare s s = Eq.
Proof. pose proof (String.compare_antisym s s). by destruct (String.compare s s). Qed.

Lemma label_mono i j : 0 <= i < j -> label_lt (label i) (label j).
Proof.
  intros [Hi Hj]. revert i Hi j Hj. apply (Zlt_0_ind (fun i => forall j, i < j -> label_lt (label i) (label j))). intros i IH Hi j Hj.
  rewrite (label_step j) by lia. destruct (decide (i = 0)) as [->|Hne]; [left; rewrite length_app1; apply Nat.lt_0_succ|].
  rewrite (label_step i) by lia. unfold label_lt. rewrite !length_app1.
  pose proof (Z.div_le_mono (i - 1) (j - 1) 26 ltac:(lia) ltac:(lia)) as Hd.
  pose proof (Z.div_pos (i - 1) 26 ltac:(lia) ltac:(lia)). pose proof (Z.div_lt_upper_bound (i - 1) 26 i ltac:(lia) ltac:(lia)) as Hlt.
  destruct (decide ((i - 1) / 26 = (j - 1) / 26)) as [He|He].
  - right. rewrite He. split; [done|]. rewrite compare_app by done.
    rewrite compare_refl.
    pose proof (Z.mod_pos_bound (i - 1) 26 ltac:(lia)). pose proof (Z.mod_pos_bound (j - 1) 26 ltac:(lia)).
    cbn. unfold Ascii.compare. assert (((N_of_ascii (letter ((i - 1) mod 26)) ?= N_of_ascii (letter ((j - 1) mod 26))) = Lt)%N) as ->; [|done].
    apply N.compare_lt_iff. apply N2Z.inj_lt. rewrite !letter_code by done.
    pose proof (Z.div_mod (i - 1) 26 ltac:(lia)). pose proof (Z.div_mod (j - 1) 26 ltac:(lia)). lia.
  - destruct (IH ((i - 1) / 26) ltac:(lia) ((j - 1) / 26) ltac:(lia)) as [Hl|[Hl Hc]]; [left; lia|right].
    split; [lia|]. rewrite compare_app by done. by rewrite Hc.
Qed.

Lemma rowLabel_label i : rowLabel i = label (i + 1).
Proof. done. Qed.

Lemma label_lt_irrefl s : ~ label_lt s s.
Proof. intros [H|[_ H]]; [lia|]. by rewrite compare_refl in H. Qed.

Lemma rowLabel_inj i j : 0 <= i -> 0 <= j -> rowLabel i = rowLabel j -> i = j.
Proof.
  intros Hi Hj He. rewrite !rowLabel_label in He. destruct (Z.lt_trichotomy i j) as [Hl|[Hl|Hl]]; [|done|].
  - pose proof (label_mono (i + 1) (j + 1) ltac:(lia)) as Hm. rewrite He in Hm. by apply label_lt_irrefl in Hm.
  - pose proof (label_mono (j + 1) (i + 1) ltac:(lia)) as Hm. rewrite He in Hm. by apply label_lt_irrefl in Hm.
Qed.

(** ** Seat ids *)

Definition digit (c : ascii) : bool := match uint_of_char c (Some Nil) with Some _ => true | None => false end.

Lemma FormatInt_digits n : 0 <= n -> all_chars digit (FormatInt n) = true.
Proof.
  intros Hn. assert (Hu : forall d, all_chars digit (NilEmpty.string_of_uint d) = true) by (induction d; cbn; [done|by rewrite IHd..]).
  destruct n as [|p|p]; [done| |lia]. change (FormatInt (Zpos p)) with (NilZero.string_of_uint (Pos.to_uint p)).
  destruct (Pos.to_uint p) eqn:Hp; [by apply DecimalPos.Unsigned.to_uint_nonnil in Hp|exact (Hu _)..].
Qed.

(** A separator followed by [P] characters only: decodable from the right. *)
Lemma sep_unique_r (P : ascii -> bool) c (s1 s2 t1 t2 : string) :
  P c = false -> all_chars P t1 = true -> all_chars P t2 = true ->
  s1 +:+ String c t1 = s2 +:+ String c t2 -> s1 = s2 /\ t1 = t2.
Proof.
  intros Hc Ht1 Ht2. revert s2. induction s1 as [|a s1 IH]; intros [|b s2] He.
  - by injection He.
  - injection He as <- ->. by rewrite all_chars_app in Ht1; cbn [all_chars] in Ht1; rewrite Hc, andb_false_r in Ht1.
  - injection He as -> <-. by rewrite all_chars_app in Ht2; cbn [all_chars] in Ht2; rewrite Hc, andb_false_r in Ht2.
  - injection He as -> He. destruct (IH s2 He) as [-> ->]. done.
Qed.

Lemma seatID_assoc zone row n : seatID zone row n = (zone +:+ String "-" row) +:+ String "-" (FormatInt n).
Proof. unfold seatID. rewrite string_app_assoc. done. Qed.

(** The zone may have any name: ids are read from the right. *)
Lemma seatID_inj zone zone' r r' n n' :
  0 <= r -> 0 <= r' -> 0 <= n -> 0 <= n' ->
  seatID zone (rowLabel r) n = seatID zone' (rowLabel r') n' -> zone = zone' /\ r = r' /\ n = n'.
Proof.
  intros Hr Hr' Hn Hn' He. rewrite !seatID_assoc in He.
  apply (sep_unique_r digit) in He as [He Hf]; [|done|by apply FormatInt_digits..].
  apply (sep_unique_r upper) in He as [-> Hl]; [|done|apply label_upper..].
  apply rowLabel_inj in Hl as ->; [|done..]. by apply (inj FormatInt) in Hf as ->.
Qed.

(** ** The generated list *)

Lemma bind_sorted {A B} (S : relation A) (R : relation B) (f : A -> list B) l :
  StronglySorted S l -> (forall x, x ∈ l -> StronglySorted R (f x)) ->
  (forall x y a b, x ∈ l -> y ∈ l -> S x y -> a ∈ f x -> b ∈ f y -> R a b) -> StronglySorted R (l ≫= f).
Proof.
  induction 1 as [|x l Hl IH Hx]; intros Hf HR; [constructor|]. cbn [mbind list_bind]. apply StronglySorted_app. split_and!.
  - intros a b Ha Hb. apply list_elem_of_bind in Hb as (y & Hb & Hy). apply (HR x y); [by left|by right| |done..].
    rewrite Forall_forall in Hx. by apply Hx.
  - apply Hf. by left.
  - apply IH; [intros y Hy; apply Hf; by right|]. intros y z a b Hy Hz. apply HR; by right.
Qed.

Lemma fmap_sorted {A B} (S : relation A) (R : relation B) (f : A -> B) l :
  StronglySorted S l -> (forall x y, x ∈ l -> y ∈ l -> S x y -> R (f x) (f y)) -> StronglySorted R (f <$> l).
Proof.
  induction 1 as [|x l Hl IH Hx]; intros HR; [constructor|]. rewrite Forall_forall in Hx. cbn [fmap list_fmap]. constructor.
  - apply IH. intros y z Hy Hz. apply HR; by right.
  - apply Forall_forall. intros b (y & -> & Hy)%list_elem_of_fmap. apply HR; [by left|by right|by apply Hx].
Qed.

Lemma seqZ_sorted m n : StronglySorted Z.lt (seqZ m n).
Proof.
  destruct (Z.le_gt_cases n 0) as [Hn|Hn]; [rewrite seqZ_nil by lia; constructor|]. apply Z.lt_le_incl in Hn.
  revert n Hn m. apply (natlike_ind (fun n => forall m, StronglySorted Z.lt (seqZ m n))).
  - intros m. constructor.
  - intros n Hn IH m. rewrite seqZ_cons by lia. constructor; [rewrite Z.pred_succ; apply IH|].
    apply Forall_forall. intros x. rewrite elem_of_seqZ. lia.
Qed.

(** Every generated seat is one of a zone, a row and a number. *)
Lemma elem_of_Seats spec st :
  st ∈ Seats spec <-> exists z r n, z ∈ sp_Zones spec /\ 0 <= r < zl_Rows z /\ 1 <= n <= zl_SeatsPerRow z /\
    st = mkSeat (seatID (zl_Zone z) (rowLabel r) n) (zl_Zone z) (rowLabel r) n (zl_PriceVND z).
Proof.
  unfold Seats, zone_seats, row_seats. rewrite list_elem_of_bind. split.
  - intros (z & (r & (n & -> & Hn)%list_elem_of_fmap & Hr)%list_elem_of_bind & Hz). rewrite elem_of_seqZ in Hn, Hr.
    exists z, r, n. split_and!; [done|lia..|done].
  - intros (z & r & n & Hz & Hr & Hn & ->). exists z. split; [|done]. apply list_elem_of_bind. exists r.
    rewrite list_elem_of_fmap, elem_of_seqZ. split; [|lia]. exists n. rewrite elem_of_seqZ. split; [done|lia].
Qed.

Lemma seats_sorted (R : relation Seat) (S : relation ZoneLayout) (spec : EventSpec) :
  StronglySorted S (sp_Zones spec) ->
  (forall z r n r' n' a b, z ∈ sp_Zones spec -> r < r' \/ r = r' /\ n < n' -> 0 <= r -> 0 <= r' -> 1 <= n -> 1 <= n' ->
     n <= zl_SeatsPerRow z -> n' <= zl_SeatsPerRow z ->
     a = mkSeat (seatID (zl_Zone z) (rowLabel r) n) (zl_Zone z) (rowLabel r) n (zl_PriceVND z) ->
     b = mkSeat (seatID (zl_Zone z) (rowLabel r') n') (zl_Zone z) (rowLabel r') n' (zl_PriceVND z) -> R a b) ->
  (forall z z' a b, z ∈ sp_Zones spec -> z' ∈ sp_Zones spec -> S z z' -> a ∈ zone_seats z -> b ∈ zone_seats z' -> R a b) ->
  StronglySorted R (Seats spec).
Proof.
  intros Hs Hin Hcross. apply (bind_sorted S); [done| |exact Hcross].
  intros z Hz. apply (bind_sorted Z.lt); [apply seqZ_sorted| |].
  - intros r [Hr _]%elem_of_seqZ. apply (fmap_sorted Z.lt); [apply seqZ_sorted|].
    intros n n' Hn Hn' Hlt. rewrite elem_of_seqZ in Hn, Hn'. eapply (Hin z r n r n'); try done; try lia; by right.
  - intros r r' a b Hr Hr' Hlt (n & -> & Hn)%list_elem_of_fmap (n' & -> & Hn')%list_elem_of_fmap. rewrite elem_of_seqZ in Hr, Hr', Hn, Hn'.
    eapply (Hin z r n r' n'); try done; try lia; by left.
Qed.

(** ** Display order *)

(** One column of an ORDER BY. *)
Definition level {A K} `{EqDecision K} (f : A -> K) (leb : K -> K -> bool) (rest : A -> A -> bool) (a b : A) : bool :=
  if negb (bool_decide (f a = f b)) then leb (f a) (f b) else rest a b.

Section level.
Context {A K : Type} `{EqDecision K} (f : A -> K) (leb : K -> K -> bool) (rest : A -> A -> bool).
Context (Htot : forall x y, x <> y -> leb x y = true \/ leb y x = true).
Context (Htrans : forall x y z, leb x y = true -> leb y z = true -> leb x z = true).
Context (Hanti : forall x y, leb x y = true -> leb y x = true -> x = y).

Lemma level_true a b : level f leb rest a b = true <-> f a <> f b /\ leb (f a) (f b) = true \/ f a = f b /\ rest a b = true.
Proof. unfold level. case_bool_decide; cbn [negb]; naive_solver. Qed.

Lemma level_total : (forall a b, rest a b = true \/ rest b a = true) -> forall a b, level f leb rest a b = true \/ level f leb rest b a = true.
Proof.
  intros Hr a b. rewrite !level_true. destruct (decide (f a = f b)) as [He|Hne].
  - destruct (Hr a b); [left|right]; by right.
  - destruct (Htot _ _ Hne); [left|right]; left; by split; [congruence|].
Qed.

Lemma level_trans :
  (forall a b c, rest a b = true -> rest b c = true -> rest a c = true) ->
  forall a b c, level f leb rest a b = true -> level f leb rest b c = true -> level f leb rest a c = true.
Proof.
  intros Hr a b c. rewrite !level_true. intros [[Hab Lab]|[Hab Lab]] [[Hbc Lbc]|[Hbc Lbc]].
  - left. split; [|by eapply Htrans]. intros He. rewrite <- He in Lbc. by apply Hab, Hanti.
  - left. by rewrite <- Hbc.
  - left. by rewrite Hab.
  - right. split; [congruence|by eapply Hr].
Qed.

Lemma level_anti a b : level f leb rest a b = true -> level f leb rest b a = true -> f a = f b /\ rest a b = true /\ rest b a = true.
Proof. rewrite !level_true. intros [[Hab Lab]|[Hab Lab]] [[Hbc Lbc]|[Hbc Lbc]]; by try (exfalso; apply Hab; eauto); try congruence. Qed.
End level.

Definition display_levels : string * SeatRow -> string * SeatRow -> bool :=
  level (fun a => s_PriceVnd a.2) (fun x y => y <? x)
    (level (fun a => s_Zone a.2) String.leb
      (level (fun a => String.length (s_RowLabel a.2)) Nat.leb
        (level (fun a => s_RowLabel a.2) String.leb (fun a b => s_SeatNo a.2 <=? s_SeatNo b.2)))).

Lemma display_leb_levels a b : display_leb a b = display_levels a b.
Proof. done. Qed.

Lemma string_leb_total x y : x <> y -> String.leb x y = true \/ String.leb y x = true.
Proof. intros _. apply String.leb_total. Qed.
Lemma string_leb_trans x y z : String.leb x y = true -> String.leb y z = true -> String.leb x z = true.
Proof. rewrite <- !Is_true_true. apply (transitivity (R := String.le)). Qed.
Lemma string_leb_anti x y : String.leb x y = true -> String.leb y x = true -> x = y.
Proof. apply String.leb_antisym. Qed.

#[global] Instance display_le_total : Total display_le.
Proof.
  intros a b. unfold display_le. rewrite !display_leb_levels. revert a b.
  repeat (apply level_total; [first [apply string_leb_total|intros x y Hne; cbv beta; rewrite ?Nat.leb_le; lia]|]). intros a b. lia.
Qed.

#[global] Instance display_le_trans : Transitive display_le.
Proof.
  intros a b c. unfold display_le. rewrite !display_leb_levels. revert a b c.
  repeat (apply level_trans; [first [apply string_leb_trans|intros x y z; cbv beta; rewrite ?Nat.leb_le; lia]|first [apply string_leb_anti|intros x y; cbv beta; rewrite ?Nat.leb_le; lia]|]). intros a b c. lia.
Qed.

(** Seats shown at the same place have the same zone, row and number. *)
Lemma display_anti a b : display_le a b -> display_le b a -> a.2 = b.2.
Proof.
  unfold display_le. rewrite (display_leb_levels a b), (display_leb_levels b a). unfold display_levels. intros Ha Hb.
  apply (level_anti _ (fun x y => y <? x) _ ltac:(intros x y; cbv beta; lia) a b Ha) in Hb as (Hp & Ha1 & Hb1).
  apply (level_anti _ _ _ string_leb_anti a b Ha1) in Hb1 as (Hz & Ha2 & Hb2).
  apply (level_anti _ Nat.leb _ ltac:(intros x y; rewrite !Nat.leb_le; lia) a b Ha2) in Hb2 as (Hl & Ha3 & Hb3).
  apply (level_anti _ _ _ string_leb_anti a b Ha3) in Hb3 as (Hr & Ha4 & Hb4).
  destruct a as [i [? ? ? ?]], b as [j [? ? ? ?]]. cbn in *. f_equal; [done..|lia|done].
Qed.

(** ** What Seed stores *)

Definition event_row (spec : EventSpec) (now : Z) : EventRow :=
  mkEventRow (sp_Name spec) (sp_Venue spec) (now + Microseconds (sp_StartsIn spec)) (now + Microseconds (sp_SaleOpensIn spec)) (sp_MaxSeatsPerOrder spec).
Definition with_seats (id : Z) (l : list Seat) (m : gmap (Z * string) SeatRow) : gmap (Z * string) SeatRow :=
  fold_left (fun m st => <[(id, Seat_ID st) := is_Row (seat_params id st)]> m) l m.
Definition store (id : Z) (spec : EventSpec) (now : Z) (d : PG) : PG :=
  mkPG (orders d) (order_seats d) (tickets d) (payments d) (refunds d) (outbox d) (<[id := event_row spec now]> (db_events d))
    (with_seats id (Seats spec) (db_seats d)) (db_users d).

(** The rows satisfy the constraints of the tables. *)
Definition insertable (id : Z) (l : list Seat) (m : gmap (Z * string) SeatRow) : Prop :=
  NoDup (Seat_ID <$> l) /\ (forall st, st ∈ l -> 0 < Seat_PriceVND st) /\ (forall st, st ∈ l -> m !! (id, Seat_ID st) = None).
Definition storable (id : Z) (spec : EventSpec) (d : PG) : Prop :=
  db_events d !! id = None /\ insertable id (Seats spec) (db_seats d).

Lemma insertable_cons id st l m :
  insertable id (st :: l) m <->
  0 < Seat_PriceVND st /\ m !! (id, Seat_ID st) = None /\ insertable id l (<[(id, Seat_ID st) := is_Row (seat_params id st)]> m).
Proof.
  unfold insertable. rewrite fmap_cons, NoDup_cons. split.
  - intros ([Hst Hnd] & Hp & Hm). split_and!; [apply Hp; by left|apply Hm; by left|done|intros st' ?; apply Hp; by right|].
    intros st' Hst'. rewrite lookup_insert_ne; [apply Hm; by right|]. intros [= He]. apply Hst. rewrite He. by apply list_elem_of_fmap_2.
  - intros (Hp & Hm & Hnd & Hpl & Hml). split_and!.
    + intros (st' & He & Hst')%list_elem_of_fmap. specialize (Hml st' Hst'). rewrite <- He, lookup_insert_eq in Hml. done.
    + done.
    + intros st' [->|Hst']%elem_of_cons; [done|by apply Hpl].
    + intros st' [->|Hst']%elem_of_cons; [done|]. specialize (Hml st' Hst'). by apply lookup_insert_None in Hml as [? _].
Qed.

Lemma drain_rest fuel p l : (length l < fuel)%nat -> drain fuel (mkIterator (p :: l) true) = l.
Proof.
  revert p l. induction fuel as [|fuel IH]; intros p l Hf; [lia|]. cbn [drain Next it_rows it_skippedFirst negb].
  destruct l as [|q l]; [done|]. cbn in Hf. rewrite bool_decide_eq_false_2 by done. cbn [negb Values it_rows head]. by rewrite IH by lia.
Qed.

Lemma drain_all l : drain (S (length l)) (mkIterator l false) = l.
Proof.
  destruct l as [|p l]; [done|]. change (drain (S (length (p :: l))) (mkIterator (p :: l) false)) with (p :: drain (S (length l)) (mkIterator (p :: l) true)).
  by rewrite drain_rest by lia.
Qed.

Lemma InsertSeats_rows l now d : InsertSeats l now d = match copy_seats l d with Ok d => Ok (length l, d) | Err e => Err e end.
Proof. unfold InsertSeats. by rewrite drain_all. Qed.

Lemma copy_seats_cases id l d :
  is_Some (db_events d !! id) ->
  match copy_seats (seat_params id <$> l) d with
  | Ok d' => insertable id l (db_seats d) /\
      d' = mkPG (orders d) (order_seats d) (tickets d) (payments d) (refunds d) (outbox d) (db_events d) (with_seats id l (db_seats d)) (db_users d)
  | Err _ => ~ insertable id l (db_seats d)
  end.
Proof.
  revert d. induction l as [|st l IH]; intros d He; cbn [copy_seats fmap list_fmap].
  { split; [split_and!; [constructor|intros ? []%not_elem_of_nil..]|by destruct d]. }
  pose proof (insertable_cons id st l (db_seats d)) as Hcons.
  unfold copy_seat. cbn [is_EventID is_SeatID is_Row seat_params s_PriceVnd].
  destruct (Z.leb_spec (Seat_PriceVND st) 0); [intros (? & _)%Hcons; lia|]. case_bool_decide as Hex.
  { intros (_ & Hn & _)%Hcons. rewrite Hn in Hex. by destruct Hex. }
  rewrite bool_decide_eq_true_2 by done. cbn [negb]. rewrite <- eq_None_not_Some in Hex.
  match goal with |- context [copy_seats _ ?d'] => specialize (IH d' He) end.
  destruct (copy_seats _ _) as [d'|e]; cbn [db_seats orders order_seats tickets payments refunds outbox db_events] in *.
  - destruct IH as [Hi ->]. split; [apply Hcons; by split_and!|done].
  - by intros (_ & _ & ?)%Hcons.
Qed.

Section run.
Context {R : Type}.
Implicit Types w : World R.

(** The body of the transaction, when PostgreSQL answers. *)
Lemma Seed_tx_nofault id spec w :
  faults w = [] ->
  (storable id spec (pg w) -> Seed_tx id spec w = (Ok id, set_pg (store id spec (pg_now w) (pg w)) w)) /\
  (~ storable id spec (pg w) -> exists e w', Seed_tx id spec w = (Err e, w') /\ faults w' = []).
Proof.
  intros Hf. unfold Seed_tx, mbind. rewrite (stmt_nofault _ w Hf). unfold CreateEvent, storable. case_bool_decide as Hex.
  { split; [intros [Hn _]; rewrite Hn in Hex; by destruct Hex|eauto]. }
  rewrite <- eq_None_not_Some in Hex. rewrite stmt_nofault by done. cbn [pg set_pg]. rewrite InsertSeats_rows.
  match goal with |- context [copy_seats _ ?d] => pose proof (copy_seats_cases id (Seats spec) d) as Hc end.
  specialize (Hc ltac:(eexists; apply lookup_insert_eq)). destruct (copy_seats _ _) as [d'|e]; cbn [db_seats] in Hc.
  - destruct Hc as [Hi ->]. split; [intros _|intros Hn; exfalso; by apply Hn]. by rewrite length_fmap, Nat.eqb_refl.
  - split; [by intros [_ ?]|eauto].
Qed.

(** Whatever fails, the body only reports the stored event. *)
Lemma Seed_tx_ok id spec w n w' :
  Seed_tx id spec w = (Ok n, w') -> n = id /\ storable id spec (pg w) /\ pg w' = store id spec (pg_now w) (pg w).
Proof.
  unfold Seed_tx. intros (n1 & w1 & H1 & H2)%mbind_ok. apply mbind_ok in H2 as (n2 & w2 & H2 & H3).
  apply stmt_ok in H1 as (Hq1 & _). apply stmt_ok in H2 as (Hq2 & _). unfold CreateEvent in Hq1. case_bool_decide as Hex; [done|].
  rewrite <- eq_None_not_Some in Hex. injection Hq1 as <- Hp1. rewrite InsertSeats_rows in Hq2. rewrite <- Hp1 in Hq2.
  match type of Hq2 with context [copy_seats _ ?d] => pose proof (copy_seats_cases id (Seats spec) d ltac:(eexists; apply lookup_insert_eq)) as Hc end.
  destruct (copy_seats _ _) as [d'|e]; [|done]. injection Hq2 as <- Hp2. destruct Hc as [Hi ->]. cbn [db_seats] in *.
  destruct (negb _); [done|]. injection H3 as <- <-. split_and!; [done..|by rewrite <- Hp2].
Qed.

(** *** The commit *)

Lemma Seed_cases id spec w :
  let '(r, w') := Seed id spec w in
  (exists e, r = Err e) /\ pg w' = pg w \/
  (r = Ok id \/ r = Err (EPg Infra)) /\ storable id spec (pg w) /\ pg w' = store id spec (pg_now w) (pg w).
Proof.
  unfold Seed, BeginFunc, Transaction. destruct (pop_fault w) as [f w0] eqn:Hp.
  destruct (pop_fault_spec _ _ _ Hp) as (Hpg & _ & _ & He). assert (pg_now w0 = pg_now w) as Hnow by apply He.
  destruct f; [|left; by eauto..]. destruct (Seed_tx id spec w0) as [[n|e] w1] eqn:Hb; [|left; by eauto].
  apply Seed_tx_ok in Hb as (-> & Hs & Hw1). rewrite Hpg, Hnow in *.
  destruct (pop_fault w1) as [f' w2] eqn:Hp2. destruct (pop_fault_spec _ _ _ Hp2) as (Hpg2 & _). rewrite <- Hpg2 in Hw1.
  destruct f'; [right|left; by eauto|right]; (split; [by auto|done]).
Qed.

Lemma Seed_nofault id spec w :
  faults w = [] ->
  (storable id spec (pg w) -> Seed id spec w = (Ok id, set_pg (store id spec (pg_now w) (pg w)) w)) /\
  (~ storable id spec (pg w) -> exists e, (Seed id spec w).1 = Err e).
Proof.
  intros Hf. destruct (Seed_tx_nofault id spec w Hf) as [H1 H2]. unfold Seed. split; intros Hs.
  - rewrite (BeginFunc_nofault _ w Hf); by rewrite H1.
  - destruct (H2 Hs) as (e & w' & He & Hf'). exists e. by rewrite (BeginFunc_nofault _ w Hf), He; rewrite ?He.
Qed.

(** The command stores the event exactly when its arguments are in order, it
    has a database, and the event is new. *)
Lemma seed_run_succeeds name venue opens starts url id w :
  faults w = [] ->
  (seed_run name venue opens starts url id w).1 = Ok id <->
  0 <= opens < starts /\ (exists dsn, url = Some dsn /\ dsn <> EmptyString) /\
  storable id (mkSpec name venue starts opens (sp_MaxSeatsPerOrder DemoEvent) (sp_Zones DemoEvent)) (pg w).
Proof.
  intros Hf. unfold seed_run. cbn zeta. cbn [sp_SaleOpensIn sp_StartsIn]. set (spec := mkSpec _ _ _ _ _ _).
  destruct (Seed_nofault id spec w Hf) as [H1 H2].
  destruct (Z.ltb_spec opens 0), (Z.leb_spec starts opens); cbn [orb]; try (split; [done|lia]).
  destruct url as [[|c s]|]; [by split; [|intros (_ & (? & [= <-] & ?) & _)]| |by split; [|intros (_ & (? & ? & _) & _)]].
  split.
  - intros Hs. split; [lia|]. split; [by eexists|]. pose proof (Seed_cases id spec w) as Hc.
    destruct (Seed id spec w) as [r w']. cbn [fst] in *. subst r. by destruct Hc as [[[? ?] _]|(_ & ? & _)].
  - intros (_ & _ & Hs). by rewrite H1.
Qed.
End run.

(** ** Loading it back *)

(** Seat numbers fit their column, prices are positive and no two seats share
    an id: the zones have names of their own. *)
Record regular (spec : EventSpec) : Prop := {
  rg_zones : NoDup (zl_Zone <$> sp_Zones spec);
  rg_price z : z ∈ sp_Zones spec -> 0 < zl_PriceVND z;
  rg_seats z : z ∈ sp_Zones spec -> zl_SeatsPerRow z < 2 ^ 31;
}.

(** The order of the zones in the seat map: dearest first, then by name. *)
Definition zone_before (a b : ZoneLayout) : Prop :=
  zl_PriceVND b < zl_PriceVND a \/ zl_PriceVND a = zl_PriceVND b /\ zl_Zone a <> zl_Zone b /\ String.leb (zl_Zone a) (zl_Zone b) = true.

Lemma NoDup_sorted {A B} (f : A -> B) l : NoDup (f <$> l) <-> StronglySorted (fun a b => f a <> f b) l.
Proof.
  induction l as [|x l IH]; [split; constructor|]. rewrite fmap_cons, NoDup_cons, IH. split.
  - intros [Hx Hl]. constructor; [done|]. apply Forall_forall. intros y Hy He. apply Hx. rewrite He. by apply list_elem_of_fmap_2.
  - intros [Hx Hl]%StronglySorted_cons. split; [|done]. intros (y & He & Hy)%list_elem_of_fmap. by apply (proj1 (Forall_forall _ _) Hx y).
Qed.

Lemma zone_seats_zone z st : st ∈ zone_seats z -> exists r n, 0 <= r /\ 1 <= n <= zl_SeatsPerRow z /\
  st = mkSeat (seatID (zl_Zone z) (rowLabel r) n) (zl_Zone z) (rowLabel r) n (zl_PriceVND z).
Proof.
  unfold zone_seats, row_seats. intros (r & (n & -> & Hn)%list_elem_of_fmap & Hr)%list_elem_of_bind. rewrite elem_of_seqZ in Hr, Hn.
  exists r, n. split_and!; [lia..|done].
Qed.

Section regular.
Context (spec : EventSpec) (Hreg : regular spec).

Lemma Seats_NoDup : NoDup (Seat_ID <$> Seats spec).
Proof.
  apply NoDup_sorted. apply (seats_sorted _ (fun a b => zl_Zone a <> zl_Zone b)); [apply NoDup_sorted, Hreg|..].
  - intros z r n r' n' a b _ Hlt Hr Hr' Hn Hn' _ _ -> -> He. cbn in He. apply seatID_inj in He as (_ & -> & ->); [lia|lia..].
  - intros z z' a b _ _ Hne (r & n & Hr & Hn & ->)%zone_seats_zone (r' & n' & Hr' & Hn' & ->)%zone_seats_zone He. cbn in He.
    apply seatID_inj in He as (He & _); [by apply Hne|lia..].
Qed.

Lemma regular_insertable id m : (forall s, m !! (id, s) = None) -> insertable id (Seats spec) m.
Proof.
  intros Hm. split_and!; [apply Seats_NoDup| |by intros]. intros st (z & r & n & Hz & _ & _ & ->)%elem_of_Seats. by apply Hreg.
Qed.

Definition seat_pair (st : Seat) : string * SeatRow := (Seat_ID st, is_Row (seat_params 0 st)).

Lemma Seats_displayed : StronglySorted zone_before (sp_Zones spec) -> StronglySorted display_le (seat_pair <$> Seats spec).
Proof.
  intros Hz. apply (fmap_sorted (fun a b => display_le (seat_pair a) (seat_pair b)) display_le seat_pair); [|done].
  apply (seats_sorted _ zone_before); [done|..].
  - intros z r n r' n' a b Hin Hlt Hr Hr' Hn Hn' Hs Hs' -> ->. unfold display_le, display_leb. cbn. rewrite !bool_decide_eq_true_2 by done. cbn [negb].
    destruct Hlt as [Hlt|[<- Hlt]].
    + destruct (label_mono (r + 1) (r' + 1) ltac:(lia)) as [Hl|[Hl Hc]]; rewrite <- !rowLabel_label in *.
      * rewrite bool_decide_eq_false_2 by lia. cbn [negb]. apply Nat.leb_le. lia.
      * rewrite bool_decide_eq_true_2 by done. cbn [negb]. case_bool_decide as He; cbn [negb]; [by rewrite He, compare_refl in Hc|].
        unfold String.leb. by rewrite Hc.
    + rewrite !bool_decide_eq_true_2 by done. cbn [negb]. rewrite !wrap32_id by (pose proof (rg_seats _ Hreg z Hin); lia). lia.
  - intros z z' a b _ _ Hb (r & n & Hr & Hn & ->)%zone_seats_zone (r' & n' & Hr' & Hn' & ->)%zone_seats_zone.
    unfold display_le, display_leb. cbn. destruct Hb as [Hp|(Hp & Hne & Hb)].
    + rewrite bool_decide_eq_false_2 by lia. cbn [negb]. lia.
    + by rewrite bool_decide_eq_true_2, bool_decide_eq_false_2 by done.
Qed.
End regular.

(** The seats of the new event are the rows stored for it. *)
Lemma event_seats_insert id s row d (m := <[(id, s) := row]> (db_seats d)) :
  db_seats d !! (id, s) = None ->
  event_seats (mkPG (orders d) (order_seats d) (tickets d) (payments d) (refunds d) (outbox d) (db_events d) m (db_users d)) id ≡ₚ (s, row) :: event_seats d id.
Proof.
  intros Hn. unfold event_seats, m. cbn [db_seats]. rewrite (map_to_list_insert _ _ _ Hn). cbn [omap list_omap]. by rewrite decide_True.
Qed.

Lemma event_seats_stored id l d :
  insertable id l (db_seats d) ->
  event_seats (mkPG (orders d) (order_seats d) (tickets d) (payments d) (refunds d) (outbox d) (db_events d) (with_seats id l (db_seats d)) (db_users d)) id
    ≡ₚ (seat_pair <$> l) ++ event_seats d id.
Proof.
  revert d. induction l as [|st l IH]; intros d Hi; [by destruct d|]. apply insertable_cons in Hi as (_ & Hn & Hi).
  cbn [with_seats fold_left]. rewrite (IH (mkPG _ _ _ _ _ _ _ _ _) Hi), event_seats_insert by done.
  cbn [fmap list_fmap app]. symmetry. apply Permutation_middle.
Qed.

Lemma event_seats_none d id : (forall s, db_seats d !! (id, s) = None) -> event_seats d id = [].
Proof.
  intros Hn. unfold event_seats. destruct (omap _ _) as [|p l] eqn:Ho; [done|]. exfalso.
  assert (p ∈ p :: l) as Hp by by left. rewrite <- Ho in Hp. apply list_elem_of_omap in Hp as ([[e s] row] & Hin & Hd).
  case_decide as He; [|done]. cbn in He. subst. apply elem_of_map_to_list in Hin. by rewrite Hn in Hin.
Qed.

Lemma layout_pairs l : (forall st, st ∈ l -> 0 <= Seat_No st < 2 ^ 31) -> layout (seat_pair <$> l) = l.
Proof.
  intros Hno. unfold layout. rewrite <- list_fmap_compose. rewrite <- (list_fmap_id l) at 2. apply list_fmap_ext. intros i st Hi.
  apply list_elem_of_lookup_2 in Hi. destruct st as [? ? ? ? ?]. cbn. rewrite wrap32_id; [done|by apply (Hno _ Hi)].
Qed.

Definition st_of (z : ZoneLayout) (r n : Z) : Seat :=
  mkSeat (seatID (zl_Zone z) (rowLabel r) n) (zl_Zone z) (rowLabel r) n (zl_PriceVND z).

(** Seats shown at one place are one seat. *)
Lemma seat_pair_anti spec a b :
  regular spec -> a ∈ seat_pair <$> Seats spec -> b ∈ seat_pair <$> Seats spec -> display_le a b -> display_le b a -> a = b.
Proof.
  intros Hreg (x & -> & (z & r & n & Hz & _ & Hn & ->)%elem_of_Seats)%list_elem_of_fmap
    (y & -> & (z' & r' & n' & Hz' & _ & Hn' & ->)%elem_of_Seats)%list_elem_of_fmap Hab Hba.
  pose proof (display_anti _ _ Hab Hba) as He. cbn in He. pose proof (rg_seats _ Hreg z Hz). pose proof (rg_seats _ Hreg z' Hz').
  rewrite !wrap32_id in He by lia. injection He as Hzone Hrow Hno Hprice. unfold seat_pair. cbn. by rewrite Hzone, Hrow, Hno, Hprice.
Qed.

(** ** Properties *)

(** Seeding stores the event with all its seats or nothing. Whatever
    fails, the tables are left as they were and an error is reported, or the
    event and every seat of the layout are there; an error is then reported
    only when the answer to the COMMIT was lost. When PostgreSQL answers, a
    layout with two seats of one id or a price that is not positive is refused,
    and every other one is stored. *)
Theorem seed_all_or_nothing {R} (id : Z) (spec : EventSpec) (w : World R) :
  (let '(r, w') := Seed id spec w in
   (exists e, r = Err e) /\ pg w' = pg w \/
   (r = Ok id \/ r = Err (EPg Infra)) /\ storable id spec (pg w) /\ pg w' = store id spec (pg_now w) (pg w)) /\
  (faults w = [] -> (Seed id spec w).1 = Ok id <-> storable id spec (pg w)).
Proof.
  split; [apply Seed_cases|]. intros Hf. destruct (Seed_nofault id spec w Hf) as [H1 H2]. split; [|by intros ->%H1].
  pose proof (Seed_cases id spec w) as Hc. destruct (Seed id spec w) as [r w']. cbn [fst] in *. intros ->.
  destruct Hc as [[[e He] _]|(_ & Hs & _)]; [discriminate He|done].
Qed.

(** C39. What was seeded is what the catalog loads. For a layout whose zones
    have different names and positive prices: the catalog service loads the
    new event with the name, the venue, the times counted from the database
    clock and exactly the seats of the layout; the seat map shows them in the
    order of the layout when its zones go from the dearest to the cheapest;
    and looking up zone, row and number finds that seat with the zone's price. *)
Theorem seeded_event_loads {R} (id : Z) (spec : EventSpec) (w : World R)
    (Hf : faults w = []) (Hreg : regular spec)
    (Hid : db_events (pg w) !! id = None) (Hs : forall s, db_seats (pg w) !! (id, s) = None) :
  exists w' ev, Seed id spec w = (Ok id, w') /\ run (load id) w' = (Ok ev, w') /\
    (Event_ID ev, Event_Name ev, Event_Venue ev, Event_MaxSeatsPerOrder ev) = (id, sp_Name spec, sp_Venue spec, sp_MaxSeatsPerOrder spec) /\
    Event_StartsAt ev = pg_now w + Microseconds (sp_StartsIn spec) /\ Event_SaleOpensAt ev = pg_now w + Microseconds (sp_SaleOpensIn spec) /\
    Event_Seats ev ≡ₚ Seats spec /\ (StronglySorted zone_before (sp_Zones spec) -> Event_Seats ev = Seats spec) /\
    forall z r n, z ∈ sp_Zones spec -> 0 <= r < zl_Rows z -> 1 <= n <= zl_SeatsPerRow z ->
      Event_Seat ev (seatID (zl_Zone z) (rowLabel r) n) =
        Some (mkSeat (seatID (zl_Zone z) (rowLabel r) n) (zl_Zone z) (rowLabel r) n (zl_PriceVND z)).
Proof.
  pose proof (regular_insertable spec Hreg id _ Hs) as Hi.
  set (w' := set_pg (store id spec (pg_now w) (pg w)) w).
  set (rows := merge_sort display_le (event_seats (pg w') id)).
  assert (rows ≡ₚ seat_pair <$> Seats spec) as Hrows.
  { unfold rows. rewrite merge_sort_Permutation. cbn [pg set_pg w'].
    rewrite (event_seats_stored id (Seats spec) (mkPG _ _ _ _ _ _ (<[id := event_row spec (pg_now w)]> (db_events (pg w))) _ _) Hi).
    match goal with |- context [event_seats ?d id] => rewrite (event_seats_none d id Hs) end. by rewrite app_nil_r. }
  assert (layout (seat_pair <$> Seats spec) = Seats spec) as Hlay.
  { apply layout_pairs. intros st (z & r & n & Hz & _ & Hn & ->)%elem_of_Seats. pose proof (rg_seats _ Hreg z Hz). cbn. lia. }
  assert (layout rows ≡ₚ Seats spec) as Hperm by (rewrite <- Hlay; unfold layout; by rewrite Hrows).
  exists w', (event_of id (event_row spec (pg_now w)) rows). split_and!; try done.
  - by apply (Seed_nofault id spec w Hf).
  - rewrite (load_nofault id w' Hf). unfold loaded. cbn [pg set_pg store db_events w']. by rewrite lookup_insert_eq.
  - intros Hz. cbn. rewrite <- Hlay. f_equal. apply (StronglySorted_unique_strong display_le); [|apply StronglySorted_merge_sort; apply _|by apply Seats_displayed|done].
    intros a b Ha Hb Hab Hba. rewrite Hrows in Ha. by apply (seat_pair_anti spec).
  - intros z r n Hz Hr Hn. assert (st_of z r n ∈ Seats spec) by (apply elem_of_Seats; by exists z, r, n).
    apply (Event_Seat_unique (layout rows) _ (st_of z r n)); [|by rewrite Hperm]. rewrite Hperm. by apply Seats_NoDup.
Qed.

Definition empty_world : World unit := mkWorld empty_PG ∅ 1 tt 1000000 1000 ∅ (mkGateway ∅ ∅ ∅ []) [] ∅ [] [] [] [].

(** The demo event, in an empty database. *)
Lemma seeded_event_loads_witness : exists w' ev,
  Seed 1 DemoEvent empty_world = (Ok 1, w') /\ run (load 1) w' = (Ok ev, w') /\ Event_Seats ev = Seats DemoEvent /\
  Event_Seat ev "CAT1-O-100" = Some (mkSeat "CAT1-O-100" "CAT1" "O" 100 2000000).
Proof.
  destruct (seeded_event_loads 1 DemoEvent empty_world) as (w' & ev & H1 & H2 & _ & _ & _ & _ & H3 & H4).
  - reflexivity.
  - split.
    + apply (bool_decide_eq_true_1 _). vm_compute. reflexivity.
    + intros z Hz. repeat (apply elem_of_cons in Hz as [->|Hz]; [reflexivity|]). by apply elem_of_nil in Hz.
    + intros z Hz. repeat (apply elem_of_cons in Hz as [->|Hz]; [reflexivity|]). by apply elem_of_nil in Hz.
  - reflexivity.
  - intros s. apply lookup_empty.
  - exists w', ev. split; [exact H1|]. split; [exact H2|]. split.
    + apply H3. repeat constructor.
    + refine (H4 (mkLayout "CAT1" 15 100 2000000) 14 100 _ _ _); [right; left|split; reflexivity || lia..].
Defined.
