(* ===== verification/Text.v ===== *)
(** * Go's strings functions

    What the seat map handlers and the configuration use of package strings.
    [EqualFold] folds ASCII letters, which is all there is to fold against "gzip". *)

From S2P Require Import Prelude GoLib.

(** [strings.Split(s, sep)] for a separator of one byte. *)
Fixpoint Split (sep : ascii) (s : string) : list string :=
  match s with
  | EmptyString => [EmptyString]
  | String c t =>
      if bool_decide (c = sep) then EmptyString :: Split sep t
      else match Split sep t with [] => [String c EmptyString] | h :: l => String c h :: l end
  end.

(** unicode.IsSpace, on the UTF-8 bytes of a character: the ASCII ones; U+0085
    and U+00A0; U+1680, U+2000 to U+200A, U+2028, U+2029, U+202F, U+205F and
    U+3000. *)
Definition space1 (c : ascii) : bool :=
  let n := N_of_ascii c in ((9 <=? n) && (n <=? 13) || (n =? 32))%N.
Definition space2 (b c : ascii) : bool :=
  ((N_of_ascii b =? 0xC2) && ((N_of_ascii c =? 0x85) || (N_of_ascii c =? 0xA0)))%N.
Definition space3 (a b c : ascii) : bool :=
  let x := N_of_ascii a in let y := N_of_ascii b in let z := N_of_ascii c in
  ((x =? 0xE1) && (y =? 0x9A) && (z =? 0x80) ||
   (x =? 0xE2) && (y =? 0x80) && ((0x80 <=? z) && (z <=? 0x8A) || (z =? 0xA8) || (z =? 0xA9) || (z =? 0xAF)) ||
   (x =? 0xE2) && (y =? 0x81) && (z =? 0x9F) ||
   (x =? 0xE3) && (y =? 0x80) && (z =? 0x80))%N.

Fixpoint trim_left (l : list ascii) : list ascii :=
  match l with
  | a :: t =>
      if space1 a then trim_left t
      else match t with
           | b :: t =>
               if space2 a b then trim_left t
               else match t with
                    | c :: t => if space3 a b c then trim_left t else l
                    | [] => l
                    end
           | [] => l
           end
  | [] => l
  end.

(** The same from the end, on the reversed text. *)
Fixpoint trim_right (l : list ascii) : list ascii :=
  match l with
  | c :: t =>
      if space1 c then trim_right t
      else match t with
           | b :: t =>
               if space2 b c then trim_right t
               else match t with
                    | a :: t => if space3 a b c then trim_right t else l
                    | [] => l
                    end
           | [] => l
           end
  | [] => l
  end.
Definition TrimSpace (s : string) : string :=
  String.string_of_list_ascii (reverse (trim_right (reverse (trim_left (String.list_ascii_of_string s))))).

(** A tab, a no-break space (U+00A0), "a b", a space and U+3000; and bytes that
    only look like the end of a space. *)
Example trim_unicode :
  TrimSpace (String.string_of_list_ascii (ascii_of_N <$> [9; 0xC2; 0xA0; 97; 32; 98; 32; 0xE3; 0x80; 0x80]%N)) = "a b".
Proof. reflexivity. Qed.
Example trim_keeps :
  let s := String.string_of_list_ascii (ascii_of_N <$> [0xA0; 97; 0xC3; 0x85]%N) in TrimSpace s = s.
Proof. reflexivity. Qed.

(** [strings.Cut(s, sep)]: the parts before and after the separator. *)
Fixpoint Cut (sep : ascii) (s : string) : string * string :=
  match s with
  | EmptyString => (EmptyString, EmptyString)
  | String c t => if bool_decide (c = sep) then (EmptyString, t) else let '(a, b) := Cut sep t in (String c a, b)
  end.

Definition lower (c : ascii) : ascii :=
  let n := N_of_ascii c in if ((65 <=? n) && (n <=? 90))%N then ascii_of_N (n + 32) else c.
Fixpoint EqualFold (s t : string) : bool :=
  match s, t with
  | EmptyString, EmptyString => true
  | String a s, String b t => bool_decide (lower a = lower b) && EqualFold s t
  | _, _ => false
  end.

(** [strings.ReplaceAll(s, c, "")] *)
Fixpoint remove_char (r : ascii) (s : string) : string :=
  match s with
  | EmptyString => EmptyString
  | String c t => if bool_decide (c = r) then remove_char r t else String c (remove_char r t)
  end.

(** The double quote. *)
Definition dquote : ascii := "034"%char.

Lemma Split_sound sep s x : x ∈ Split sep s -> all_chars (fun c => negb (bool_decide (c = sep))) x = true.
Proof.
  revert x. induction s as [|c s IH]; intros x; cbn [Split].
  - by intros ->%list_elem_of_singleton.
  - destruct (bool_decide (c = sep)) eqn:Hc.
    + intros [->|Hx]%elem_of_cons; [done|by apply IH].
    + destruct (Split sep s) as [|h l]; [intros ->%list_elem_of_singleton; cbn; by rewrite Hc|].
      intros [->|Hx]%elem_of_cons; [|apply IH; by right]. cbn [all_chars]. rewrite Hc. apply IH. by left.
Qed.

Lemma Split_single sep s : all_chars (fun c => negb (bool_decide (c = sep))) s = true -> Split sep s = [s].
Proof.
  induction s as [|c s IH]; [done|]. cbn [all_chars Split]. intros Hc. apply andb_true_iff in Hc as [Hc Hs].
  apply negb_true_iff in Hc. rewrite Hc. by rewrite (IH Hs).
Qed.
