(* ===== verification/Settings.v ===== *)
(** * Configuration (internal/platform/config)

    Reading and checking the environment of the services ([Load]) and of the
    fake payment gateway ([LoadFakepay]). A problem is a constructor per
    message; the parser goes on after one. *)

From Stdlib Require Import SpecFloat.
From S2P Require Import Prelude GoLib Float Text.
Local Open Scope tr_scope.

(** ** Problems *)

Inductive Problem :=
| IsRequired (key : string)
| TooShort (key : string) (min : Z)
| MustDiffer (key other : string)
| NotOneOf (key : string) (allowed : list string) (v : string)
| NotAnInteger (key : string) (max : Z) (v : string)
| NotADuration (key v : string)
| NotABool (key v : string)
| NoEntry (key : string)
| NotAURL (key v : string)
| TelegramHalf
| NotMillis (key v : string)
| NotARate (key v : string)
| DelaysReversed.
#[global] Instance Problem_eq_dec : EqDecision Problem.
Proof. solve_decision. Defined.

(** parser: what was read, with the problems so far. *)
Definition Parser (A : Type) : Type := list Problem -> A * list Problem.
Definition ret {A} (a : A) : Parser A := fun ps => (a, ps).
Definition bind {A B} (m : Parser A) (k : A -> Parser B) : Parser B := fun ps => let '(a, ps) := m ps in k a ps.
Definition fail (p : Problem) : Parser unit := fun ps => (tt, ps ++ [p]).
Notation "'read' x ':=' m 'in' k" := (bind m (fun x => k)) (at level 200, x pattern, m at level 100, k at level 200) : tr_scope.
Notation "m ';;;' k" := (bind m (fun _ => k)) (at level 100, k at level 200, right associativity) : tr_scope.

(** ** strings and strconv *)

Fixpoint TrimRight (c : ascii) (s : string) : string :=
  match s with
  | EmptyString => s
  | String d t => let t := TrimRight c t in if bool_decide (d = c) && bool_decide (t = EmptyString) then EmptyString else String d t
  end.

Definition ParseBool (s : string) : option bool :=
  if bool_decide (s ∈ ["1"; "t"; "T"; "true"; "TRUE"; "True"]) then Some true
  else if bool_decide (s ∈ ["0"; "f"; "F"; "false"; "FALSE"; "False"]) then Some false
  else None.

Definition MinSecretLen : Z := 32.
Definition MaxInt32 : Z := 2 ^ 31 - 1.

(** ** The parser's readers

    Parameters: the environment (an unset variable is empty and absent, as for
    os.LookupEnv), and url.Parse by the scheme and the host it finds. *)

Section parser.
Context (url_Parse : string -> option (string * string)) (lookup : string -> option string).

Definition get (key : string) : option string :=
  match lookup key with
  | Some v => let v := TrimSpace v in if bool_decide (v = EmptyString) then None else Some v
  | None => None
  end.

Definition str (key def : string) : string := default def (get key).

Definition required (key : string) : Parser string :=
  match get key with
  | None => fail (IsRequired key);;; ret EmptyString
  | Some v => ret v
  end.

Definition secret (key : string) : Parser string :=
  match get key with
  | None => fail (IsRequired key);;; ret EmptyString
  | Some v => if Z.of_nat (String.length v) <? MinSecretLen then fail (TooShort key MinSecretLen);;; ret v else ret v
  end.

Definition secret_keys : list string := ["JWT_SECRET"; "ADMISSION_SECRET"; "WEBHOOK_SECRET"; "TICKET_SECRET"].

Fixpoint distinct_loop (secrets : string -> string) (keys : list string) (seen : gmap string string) : Parser unit :=
  match keys with
  | [] => ret tt
  | key :: keys =>
      let v := secrets key in
      if bool_decide (v = EmptyString) then distinct_loop secrets keys seen
      else
        match seen !! v with
        | Some other => fail (MustDiffer key other);;; distinct_loop secrets keys seen
        | None => distinct_loop secrets keys (<[v := key]> seen)
        end
  end.
Definition distinctSecrets (secrets : gmap string string) : Parser unit :=
  distinct_loop (fun key => default EmptyString (secrets !! key)) secret_keys ∅.

Definition oneOf (key def : string) (allowed : list string) : Parser string :=
  let v := str key def in
  if existsb (fun a => bool_decide (v = a)) allowed then ret v else fail (NotOneOf key allowed v);;; ret v.

Definition positiveInt (key : string) (def maxVal : Z) : Parser Z :=
  match get key with
  | None => ret def
  | Some v =>
      match ParseInt v with
      | Some n => if (n <=? 0) || (maxVal <? n) then fail (NotAnInteger key maxVal v);;; ret def else ret n
      | None => fail (NotAnInteger key maxVal v);;; ret def
      end
  end.

Definition duration (key : string) (def : Z) (allowZero : bool) : Parser Z :=
  match get key with
  | None => ret def
  | Some v =>
      match ParseDuration v with
      | Some d => if (d <? 0) || (d =? 0) && negb allowZero then fail (NotADuration key v);;; ret def else ret d
      | None => fail (NotADuration key v);;; ret def
      end
  end.

Definition boolean (key : string) (def : bool) : Parser bool :=
  match get key with
  | None => ret def
  | Some v => match ParseBool v with Some b => ret b | None => fail (NotABool key v);;; ret def end
  end.

Definition entries (s : string) : list string :=
  filter (fun item => item <> EmptyString) (TrimSpace <$> Split "," s).
Definition list_of (key def : string) : Parser (list string) :=
  let out := entries (str key def) in
  if bool_decide (out = []) then fail (NoEntry key);;; ret out else ret out.

Definition is_http (v : string) : bool :=
  match url_Parse v with
  | Some (scheme, host) => (bool_decide (scheme = "http") || bool_decide (scheme = "https")) && negb (bool_decide (host = EmptyString))
  | None => false
  end.
Definition httpURL (key def : string) : Parser string :=
  let v := TrimRight "/" (str key def) in
  if is_http v then ret v else fail (NotAURL key v);;; ret v.

(** ** Config *)

Record Config := mkConfig {
  AppEnv : string; DatabaseURL : string; DBMaxConns : Z; RedisAddr : string; KafkaBrokers : list string; InventoryBackend : string;
  HoldTTL : Z; HoldGrace : Z; AdmissionTTL : Z; AdmitInterval : Z; AdmitBatch : Z; ExpiryInterval : Z; RequireAdmission : bool;
  JWTSecret : string; AdmissionSecret : string; WebhookSecret : string; TicketSecret : string;
  FakepayURL : string; PublicBaseURL : string; OTLPEndpoint : string; TelegramBotToken : string; TelegramChatID : string;
}.

Definition EnvDev : string := "dev".
Definition EnvProd : string := "prod".
Definition BackendPG : string := "pg".
Definition BackendRedis : string := "redis".

Definition telegram (token chat : string) : Parser unit :=
  if negb (Bool.eqb (bool_decide (token = EmptyString)) (bool_decide (chat = EmptyString))) then fail TelegramHalf else ret tt.

Definition parse_config : Parser Config :=
  read env := oneOf "APP_ENV" EnvDev [EnvDev; EnvProd] in
  read database := required "DATABASE_URL" in
  read conns := positiveInt "DB_MAX_CONNS" 20 MaxInt32 in
  let redis := str "REDIS_ADDR" "localhost:6379" in
  read brokers := list_of "KAFKA_BROKERS" "localhost:19092" in
  read backend := oneOf "INVENTORY_BACKEND" BackendRedis [BackendPG; BackendRedis] in
  read holdTTL := duration "HOLD_TTL" (600 * Second) false in
  read holdGrace := duration "HOLD_GRACE" (30 * Second) true in
  read admissionTTL := duration "ADMISSION_TTL" (300 * Second) false in
  read admitInterval := duration "ADMIT_INTERVAL" Second false in
  read admitBatch := positiveInt "ADMIT_BATCH" 200 MaxInt32 in
  read expiryInterval := duration "EXPIRY_INTERVAL" (5 * Second) false in
  read requireAdmission := boolean "REQUIRE_ADMISSION" true in
  read jwt := secret "JWT_SECRET" in
  read admission := secret "ADMISSION_SECRET" in
  read webhook := secret "WEBHOOK_SECRET" in
  read ticket := secret "TICKET_SECRET" in
  read fakepay := httpURL "FAKEPAY_URL" "http://localhost:8090" in
  read public := httpURL "PUBLIC_BASE_URL" "http://localhost:8080" in
  let otlp := str "OTEL_EXPORTER_OTLP_ENDPOINT" EmptyString in
  let token := str "TELEGRAM_BOT_TOKEN" EmptyString in
  let chat := str "TELEGRAM_CHAT_ID" EmptyString in
  distinctSecrets (list_to_map [("JWT_SECRET", jwt); ("ADMISSION_SECRET", admission); ("WEBHOOK_SECRET", webhook); ("TICKET_SECRET", ticket)]);;;
  telegram token chat;;;
  ret (mkConfig env database (wrap32 conns) redis brokers backend holdTTL holdGrace admissionTTL admitInterval admitBatch expiryInterval
    requireAdmission jwt admission webhook ticket fakepay public otlp token chat).

Definition Load : res (list Problem) Config :=
  match parse_config [] with
  | (c, []) => Ok c
  | (_, ps) => Err ps
  end.

Definition IsDev (c : Config) : bool := bool_decide (AppEnv c = EnvDev).

(** [c.LogValue()]: the attributes of a log line. *)
Inductive LogAttr := LString (v : string) | LInt (n : Z) | LStrings (l : list string) | LDuration (d : Z) | LBool (b : bool).

Definition redactURL (url_Redacted : string -> string) (raw : string) : string :=
  match url_Parse raw with None => "<unparseable>" | Some _ => url_Redacted raw end.

Definition LogValue (url_Redacted : string -> string) (c : Config) : list (string * LogAttr) :=
  [("app_env", LString (AppEnv c)); ("database_url", LString (redactURL url_Redacted (DatabaseURL c))); ("db_max_conns", LInt (DBMaxConns c));
   ("redis_addr", LString (RedisAddr c)); ("kafka_brokers", LStrings (KafkaBrokers c)); ("inventory_backend", LString (InventoryBackend c));
   ("hold_ttl", LDuration (HoldTTL c)); ("hold_grace", LDuration (HoldGrace c)); ("admission_ttl", LDuration (AdmissionTTL c));
   ("admit_interval", LDuration (AdmitInterval c)); ("admit_batch", LInt (AdmitBatch c)); ("expiry_interval", LDuration (ExpiryInterval c));
   ("require_admission", LBool (RequireAdmission c)); ("fakepay_url", LString (FakepayURL c)); ("public_base_url", LString (PublicBaseURL c));
   ("tracing_enabled", LBool (negb (bool_decide (OTLPEndpoint c = EmptyString))));
   ("telegram_enabled", LBool (negb (bool_decide (TelegramBotToken c = EmptyString))))].

(** ** The gateway's configuration *)

(** [strconv.ParseFloat(s, 64)]; [None] is an error. *)
Context (ParseFloat : string -> option float64).

Definition millis (key : string) (def : Z) : Parser Z :=
  match get key with
  | None => ret (def * 1000000)
  | Some v =>
      match ParseInt v with
      | Some n => if (n <? 0) || (int64_max / 1000000 <? n) then fail (NotMillis key v);;; ret (def * 1000000) else ret (wrap64 (n * 1000000))
      | None => fail (NotMillis key v);;; ret (def * 1000000)
      end
  end.

(** math.IsNaN, and the comparisons of floats. *)
Definition IsNaN (f : float64) : bool := match f with S754_nan => true | _ => false end.
Definition flt : float64 -> float64 -> bool := SFltb.

Definition rate (key : string) (def : float64) : Parser float64 :=
  match get key with
  | None => ret def
  | Some v =>
      match ParseFloat v with
      | Some f => if IsNaN f || flt f (float64_of 0) || flt (float64_of 1) f then fail (NotARate key v);;; ret def else ret f
      | None => fail (NotARate key v);;; ret def
      end
  end.

Record Fakepay := mkFakepay {
  fp_WebhookSecret : string; fp_PublicURL : string; fp_DelayMin : Z; fp_DelayMax : Z; fp_DuplicateRate : float64; fp_LateRate : float64;
  fp_LateExtra : Z; fp_FailRate : float64; fp_CallbackPrefix : string;
}.

(** The constants 0.2, 0.05 and 0.1. *)
Definition tenths (n d : Z) : float64 := fdiv (float64_of n) (float64_of d).

Definition parse_fakepay : Parser Fakepay :=
  read webhook := secret "WEBHOOK_SECRET" in
  read public := httpURL "FAKEPAY_URL" "http://localhost:8090" in
  read delayMin := millis "FAKEPAY_DELAY_MS_MIN" 100 in
  read delayMax := millis "FAKEPAY_DELAY_MS_MAX" 2000 in
  read duplicate := rate "FAKEPAY_DUPLICATE_RATE" (tenths 2 10) in
  read late := rate "FAKEPAY_LATE_RATE" (tenths 5 100) in
  read lateExtra := millis "FAKEPAY_LATE_EXTRA_MS" 660000 in
  read failRate := rate "FAKEPAY_5XX_RATE" (tenths 1 10) in
  read prefix := httpURL "PUBLIC_BASE_URL" "http://localhost:8080" in
  (if delayMax <? delayMin then fail DelaysReversed else ret tt);;;
  ret (mkFakepay webhook public delayMin delayMax duplicate late lateExtra failRate prefix).

Definition LoadFakepay : res (list Problem) Fakepay :=
  match parse_fakepay [] with
  | (c, []) => Ok c
  | (_, ps) => Err ps
  end.
End parser.

(** ** Readers add problems *)

(** What a reader returns does not depend on the problems before it, and it
    only adds to them. *)
Class Adds {A} (m : Parser A) : Prop := adds ps : m ps = ((m []).1, ps ++ (m []).2).

Section adds.
Context {A B : Type}.

#[global] Instance ret_adds (a : A) : Adds (ret a).
Proof. intros ps. unfold ret. cbn. by rewrite app_nil_r. Qed.

#[global] Instance fail_adds p : Adds (fail p).
Proof. intros ps. done. Qed.

Lemma bind_run (m : Parser A) (k : A -> Parser B) : Adds m -> (forall a, Adds (k a)) -> forall ps,
  bind m k ps = ((k (m []).1 []).1, ps ++ (m []).2 ++ (k (m []).1 []).2).
Proof.
  intros Hm Hk ps. unfold bind. rewrite (adds (m := m) ps). rewrite (adds (m := k (m []).1)). by rewrite app_assoc.
Qed.

#[global] Instance bind_adds (m : Parser A) (k : A -> Parser B) : Adds m -> (forall a, Adds (k a)) -> Adds (bind m k).
Proof. intros Hm Hk ps. rewrite !bind_run by done. done. Qed.

#[global] Instance if_adds (b : bool) (m n : Parser A) : Adds m -> Adds n -> Adds (if b then m else n).
Proof. by destruct b. Qed.

(** The answer and the problems of two readers in a row. *)
Lemma bind_value (m : Parser A) (k : A -> Parser B) : Adds m -> (forall a, Adds (k a)) -> (bind m k []).1 = (k (m []).1 []).1.
Proof. intros Hm Hk. by rewrite bind_run. Qed.
Lemma bind_problems (m : Parser A) (k : A -> Parser B) : Adds m -> (forall a, Adds (k a)) -> (bind m k []).2 = (m []).2 ++ (k (m []).1 []).2.
Proof. intros Hm Hk. by rewrite bind_run. Qed.
End adds.

(** ** What each reader accepts *)

Section readers.
Context (lookup : string -> option string).

Abbreviation env := (get lookup).
Abbreviation text := (str lookup).


Ltac reader := intros; repeat (case_match || apply _).
#[global] Instance required_adds key : Adds (required lookup key).
Proof. unfold required. reader. Qed.
#[global] Instance secret_adds key : Adds (secret lookup key).
Proof. unfold secret. reader. Qed.
#[global] Instance oneOf_adds key def allowed : Adds (oneOf lookup key def allowed).
Proof. unfold oneOf. reader. Qed.
#[global] Instance positiveInt_adds key def max : Adds (positiveInt lookup key def max).
Proof. unfold positiveInt. reader. Qed.
#[global] Instance duration_adds key def z : Adds (duration lookup key def z).
Proof. unfold duration. reader. Qed.
#[global] Instance boolean_adds key def : Adds (boolean lookup key def).
Proof. unfold boolean. reader. Qed.
#[global] Instance list_of_adds key def : Adds (list_of lookup key def).
Proof. unfold list_of. reader. Qed.
#[global] Instance httpURL_adds url_Parse key def : Adds (httpURL url_Parse lookup key def).
Proof. unfold httpURL. reader. Qed.
#[global] Instance telegram_adds token chat : Adds (telegram token chat).
Proof. unfold telegram. reader. Qed.
#[global] Instance distinct_loop_adds secrets keys seen : Adds (distinct_loop secrets keys seen).
Proof. revert seen. induction keys as [|k keys IH]; intros seen; cbn [distinct_loop]; reader. Qed.
#[global] Instance distinctSecrets_adds secrets : Adds (distinctSecrets secrets).
Proof. apply _. Qed.

(** The texts the readers accept. *)
Definition good_int (max : Z) (v : string) (n : Z) : Prop := ParseInt v = Some n /\ 1 <= n <= max.
Definition good_duration (allowZero : bool) (v : string) (d : Z) : Prop := ParseDuration v = Some d /\ (0 < d \/ d = 0 /\ allowZero = true).

Lemma elem_of_one (p q : Problem) : p ∈ [q] <-> p = q.
Proof. apply list_elem_of_singleton. Qed.

Ltac problem := rewrite ?elem_of_one, ?elem_of_nil in *; naive_solver lia.

Lemma required_problems key p : p ∈ (required lookup key []).2 <-> p = IsRequired key /\ env key = None.
Proof. unfold required. destruct (env key); cbn; problem. Qed.
Lemma required_value key : (required lookup key []).1 = text key EmptyString.
Proof. unfold required, str. by destruct (env key). Qed.

Lemma secret_problems key p :
  p ∈ (secret lookup key []).2 <->
  p = IsRequired key /\ env key = None \/
  p = TooShort key MinSecretLen /\ exists v, env key = Some v /\ Z.of_nat (String.length v) < MinSecretLen.
Proof. unfold secret. destruct (env key) as [v|]; [destruct (Z.ltb_spec (Z.of_nat (String.length v)) MinSecretLen)|]; cbn; problem. Qed.
Lemma secret_value key : (secret lookup key []).1 = text key EmptyString.
Proof. unfold secret, str. destruct (env key); [|done]. by case_match. Qed.

Lemma oneOf_problems key def allowed p :
  p ∈ (oneOf lookup key def allowed []).2 <-> p = NotOneOf key allowed (text key def) /\ text key def ∉ allowed.
Proof.
  unfold oneOf. destruct (existsb _ allowed) eqn:He; cbn.
  - apply existsb_exists in He as (a & Ha & ->%bool_decide_eq_true). apply list_elem_of_In in Ha. problem.
  - assert (text key def ∉ allowed); [|problem]. intros Hin. apply not_true_iff_false in He. apply He, existsb_exists.
    exists (text key def). rewrite <- list_elem_of_In. split; [done|by apply bool_decide_eq_true].
Qed.
Lemma oneOf_value key def allowed : (oneOf lookup key def allowed []).1 = text key def.
Proof. unfold oneOf. by case_match. Qed.

Lemma positiveInt_problems key def max p :
  p ∈ (positiveInt lookup key def max []).2 <-> exists v, p = NotAnInteger key max v /\ env key = Some v /\ ~ exists n, good_int max v n.
Proof.
  unfold positiveInt, good_int. destruct (env key) as [v|]; [|cbn; problem]. destruct (ParseInt v) as [n|] eqn:Hv; [|cbn; problem].
  destruct (Z.leb_spec n 0), (Z.ltb_spec max n); cbn; problem.
Qed.
Lemma positiveInt_value key def max (n := (positiveInt lookup key def max []).1) :
  match env key with Some v => (exists n', good_int max v n') -> good_int max v n | None => n = def end.
Proof.
  unfold n, positiveInt, good_int. destruct (env key) as [v|]; [|done]. intros (n' & -> & Hn).
  destruct (Z.leb_spec n' 0), (Z.ltb_spec max n'); cbn; by try lia.
Qed.

Lemma duration_problems key def z p :
  p ∈ (duration lookup key def z []).2 <-> exists v, p = NotADuration key v /\ env key = Some v /\ ~ exists d, good_duration z v d.
Proof.
  unfold duration, good_duration. destruct (env key) as [v|]; [|cbn; problem]. destruct (ParseDuration v) as [d|] eqn:Hv; [|cbn; problem].
  destruct (Z.ltb_spec d 0), (Z.eqb_spec d 0), z; cbn; problem.
Qed.
Lemma duration_value key def z (d := (duration lookup key def z []).1) :
  match env key with Some v => (exists d', good_duration z v d') -> good_duration z v d | None => d = def end.
Proof.
  unfold d, duration, good_duration. destruct (env key) as [v|]; [|done]. intros (d' & -> & Hd).
  destruct (Z.ltb_spec d' 0), (Z.eqb_spec d' 0), z; cbn; split; naive_solver lia.
Qed.

Lemma boolean_problems key def p :
  p ∈ (boolean lookup key def []).2 <-> exists v, p = NotABool key v /\ env key = Some v /\ ParseBool v = None.
Proof. unfold boolean. destruct (env key) as [v|]; [|cbn; problem]. destruct (ParseBool v) eqn:Hv; cbn; problem. Qed.
Lemma boolean_value key def (b := (boolean lookup key def []).1) :
  match env key with Some v => ParseBool v <> None -> ParseBool v = Some b | None => b = def end.
Proof. unfold b, boolean. destruct (env key) as [v|]; [|done]. by destruct (ParseBool v). Qed.

Lemma list_of_problems key def p : p ∈ (list_of lookup key def []).2 <-> p = NoEntry key /\ entries (text key def) = [].
Proof. unfold list_of. case_bool_decide; cbn; problem. Qed.
Lemma list_of_value key def : (list_of lookup key def []).1 = entries (text key def).
Proof. unfold list_of. by case_bool_decide. Qed.

Lemma httpURL_problems url_Parse key def p (v := TrimRight "/" (text key def)) :
  p ∈ (httpURL url_Parse lookup key def []).2 <-> p = NotAURL key v /\ is_http url_Parse v = false.
Proof. unfold v, httpURL. destruct (is_http _ _); cbn; problem. Qed.
Lemma httpURL_value url_Parse key def : (httpURL url_Parse lookup key def []).1 = TrimRight "/" (text key def).
Proof. unfold httpURL. by case_match. Qed.
End readers.

Lemma telegram_problems token chat p :
  p ∈ (telegram token chat []).2 <-> p = TelegramHalf /\ (token = EmptyString <-> chat <> EmptyString).
Proof. unfold telegram. repeat case_bool_decide; cbn; rewrite ?list_elem_of_singleton, ?elem_of_nil; naive_solver. Qed.


(** ** Secrets that differ *)

Section secrets.
Context (secrets : string -> string).

(** The first of [keys] whose secret is [v]. *)
Definition first_with (keys : list string) (v : string) : option string := head (filter (fun k => secrets k = v) keys).

Lemma first_with_cons k keys v : first_with (k :: keys) v = if decide (secrets k = v) then Some k else first_with keys v.
Proof. unfold first_with. rewrite filter_cons. by case_decide. Qed.

Lemma distinct_loop_problems keys seen p :
  NoDup keys -> (forall v k, seen !! v = Some k -> k ∉ keys) ->
  p ∈ (distinct_loop secrets keys seen []).2 <->
  exists key other, p = MustDiffer key other /\ key ∈ keys /\ secrets key <> EmptyString /\ other <> key /\
    match seen !! secrets key with Some o => o = other | None => first_with keys (secrets key) = Some other end.
Proof.
  revert seen. induction keys as [|k keys IH]; intros seen Hnd Hseen; cbn [distinct_loop].
  { cbn. rewrite elem_of_nil. split; [done|]. by intros (? & ? & _ & []%not_elem_of_nil & _). }
  apply NoDup_cons in Hnd as [Hk Hnd]. assert (Hs : forall v o, seen !! v = Some o -> o ∉ keys).
  { intros v o Hv Hin. apply (Hseen v o Hv). by right. }
  case_bool_decide as Hemp.
  - rewrite (IH seen Hnd Hs). split; intros (key & other & -> & Hin & Hne & Ho & Hm); exists key, other; split_and!; try done; [by right| | |].
    + rewrite first_with_cons, decide_False by congruence. done.
    + apply elem_of_cons in Hin as [->|Hin]; [by destruct Hne|done].
    + rewrite first_with_cons, decide_False in Hm by congruence. done.
  - destruct (seen !! secrets k) as [o|] eqn:Hv.
    + rewrite bind_problems by apply _. cbn [fail fst snd app]. rewrite elem_of_cons, (IH seen Hnd Hs). split.
      * intros [->|(key & other & -> & Hin & Hne & Ho & Hm)].
        -- exists k, o. split_and!; [done|by left|done| |by rewrite Hv]. intros ->. apply (Hseen _ _ Hv). by left.
        -- exists key, other. split_and!; [done|by right|done..|]. destruct (seen !! secrets key) eqn:Hk'; [done|].
           by rewrite first_with_cons, decide_False by congruence.
      * intros (key & other & -> & [->|Hin]%elem_of_cons & Hne & Ho & Hm); [left; rewrite Hv in Hm; by subst|right].
        exists key, other. split_and!; try done. destruct (seen !! secrets key) eqn:Hk'; [done|].
        by rewrite first_with_cons, decide_False in Hm by congruence.
    + assert (Hs' : forall v o, <[secrets k := k]> seen !! v = Some o -> o ∉ keys).
      { intros v o [[_ <-]|[_ Ho]]%lookup_insert_Some; [done|by apply (Hs v)]. }
      rewrite (IH _ Hnd Hs'). split; intros (key & other & -> & Hin & Hne & Ho & Hm); exists key, other; split_and!; try done; [by right| | |].
      * rewrite first_with_cons. case_decide as Hd.
        -- rewrite Hd, lookup_insert_eq in Hm. subst. by rewrite <- Hd, Hv.
        -- by rewrite lookup_insert_ne in Hm.
      * apply elem_of_cons in Hin as [->|Hin]; [|done]. rewrite Hv, first_with_cons, decide_True in Hm by done. by injection Hm as ->.
      * rewrite first_with_cons in Hm. case_decide as Hd.
        -- rewrite <- Hd, lookup_insert_eq. rewrite <- Hd, Hv in Hm. by injection Hm.
        -- by rewrite lookup_insert_ne.
Qed.
End secrets.

Lemma distinct_loop_ext f g keys seen : (forall k, k ∈ keys -> f k = g k) -> distinct_loop f keys seen = distinct_loop g keys seen.
Proof.
  revert seen. induction keys as [|k keys IH]; intros seen Hfg; [done|]. cbn [distinct_loop]. rewrite (Hfg k) by by left.
  rewrite !IH by (intros; apply Hfg; by right). destruct (bool_decide _); [done|]. by destruct (seen !! _).
Qed.

(** Membership in a given list. *)
Ltac mem := apply (bool_decide_eq_true_1 _); vm_compute; reflexivity.

(** ** What Load demands

    The variables by kind, and the problem each of them can have. *)

Definition choices : list (string * string * list string) :=
  [("APP_ENV", EnvDev, [EnvDev; EnvProd]); ("INVENTORY_BACKEND", BackendRedis, [BackendPG; BackendRedis])].
Definition durations_read : list (string * bool) :=
  [("HOLD_TTL", false); ("HOLD_GRACE", true); ("ADMISSION_TTL", false); ("ADMIT_INTERVAL", false); ("EXPIRY_INTERVAL", false)].
Definition urls : list (string * string) := [("FAKEPAY_URL", "http://localhost:8090"); ("PUBLIC_BASE_URL", "http://localhost:8080")].

Section load.
Context (url_Parse : string -> option (string * string)) (lookup : string -> option string).
Abbreviation env := (get lookup).
Abbreviation text := (str lookup).
Abbreviation value := (fun key => str lookup key EmptyString).

Inductive Wrong : Problem -> Prop :=
| wr_required key : key ∈ "DATABASE_URL" :: secret_keys -> env key = None -> Wrong (IsRequired key)
| wr_short key v : key ∈ secret_keys -> env key = Some v -> Z.of_nat (String.length v) < MinSecretLen -> Wrong (TooShort key MinSecretLen)
| wr_same key other : key ∈ secret_keys -> value key <> EmptyString -> other <> key ->
    first_with value secret_keys (value key) = Some other -> Wrong (MustDiffer key other)
| wr_choice key def allowed : (key, def, allowed) ∈ choices -> text key def ∉ allowed -> Wrong (NotOneOf key allowed (text key def))
| wr_int key v : key ∈ ["DB_MAX_CONNS"; "ADMIT_BATCH"] -> env key = Some v -> ~ (exists n, good_int MaxInt32 v n) -> Wrong (NotAnInteger key MaxInt32 v)
| wr_duration key z v : (key, z) ∈ durations_read -> env key = Some v -> ~ (exists d, good_duration z v d) -> Wrong (NotADuration key v)
| wr_bool v : env "REQUIRE_ADMISSION" = Some v -> ParseBool v = None -> Wrong (NotABool "REQUIRE_ADMISSION" v)
| wr_brokers : entries (text "KAFKA_BROKERS" "localhost:19092") = [] -> Wrong (NoEntry "KAFKA_BROKERS")
| wr_url key def : (key, def) ∈ urls -> is_http url_Parse (TrimRight "/" (text key def)) = false -> Wrong (NotAURL key (TrimRight "/" (text key def)))
| wr_telegram : (value "TELEGRAM_BOT_TOKEN" = EmptyString <-> value "TELEGRAM_CHAT_ID" <> EmptyString) -> Wrong TelegramHalf.

(** What was read, by the readers' answers. *)
Definition as_read : Config :=
  mkConfig (oneOf lookup "APP_ENV" EnvDev [EnvDev; EnvProd] []).1 (required lookup "DATABASE_URL" []).1
    (wrap32 (positiveInt lookup "DB_MAX_CONNS" 20 MaxInt32 []).1) (text "REDIS_ADDR" "localhost:6379")
    (list_of lookup "KAFKA_BROKERS" "localhost:19092" []).1 (oneOf lookup "INVENTORY_BACKEND" BackendRedis [BackendPG; BackendRedis] []).1
    (duration lookup "HOLD_TTL" (600 * Second) false []).1 (duration lookup "HOLD_GRACE" (30 * Second) true []).1
    (duration lookup "ADMISSION_TTL" (300 * Second) false []).1 (duration lookup "ADMIT_INTERVAL" Second false []).1
    (positiveInt lookup "ADMIT_BATCH" 200 MaxInt32 []).1 (duration lookup "EXPIRY_INTERVAL" (5 * Second) false []).1
    (boolean lookup "REQUIRE_ADMISSION" true []).1 (secret lookup "JWT_SECRET" []).1 (secret lookup "ADMISSION_SECRET" []).1
    (secret lookup "WEBHOOK_SECRET" []).1 (secret lookup "TICKET_SECRET" []).1
    (httpURL url_Parse lookup "FAKEPAY_URL" "http://localhost:8090" []).1 (httpURL url_Parse lookup "PUBLIC_BASE_URL" "http://localhost:8080" []).1
    (text "OTEL_EXPORTER_OTLP_ENDPOINT" EmptyString) (value "TELEGRAM_BOT_TOKEN") (value "TELEGRAM_CHAT_ID").

Lemma distinct_problems p :
  p ∈ (distinctSecrets (list_to_map [("JWT_SECRET", (secret lookup "JWT_SECRET" []).1); ("ADMISSION_SECRET", (secret lookup "ADMISSION_SECRET" []).1);
    ("WEBHOOK_SECRET", (secret lookup "WEBHOOK_SECRET" []).1); ("TICKET_SECRET", (secret lookup "TICKET_SECRET" []).1)]) []).2 <->
  exists key other, p = MustDiffer key other /\ key ∈ secret_keys /\ value key <> EmptyString /\ other <> key /\
    first_with value secret_keys (value key) = Some other.
Proof.
  unfold distinctSecrets. rewrite (distinct_loop_ext _ value).
  - rewrite (distinct_loop_problems value secret_keys ∅); [done| |by intros ? ? ?%lookup_empty_Some].
    apply (bool_decide_eq_true_1 _). vm_compute. reflexivity.
  - intros k Hk. rewrite !secret_value. unfold secret_keys in Hk. rewrite !elem_of_cons, elem_of_nil in Hk. by destruct Hk as [->|[->|[->|[->|[]]]]].
Qed.

Ltac each_member H :=
  lazymatch type of H with
  | _ \/ _ => destruct H as [H|H]; each_member H
  | False => destruct H
  | _ => simplify_eq
  end.
Ltac members :=
  match goal with
  | H : _ ∈ _ |- _ => unfold secret_keys, choices, durations_read, urls in H; rewrite !elem_of_cons, elem_of_nil in H; each_member H
  | _ => idtac
  end.
Ltac pick :=
  lazymatch goal with
  | |- _ \/ _ => first [left; pick|right; pick]
  | |- exists _, _ => eexists; pick
  | |- _ /\ _ => split; [pick|pick]
  | |- _ => first [reflexivity|eassumption]
  end.
Ltac each_problem Hp :=
  lazymatch type of Hp with
  | _ \/ _ => destruct Hp as [Hp|Hp]; each_problem Hp
  | exists _, _ => destruct Hp as [? Hp]; each_problem Hp
  | _ /\ _ => destruct Hp as [? Hp]; each_problem Hp
  | _ => idtac
  end.

Ltac wrong :=
  first [ eapply wr_required; [mem|eassumption] | eapply wr_short; [mem|eassumption..] | eapply wr_same; eassumption
        | eapply wr_choice; [mem|eassumption] | eapply wr_int; [mem|eassumption..] | eapply wr_duration; cycle 1; [eassumption..|mem]
        | eapply wr_bool; eassumption | eapply wr_brokers; eassumption | eapply wr_url; [mem|eassumption] | eapply wr_telegram; eassumption ].

(** The problems, in the order they are found. *)
Definition found : list Problem :=
  (oneOf lookup "APP_ENV" EnvDev [EnvDev; EnvProd] []).2 ++ (required lookup "DATABASE_URL" []).2 ++
  (positiveInt lookup "DB_MAX_CONNS" 20 MaxInt32 []).2 ++ (list_of lookup "KAFKA_BROKERS" "localhost:19092" []).2 ++
  (oneOf lookup "INVENTORY_BACKEND" BackendRedis [BackendPG; BackendRedis] []).2 ++ (duration lookup "HOLD_TTL" (600 * Second) false []).2 ++
  (duration lookup "HOLD_GRACE" (30 * Second) true []).2 ++ (duration lookup "ADMISSION_TTL" (300 * Second) false []).2 ++
  (duration lookup "ADMIT_INTERVAL" Second false []).2 ++ (positiveInt lookup "ADMIT_BATCH" 200 MaxInt32 []).2 ++
  (duration lookup "EXPIRY_INTERVAL" (5 * Second) false []).2 ++ (boolean lookup "REQUIRE_ADMISSION" true []).2 ++
  (secret lookup "JWT_SECRET" []).2 ++ (secret lookup "ADMISSION_SECRET" []).2 ++ (secret lookup "WEBHOOK_SECRET" []).2 ++
  (secret lookup "TICKET_SECRET" []).2 ++ (httpURL url_Parse lookup "FAKEPAY_URL" "http://localhost:8090" []).2 ++
  (httpURL url_Parse lookup "PUBLIC_BASE_URL" "http://localhost:8080" []).2 ++
  (distinctSecrets (list_to_map [("JWT_SECRET", (secret lookup "JWT_SECRET" []).1); ("ADMISSION_SECRET", (secret lookup "ADMISSION_SECRET" []).1);
    ("WEBHOOK_SECRET", (secret lookup "WEBHOOK_SECRET" []).1); ("TICKET_SECRET", (secret lookup "TICKET_SECRET" []).1)]) []).2 ++
  (telegram (value "TELEGRAM_BOT_TOKEN") (value "TELEGRAM_CHAT_ID") []).2.

Lemma parse_config_run : parse_config url_Parse lookup [] = (as_read, found).
Proof.
  unfold parse_config. repeat (rewrite bind_run by (intros; apply _); cbv beta zeta; cbn [fst snd app]).
  unfold ret. cbn [fst snd]. rewrite app_nil_r. reflexivity.
Qed.

Lemma found_wrong p : p ∈ found -> Wrong p.
Proof.
  unfold found. intros Hp. repeat (apply elem_of_app in Hp as [Hp|Hp]);
    first [apply required_problems in Hp|apply secret_problems in Hp|apply oneOf_problems in Hp|apply positiveInt_problems in Hp
          |apply duration_problems in Hp|apply boolean_problems in Hp|apply list_of_problems in Hp|apply httpURL_problems in Hp
          |apply telegram_problems in Hp|apply distinct_problems in Hp]; each_problem Hp; subst; wrong.
Qed.

(** Find the reader that reports a problem. *)
Ltac reported :=
  first [apply required_problems; pick|apply secret_problems; pick|apply oneOf_problems; pick|apply positiveInt_problems; pick
        |apply duration_problems; pick|apply boolean_problems; pick|apply list_of_problems; pick|apply httpURL_problems; pick
        |apply telegram_problems; pick|apply distinct_problems; pick].
Ltac locate :=
  lazymatch goal with
  | |- _ ∈ _ ++ _ => apply elem_of_app; first [left; reported|right; locate]
  | |- _ => reported
  end.

Lemma wrong_found p : Wrong p -> p ∈ found.
Proof. unfold found. intros Hw. destruct Hw; [members; locate|members; locate|locate|members; locate..]. Qed.

Lemma elem_of_found p : p ∈ found <-> Wrong p.
Proof. split; [apply found_wrong|apply wrong_found]. Qed.
End load.

(** ** An accepted configuration *)

Section valid.
Context (url_Parse : string -> option (string * string)) (lookup : string -> option string).
Abbreviation env := (get lookup).
Abbreviation text := (str lookup).
Abbreviation Wrong := (Wrong url_Parse lookup).

(** Where a value comes from, and what it satisfies. *)
Definition int_read (key : string) (def n : Z) : Prop :=
  match env key with Some v => ParseInt v = Some n | None => n = def end /\ 1 <= n <= MaxInt32.
Definition duration_read (key : string) (def : Z) (allowZero : bool) (d : Z) : Prop :=
  match env key with Some v => ParseDuration v = Some d | None => d = def end /\
  (0 < d \/ d = 0 /\ allowZero = true) /\ d <= int64_max.
Definition secret_read (key s : string) : Prop := env key = Some s /\ MinSecretLen <= Z.of_nat (String.length s).
Definition url_read (key def u : string) : Prop := u = TrimRight "/" (text key def) /\ is_http url_Parse u = true.

Record Valid (c : Config) : Prop := {
  va_AppEnv : AppEnv c = text "APP_ENV" EnvDev /\ AppEnv c ∈ [EnvDev; EnvProd];
  va_DatabaseURL : env "DATABASE_URL" = Some (DatabaseURL c);
  va_DBMaxConns : int_read "DB_MAX_CONNS" 20 (DBMaxConns c);
  va_RedisAddr : RedisAddr c = text "REDIS_ADDR" "localhost:6379";
  va_KafkaBrokers : KafkaBrokers c = entries (text "KAFKA_BROKERS" "localhost:19092") /\ KafkaBrokers c <> [];
  va_InventoryBackend : InventoryBackend c = text "INVENTORY_BACKEND" BackendRedis /\ InventoryBackend c ∈ [BackendPG; BackendRedis];
  va_HoldTTL : duration_read "HOLD_TTL" (600 * Second) false (HoldTTL c);
  va_HoldGrace : duration_read "HOLD_GRACE" (30 * Second) true (HoldGrace c);
  va_AdmissionTTL : duration_read "ADMISSION_TTL" (300 * Second) false (AdmissionTTL c);
  va_AdmitInterval : duration_read "ADMIT_INTERVAL" Second false (AdmitInterval c);
  va_AdmitBatch : int_read "ADMIT_BATCH" 200 (AdmitBatch c);
  va_ExpiryInterval : duration_read "EXPIRY_INTERVAL" (5 * Second) false (ExpiryInterval c);
  va_RequireAdmission : match env "REQUIRE_ADMISSION" with Some v => ParseBool v = Some (RequireAdmission c) | None => RequireAdmission c = true end;
  va_secrets : secret_read "JWT_SECRET" (JWTSecret c) /\ secret_read "ADMISSION_SECRET" (AdmissionSecret c) /\
    secret_read "WEBHOOK_SECRET" (WebhookSecret c) /\ secret_read "TICKET_SECRET" (TicketSecret c);
  va_distinct : NoDup [JWTSecret c; AdmissionSecret c; WebhookSecret c; TicketSecret c];
  va_urls : url_read "FAKEPAY_URL" "http://localhost:8090" (FakepayURL c) /\ url_read "PUBLIC_BASE_URL" "http://localhost:8080" (PublicBaseURL c);
  va_OTLP : OTLPEndpoint c = text "OTEL_EXPORTER_OTLP_ENDPOINT" EmptyString;
  va_telegram : TelegramBotToken c = text "TELEGRAM_BOT_TOKEN" EmptyString /\ TelegramChatID c = text "TELEGRAM_CHAT_ID" EmptyString /\
    (TelegramBotToken c = EmptyString <-> TelegramChatID c = EmptyString);
}.

Context (Hright : forall p, ~ Wrong p).

Lemma choice_valid key def allowed :
  (key, def, allowed) ∈ choices -> (oneOf lookup key def allowed []).1 = text key def /\ (oneOf lookup key def allowed []).1 ∈ allowed.
Proof.
  intros Hk. rewrite oneOf_value. split; [done|]. destruct (decide (text key def ∈ allowed)); [done|].
  exfalso. eapply Hright. by eapply wr_choice.
Qed.

Lemma int_valid key def :
  key ∈ ["DB_MAX_CONNS"; "ADMIT_BATCH"] -> 1 <= def <= MaxInt32 -> int_read key def (positiveInt lookup key def MaxInt32 []).1.
Proof.
  intros Hk Hd. unfold int_read. pose proof (positiveInt_value lookup key def MaxInt32) as Hv. cbv zeta in Hv.
  assert (Hr : forall v, env key = Some v -> ~ ~ exists n, good_int MaxInt32 v n) by (intros v He Hn; eapply Hright; by eapply wr_int).
  destruct (env key) as [v|]; [|by rewrite Hv].
  unfold good_int in *. destruct (ParseInt v) as [n|] eqn:Hp; [|exfalso; apply (Hr v eq_refl); naive_solver].
  destruct (decide (1 <= n <= MaxInt32)) as [Hn|Hn]; [apply Hv; eauto|]. exfalso. apply (Hr v eq_refl). naive_solver.
Qed.

Lemma duration_valid key def z :
  (key, z) ∈ durations_read -> (0 < def \/ def = 0 /\ z = true) -> def <= int64_max -> duration_read key def z (duration lookup key def z []).1.
Proof.
  intros Hk Hd Hmax. unfold duration_read. pose proof (duration_value lookup key def z) as Hv. cbv zeta in Hv.
  assert (Hr : forall v, env key = Some v -> ~ ~ exists d, good_duration z v d) by (intros v He Hn; eapply Hright; by eapply wr_duration).
  destruct (env key) as [v|]; [|by rewrite Hv].
  unfold good_duration in *. destruct (ParseDuration v) as [d|] eqn:Hp; [|exfalso; apply (Hr v eq_refl); naive_solver].
  pose proof (ParseDuration_range v d Hp) as Hrange. unfold in_int64 in Hrange. apply andb_prop in Hrange as [_ Hle%Z.leb_le].
  destruct (decide (0 < d \/ d = 0 /\ z = true)) as [Hn|Hn]; [|exfalso; apply (Hr v eq_refl); naive_solver].
  destruct Hv as [Hv Hpos]; [eauto|]. injection Hv as <-. done.
Qed.

Lemma required_valid key : key ∈ "DATABASE_URL" :: secret_keys -> env key = Some (text key EmptyString).
Proof.
  intros Hk. unfold str. destruct (env key) eqn:He; [done|]. exfalso. eapply Hright. by eapply wr_required.
Qed.

Lemma secret_valid key : key ∈ secret_keys -> secret_read key (secret lookup key []).1.
Proof.
  intros Hk. rewrite secret_value. assert (env key = Some (text key EmptyString)) as Hs by (apply required_valid; by right).
  split; [done|]. apply Z.nlt_ge. intros Hl. eapply Hright. by eapply wr_short.
Qed.

Lemma secrets_differ key other : key ∈ secret_keys -> other ∈ secret_keys -> key <> other -> text key EmptyString <> text other EmptyString.
Proof.
  intros Hk Ho Hne He.
  assert (Hnot : forall k, k ∈ secret_keys -> first_with (fun k => text k EmptyString) secret_keys (text k EmptyString) = Some k).
  { intros k Hin. destruct (first_with _ _ _) as [o|] eqn:Hf.
    - destruct (decide (o = k)) as [->|Hok]; [done|]. exfalso. eapply Hright. eapply wr_same; [exact Hin| |exact Hok|exact Hf].
      assert (env k = Some (text k EmptyString)) as Hs by (apply required_valid; by right). intros Hemp.
      destruct (secret_valid k Hin) as [Hs' Hl]. rewrite secret_value, Hemp in Hl. cbn in Hl. unfold MinSecretLen in Hl. lia.
    - exfalso. unfold first_with in Hf. apply head_None in Hf. assert (k ∈ @nil string) as Hnil; [|by apply not_elem_of_nil in Hnil].
      rewrite <- Hf. by apply list_elem_of_filter. }
  pose proof (Hnot key Hk) as H1. rewrite He, (Hnot other Ho) in H1. congruence.
Qed.

Lemma url_valid key def : (key, def) ∈ urls -> url_read key def (httpURL url_Parse lookup key def []).1.
Proof.
  intros Hk. rewrite httpURL_value. split; [done|]. destruct (is_http _ _) eqn:Hh; [done|]. exfalso. eapply Hright. by eapply wr_url.
Qed.

Lemma as_read_valid : Valid (as_read url_Parse lookup).
Proof.
  split; cbn [AppEnv DatabaseURL DBMaxConns RedisAddr KafkaBrokers InventoryBackend HoldTTL HoldGrace AdmissionTTL AdmitInterval AdmitBatch
    ExpiryInterval RequireAdmission JWTSecret AdmissionSecret WebhookSecret TicketSecret FakepayURL PublicBaseURL OTLPEndpoint
    TelegramBotToken TelegramChatID as_read]; try done.
  - apply choice_valid. mem.
  - rewrite required_value. apply required_valid. mem.
  - pose proof (int_valid "DB_MAX_CONNS" 20 ltac:(mem) ltac:(unfold MaxInt32; lia)) as Hi. rewrite wrap32_id; [done|].
    destruct Hi as [_ Hi]. unfold MaxInt32 in *. lia.
  - rewrite list_of_value. split; [done|]. intros He. eapply Hright, wr_brokers, He.
  - apply choice_valid. mem.
  - apply duration_valid; [mem|unfold Second, int64_max; lia..].
  - apply duration_valid; [mem|unfold Second, int64_max; lia..].
  - apply duration_valid; [mem|unfold Second, int64_max; lia..].
  - apply duration_valid; [mem|unfold Second, int64_max; lia..].
  - apply int_valid; [mem|unfold MaxInt32; lia].
  - apply duration_valid; [mem|unfold Second, int64_max; lia..].
  - pose proof (boolean_value lookup "REQUIRE_ADMISSION" true) as Hb. destruct (env "REQUIRE_ADMISSION") as [v|] eqn:Hv; [|done].
    apply Hb. intros Hn. eapply Hright. by eapply wr_bool.
  - split_and!; apply secret_valid; mem.
  - rewrite !secret_value. apply (NoDup_fmap_2_strong (fun k => text k EmptyString) secret_keys); [|mem].
    intros k o Hk Ho He. destruct (decide (k = o)) as [|Hne]; [done|]. by destruct (secrets_differ k o Hk Ho Hne).
  - split; apply url_valid; mem.
  - split_and!; [done..|]. destruct (decide (text "TELEGRAM_BOT_TOKEN" EmptyString = EmptyString)) as [He|He],
      (decide (text "TELEGRAM_CHAT_ID" EmptyString = EmptyString)) as [Hc|Hc]; try done; exfalso; eapply Hright, wr_telegram; naive_solver.
Qed.
End valid.

(** Two configurations that differ in secrets only give the same log line. *)
Definition with_secrets (jwt admission webhook ticket token chat : string) (c : Config) : Config :=
  mkConfig (AppEnv c) (DatabaseURL c) (DBMaxConns c) (RedisAddr c) (KafkaBrokers c) (InventoryBackend c) (HoldTTL c) (HoldGrace c) (AdmissionTTL c)
    (AdmitInterval c) (AdmitBatch c) (ExpiryInterval c) (RequireAdmission c) jwt admission webhook ticket (FakepayURL c) (PublicBaseURL c)
    (OTLPEndpoint c) token chat.

Lemma log_hides_secrets url_Parse url_Redacted jwt admission webhook ticket token chat c :
  (token = EmptyString <-> TelegramBotToken c = EmptyString) ->
  LogValue url_Parse url_Redacted (with_secrets jwt admission webhook ticket token chat c) = LogValue url_Parse url_Redacted c.
Proof. intros Ht. unfold LogValue. cbn. by rewrite (bool_decide_ext _ _ Ht). Qed.

(** ** The gateway's settings *)

Section gateway.
Context (url_Parse : string -> option (string * string)) (lookup : string -> option string) (ParseFloat : string -> option float64).

#[global] Instance millis_adds key def : Adds (millis lookup key def).
Proof. unfold millis. repeat (case_match || apply _). Qed.
#[global] Instance rate_adds key def : Adds (rate lookup ParseFloat key def).
Proof. unfold rate. repeat (case_match || apply _). Qed.

Definition probability (f : float64) : Prop := IsNaN f = false /\ flt f (float64_of 0) = false /\ flt (float64_of 1) f = false.

Lemma millis_value key def :
  0 <= def <= int64_max / 1000000 -> 0 <= (millis lookup key def []).1 <= int64_max.
Proof.
  unfold millis, int64_max. intros Hd. change ((2 ^ 63 - 1) / 1000000) with 9223372036854 in *. destruct (get lookup key) as [v|]; [|cbn; lia].
  destruct (ParseInt v) as [n|]; [|cbn; lia]. destruct (Z.ltb_spec n 0), (Z.ltb_spec 9223372036854 n); cbn [orb fst]; try (cbn; lia).
  unfold ret. cbn [fst]. rewrite wrap64_id; [lia|]. unfold in_int64, int64_min, int64_max. lia.
Qed.

Lemma rate_value key def : probability def -> probability (rate lookup ParseFloat key def []).1.
Proof.
  unfold rate. intros Hd. destruct (get lookup key) as [v|]; [|done]. destruct (ParseFloat v) as [f|]; [|done].
  destruct (IsNaN f || flt f (float64_of 0) || flt (float64_of 1) f) eqn:Hf; [done|]. apply orb_false_elim in Hf as [[H1 H2]%orb_false_elim H3]. done.
Qed.

(** What an accepted configuration of the gateway satisfies. *)
Record FakepayValid (c : Fakepay) : Prop := {
  fv_secret : secret_read lookup "WEBHOOK_SECRET" (fp_WebhookSecret c);
  fv_delays : 0 <= fp_DelayMin c <= fp_DelayMax c /\ fp_DelayMax c <= int64_max;
  fv_late : 0 <= fp_LateExtra c <= int64_max;
  fv_rates : probability (fp_DuplicateRate c) /\ probability (fp_LateRate c) /\ probability (fp_FailRate c);
  fv_urls : url_read url_Parse lookup "FAKEPAY_URL" "http://localhost:8090" (fp_PublicURL c) /\
    url_read url_Parse lookup "PUBLIC_BASE_URL" "http://localhost:8080" (fp_CallbackPrefix c);
}.

Lemma secret_clean key : (secret lookup key []).2 = [] -> secret_read lookup key (secret lookup key []).1.
Proof.
  unfold secret, secret_read. destruct (get lookup key) as [v|]; [|done]. destruct (Z.ltb_spec (Z.of_nat (String.length v)) MinSecretLen); done.
Qed.
Lemma url_clean key def : (httpURL url_Parse lookup key def []).2 = [] -> url_read url_Parse lookup key def (httpURL url_Parse lookup key def []).1.
Proof. unfold httpURL, url_read. destruct (is_http _ _) eqn:Hh; done. Qed.

Lemma LoadFakepay_valid c : LoadFakepay url_Parse lookup ParseFloat = Ok c -> FakepayValid c.
Proof.
  unfold LoadFakepay, parse_fakepay. repeat (rewrite bind_run by (intros; apply _); cbv beta zeta; cbn [fst snd app]).
  destruct ((_ ++ _)%list : list Problem) as [|p ps] eqn:Hps; [|done]. intros [= <-].
  repeat (apply app_eq_nil in Hps as [? Hps]). cbn [fst snd ret] in *.
  split; cbn [fp_WebhookSecret fp_PublicURL fp_DelayMin fp_DelayMax fp_DuplicateRate fp_LateRate fp_LateExtra fp_FailRate fp_CallbackPrefix].
  - by apply secret_clean.
  - pose proof (millis_value "FAKEPAY_DELAY_MS_MIN" 100 ltac:(by vm_compute)).
    pose proof (millis_value "FAKEPAY_DELAY_MS_MAX" 2000 ltac:(by vm_compute)).
    match goal with H : context [if ?b then fail DelaysReversed else _] |- _ => destruct b eqn:Hb; [discriminate H|] end. apply Z.ltb_ge in Hb. lia.
  - apply millis_value. by vm_compute.
  - split_and!; apply rate_value; vm_compute; done.
  - split; by apply url_clean.
Qed.
End gateway.

(** ** On concrete environments *)

(** [scheme://host...] *)
Fixpoint cut_scheme (s : string) : option (string * string) :=
  match s with
  | String ":" (String "/" (String "/" t)) => Some (EmptyString, t)
  | String c t => '(u, r) ← cut_scheme t; Some (String c u, r)
  | EmptyString => None
  end.
Definition simple_url (s : string) : option (string * string) := cut_scheme s.
Definition environment (l : list (string * string)) (key : string) : option string := (list_to_map l : gmap string string) !! key.

Definition secret_a : string := "aaaaaaaaaaaaaaaaaaaaaaaaaaaaaaaa".
Definition secret_b : string := "bbbbbbbbbbbbbbbbbbbbbbbbbbbbbbbb".
Definition secret_c : string := "cccccccccccccccccccccccccccccccc".
Definition secret_d : string := "dddddddddddddddddddddddddddddddd".
Definition good_environment : string -> option string :=
  environment [("DATABASE_URL", " postgres://db "); ("JWT_SECRET", secret_a); ("ADMISSION_SECRET", secret_b); ("WEBHOOK_SECRET", secret_c);
    ("TICKET_SECRET", secret_d); ("HOLD_TTL", "15m"); ("HOLD_GRACE", "0"); ("FAKEPAY_URL", "https://pay//")].

Example good_loads :
  (fun c => (AppEnv c, DatabaseURL c, DBMaxConns c, HoldTTL c, HoldGrace c, FakepayURL c)) <$>
    match Load simple_url good_environment with Ok c => Some c | Err _ => None end =
  Some ("dev", "postgres://db", 20, 900 * Second, 0, "https://pay").
Proof. vm_compute. reflexivity. Qed.

(** Every problem of a bad environment is reported at once. *)
Example bad_reports :
  match Load simple_url (environment [("DB_MAX_CONNS", "2147483648"); ("HOLD_TTL", "0s"); ("JWT_SECRET", secret_a); ("ADMISSION_SECRET", secret_a);
    ("WEBHOOK_SECRET", "short"); ("KAFKA_BROKERS", " , "); ("TELEGRAM_CHAT_ID", "1")]) with Ok _ => [] | Err ps => ps end =
  [IsRequired "DATABASE_URL"; NotAnInteger "DB_MAX_CONNS" MaxInt32 "2147483648"; NoEntry "KAFKA_BROKERS"; NotADuration "HOLD_TTL" "0s";
   TooShort "WEBHOOK_SECRET" 32; IsRequired "TICKET_SECRET"; MustDiffer "ADMISSION_SECRET" "JWT_SECRET"; TelegramHalf].
Proof. vm_compute. reflexivity. Qed.

(** ** Properties *)

(** C36. An accepted configuration is a sound one, and a rejected one is
    reported completely. When Load accepts the environment, every value is the
    one the environment gives (or the default), the numbers and durations are
    in range without overflow, the four secrets are long enough and pairwise
    different, the URLs are absolute, and Telegram is configured completely or
    not at all; when it does not, the problems reported are exactly the ones
    the environment has. *)
Theorem settings_checked (url_Parse : string -> option (string * string)) (lookup : string -> option string) :
  match Load url_Parse lookup with
  | Ok c => Valid url_Parse lookup c /\ forall p, ~ Wrong url_Parse lookup p
  | Err ps => ps <> [] /\ forall p, p ∈ ps <-> Wrong url_Parse lookup p
  end.
Proof.
  unfold Load. rewrite parse_config_run. pose proof (elem_of_found url_Parse lookup) as Hf.
  destruct (found url_Parse lookup) as [|p ps]; [|by split].
  assert (forall p, ~ Wrong url_Parse lookup p) as Hw by (intros p Hp%Hf; by apply not_elem_of_nil in Hp).
  split; [by apply as_read_valid|done].
Qed.
