(* ===== verification/Deployed.v ===== *)
(** * The gateway as deployed (cmd/fakepay/main.go)

    What the checks of [LoadFakepay] mean for the deliveries of the gateway it
    configures. *)

From S2P Require Import Prelude GoLib Effects World Fakepay Float Settings.
Local Open Scope tr_scope.

(** The configuration [run] passes on; the number of resends and their first
    wait are left to [New]. *)
Definition gateway_config (cfg : Settings.Fakepay) : Fakepay.Config :=
  Fakepay.mkConfig (fp_WebhookSecret cfg) (fp_PublicURL cfg) (fp_DelayMin cfg) (fp_DelayMax cfg) (fp_LateExtra cfg) 0 0 (fp_CallbackPrefix cfg).

(** What math/rand can draw: [Int64N(span + 1)] and [IntN(3)]. *)
Definition drawn (c : Fakepay.Config) (dr : Draws) : Prop :=
  0 <= dr_delay dr <= fc_DelayMax c - fc_DelayMin c /\ forall n, dr_duplicates dr = Some n -> 0 <= n < 3.

(** The delay before a delivery, whatever is drawn: the sum for a late one is
    that of two durations, so it may wrap around. *)
Lemma delay_exact (c : Fakepay.Config) (dr : Draws) :
  0 <= fc_DelayMin c <= fc_DelayMax c -> fc_DelayMax c <= int64_max -> 0 <= fc_LateExtra c <= int64_max -> drawn c dr ->
  exists wait, fc_DelayMin c <= wait <= fc_DelayMax c /\
    if dr_late dr then
      wait + fc_LateExtra c <= int64_max /\ delivery_delay c dr = wait + fc_LateExtra c \/
      int64_max < wait + fc_LateExtra c /\ delivery_delay c dr < 0
    else delivery_delay c dr = wait.
Proof.
  unfold delivery_delay, add64, int64_max. intros Hs Hm Hl [Hd _]. exists (fc_DelayMin c + dr_delay dr). split; [lia|].
  rewrite (wrap64_id (fc_DelayMax c - _)) by (unfold in_int64, int64_min, int64_max; lia).
  replace (if 0 <? _ then wrap64 (fc_DelayMin c + dr_delay dr) else fc_DelayMin c) with (fc_DelayMin c + dr_delay dr).
  2:{ destruct (Z.ltb_spec 0 (fc_DelayMax c - fc_DelayMin c)); [|lia]. by rewrite wrap64_id by (unfold in_int64, int64_min, int64_max; lia). }
  destruct (dr_late dr); [|done]. destruct (Z_le_gt_dec (fc_DelayMin c + dr_delay dr + fc_LateExtra c) (2 ^ 63 - 1)) as [Hf|Hf]; [left|right; split; [lia|]].
  - by rewrite wrap64_id by (unfold in_int64, int64_min, int64_max; lia).
  - unfold wrap64. rewrite <- (Z.mod_unique_pos _ _ 1 (fc_DelayMin c + dr_delay dr + fc_LateExtra c + 2 ^ 63 - 2 ^ 64)); lia.
Qed.

(** C38. The gateway stays within its settings. Once LoadFakepay accepts the
    environment, then for every draw: a delivery waits between
    FAKEPAY_DELAY_MS_MIN and FAKEPAY_DELAY_MS_MAX, and a late one
    FAKEPAY_LATE_EXTRA_MS longer - except when that sum exceeds the largest
    duration (int64 nanoseconds), which the accepted settings allow: then it
    wraps around and the late delivery does not wait at all. One to four
    copies are sent; each is posted at most nine times and spends at most 255
    seconds between its posts, whatever booking answers. *)
Theorem gateway_within_settings {R : Type} (url_Parse : string -> option (string * string)) (lookup : string -> option string)
    (ParseFloat : string -> option float64) (cfg : Settings.Fakepay) (dr : Draws) (post : prog (World R) (res GoErr Z))
    (forced awake : list bool) (w : World R)
    (Hload : LoadFakepay url_Parse lookup ParseFloat = Ok cfg) (Hdraws : drawn (gateway_config cfg) dr)
    (Hpost : forall w, redis_now (run post w).2 = redis_now w) :
  let c := New (gateway_config cfg) in
  let r := run (sendWithRetry post (Z.to_nat (fc_MaxResends c)) (fc_RetryBase c) forced awake) w in
  (exists wait, 0 <= fp_DelayMin cfg <= wait /\ wait <= fp_DelayMax cfg /\
     if dr_late dr then
       wait + fp_LateExtra cfg <= int64_max /\ delivery_delay c dr = wait + fp_LateExtra cfg \/
       int64_max < wait + fp_LateExtra cfg /\ delivery_delay c dr < 0
     else delivery_delay c dr = wait) /\
  1 <= delivery_copies dr <= 4 /\
  1 <= Z.of_nat r.1.1 <= 9 /\
  redis_now w <= redis_now r.2 <= redis_now w + 255 * 1000.
Proof.
  destruct (LoadFakepay_valid _ _ _ _ Hload) as [_ [Hd Hmax] Hlate _ _]. destruct (Hdraws) as [_ Hdup]. intros c r.
  split; [|split].
  - destruct (delay_exact (gateway_config cfg) dr Hd Hmax Hlate Hdraws) as (wait & Hw & Hdelay). exists wait. cbn in Hw. split; [lia|]. split; [lia|exact Hdelay].
  - unfold delivery_copies. destruct (dr_duplicates dr) as [n|]; [specialize (Hdup n eq_refl)|]; lia.
  - destruct (sends_bound post 8 Second forced awake w Hpost) as (H1 & H2 & H3); [done|by vm_compute|].
    change (run (sendWithRetry post 8 Second forced awake) w) with r in *. unfold Second in H3. change (2 ^ Z.of_nat 8 - 1) with 255 in H3. lia.
Qed.

(** The two settings are checked one by one: with both near the largest
    duration, a late delivery is not delayed at all. *)
Definition huge_delays : string -> option string :=
  environment [("WEBHOOK_SECRET", secret_c); ("FAKEPAY_DELAY_MS_MIN", "9223372036854"); ("FAKEPAY_DELAY_MS_MAX", "9223372036854");
    ("FAKEPAY_LATE_EXTRA_MS", "9223372036854")].

Lemma late_delay_wraps :
  match LoadFakepay simple_url huge_delays (fun _ => None) with
  | Ok cfg => delivery_delay (New (gateway_config cfg)) (mkDraws 0 true None true) < 0
  | Err _ => False
  end.
Proof. vm_compute. reflexivity. Qed.

(** A delivery under the default settings, with booking down. *)
Lemma gateway_within_settings_witness : exists cfg : Settings.Fakepay,
  LoadFakepay simple_url (environment [("WEBHOOK_SECRET", secret_c)]) (fun _ => None) = Ok cfg /\
  100000000 <= delivery_delay (New (gateway_config cfg)) (mkDraws 1000000 true (Some 1) true) <= 662000000000 /\
  delivery_copies (mkDraws 1000000 true (Some 1) true) = 3.
Proof.
  destruct (LoadFakepay simple_url (environment [("WEBHOOK_SECRET", secret_c)]) (fun _ => None)) as [cfg|ps] eqn:Hload; [|vm_compute in Hload; discriminate Hload].
  exists cfg. split; [reflexivity|]. pose proof Hload as Hval. vm_compute in Hval. injection Hval as Hval.
  destruct (gateway_within_settings (R := unit) simple_url (environment [("WEBHOOK_SECRET", secret_c)]) (fun _ => None) cfg
    (mkDraws 1000000 true (Some 1) true) (Ret (Err EInfra)) [] [] (mkWorld empty_PG ∅ 1 tt 0 0 ∅ (mkGateway ∅ ∅ ∅ []) [] ∅ [] [] [] [])) as ((wait & Hw1 & Hw2 & Hd) & _).
  - exact Hload.
  - subst cfg. split; [cbn; lia|intros n [= <-]; lia].
  - reflexivity.
  - split; [|reflexivity]. subst cfg. cbn [dr_late] in Hd. cbn [fp_DelayMin fp_DelayMax fp_LateExtra] in Hw1, Hw2, Hd. unfold int64_max in Hd. lia.
Defined.
