(* ===== verification/Caches.v ===== *)
(** * The in-process caches of booking (cmd/booking/caches.go, cmd/booking/seatmap_cache.go)

    Times are the process' clock. Go ranges over a map in any order: the keys
    in the order they are visited are an argument. *)

From S2P Require Import Prelude GoLib Crypto Effects World Text.
Local Open Scope tr_scope.

(** ** Payment links *)

Record cachedLink := mkLink { link_url : string; link_until : Z }.
Record paymentLinkCache := mkLinks { links_max : nat; links : gmap UUID cachedLink }.

Definition newPaymentLinkCache (max : nat) : paymentLinkCache := mkLinks max ∅.

Definition links_get (c : paymentLinkCache) (now : Z) (orderID : UUID) : option string :=
  match links c !! orderID with
  | None => None
  | Some l => if negb (now <? link_until l) then None else Some (link_url l)
  end.

(** [for id := range m { if len(m) < max { break }; delete(m, id) }] *)
Fixpoint make_room {A} (max : nat) (visited : list UUID) (m : gmap UUID A) : gmap UUID A :=
  match visited with
  | [] => m
  | id :: visited => if Nat.ltb (size m) max then m else make_room max visited (delete id m)
  end.

Definition links_put (c : paymentLinkCache) (now : Z) (visited : list UUID) (orderID : UUID) (url : string) (until : Z) : paymentLinkCache :=
  let m :=
    if Nat.leb (links_max c) (size (links c))
    then make_room (links_max c) visited (filter (fun e : UUID * cachedLink => now < link_until e.2) (links c))
    else links c in
  mkLinks (links_max c) (<[orderID := mkLink url until]> m).

(** ** QR images *)

Record qrCache := mkQRs { qrs_max : nat; pngs : gmap UUID Bytes }.
Definition newQRCache (max : nat) : qrCache := mkQRs max ∅.
Definition qrs_get (c : qrCache) (ticketID : UUID) : option Bytes := pngs c !! ticketID.
Definition qrs_put (c : qrCache) (visited : list UUID) (ticketID : UUID) (png : Bytes) : qrCache :=
  mkQRs (qrs_max c) (<[ticketID := png]> (make_room (qrs_max c) visited (pngs c))).

(** ** Seat maps *)

Record renderedSeatMap := mkRendered { rd_body : Bytes; rd_etag : string }.
Record seatMapEntry := mkSeatMapEntry { sme_plain : Bytes; sme_gzipped : Bytes; sme_etag : string; sme_expires : Z }.

Section seatmaps.
Context {R : Type} (gzipBytes : Bytes -> res GoErr Bytes) (clock : World R -> Z) (ttl : Z)
  (load : Z -> prog (World R) (res GoErr renderedSeatMap)).

(** The load that replaces an entry. *)
Definition load_entry (entries : gmap Z seatMapEntry) (eventID : Z)
  : prog (World R) (res GoErr seatMapEntry * gmap Z seatMapEntry) :=
  let! r := load eventID in
  match r with
  | Err err => Ret (Err err, entries)
  | Ok r =>
      match gzipBytes (rd_body r) with
      | Err err => Ret (Err err, entries)
      | Ok gz =>
          let! now := act (fun w => (clock w, w)) in
          let e := mkSeatMapEntry (rd_body r) gz (rd_etag r) (now + ttl) in
          Ret (Ok e, <[eventID := e]> entries)
      end
  end.

(** Concurrent requests share one load (singleflight); each of them gets the
    entry of a load, as here. *)
Definition seatMaps_get (entries : gmap Z seatMapEntry) (eventID : Z)
  : prog (World R) (res GoErr seatMapEntry * gmap Z seatMapEntry) :=
  let! now := act (fun w => (clock w, w)) in
  match entries !! eventID with
  | Some e => if now <? sme_expires e then Ret (Ok e, entries) else load_entry entries eventID
  | None => load_entry entries eventID
  end.
End seatmaps.

(** ** Entity tags *)

Definition quoted (s : string) : string := String dquote (s +:+ String dquote EmptyString).
Definition versionETag (version : Z) : string := "W/" +:+ quoted ("v" +:+ FormatInt version).
Definition contentETag (body : Bytes) : string := "W/" +:+ quoted ("h" +:+ hex_EncodeToString (take 8 (Sha256.Sum256 body))).

Definition etagMatches (ifNoneMatch etag : string) : bool :=
  if bool_decide (ifNoneMatch = EmptyString) || bool_decide (etag = EmptyString) then false
  else
    let want := TrimPrefix "W/" etag in
    existsb (fun candidate =>
      let candidate := TrimSpace candidate in
      bool_decide (candidate = "*") || bool_decide (TrimPrefix "W/" candidate = want)) (Split "," ifNoneMatch).

(** [acceptsGzip] of the Accept-Encoding header: the first part that names
    gzip decides. *)
Definition acceptsGzip (header : string) : bool :=
  let is_gzip part := EqualFold (TrimSpace (Cut ";" (TrimSpace part)).1) "gzip" in
  match List.find is_gzip (Split "," header) with
  | None => false
  | Some part =>
      let q := remove_char " " (TrimSpace (Cut ";" (TrimSpace part)).2) in
      negb (bool_decide (q = "q=0")) && negb (bool_decide (q = "q=0.0")) &&
      negb (bool_decide (q = "q=0.00")) && negb (bool_decide (q = "q=0.000"))
  end.

(** ** Facts *)

Section room.
Context {A : Type}.
Implicit Types m : gmap UUID A.

Lemma make_room_sub max visited m id x : make_room max visited m !! id = Some x -> m !! id = Some x.
Proof.
  revert m. induction visited as [|v visited IH]; intros m; cbn [make_room]; [done|].
  destruct (Nat.ltb _ _); [done|]. intros Hx%IH. by apply lookup_delete_Some in Hx as [_ Hx].
Qed.

Lemma make_room_size max visited m :
  (0 < max)%nat -> (forall id, is_Some (m !! id) -> id ∈ visited) -> (size (make_room max visited m) < max)%nat.
Proof.
  intros Hmax. revert m. induction visited as [|v visited IH]; intros m Hv; cbn [make_room].
  - assert (m = ∅) as ->; [|by rewrite map_size_empty]. apply map_empty. intros id.
    destruct (m !! id) eqn:Hm; [|done]. assert (id ∈ @nil UUID) as Hin by (apply Hv; eauto). by apply elem_of_nil in Hin.
  - destruct (Nat.ltb_spec (size m) max); [done|]. apply IH. intros id [x Hx]. apply lookup_delete_Some in Hx as [Hne Hx].
    assert (id ∈ v :: visited) as Hin by (apply Hv; eauto). by apply elem_of_cons in Hin as [->|Hin].
Qed.

Lemma insert_size m id x : (size (<[id := x]> m) <= S (size m))%nat.
Proof.
  destruct (m !! id) eqn:Hm; [rewrite map_size_insert_Some by (by rewrite Hm)|rewrite map_size_insert_None by done]; lia.
Qed.
End room.

Section seatmap_facts.
Context {R : Type} (gzipBytes : Bytes -> res GoErr Bytes) (clock : World R -> Z) (ttl : Z)
  (load : Z -> prog (World R) (res GoErr renderedSeatMap)).
Context (Hload : forall eventID w, clock w <= clock (run (load eventID) w).2) (Httl : 0 < ttl).

(** No entry outlives its TTL. *)
Definition fresh_entries (entries : gmap Z seatMapEntry) (w : World R) : Prop :=
  forall id e, entries !! id = Some e -> sme_expires e <= clock w + ttl.

Lemma load_entry_fresh entries eventID w :
  fresh_entries entries w ->
  let '(r, entries', w') := run (load_entry gzipBytes clock ttl load entries eventID) w in
  fresh_entries entries' w' /\ clock w <= clock w' /\
  (forall e, r = Ok e -> sme_expires e = clock w' + ttl /\ entries' !! eventID = Some e).
Proof.
  intros Hf. unfold load_entry. rewrite run_bind. pose proof (Hload eventID w) as Hc.
  destruct (run (load eventID) w) as [[r|err] w1]; cbn [fst snd] in *.
  - destruct (gzipBytes (rd_body r)) as [gz|err]; cbn.
    + split; [|split; [done|]]; [|intros e [= <-]; split; [done|apply lookup_insert_eq]].
      intros id e [[<- <-]|[_ He]]%lookup_insert_Some; [done|]. specialize (Hf _ _ He). lia.
    + split; [|done]. intros id e He. specialize (Hf _ _ He). lia.
  - cbn. split; [|done]. intros id e He. specialize (Hf _ _ He). lia.
Qed.
End seatmap_facts.

(** ** Properties *)

(** The caches stay small and say nothing false: whatever order the map is
    visited in, a cache that holds at most [max] entries still does after a
    put; the entry just put is found, a payment link until its order's hold
    ends and not from then on; and an entry found for another key was there
    before. *)
Theorem caches_bounded (c : paymentLinkCache) (q : qrCache) (now until : Z) (visited : list UUID) (id : UUID) (url : string) (png : Bytes)
    (Hc : (0 < links_max c)%nat) (Hsize : (size (links c) <= links_max c)%nat)
    (Hvisited : forall i, is_Some (links c !! i) -> i ∈ visited)
    (Hq : (0 < qrs_max q)%nat) (Hpngs : forall i, is_Some (pngs q !! i) -> i ∈ visited) :
  let c' := links_put c now visited id url until in
  let q' := qrs_put q visited id png in
  (size (links c') <= links_max c')%nat /\ links_max c' = links_max c /\
  (forall t, links_get c' t id = if t <? until then Some url else None) /\
  (forall t i u, i <> id -> links_get c' t i = Some u -> links_get c t i = Some u) /\
  (size (pngs q') <= qrs_max q')%nat /\ qrs_get q' id = Some png /\
  (forall i p, i <> id -> qrs_get q' i = Some p -> qrs_get q i = Some p).
Proof.
  cbv zeta. unfold links_put, qrs_put, links_get, qrs_get. cbn [links links_max pngs qrs_max].
  set (m := if Nat.leb _ _ then _ else _).
  assert ((size m < links_max c)%nat /\ forall i l, m !! i = Some l -> links c !! i = Some l) as [Hm Hsub].
  { subst m. destruct (Nat.leb_spec (links_max c) (size (links c))) as [Hfull|Hroom]; [|done]. split.
    - apply make_room_size; [done|]. intros i [l Hl]. apply map_lookup_filter_Some in Hl as [Hl _]. eauto.
    - intros i l Hl%make_room_sub. by apply map_lookup_filter_Some in Hl as [Hl _]. }
  split; [pose proof (insert_size m id (mkLink url until)); lia|]. split; [done|].
  split; [intros t; rewrite lookup_insert_eq; cbn; by destruct (t <? until)|]. split; [|split; [|split]].
  - intros t i u Hne. rewrite lookup_insert_ne by done. destruct (m !! i) as [l|] eqn:Hl; [|done]. by rewrite (Hsub i l Hl).
  - pose proof (make_room_size (qrs_max q) visited (pngs q) Hq Hpngs).
    pose proof (insert_size (make_room (qrs_max q) visited (pngs q)) id png). lia.
  - apply lookup_insert_eq.
  - intros i p Hne. rewrite lookup_insert_ne by done. apply make_room_sub.
Qed.

(** A seat map is served for at most its TTL: an entry that is answered has
    not expired, was loaded less than the TTL ago, and a request within the TTL
    of a load is answered with that very entry without loading again. *)
Theorem seat_map_fresh {R : Type} (gzipBytes : Bytes -> res GoErr Bytes) (clock : World R -> Z) (ttl : Z)
    (load : Z -> prog (World R) (res GoErr renderedSeatMap)) (entries : gmap Z seatMapEntry) (eventID : Z) (w : World R)
    (Hload : forall eventID w, clock w <= clock (run (load eventID) w).2) (Httl : 0 < ttl)
    (Hentries : fresh_entries clock ttl entries w) :
  let '(r, entries', w') := run (seatMaps_get gzipBytes clock ttl load entries eventID) w in
  fresh_entries clock ttl entries' w' /\
  forall e, r = Ok e ->
    clock w < sme_expires e <= clock w' + ttl /\
    forall v, clock v < sme_expires e -> run (seatMaps_get gzipBytes clock ttl load entries' eventID) v = (Ok e, entries', v).
Proof.
  assert (Hhit : forall es e v, es !! eventID = Some e -> clock v < sme_expires e ->
    run (seatMaps_get gzipBytes clock ttl load es eventID) v = (Ok e, es, v)).
  { intros es e v He Hv. unfold seatMaps_get. rewrite run_bind, run_act. cbn [fst snd]. rewrite He.
    by destruct (Z.ltb_spec (clock v) (sme_expires e)); [|lia]. }
  assert (Hmiss : forall es, run (seatMaps_get gzipBytes clock ttl load es eventID) w =
    match es !! eventID with
    | Some e => if clock w <? sme_expires e then (Ok e, es, w) else run (load_entry gzipBytes clock ttl load es eventID) w
    | None => run (load_entry gzipBytes clock ttl load es eventID) w
    end).
  { intros es. unfold seatMaps_get. rewrite run_bind, run_act. cbn [fst snd]. destruct (es !! eventID); [|done]. by destruct (_ <? _). }
  rewrite Hmiss. pose proof (load_entry_fresh gzipBytes clock ttl load Hload entries eventID w Hentries) as Hl.
  assert (Hloaded : let '(r, es, w') := run (load_entry gzipBytes clock ttl load entries eventID) w in
    fresh_entries clock ttl es w' /\ forall e, r = Ok e -> clock w < sme_expires e <= clock w' + ttl /\
      forall v, clock v < sme_expires e -> run (seatMaps_get gzipBytes clock ttl load es eventID) v = (Ok e, es, v)).
  { destruct (run (load_entry _ _ _ _ _ _) w) as [[r es] w']. destruct Hl as (H1 & H2 & H3). split; [done|].
    intros e He. destruct (H3 e He) as [Hx Hin]. split; [lia|]. intros v. by apply Hhit. }
  destruct (entries !! eventID) as [e|] eqn:He; [|done]. destruct (Z.ltb_spec (clock w) (sme_expires e)) as [Hlt|_]; [|done].
  split; [done|]. intros e' [= <-]. split; [split; [done|by apply (Hentries eventID)]|]. intros v. by apply Hhit.
Qed.
