(* ===== verification/Booking.v ===== *)
(** * The booking API (cmd/booking/api.go)

    The handlers, from the request's parts they read (headers, path parameters,
    decoded or raw body) to the reply. Outside the repository: the QR image
    library ([PNG]) and net/url; the JSON texts of requests and of the seat map
    ([Decode_order], [Decode_login], [Unmarshal_webhook], [Marshal_seats]) are
    encoding/json,
    [gzipBytes] compress/gzip, and [keys] the order Go visits a map in. *)

From S2P Require Import Prelude GoLib Crypto Effects OrderState CatalogEvent World Auth Frame OrderDB.
From S2P Require Import Float Inventory Catalog Payment OrderRequest OrderService OrderPayment OrderTickets Http Fakepay Text Caches.
Local Open Scope tr_scope.

Record api (R : Type) := mkApi {
  api_tokens : Tokens;
  api_orders : Service R;
  api_inventory : Inventory R;
  api_versioner : option (Z -> prog (World R) (res GoErr Z));
  api_payments : option Config;
  api_webhookSecret : string;
  api_callbackURL : string;
  api_devLogin : bool;
  api_admissions : option AdmissionTokens;
  api_clock : World R -> Z;
}.
Arguments api_tokens {R}. Arguments api_orders {R}. Arguments api_inventory {R}. Arguments api_versioner {R}.
Arguments api_payments {R}. Arguments api_webhookSecret {R}. Arguments api_callbackURL {R}. Arguments api_devLogin {R}. Arguments api_admissions {R}.
Arguments api_clock {R}.

(** The caches of one process. *)
Record caches := mkCaches { ca_links : paymentLinkCache; ca_qrs : qrCache; ca_seatMaps : gmap Z seatMapEntry }.

Definition seatMapTTL : Z := 500 * 1000000.
Definition paymentLinkCacheSize : nat := Z.to_nat 50000.
Definition qrCacheSize : nat := Z.to_nat 10000.
Definition newCaches : caches := mkCaches (newPaymentLinkCache paymentLinkCacheSize) (newQRCache qrCacheSize) ∅.

(** ** Responses *)

Record devLoginResponse := mkDevLogin { dl_AccessToken : string; dl_ExpiresIn : option Z }.
Record zoneResponse := mkZoneResponse { zr_Zone : string; zr_PriceVND : Z; zr_Seats : nat }.
Record eventResponse := mkEventResponse {
  er_ID : Z; er_Name : string; er_Venue : string; er_StartsAt : Z; er_SaleOpensAt : Z; er_MaxSeatsPerOrder : Z; er_Zones : list zoneResponse;
}.
Record seatResponse := mkSeatResponse {
  sr_SeatID : string; sr_Zone : string; sr_Row : string; sr_No : Z; sr_PriceVND : Z; sr_Status : SeatStatus;
}.
Record seatMapResponse := mkSeatMapResponse { smr_Version : Z; smr_Seats : list seatResponse }.
Record ticketResponse := mkTicketResponse {
  tr_TicketID : UUID; tr_SeatID : string; tr_IssuedAt : Z; tr_QRPayload : string; tr_QRPNGBase64 : string;
}.
Record orderResponse := mkOrderResponse {
  or_OrderID : UUID; or_EventID : Z; or_Status : Status; or_TotalVND : Z; or_HoldExpiresAt : Z;
  or_Seats : list (string * Z); or_PaymentURL : string; or_Tickets : list ticketResponse; or_CreatedAt : Z;
}.

(** Without the link and the tickets, which the handlers add. *)
Definition toOrderResponse (o : Order) : orderResponse :=
  mkOrderResponse (o_ID o) (o_EventID o) (o_Status o) (o_TotalVND o) (o_HoldExpiresAt o) (o_Seats o) EmptyString [] (o_CreatedAt o).
Definition with_link (u : string) (r : orderResponse) : orderResponse :=
  mkOrderResponse (or_OrderID r) (or_EventID r) (or_Status r) (or_TotalVND r) (or_HoldExpiresAt r) (or_Seats r) u (or_Tickets r) (or_CreatedAt r).
Definition with_tickets (l : list ticketResponse) (r : orderResponse) : orderResponse :=
  mkOrderResponse (or_OrderID r) (or_EventID r) (or_Status r) (or_TotalVND r) (or_HoldExpiresAt r) (or_Seats r) (or_PaymentURL r) l (or_CreatedAt r).

(** The seat map's reply: 304, 200 with one of the two bodies, or an error. *)
Inductive SeatsReply :=
| SeatsNotModified (etag : string)
| SeatsOK (etag encoding : string) (body : Bytes)
| SeatsError (r : Reply unit).

(** ** Parsing *)

Definition pathEventID (s : string) : option Z :=
  match ParseInt s with Some id => if 0 <? id then Some id else None | None => None end.

Definition parseIdempotencyKey `{UuidLib} (raw : string) : res GoErr UUID :=
  if bool_decide (raw = EmptyString) then Err (ErrValidation "Idempotency-Key" "header is required")
  else
    match uuid_Parse raw with
    | None => Err (ErrValidation "Idempotency-Key" "must be a UUID")
    | Some key => if bool_decide (key = uuid_Nil) then Err (ErrValidation "Idempotency-Key" "must be a UUID") else Ok key
    end.

Definition maxWebhookBytes : nat := Z.to_nat 65536.

Section booking.
Context {R : Type} `{UuidLib} `{JwtLib}.
Context (url_Parse : string -> option (string * string)) (PNG : string -> res GoErr Bytes).
Context (Decode_order : string -> option CreateRequest) (Unmarshal_webhook : Bytes -> option Webhook)
  (Marshal_seats : seatMapResponse -> res GoErr Bytes) (gzipBytes : Bytes -> res GoErr Bytes).
Context (keys : gset UUID -> list UUID).
Context (a : api R).
Implicit Types w : World R.

Definition read_clock : prog (World R) Z := act (fun w => (api_clock a w, w)).

(** ** The development login *)

Definition handleDevLogin (Decode_login : string -> option Z) (body : string) : prog (World R) (Reply devLoginResponse) :=
  match DecodeJSON Decode_login body with
  | Err e => Ret (WriteErr e)
  | Ok userID =>
      if userID <=? 0 then Ret (WriteErr (ErrValidation "user_id" "must be a positive integer"))
      else
        let! r := act (EnsureUser userID) in
        match r with
        | Err e => Ret (WriteErr e)
        | Ok _ =>
            let! now := read_clock in
            match Tokens_Issue (api_tokens a) now userID with
            | Err e => Ret (WriteErr e)
            | Ok token => Ret (WriteJSON StatusOK (mkDevLogin token (int64_of (Seconds (tk_ttl (api_tokens a))))))
            end
        end
  end.

(** ** Events and seat maps *)

Definition handleGetEvent (eventID : string) : prog (World R) (Reply eventResponse) :=
  match pathEventID eventID with
  | None => Ret (WriteErr ErrEventNotFound)
  | Some id =>
      let! ev := Catalog_Event (svc_proc (api_orders a)) id in
      match ev with
      | Err e => Ret (WriteErr e)
      | Ok ev =>
          Ret (WriteJSON StatusOK (mkEventResponse (Event_ID ev) (Event_Name ev) (Event_Venue ev) (Event_StartsAt ev) (Event_SaleOpensAt ev)
            (Event_MaxSeatsPerOrder ev) ((fun z => mkZoneResponse (Zone_Name z) (Zone_PriceVND z) (Zone_Seats z)) <$> Event_Zones ev)))
      end
  end.

Definition renderSeatMap (eventID : Z) : prog (World R) (res GoErr renderedSeatMap) :=
  let? m := SeatMap (svc_proc (api_orders a)) (api_inventory a) (api_versioner a) eventID in
  let seats := (fun s : Seat * SeatStatus =>
    mkSeatResponse (Seat_ID s.1) (Seat_Zone s.1) (Seat_Row s.1) (Seat_No s.1) (Seat_PriceVND s.1) s.2) <$> sm_Seats m in
  match Marshal_seats (mkSeatMapResponse (sm_Version m) seats) with
  | Err e => Ret (Err e)
  | Ok body => Ret (Ok (mkRendered body (if sm_Versioned m then versionETag (sm_Version m) else contentETag body)))
  end.

Definition handleGetSeats (c : caches) (eventID ifNoneMatch acceptEncoding : string) : prog (World R) (SeatsReply * caches) :=
  match pathEventID eventID with
  | None => Ret (SeatsError (WriteErr ErrEventNotFound), c)
  | Some id =>
      let! r := seatMaps_get gzipBytes (api_clock a) seatMapTTL renderSeatMap (ca_seatMaps c) id in
      let c := mkCaches (ca_links c) (ca_qrs c) r.2 in
      match r.1 with
      | Err e => Ret (SeatsError (WriteErr e), c)
      | Ok entry =>
          if etagMatches ifNoneMatch (sme_etag entry) then Ret (SeatsNotModified (sme_etag entry), c)
          else if acceptsGzip acceptEncoding then Ret (SeatsOK (sme_etag entry) "gzip" (sme_gzipped entry), c)
          else Ret (SeatsOK (sme_etag entry) EmptyString (sme_plain entry), c)
      end
  end.

(** ** Orders *)

(** No link ("") when the order is not HELD or the gateway does not answer. *)
Definition paymentURL (c : caches) (o : Order) : prog (World R) (string * caches) :=
  match api_payments a with
  | None => Ret (EmptyString, c)
  | Some cfg =>
      if negb (bool_decide (o_Status o = StatusHeld)) then Ret (EmptyString, c)
      else
        let! now := read_clock in
        match links_get (ca_links c) now (o_ID o) with
        | Some u => Ret (u, c)
        | None =>
            let! r := act (CreatePayment url_Parse cfg (mkCreatePayment (o_ID o) (o_TotalVND o) (api_callbackURL a))) in
            match r with
            | Err _ => Ret (EmptyString, c)
            | Ok u =>
                let! now := read_clock in
                Ret (u, mkCaches (links_put (ca_links c) now (keys (dom (links (ca_links c)))) (o_ID o) u (o_HoldExpiresAt o))
                          (ca_qrs c) (ca_seatMaps c))
            end
        end
  end.

(** The tickets of a reply; those not issued yet are left out. *)
Fixpoint ticket_responses (c : caches) (withPNG : bool) (l : list OrderTicket) : res GoErr (list ticketResponse) * caches :=
  match l with
  | [] => (Ok [], c)
  | t :: l =>
      match ot_IssuedAt t with
      | None => ticket_responses c withPNG l
      | Some issuedAt =>
          if bool_decide (ot_QRPayload t = EmptyString) then ticket_responses c withPNG l
          else
            let '(png, c) :=
              if negb withPNG then (Ok [], c)
              else match qrs_get (ca_qrs c) (ot_ID t) with
                   | Some png => (Ok png, c)
                   | None =>
                       match PNG (ot_QRPayload t) with
                       | Err e => (Err e, c)
                       | Ok png => (Ok png, mkCaches (ca_links c) (qrs_put (ca_qrs c) (keys (dom (pngs (ca_qrs c)))) (ot_ID t) png) (ca_seatMaps c))
                       end
                   end in
            match png with
            | Err e => (Err e, c)
            | Ok png =>
                let '(rest, c) := ticket_responses c withPNG l in
                match rest with
                | Err e => (Err e, c)
                | Ok rest =>
                    (Ok (mkTicketResponse (ot_ID t) (ot_SeatID t) issuedAt (ot_QRPayload t)
                           (if withPNG then base64_StdEncodeToString png else EmptyString) :: rest), c)
                end
            end
      end
  end.

Definition issuedTickets (c : caches) (userID : Z) (orderID : UUID) (withPNG : bool)
  : prog (World R) (res GoErr (list ticketResponse) * caches) :=
  let! r := Tickets userID orderID in
  match r with
  | Err e => Ret (Err e, c)
  | Ok l => Ret (ticket_responses c withPNG l)
  end.

Definition handleCreateOrder (c : caches) (userID : Z) (adm : option Admission) (idempotencyKey body : string)
  : prog (World R) (Reply orderResponse * caches) :=
  match parseIdempotencyKey idempotencyKey with
  | Err e => Ret (WriteErr e, c)
  | Ok key =>
      match DecodeJSON Decode_order body with
      | Err e => Ret (WriteErr e, c)
      | Ok req =>
          let! r := match adm with
                    | Some adm => CreateAdmitted (api_orders a) userID key req adm
                    | None => Create (api_orders a) userID key req
                    end in
          match r with
          | Err e => Ret (WriteErr e, c)
          | Ok (o, created) =>
              let! u := paymentURL c o in
              Ret (WriteJSON (if created : bool then StatusCreated else StatusOK) (with_link u.1 (toOrderResponse o)), u.2)
          end
      end
  end.

(** [withOrder] with [Get] or [Cancel]. *)
Definition withOrder (op : Z -> UUID -> prog (World R) (res GoErr Order)) (c : caches) (userID : Z) (orderID : string)
  : prog (World R) (Reply orderResponse * caches) :=
  match uuid_Parse orderID with
  | None => Ret (WriteErr ErrNotFound, c)
  | Some orderID =>
      let! r := op userID orderID in
      match r with
      | Err e => Ret (WriteErr e, c)
      | Ok o =>
          let! u := paymentURL c o in
          let resp := with_link u.1 (toOrderResponse o) in
          if negb (bool_decide (o_Status o = StatusTicketed)) then Ret (WriteJSON StatusOK resp, u.2)
          else
            let! t := issuedTickets u.2 userID orderID false in
            match t.1 with
            | Err e => Ret (WriteErr e, t.2)
            | Ok l => Ret (WriteJSON StatusOK (with_tickets l resp), t.2)
            end
      end
  end.

Definition handleGetOrder : caches -> Z -> string -> prog (World R) (Reply orderResponse * caches) := withOrder Get.
Definition handleCancelOrder : caches -> Z -> string -> prog (World R) (Reply orderResponse * caches) :=
  withOrder (Cancel (api_orders a)).

Definition handleTickets (c : caches) (userID : Z) (orderID : string) : prog (World R) (Reply (UUID * list ticketResponse) * caches) :=
  match uuid_Parse orderID with
  | None => Ret (WriteErr ErrNotFound, c)
  | Some orderID =>
      let! t := issuedTickets c userID orderID true in
      match t.1 with
      | Err e => Ret (WriteErr e, t.2)
      | Ok l => Ret (WriteJSON StatusOK (orderID, l), t.2)
      end
  end.

(** ** Payment webhooks *)

Definition handleWebhook (body : Bytes) (signature : string) : prog (World R) (Reply Outcome) :=
  if Nat.ltb maxWebhookBytes (length body) then Ret (WriteErr ErrBadRequest)
  else if negb (VerifySignature (api_webhookSecret a) body signature) then Ret (WriteErr ErrBadSignature)
  else
    match Unmarshal_webhook body with
    | None => Ret (WriteErr ErrInvalidWebhook)
    | Some wh =>
        match Validate wh with
        | Some _ => Ret (WriteErr ErrInvalidWebhook)
        | None =>
            let! r := ApplyPayment (api_inventory a) wh in
            match r with
            | Err e => Ret (WriteErr e)
            | Ok res => Ret (WriteJSON StatusOK (pr_Outcome res))
            end
        end
    end.

(** ** Routes behind RequireUser *)

Definition authenticated {A} (authorization : string) (next : Z -> prog (World R) (Reply A * caches)) (c : caches)
  : prog (World R) (Reply A * caches) :=
  let! now := read_clock in
  match RequireUser (api_tokens a) now authorization with
  | Err e => Ret (WriteErr e, c)
  | Ok userID => next userID
  end.

(** POST /v1/orders, with RequireAdmission when admissions are required. *)
Definition postOrders (c : caches) (authorization admission idempotencyKey body : string)
  : prog (World R) (Reply orderResponse * caches) :=
  authenticated authorization (fun userID =>
    match api_admissions a with
    | None => handleCreateOrder c userID None idempotencyKey body
    | Some tokens =>
        let! now := read_clock in
        match RequireAdmission tokens now userID admission with
        | Err e => Ret (WriteErr e, c)
        | Ok adm => handleCreateOrder c userID (Some adm) idempotencyKey body
        end
    end) c.
Definition getOrder (c : caches) (authorization orderID : string) : prog (World R) (Reply orderResponse * caches) :=
  authenticated authorization (fun userID => handleGetOrder c userID orderID) c.
Definition cancelOrder (c : caches) (authorization orderID : string) : prog (World R) (Reply orderResponse * caches) :=
  authenticated authorization (fun userID => handleCancelOrder c userID orderID) c.
Definition getTickets (c : caches) (authorization orderID : string) : prog (World R) (Reply (UUID * list ticketResponse) * caches) :=
  authenticated authorization (fun userID => handleTickets c userID orderID) c.
End booking.
