(* ===== verification/Endpoints.v ===== *)
(** * What the booking endpoints answer

    The handlers of Booking.v with every call free to fail: what a response
    says about the request and about the tables, from the token in the header
    to the rows in PostgreSQL; and the gateway's delivery of a webhook against
    the webhook endpoint. *)

From S2P Require Import Prelude GoLib Crypto Effects OrderState CatalogEvent World Auth Frame OrderDB.
From S2P Require Import Inventory Catalog Payment OrderRequest OrderService OrderPayment OrderTickets OrderBooks OrderRefine PaymentRefine.
From S2P Require Import System Flows PaymentFlow CreateFlow Http Fakepay Text Caches Booking.
Local Open Scope tr_scope.

(** [p] leaves the tables alone; unlike [keeps_books], it may call the gateway. *)
Notation keeps_tables p := (respects (fun _ => True) (fun w w' => pg w' = pg w) p).

Section endpoints.
Context {R : Type} `{UuidLib} `{JwtLib}.
Implicit Types w : World R.

Lemma keeps_tables_run {A} (p : prog (World R) A) w : keeps_tables p -> pg (run p w).2 = pg w.
Proof.
  revert w. induction p as [x|X f k IH]; intros w Hp; simpl in *; [done|]. destruct Hp as [Hf Hk].
  destruct (Hf w I) as [_ Hw]. destruct (f w) as [x w1]. cbn [fst snd] in *. by rewrite IH.
Qed.

Lemma call_pg {A} e (f : World R -> res GoErr A * World R) w : (forall w, pg (f w).2 = pg w) -> pg (call e f w).2 = pg w.
Proof.
  intros Hf. unfold call. destruct (pop_fault w) as [fl w0] eqn:Hp. destruct (pop_fault_spec _ _ _ Hp) as (P0 & _). rewrite <- P0.
  pose proof (Hf w0). by destruct fl; cbn; destruct (f w0) as [x w1].
Qed.

Context (url_Parse : string -> option (string * string)) (keys : gset UUID -> list UUID) (a : api R).

Lemma CreatePayment_tables cfg req w : pg (CreatePayment url_Parse cfg req w).2 = pg w.
Proof. apply call_pg. intros w1. destruct (handleCreate _ _ _ _) as [[status u|r st b] g]; [destruct (_ =? _)|]; done. Qed.

Lemma paymentURL_tables c o : keeps_tables (paymentURL url_Parse keys a c o).
Proof.
  unfold paymentURL. destruct (api_payments a) as [cfg|]; [|done]. destruct (negb _); [done|].
  apply respects_bind; [by apply respects_act|]. intros now. destruct (links_get _ _ _); [done|].
  apply respects_bind; [apply respects_act; intros w _; split; [done|apply CreatePayment_tables]|].
  intros [u|e]; [|done]. apply respects_bind; [by apply respects_act|done].
Qed.

(** Only a HELD order has a link. *)
Lemma paymentURL_held c o w : (run (paymentURL url_Parse keys a c o) w).1.1 = EmptyString \/ o_Status o = StatusHeld.
Proof.
  unfold paymentURL. destruct (api_payments a) as [cfg|]; [|by left]. case_bool_decide; [by right|by left].
Qed.

Context `{!Framed (api_orders a)}.

Lemma CreateAdmitted_spec userID key req adm w :
  books_ok (pg w) ->
  let r := run (CreateAdmitted (api_orders a) userID key req adm) w in
  match r.1 with
  | Ok (o, created) =>
      adm_UserID adm = userID /\ adm_EventID adm = cr_EventID req /\
      exists ev norm, normalize req ev = Ok norm /\
        truthful userID (uuid_String key) (requestHash norm) (pg w) (pg r.2) (Ok (o, created))
  | Err e => pg r.2 = pg w \/ e = EPg Infra
  end.
Proof.
  intros Hok. cbv zeta. unfold CreateAdmitted. case_bool_decide as H1; [|by left]. case_bool_decide as H2; [|by left]. cbn [negb orb].
  destruct (svc_admissions (api_orders a)); [|by left]. pose proof (create_spec (api_orders a) userID key req (Some adm) w Hok) as Hs.
  cbv zeta in Hs. destruct (run _ w) as [[[o created]|e] w1]; cbn [fst snd] in *; [|done]. by split_and!.
Qed.

(** *** POST /v1/orders *)

(** What a response of the endpoint says of the tables before and after. *)
Definition order_answer (userID : Z) (key : UUID) (req : CreateRequest) (d d' : PG) (reply : Reply orderResponse) : Prop :=
  match reply with
  | WriteJSON status resp =>
      exists o created ev norm, normalize req ev = Ok norm /\
        truthful userID (uuid_String key) (requestHash norm) d d' (Ok (o, created)) /\
        status = (if created : bool then StatusCreated else StatusOK) /\
        resp = with_link (or_PaymentURL resp) (toOrderResponse o) /\
        (or_PaymentURL resp <> EmptyString -> or_Status resp = StatusHeld)
  | WriteError _ status _ => d' = d \/ status = StatusInternalServerError
  end.

(** An error tells whether something may have been committed. *)
Lemma error_answer {A} (P : Z -> A -> Prop) (d d' : PG) e :
  d' = d \/ e = EPg Infra ->
  match @WriteErr A e with WriteJSON status v => P status v | WriteError _ status _ => d' = d \/ status = StatusInternalServerError end.
Proof. intros [Hd| ->]; [|by right]. unfold WriteErr. destruct (list_find _ _) as [[i m]|]; by left. Qed.

(** An error says nothing else. *)
Lemma error_silent {A} (P : Z -> A -> Prop) e : match @WriteErr A e with WriteJSON status v => P status v | WriteError _ _ _ => True end.
Proof. unfold WriteErr. by destruct (list_find _ _) as [[i m]|]. Qed.

Lemma handleCreateOrder_spec Decode_order c userID adm idempotencyKey body w :
  books_ok (pg w) ->
  let r := run (handleCreateOrder url_Parse Decode_order keys a c userID adm idempotencyKey body) w in
  match r.1.1 with
  | WriteJSON _ _ =>
      exists key req, parseIdempotencyKey idempotencyKey = Ok key /\ DecodeJSON Decode_order body = Ok req /\
        order_answer userID key req (pg w) (pg r.2) r.1.1 /\
        (forall x, adm = Some x -> adm_UserID x = userID /\ adm_EventID x = cr_EventID req)
  | WriteError _ status _ => pg r.2 = pg w \/ status = StatusInternalServerError
  end.
Proof.
  intros Hok. cbv zeta. unfold handleCreateOrder. destruct (parseIdempotencyKey idempotencyKey) as [key|e]; [|apply error_answer; by left].
  destruct (DecodeJSON Decode_order body) as [req|e]; [|by apply error_answer; left]. rewrite run_bind.
  set (op := match adm with Some x => _ | None => _ end).
  assert (Hop : let r := run op w in match r.1 with
    | Ok (o, created) => (forall x, adm = Some x -> adm_UserID x = userID /\ adm_EventID x = cr_EventID req) /\
        exists ev norm, normalize req ev = Ok norm /\
          truthful userID (uuid_String key) (requestHash norm) (pg w) (pg r.2) (Ok (o, created))
    | Err e => pg r.2 = pg w \/ e = EPg Infra
    end).
  { subst op. cbv zeta. destruct adm as [x|].
    - pose proof (CreateAdmitted_spec userID key req x w Hok) as Hs. cbv zeta in Hs.
      destruct (run _ w) as [[[o created]|e] w1]; cbn [fst snd] in *; [|done].
      destruct Hs as (H1 & H2 & H3). split; [|done]. by intros ? [= <-].
    - pose proof (create_spec (api_orders a) userID key req None w Hok) as Hs. cbv zeta in Hs. unfold Create.
      destruct (run _ w) as [[[o created]|e] w1]; cbn [fst snd] in *; [|done]. split; [|done]. intros x Hx. discriminate Hx. }
  cbv zeta in Hop. destruct (run op w) as [[[o created]|e] w1]; cbn [fst snd run] in *.
  - destruct Hop as (Hadm & ev & norm & Hn & Ht). rewrite run_bind.
    pose proof (keeps_tables_run _ w1 (paymentURL_tables c o)) as Hp. pose proof (paymentURL_held c o w1) as Hl.
    destruct (run (paymentURL _ _ _ _ _) w1) as [[u c'] w2]. cbn [fst snd run] in *. rewrite Hp. exists key, req.
    split_and!; [done..| |done]. exists o, created, ev, norm. split_and!; try done. intros Hu. by destruct Hl.
  - by apply error_answer.
Qed.

(** *** The routes of one order *)

(** [o] is what is stored for an order of the user. *)
Definition owns (d : PG) (userID : Z) (o : Order) : Prop :=
  exists r, orders d !! o_ID o = Some r /\ r_UserID r = userID /\ o = order_of d r.

Lemma GetOrder_step id w r w' : stmt (R := R) (GetOrder id) w = (Ok r, w') -> orders (pg w) !! id = Some r /\ pg w' = pg w.
Proof. intros Hs. apply stmt_step in Hs as [Hq _]. unfold GetOrder, select, no_rows in Hq. case_match; naive_solver. Qed.

Lemma Get_owns userID id w :
  books_ok (pg w) ->
  pg (run (Get (R := R) userID id) w).2 = pg w /\
  forall o, (run (Get userID id) w).1 = Ok o -> o_ID o = id /\ owns (pg w) userID o.
Proof.
  intros Hok. split; [by apply keeps_books_run, Get_frame|]. intros o. unfold Get. rewrite run_bind, run_act.
  destruct (stmt (GetOrder id) w) as [[r|e] w1] eqn:H1; cbn [fst snd]; [|by case_err e].
  apply GetOrder_step in H1 as (Hr & P1). case_bool_decide as Hu; cbn [negb]; [|done]. rewrite run_bind, run_act.
  destruct (stmt (ListOrderSeats id) w1) as [[seats|e] w2] eqn:H2; cbn [fst snd run]; [|done]. intros [= <-].
  apply ListOrderSeats_step in H2 as (-> & _). pose proof (ok_id _ Hok id r Hr) as <-. split; [done|]. exists r.
  split_and!; [done..|]. unfold order_of, seat_list. by rewrite P1.
Qed.

(** *** Tickets in a reply *)

Context (PNG : string -> res GoErr Bytes).

(** The tickets shown for an order are its issued tickets, each once, as they
    are stored. *)
Record shown (d : PG) (orderID : UUID) (l : list ticketResponse) : Prop := {
  sh_stored x : x ∈ l -> exists t, tickets d !! tr_TicketID x = Some t /\ t_OrderID t = orderID /\
    t_SeatID t = tr_SeatID x /\ t_QrPayload t = Some (tr_QRPayload x) /\ t_IssuedAt t = Some (tr_IssuedAt x);
  sh_all i t qr issuedAt : tickets d !! i = Some t -> t_OrderID t = orderID ->
    t_QrPayload t = Some qr -> qr <> EmptyString -> t_IssuedAt t = Some issuedAt -> i ∈ tr_TicketID <$> l;
  sh_once : NoDup (tr_TicketID <$> l);
}.

(** The cache of QR codes holds the pictures of stored payloads; a reply with
    pictures shows the payload's own, one without shows none. *)
Definition qrs_true (d : PG) (c : caches) : Prop :=
  forall id png, qrs_get (ca_qrs c) id = Some png -> exists t qr, tickets d !! id = Some t /\ t_QrPayload t = Some qr /\ PNG qr = Ok png.
Definition pictured (withPNG : bool) (l : list ticketResponse) : Prop :=
  forall x, x ∈ l ->
    if withPNG then exists png, PNG (tr_QRPayload x) = Ok png /\ tr_QRPNGBase64 x = base64_StdEncodeToString png
    else tr_QRPNGBase64 x = EmptyString.

Definition ticket_of (r : UUID * TicketRow) : OrderTicket :=
  mkOrderTicket r.1 (t_SeatID r.2) (default EmptyString (t_QrPayload r.2)) (t_IssuedAt r.2).

(** What a reply shows of a row, but for the picture. *)
Definition issued_row (r : UUID * TicketRow) : option (UUID * string * Z * string) :=
  issuedAt ← t_IssuedAt r.2; qr ← t_QrPayload r.2;
  if bool_decide (qr = EmptyString) then None else Some (r.1, t_SeatID r.2, issuedAt, qr).
Definition without_picture (x : ticketResponse) : UUID * string * Z * string :=
  (tr_TicketID x, tr_SeatID x, tr_IssuedAt x, tr_QRPayload x).

Lemma ticket_responses_rows c withPNG rows l :
  (ticket_responses PNG keys c withPNG (ticket_of <$> rows)).1 = Ok l -> without_picture <$> l = omap issued_row rows.
Proof.
  revert c l. induction rows as [|[id t] rows IH]; intros c l; [by intros [= <-]|]. rewrite fmap_cons.
  cbn [ticket_responses ticket_of ot_IssuedAt ot_QRPayload ot_ID ot_SeatID fst snd omap list_omap].
  unfold issued_row at 1, base.mbind, option_bind. cbn [fst snd]. destruct (t_IssuedAt t) as [issuedAt|]; [|apply IH].
  destruct (t_QrPayload t) as [qr|]; cbn [default Datatypes.id]; [|apply IH]. case_bool_decide; [apply IH|].
  destruct (if negb withPNG then _ else _) as [[png|e] c1]; [|done]. specialize (IH c1).
  destruct (ticket_responses _ _ _ _ _) as [[rest|e] c2]; [|done]. intros [= <-]. rewrite fmap_cons. f_equal. by apply IH.
Qed.

Lemma shown_rows d orderID rows l :
  NoDup rows.*1 -> (forall i t, (i, t) ∈ rows <-> tickets d !! i = Some t /\ t_OrderID t = orderID) ->
  without_picture <$> l = omap issued_row rows -> shown d orderID l.
Proof.
  intros Hnd Hrows Hl. split.
  - intros x Hx. apply (list_elem_of_fmap_2 without_picture) in Hx. rewrite Hl in Hx. apply list_elem_of_omap in Hx as ([i t] & Hin & Hr).
    apply Hrows in Hin as [Ht Ho]. unfold issued_row in Hr. cbn in Hr. destruct (t_IssuedAt t) as [issuedAt|] eqn:Ha; [|done]. cbn in Hr.
    destruct (t_QrPayload t) as [qr|] eqn:Hq; [|done]. cbn in Hr. case_bool_decide; [done|]. injection Hr as <- <- <- <-. by exists t.
  - intros i t qr issuedAt Ht Ho Hq Hne Ha. assert ((i, t_SeatID t, issuedAt, qr) ∈ without_picture <$> l) as Hx.
    { rewrite Hl. apply list_elem_of_omap. exists (i, t). split; [by apply Hrows|]. unfold issued_row. cbn. rewrite Ha, Hq. cbn. by rewrite bool_decide_eq_false_2. }
    apply list_elem_of_fmap in Hx as (x & Hx & Hin). injection Hx as -> _ _ _. by apply list_elem_of_fmap_2.
  - assert (tr_TicketID <$> l = (fun q => q.1.1.1) <$> (without_picture <$> l)) as -> by exact (list_fmap_compose without_picture (fun q => q.1.1.1) l).
    rewrite Hl. clear -Hnd. induction rows as [|[i t] rows IH]; [constructor|]. rewrite fmap_cons in Hnd. apply NoDup_cons in Hnd as [Hi Hnd].
    cbn [omap list_omap]. destruct (issued_row (i, t)) as [q|] eqn:Hq; [|by apply IH]. rewrite fmap_cons. apply NoDup_cons. split; [|by apply IH].
    assert (forall r q, issued_row r = Some q -> q.1.1.1 = r.1) as Hid.
    { intros r q0. unfold issued_row. destruct (t_IssuedAt r.2); [|done]. cbn. destruct (t_QrPayload r.2); [|done]. cbn. case_bool_decide; [done|]. by intros [= <-]. }
    rewrite (Hid _ _ Hq). cbn. intros (q' & Hq' & Hin)%list_elem_of_fmap. apply list_elem_of_omap in Hin as (r & Hin & Hr).
    apply Hi. cbn in Hq'. rewrite Hq', (Hid _ _ Hr). exact (list_elem_of_fmap_2 fst rows r Hin).
Qed.

Lemma ticket_responses_pictured d c withPNG rows :
  (forall i t, (i, t) ∈ rows -> tickets d !! i = Some t) -> qrs_true d c ->
  let r := ticket_responses PNG keys c withPNG (ticket_of <$> rows) in
  qrs_true d r.2 /\ forall l, r.1 = Ok l -> pictured withPNG l.
Proof.
  revert c. induction rows as [|[id t] rows IH]; intros c Hrows Hc; [split; [done|]; intros l [= <-] x Hx; by apply not_elem_of_nil in Hx|].
  assert (forall c, qrs_true d c -> let r := ticket_responses PNG keys c withPNG (ticket_of <$> rows) in
    qrs_true d r.2 /\ forall l, r.1 = Ok l -> pictured withPNG l) as IH' by (intros c'; apply IH; intros i u Hi; apply Hrows; by right). clear IH.
  rewrite fmap_cons. cbn [ticket_responses ticket_of ot_IssuedAt ot_QRPayload ot_ID ot_SeatID fst snd].
  destruct (t_IssuedAt t) as [issuedAt|]; [|by apply IH']. destruct (t_QrPayload t) as [qr|] eqn:Hq; cbn [default Datatypes.id]; [|by apply IH'].
  case_bool_decide; [by apply IH'|]. assert (tickets d !! id = Some t) as Ht by (apply Hrows; by left).
  set (p := if negb withPNG then _ else _).
  assert (qrs_true d p.2 /\ forall png, p.1 = Ok png -> withPNG = true -> PNG qr = Ok png) as [Hp Hpng].
  { subst p. destruct withPNG; cbn [negb]; [|done]. destruct (qrs_get (ca_qrs c) id) as [png|] eqn:Hg.
    - split; [done|]. intros png' [= <-] _. destruct (Hc _ _ Hg) as (t' & qr' & Ht' & Hq' & Hp). congruence.
    - destruct (PNG qr) as [png|e] eqn:Hp; [|done]. split; [|by intros png' [= <-]]. intros i png'. cbn.
      unfold qrs_get, qrs_put. cbn. intros [[<- <-]|[_ Hi%make_room_sub]]%lookup_insert_Some; [by exists t, qr|by apply Hc]. }
  destruct p as [[png|e] c1]; cbn [fst snd] in *; [|done]. destruct (IH' c1 Hp) as [Hc2 Hl2].
  destruct (ticket_responses _ _ _ _ _) as [[rest|e] c2]; cbn [fst snd] in *; [|done]. split; [done|]. intros l [= <-] x [->|Hx]%elem_of_cons.
  - cbn. destruct withPNG; [|done]. exists png. split; [by apply Hpng|done].
  - by apply (Hl2 rest).
Qed.

Lemma ticket_responses_plain c l :
  let r := ticket_responses PNG keys c false l in r.2 = c /\ forall ts, r.1 = Ok ts -> pictured false ts.
Proof.
  cbv zeta. induction l as [|t l [IH1 IH2]]; cbn [ticket_responses]; [split; [done|]; intros ts [= <-] x Hx; by apply not_elem_of_nil in Hx|].
  destruct (ot_IssuedAt t) as [issuedAt|]; [|by split]. case_bool_decide; [by split|]. cbn [negb].
  destruct (ticket_responses _ _ _ _ _) as [[rest|e] c2]; cbn [fst snd] in *; [|done]. split; [done|]. intros ts [= <-] x [->|Hx]%elem_of_cons; [done|].
  by apply (IH2 rest).
Qed.

Lemma Tickets_rows userID id w :
  books_ok (pg w) ->
  pg (run (Tickets (R := R) userID id) w).2 = pg w /\
  forall l, (run (Tickets userID id) w).1 = Ok l -> (exists o, o_ID o = id /\ owns (pg w) userID o) /\
    exists rows, l = ticket_of <$> rows /\ NoDup rows.*1 /\ forall i t, (i, t) ∈ rows <-> tickets (pg w) !! i = Some t /\ t_OrderID t = id.
Proof.
  intros Hok. split; [by apply keeps_books_run, Tickets_frame|]. intros l. unfold Tickets. rewrite run_bind.
  destruct (Get_owns userID id w Hok) as [P Hg]. destruct (run (Get userID id) w) as [[o|e] w1]; [|done]. cbn [fst snd] in *.
  destruct (Hg o eq_refl) as [Ho Hown]. rewrite run_bind, run_act. destruct (stmt (ListOrderTickets id) w1) as [[rows|e] w2] eqn:Hs; [|done].
  cbn [fst snd run]. intros [= <-]. split; [eauto|]. apply stmt_step in Hs as [Hq _]. unfold ListOrderTickets, select in Hq. injection Hq as Hrows _.
  rewrite P in Hrows. exists rows. split; [done|]. rewrite <- Hrows. split.
  - rewrite merge_sort_Permutation. apply NoDup_fst_map_to_list.
  - intros i t. rewrite merge_sort_Permutation, elem_of_map_to_list, map_lookup_filter_Some. done.
Qed.

(** The tickets of a reply, with or without pictures. *)
Lemma issuedTickets_spec c userID id withPNG w :
  books_ok (pg w) ->
  let r := run (issuedTickets PNG keys c userID id withPNG) w in
  pg r.2 = pg w /\ (withPNG = false -> r.1.2 = c) /\ (qrs_true (pg w) c -> qrs_true (pg w) r.1.2) /\
  forall l, r.1.1 = Ok l -> (exists o, o_ID o = id /\ owns (pg w) userID o) /\ shown (pg w) id l /\
    (withPNG = false \/ qrs_true (pg w) c -> pictured withPNG l).
Proof.
  intros Hok. cbv zeta. unfold issuedTickets. rewrite run_bind. destruct (Tickets_rows userID id w Hok) as [P Hl].
  destruct (run _ w) as [[ts|e] w1]; cbn [fst snd run] in *; [|by split_and!].
  destruct (Hl ts eq_refl) as (Ho & rows & -> & Hnd & Hrows). split; [done|]. split; [|split].
  - intros ->. apply ticket_responses_plain.
  - intros Hc. apply ticket_responses_pictured; [|done]. intros i t Hi. by apply Hrows.
  - intros l Hr. split; [done|]. split; [eapply shown_rows; [done..|]; by eapply ticket_responses_rows|]. intros [->|Hc].
    + by eapply ticket_responses_plain.
    + eapply ticket_responses_pictured; [|exact Hc|exact Hr]. intros i t Hi. by apply Hrows.
Qed.

(** A cancelled order as it is stored when Cancel answers. *)
Lemma Cancel_owns userID id w :
  books_ok (pg w) ->
  let r := run (Cancel (api_orders a) userID id) w in
  match r.1 with
  | Ok o => o_ID o = id /\ o_Status o = StatusCancelled /\ owns (pg r.2) userID o
  | Err e => pg r.2 = pg w \/ e = EPg Infra
  end.
Proof.
  intros Hok. cbv zeta. unfold Cancel. rewrite run_bind, run_act.
  destruct (BeginFunc (Cancel_tx userID id) w) as [[[o c]|e] w1] eqn:Hb; cbn [fst snd]; [|by apply BeginFunc_err in Hb].
  assert (o_ID o = id /\ o_Status o = StatusCancelled /\ owns (pg w1) userID o) as Ho.
  { apply BeginFunc_ok in Hb as (w0 & w2 & Hr & P0 & _ & _ & _ & -> & _). unfold Cancel_tx in Hr. rewrite <- P0 in Hok.
    apply mbind_ok in Hr as (row & v1 & H1 & Hr). apply on_no_rows_ok, GetOrderForUpdate_step in H1 as (Hrow & P1 & _).
    pose proof (ok_id _ Hok id row Hrow) as Hid. case_bool_decide as Hu; [cbn [negb] in Hr|done].
    apply mbind_ok in Hr as ([row2 cancelled] & v2 & H2 & Hr).
    apply mbind_ok in Hr as (seats & v3 & H3 & Hr). apply ListOrderSeats_step in H3 as (-> & P3 & _).
    apply mbind_ok in Hr as ([] & v4 & H4 & Hr). unfold mret in Hr. injection Hr as <- <- <-.
    destruct (r_Status row) eqn:Hst; try done.
    - apply mbind_ok in H2 as (row' & v2' & H2 & Hr). unfold mret in Hr. injection Hr as <- <- <-.
      apply transition_step in H2 as (_ & r & Hr & _ & -> & P2 & _). rewrite P1 in *. assert (r = row) as -> by congruence.
      apply writeEvent_step in H4 as (_ & _ & _ & P4). split_and!; [done..|]. exists (set_status StatusCancelled (pg_now v1) row).
      rewrite P4, P3, P2. unfold log_row, move. cbn [orders set_outbox set_orders o_ID fromRow r_ID set_status order_seats].
      rewrite Hid, lookup_insert_eq. split_and!; [done..|]. unfold order_of, seat_list. cbn [r_ID set_status order_seats set_outbox set_orders].
      by rewrite Hid.
    - unfold mret in H2, H4. injection H2 as <- <- <-. injection H4 as <-. split_and!; [done..|]. exists row.
      unfold order_of, seat_list. cbn [o_ID fromRow]. rewrite P3, P1, Hid. by split_and!. }
  rewrite run_bind. assert (forall w, pg (run (if c : bool then releaseSeats (svc_inv (api_orders a)) (o_EventID o) (SeatIDs o) (o_ID o) else Ret tt) w).2 = pg w) as Hrel.
  { intros v. destruct c; [|done]. by apply keeps_books_run, releaseSeats_frame, framed_inv. }
  specialize (Hrel w1). destruct (run _ w1) as [[] w2]. cbn [fst snd run] in *. by rewrite Hrel.
Qed.

(** What a response of the two routes says of the order asked for. *)
Definition one_order (userID : Z) (orderID : string) (d d' : PG) (reply : Reply orderResponse) : Prop :=
  match reply with
  | WriteJSON status resp =>
      status = StatusOK /\ exists o, uuid_Parse orderID = Some (o_ID o) /\ owns d' userID o /\
      resp = with_tickets (or_Tickets resp) (with_link (or_PaymentURL resp) (toOrderResponse o)) /\
      (or_PaymentURL resp <> EmptyString -> o_Status o = StatusHeld) /\
      (o_Status o = StatusTicketed -> shown d' (o_ID o) (or_Tickets resp) /\ pictured false (or_Tickets resp)) /\
      (o_Status o <> StatusTicketed -> or_Tickets resp = [])
  | WriteError _ status _ => d' = d \/ status = StatusInternalServerError
  end.

Lemma withOrder_spec op c userID orderID w :
  books_ok (pg w) ->
  (forall id, uuid_Parse orderID = Some id -> let r := run (op userID id) w in
     match r.1 with
     | Ok o => o_ID o = id /\ owns (pg r.2) userID o /\ (o_Status o = StatusTicketed -> pg r.2 = pg w)
     | Err e => pg r.2 = pg w \/ e = EPg Infra
     end) ->
  let r := run (withOrder url_Parse PNG keys a op c userID orderID) w in
  one_order userID orderID (pg w) (pg r.2) r.1.1.
Proof.
  intros Hok Hop. cbv zeta. unfold withOrder. destruct (uuid_Parse orderID) as [id|] eqn:Hid; [|apply error_answer; by left].
  specialize (Hop id eq_refl). cbv zeta in Hop. rewrite run_bind.
  destruct (run (op userID id) w) as [[o|e] w1]; cbn [fst snd] in *; [|by apply error_answer]. destruct Hop as (Ho & Hown & Hsame). rewrite run_bind.
  pose proof (keeps_tables_run _ w1 (paymentURL_tables c o)) as Hp. pose proof (paymentURL_held c o w1) as Hl.
  destruct (run (paymentURL _ _ _ _ _) w1) as [[u c'] w2]. cbn [fst snd] in *.
  assert (u <> EmptyString -> o_Status o = StatusHeld) as Hu by (intros Hn; by destruct Hl).
  case_bool_decide as Hst; cbn [negb].
  - specialize (Hsame Hst). rewrite run_bind. assert (pg w2 = pg w) as P2 by congruence.
    destruct (issuedTickets_spec c' userID id false w2) as (Pt & _ & _ & Hts); [by rewrite P2|].
    destruct (run (issuedTickets _ _ _ _ _ _) w2) as [[[ts|e] c''] w3]; cbn [fst snd run] in *; [|apply error_answer; left; congruence].
    destruct (Hts ts eq_refl) as (_ & Hsh & Hpic). split; [done|]. exists o. rewrite Hp in Hsh. rewrite Pt, Hp, Hid, Ho. split_and!; [done..| |done].
    intros _. split; [done|]. apply Hpic. by left.
  - cbn [run fst snd]. split; [done|]. exists o. rewrite Hp, Hid, Ho. by split_and!.
Qed.

Lemma handleGetOrder_spec c userID orderID w :
  books_ok (pg w) ->
  let r := run (handleGetOrder url_Parse PNG keys a c userID orderID) w in
  one_order userID orderID (pg w) (pg r.2) r.1.1 /\ pg r.2 = pg w.
Proof.
  intros Hok. split.
  - apply withOrder_spec; [done|]. intros id _. cbv zeta. destruct (Get_owns userID id w Hok) as [P Ho].
    destruct (run _ w) as [[o|e] w1]; cbn [fst snd] in *; [|by left]. destruct (Ho o eq_refl) as [H1 H2]. by rewrite P.
  - apply keeps_tables_run. unfold handleGetOrder, withOrder. destruct (uuid_Parse orderID) as [id|]; [|done].
    assert (forall A (p : prog (World R) A), keeps_books p -> keeps_tables p) as Hw.
    { intros A p. apply respects_mono. by intros w1 w2 (HG & _). }
    apply respects_bind; [apply Hw, Get_frame|]. intros [o|e]; [|done]. apply respects_bind; [apply paymentURL_tables|]. intros [u c'].
    destruct (negb _); [done|]. apply respects_bind; [|intros [[] ?]; done]. unfold issuedTickets.
    apply respects_bind; [apply Hw, Tickets_frame|]. by intros [].
Qed.

Lemma handleCancelOrder_spec c userID orderID w :
  books_ok (pg w) ->
  let r := run (handleCancelOrder url_Parse PNG keys a c userID orderID) w in one_order userID orderID (pg w) (pg r.2) r.1.1.
Proof.
  intros Hok. apply withOrder_spec; [done|]. intros id _. cbv zeta. pose proof (Cancel_owns userID id w Hok) as Hc. cbv zeta in Hc.
  destruct (run _ w) as [[o|e] w1]; cbn [fst snd] in *; [|done]. destruct Hc as (H1 & H2 & H3). split_and!; [done..|]. by rewrite H2.
Qed.

Lemma handleTickets_spec c userID orderID w :
  books_ok (pg w) ->
  let r := run (handleTickets PNG keys c userID orderID) w in
  pg r.2 = pg w /\ (qrs_true (pg w) c -> qrs_true (pg w) r.1.2) /\
  match r.1.1 with
  | WriteJSON status v => status = StatusOK /\ uuid_Parse orderID = Some v.1 /\ (exists o, o_ID o = v.1 /\ owns (pg w) userID o) /\
      shown (pg w) v.1 v.2 /\ (qrs_true (pg w) c -> pictured true v.2)
  | WriteError _ _ _ => True
  end.
Proof.
  intros Hok. cbv zeta. unfold handleTickets. destruct (uuid_Parse orderID) as [id|] eqn:Hid; [|by split_and!; [..|apply error_silent]].
  rewrite run_bind. destruct (issuedTickets_spec c userID id true w Hok) as (P & _ & Hc & Hl).
  destruct (run _ w) as [[[ts|e] c'] w1]; cbn [fst snd run] in *; [|by split_and!; [..|apply error_silent]].
  destruct (Hl ts eq_refl) as (Ho & Hsh & Hpic). split_and!; try done. intros Hq. apply Hpic. by right.
Qed.

(** *** The cache of QR codes *)

Lemma qrs_true_same d c c' : ca_qrs c' = ca_qrs c -> qrs_true d c -> qrs_true d c'.
Proof. unfold qrs_true. by intros ->. Qed.

(** Payloads are never changed, so the pictures stay right. *)
Lemma qrs_true_evolves d d' c : evolves d d' -> qrs_true d c -> qrs_true d' c.
Proof.
  intros He Hc id png Hg. destruct (Hc id png Hg) as (t & qr & Ht & Hq & Hp). destruct (ev_tickets _ _ He id t Ht) as (u & Hu & _ & _ & _ & Hk).
  exists u, qr. split_and!; try done. destruct Hk as [-> |Hk]; congruence.
Qed.

Lemma paymentURL_qrs c o w : ca_qrs (run (paymentURL url_Parse keys a c o) w).1.2 = ca_qrs c.
Proof.
  unfold paymentURL. destruct (api_payments a); [|done]. destruct (negb _); [done|]. rewrite run_bind. destruct (run _ w) as [now w1]. cbn [fst snd].
  destruct (links_get _ _ _); [done|]. rewrite run_bind. destruct (run _ w1) as [[u|e] w2]; cbn [fst snd]; [|done].
  rewrite run_bind. by destruct (run _ w2) as [now2 w3].
Qed.

Lemma handleCreateOrder_qrs Decode_order c userID adm idempotencyKey body w :
  ca_qrs (run (handleCreateOrder url_Parse Decode_order keys a c userID adm idempotencyKey body) w).1.2 = ca_qrs c.
Proof.
  unfold handleCreateOrder. destruct (parseIdempotencyKey _); [|done]. destruct (DecodeJSON _ _); [|done]. rewrite run_bind.
  destruct (run _ w) as [[[o created]|e] w1]; cbn [fst snd]; [|done]. rewrite run_bind. pose proof (paymentURL_qrs c o w1) as Hq.
  by destruct (run _ w1) as [[u c'] w2].
Qed.

Lemma withOrder_qrs op c userID orderID w :
  ca_qrs (run (withOrder url_Parse PNG keys a op c userID orderID) w).1.2 = ca_qrs c.
Proof.
  unfold withOrder. destruct (uuid_Parse orderID) as [id|]; [|done]. rewrite run_bind. destruct (run _ w) as [[o|e] w1]; cbn [fst snd]; [|done].
  rewrite run_bind. pose proof (paymentURL_qrs c o w1) as Hq. destruct (run _ w1) as [[u c'] w2]. cbn [fst snd] in *.
  destruct (negb _); [done|]. rewrite run_bind. unfold issuedTickets. rewrite run_bind.
  destruct (run (Tickets userID id) w2) as [[l|e] w3]; cbn [fst snd run]; [|done].
  pose proof (proj1 (ticket_responses_plain c' l)) as Hc. destruct (ticket_responses _ _ _ _ _) as [[ts|e] c2]; cbn [fst snd run] in *; congruence.
Qed.

Lemma handleGetSeats_qrs Marshal_seats gzipBytes c s inm ae w :
  ca_qrs (run (handleGetSeats Marshal_seats gzipBytes a c s inm ae) w).1.2 = ca_qrs c.
Proof.
  unfold handleGetSeats. destruct (pathEventID s); [|done]. rewrite run_bind. destruct (run _ w) as [[[entry|e] m] w1]; cbn [fst snd]; [|done].
  by repeat case_match.
Qed.

(** *** Webhooks *)

(** What happens to a body that passes every check. *)
Lemma handleWebhook_valid Unmarshal_webhook body signature p w :
  (length body <= maxWebhookBytes)%nat -> VerifySignature (api_webhookSecret a) body signature = true ->
  Unmarshal_webhook body = Some p -> Validate p = None ->
  run (handleWebhook Unmarshal_webhook a body signature) w =
    (match (run (ApplyPayment (api_inventory a) p) w).1 with
     | Ok res => WriteJSON StatusOK (pr_Outcome res)
     | Err e => WriteErr e
     end, (run (ApplyPayment (api_inventory a) p) w).2).
Proof.
  intros Hl Hs Hu Hv. unfold handleWebhook. destruct (Nat.ltb_spec maxWebhookBytes (length body)); [lia|].
  rewrite Hs, Hu, Hv. cbn [negb]. rewrite run_bind. by destruct (run _ w) as [[] w1].
Qed.

(** *** Deliveries *)

Lemma WriteErr_status {A} e : reply_status (@WriteErr A e) <> StatusOK.
Proof. by destruct e. Qed.

(** [net] is the way to booking and back: the request or its answer may be
    lost, otherwise [post] returns the status booking sent. *)
Definition posts_to (post : prog (World R) (res GoErr Z)) (endpoint : prog (World R) (Reply Outcome)) : Prop :=
  forall w, let r := run endpoint w in
    run post w = (Ok (reply_status r.1), r.2) \/
    exists e, run post w = (Err e, w) \/ run post w = (Err e, r.2).

Lemma sleep_same d awake w :
  let w' := (run (sleep d awake) w).2 in
  pg w' = pg w /\ klog w' = klog w /\ gateway w' = gateway w /\ outbox_seq w' = outbox_seq w.
Proof. unfold sleep. by destruct (d <=? 0), awake. Qed.

Lemma sleep_winv d awake w : winv w -> winv (run (sleep d awake) w).2 /\ pg (run (sleep d awake) w).2 = pg w.
Proof.
  intros [I1 I2 I3 IL I4 I5]. destruct (sleep_same d awake w) as (P & K & G & Q). split; [|done]. split; rewrite ?P, ?K, ?G, ?Q; done.
Qed.

Section delivery.
Context `{!InventoryFrame (api_inventory a)} (Unmarshal_webhook : Bytes -> option Webhook) (body : Bytes) (signature : string) (p : Webhook).
Context (Hl : (length body <= maxWebhookBytes)%nat) (Hs : VerifySignature (api_webhookSecret a) body signature = true).
Context (Hu : Unmarshal_webhook body = Some p) (Hv : Validate p = None).

(** From [w] to [w']: the books evolve, and [p]'s payment is as it was or
    [p]'s own. *)
Definition webhook_moves w w' : Prop :=
  winv w' /\ is_Some (orders (pg w') !! wh_OrderID p) /\
  (payments (pg w') !! wh_ProviderTxnID p = payments (pg w) !! wh_ProviderTxnID p \/
   exists oc, payments (pg w') !! wh_ProviderTxnID p = Some (payment_row p oc)).

Lemma post_moves (post : prog (World R) (res GoErr Z)) w :
  posts_to post (handleWebhook Unmarshal_webhook a body signature) -> winv w -> is_Some (orders (pg w) !! wh_OrderID p) ->
  webhook_moves w (run post w).2 /\
  ((run post w).1 = Ok StatusOK -> is_Some (payments (pg (run post w).2) !! wh_ProviderTxnID p)).
Proof.
  intros Hpost Hw Ho. specialize (Hpost w). cbv zeta in Hpost. rewrite (handleWebhook_valid _ _ _ p w) in Hpost by done. cbn [fst snd] in Hpost.
  assert (webhook_moves w (run (ApplyPayment (api_inventory a) p) w).2) as Hm.
  { pose proof (respects_safe winv world_step progress _ w (ApplyPayment_respects (G := fun _ => True) (api_inventory a) p Hv)) as Hsafe.
    destruct (safe_run winv world_step progress _ w world_step_ok Hsafe Hw) as [Hw' Hpr]. split_and!; [done| |].
    - destruct Ho as [r Hr]. destruct (ev_orders _ _ (pr_books _ _ Hpr) _ _ Hr) as (q & Hq & _). by exists q.
    - apply (ApplyPayment_payment (api_inventory a) p w), Hw. }
  pose proof (ApplyPayment_spec (api_inventory a) p w (wi_books _ Hw)) as Hspec. cbv zeta in Hspec.
  destruct (run (ApplyPayment _ p) w) as [res w1]. cbn [fst snd] in *.
  destruct Hpost as [->|(e & [->| ->])]; cbn [fst snd]; [|split; [split_and!; [done..|by left]|done]|by split].
  split; [done|]. destruct res as [x|e]; [|intros Hok; injection Hok as Hok; by apply WriteErr_status in Hok].
  intros _. destruct Ho as [r Hr]. destruct Hspec as [(Hn & _)|[(Hp & _ & ->)|(_ & _ & ->)]]; [congruence|done|by eexists].
Qed.

Lemma webhook_moves_trans w1 w2 w3 : webhook_moves w1 w2 -> webhook_moves w2 w3 -> webhook_moves w1 w3.
Proof. unfold webhook_moves. intros (_ & _ & H2) (A & B & [H3|H3]); [rewrite H3|]; auto. Qed.

Lemma delivery_moves (post : prog (World R) (res GoErr Z)) n wait forced awake w :
  posts_to post (handleWebhook Unmarshal_webhook a body signature) -> winv w -> is_Some (orders (pg w) !! wh_OrderID p) ->
  let r := run (sendWithRetry post n wait forced awake) w in
  webhook_moves w r.2 /\ (r.1.2 = DeliveredOK -> is_Some (payments (pg r.2) !! wh_ProviderTxnID p)).
Proof.
  intros Hpost. cbv zeta. revert wait forced awake w.
  induction n as [|n IH]; intros wait forced awake w Hw Ho; cbn [sendWithRetry]; rewrite run_bind;
    destruct (post_moves post w Hpost Hw Ho) as [Hm Hok]; destruct (run post w) as [res w1]; cbn [fst snd] in *;
    set (ok := match res with Ok status => status =? StatusOK | Err _ => false end);
    (assert (ok = true -> res = Ok StatusOK) as Hres by (subst ok; destruct res as [st|]; [|done]; by destruct (Z.eqb_spec st StatusOK) as [->|]));
    destruct (ok && negb _) eqn:Hd; cbn [run fst snd]; try (split; [done|]; intros _; apply Hok, Hres; by destruct ok); [by split|].
  rewrite run_bind. set (aw := match awake with b :: _ => b | [] => true end).
  destruct (sleep_winv wait aw w1) as [Hw2 P2]; [apply Hm|].
  assert (webhook_moves w (run (sleep wait aw) w1).2) as Hm2.
  { split; [done|]. rewrite P2. split; apply Hm. }
  destruct (run (sleep wait aw) w1) as [up w2]. cbn [fst snd] in *. destruct up; cbn [negb run fst snd]; [|by split].
  rewrite run_bind. destruct (IH (wrap64 (wait * 2)) (if ok then tail forced else forced) (tail awake) w2 Hw2) as [Hm3 Hok3]; [by apply Hm2|].
  destruct (run (sendWithRetry _ _ _ _ _) w2) as [r w3]. cbn [run fst snd] in *. split; [by eapply webhook_moves_trans|done].
Qed.
End delivery.
End endpoints.

Lemma delivery_in_books {R : Type} `{UuidLib} (a : api R) `{!InventoryFrame (api_inventory a)}
    (Unmarshal_webhook : Bytes -> option Webhook) (cfg : Config) (p : Webhook) (body : Bytes)
    (post : prog (World R) (res GoErr Z)) (forced awake : list bool) (w : World R)
    (Hsecret : fc_WebhookSecret cfg = api_webhookSecret a) (Hlen : (length body <= maxWebhookBytes)%nat)
    (Hu : Unmarshal_webhook body = Some p) (Hv : Validate p = None)
    (Hpost : posts_to post (handleWebhook Unmarshal_webhook a body (Sign (fc_WebhookSecret cfg) body)))
    (Hw : winv w) (Ho : is_Some (orders (pg w) !! wh_OrderID p)) :
  let r := run (sendWithRetry post (Z.to_nat (fc_MaxResends (New cfg))) (fc_RetryBase (New cfg)) forced awake) w in
  r.1.2 = DeliveredOK ->
  winv r.2 /\ exists row, payments (pg r.2) !! wh_ProviderTxnID p = Some row /\
    (payments (pg w) !! wh_ProviderTxnID p = None -> exists oc, row = payment_row p oc).
Proof.
  cbv zeta. intros Hd.
  destruct (delivery_moves a Unmarshal_webhook body (Sign (fc_WebhookSecret cfg) body) p Hlen) with
    (post := post) (n := Z.to_nat (fc_MaxResends (New cfg))) (wait := fc_RetryBase (New cfg)) (forced := forced) (awake := awake) (w := w)
    as [(Hw' & _ & Hp) Hok]; try done.
  { rewrite Hsecret. unfold VerifySignature, Sign. rewrite hex_string_roundtrip by apply hmac_ok. by apply bool_decide_eq_true_2. }
  destruct (Hok Hd) as [row Hrow]. split; [done|]. exists row. split; [done|]. intros Hn.
  destruct Hp as [Hp|[oc Hp]]; [congruence|]. exists oc. congruence.
Qed.

(** ** Properties *)

(** C12. POST /v1/orders tells the truth, whichever calls fail. A 201 or 200
    goes only to the user of a verified access token and, when admissions are
    required, with a verified admission token of that user for the event asked
    for; it carries an order stored for this user, idempotency key and
    request: a new HELD one (201) or the one stored before (200, no table
    changed), with a payment link only while HELD. Any other response left
    every table as it was, except that a 500 may hide a committed order. *)
Theorem orders_endpoint {R : Type} `{UuidLib} `{JwtLib} (url_Parse : string -> option (string * string))
    (Decode_order : string -> option CreateRequest) (keys : gset UUID -> list UUID) (a : api R) `{!Framed (api_orders a)}
    (c : caches) (authorization admission idempotencyKey body : string) (w : World R) (Hok : books_ok (pg w)) :
  let r := run (postOrders url_Parse Decode_order keys a c authorization admission idempotencyKey body) w in
  match r.1.1 with
  | WriteJSON _ _ =>
      exists userID key req,
        RequireUser (api_tokens a) (api_clock a w) authorization = Ok userID /\
        (forall tokens, api_admissions a = Some tokens -> exists adm,
           AdmissionTokens_Verify tokens (api_clock a w) admission = Ok adm /\
           adm_UserID adm = userID /\ adm_EventID adm = cr_EventID req) /\
        parseIdempotencyKey idempotencyKey = Ok key /\ DecodeJSON Decode_order body = Ok req /\
        order_answer userID key req (pg w) (pg r.2) r.1.1
  | WriteError _ status _ => pg r.2 = pg w \/ status = StatusInternalServerError
  end.
Proof.
  cbv zeta. unfold postOrders, authenticated. rewrite run_bind. cbn [run fst snd read_clock act].
  destruct (RequireUser _ _ _) as [userID|e]; [|apply error_answer; by left].
  destruct (api_admissions a) as [tokens|] eqn:Ht.
  - rewrite run_bind. cbn [run fst snd read_clock act]. destruct (RequireAdmission _ _ _ _) as [adm|e] eqn:Ha; [|apply error_answer; by left].
    pose proof (handleCreateOrder_spec url_Parse keys a Decode_order c userID (Some adm) idempotencyKey body w Hok) as Hs. cbv zeta in Hs.
    destruct (run _ w) as [[reply c'] w1]. cbn [fst snd] in *. destruct reply; [|done]. destruct Hs as (key & req & H1 & H2 & H3 & H4).
    exists userID, key, req. split_and!; try done. intros ? [= <-]. exists adm. split; [|by apply H4].
    unfold RequireAdmission in Ha. destruct (bool_decide (admission = EmptyString)); [done|].
    destruct (AdmissionTokens_Verify _ _ _); [|done]. by destruct (negb _).
  - pose proof (handleCreateOrder_spec url_Parse keys a Decode_order c userID None idempotencyKey body w Hok) as Hs. cbv zeta in Hs.
    destruct (run _ w) as [[reply c'] w1]. cbn [fst snd] in *. destruct reply; [|done]. destruct Hs as (key & req & H1 & H2 & H3 & _).
    by exists userID, key, req.
Qed.

(** C26. POST /v1/webhooks/fakepay, whichever calls fail: a 200 is given only
    to a body of at most 64 KiB that carries the HMAC of the shared secret and
    decodes to a valid webhook, and says what has happened: the order is
    unknown and nothing changed, the transaction had been recorded before and
    nothing changed, or the payment is now recorded with the outcome answered.
    A body too long, badly signed (401) or not valid changes nothing at all;
    any other error left the tables alone unless it is a 500. *)
Theorem webhook_endpoint {R : Type} `{UuidLib} (Unmarshal_webhook : Bytes -> option Webhook) (a : api R)
    `{!InventoryFrame (api_inventory a)} (body : Bytes) (signature : string) (w : World R) (Hok : books_ok (pg w)) :
  let r := run (handleWebhook Unmarshal_webhook a body signature) w in
  let signed := hex_DecodeString signature = Some (hmac_sha256 (bytes_of (api_webhookSecret a)) body) in
  let valid p := Unmarshal_webhook body = Some p /\ Validate p = None in
  match r.1 with
  | WriteJSON status outcome =>
      status = StatusOK /\ (length body <= maxWebhookBytes)%nat /\ signed /\ exists p, valid p /\
      ((orders (pg w) !! wh_OrderID p = None /\ outcome = OutcomeUnknownOrder /\ pg r.2 = pg w) \/
       (is_Some (payments (pg w) !! wh_ProviderTxnID p) /\ outcome = OutcomeDuplicate /\ pg r.2 = pg w) \/
       (is_Some (orders (pg w) !! wh_OrderID p) /\ payments (pg w) !! wh_ProviderTxnID p = None /\
        payments (pg r.2) !! wh_ProviderTxnID p = Some (payment_row p outcome)))
  | WriteError _ status _ => pg r.2 = pg w \/ status = StatusInternalServerError
  end /\
  ((maxWebhookBytes < length body)%nat -> r = (WriteErr ErrBadRequest, w)) /\
  ((length body <= maxWebhookBytes)%nat -> ~ signed -> r = (WriteErr ErrBadSignature, w)) /\
  ((length body <= maxWebhookBytes)%nat -> signed -> ~ (exists p, valid p) -> r = (WriteErr ErrInvalidWebhook, w)).
Proof.
  cbv zeta. unfold handleWebhook. destruct (Nat.ltb_spec maxWebhookBytes (length body)) as [Hl|Hl].
  { split; [apply error_answer; by left|]. split_and!; [done|lia..]. }
  assert (Hv : VerifySignature (api_webhookSecret a) body signature = true <->
    hex_DecodeString signature = Some (hmac_sha256 (bytes_of (api_webhookSecret a)) body)).
  { unfold VerifySignature. destruct (hex_DecodeString signature); [rewrite bool_decide_eq_true|]; naive_solver. }
  destruct (VerifySignature _ _ _) eqn:Hs; cbn [negb].
  2:{ split; [apply error_answer; by left|]. split_and!; [lia|done|naive_solver]. }
  destruct (Unmarshal_webhook body) as [p|] eqn:Hu.
  2:{ split; [apply error_answer; by left|]. split_and!; [lia|naive_solver|done]. }
  destruct (Validate p) as [reason|] eqn:Hval.
  { split; [apply error_answer; by left|]. split_and!; [lia|naive_solver|done]. }
  split; [|split_and!; [lia|naive_solver|intros _ _ Hn; destruct Hn; by exists p]].
  pose proof (ApplyPayment_spec (api_inventory a) p w Hok) as Hp. cbv zeta in Hp. rewrite run_bind.
  destruct (run (ApplyPayment _ p) w) as [[res|e] w1]; cbn [fst snd run] in *; [|by apply error_answer].
  split_and!; [done..|by apply Hv|]. by exists p.
Qed.

(** C14. A webhook the gateway counts as delivered is in booking's books. The
    gateway and booking share the secret; the way between them may lose posts
    and answers, booking's calls may fail at any point, and the gateway may
    count an accepted post as failed: when [sendWithRetry] stops because the
    webhook was delivered, a payment with its transaction id is recorded, and
    if there was none before, it is this webhook's, with its order, amount and
    status and the outcome decided for it - however many posts it took. *)
Theorem delivery_recorded {R : Type} `{UuidLib} (a : api R) `{!InventoryFrame (api_inventory a)}
    (Unmarshal_webhook : Bytes -> option Webhook) (cfg : Config) (p : Webhook) (body : Bytes)
    (post : prog (World R) (res GoErr Z)) (forced awake : list bool) (w : World R)
    (Hsecret : fc_WebhookSecret cfg = api_webhookSecret a) (Hlen : (length body <= maxWebhookBytes)%nat)
    (Hu : Unmarshal_webhook body = Some p) (Hv : Validate p = None)
    (Hpost : posts_to post (handleWebhook Unmarshal_webhook a body (Sign (fc_WebhookSecret cfg) body)))
    (Hw : winv w) (Ho : is_Some (orders (pg w) !! wh_OrderID p)) :
  let r := run (sendWithRetry post (Z.to_nat (fc_MaxResends (New cfg))) (fc_RetryBase (New cfg)) forced awake) w in
  r.1.2 = DeliveredOK ->
  winv r.2 /\ exists row, payments (pg r.2) !! wh_ProviderTxnID p = Some row /\
    (payments (pg w) !! wh_ProviderTxnID p = None -> exists oc, row = payment_row p oc).
Proof. by eapply delivery_in_books. Qed.
