(* ===== verification/Router.v ===== *)
(** * The booking router (cmd/booking/api.go [routes], cmd/booking/main.go [newRouter])

    Which handler runs for a request, behind which checks. Finding the route of
    a method and path among the registered patterns is chi's ([Mux]); the files
    of the web frontend are served by net/http, with the status [file_status]. *)

From S2P Require Import Prelude GoLib Crypto Effects Middleware OrderState CatalogEvent World Auth Frame OrderDB.
From S2P Require Import Float Inventory Catalog Payment OrderRequest OrderService OrderPayment OrderTickets OrderBooks OrderRefine PaymentRefine.
From S2P Require Import System Flows PaymentFlow CreateFlow Http Fakepay Text Caches Booking Endpoints.
Local Open Scope tr_scope.

(** What chi finds: the index of a registered route with the values of its
    path parameters, or why there is none. *)
Inductive Found := Matched (i : nat) (params : gmap string string) | NoRoute | NoMethod.

Class Mux := {
  Find : list (string * string) -> string -> string -> Found;
  (** Only a registered route of the request's method is found. *)
  find_registered routes method path i params :
    Find routes method path = Matched i params -> exists pattern, routes !! i = Some (method, pattern);
}.

(** What the handlers use of a request: the method and path, the headers
    Authorization, X-Admission-Token, Idempotency-Key, If-None-Match,
    Accept-Encoding, the webhook signature and X-Request-Id ("" when absent),
    and the body. *)
Record Request := mkRequest {
  rq_Method : string; rq_Path : string; rq_Authorization : string; rq_Admission : string; rq_IdempotencyKey : string;
  rq_IfNoneMatch : string; rq_AcceptEncoding : string; rq_Signature : string; rq_RequestID : string; rq_Body : string;
}.

(** What a response carries besides its status. *)
Inductive Payload :=
| PLogin (r : devLoginResponse)
| PEvent (r : eventResponse)
| PNotModified (etag : string)
| PSeats (etag encoding : string) (body : Bytes)
| POrder (r : orderResponse)
| PTickets (orderID : UUID) (l : list ticketResponse)
| POutcome (o : Outcome)
| PHealth (r : healthResponse)
| PFile (path : string).

Definition reply_map {A} (f : A -> Payload) (r : Reply A) : Reply Payload :=
  match r with WriteJSON s v => WriteJSON s (f v) | WriteError ra s b => WriteError ra s b end.

(** [SeatsError] only carries errors. *)
Definition seats_reply (r : SeatsReply) : Reply Payload :=
  match r with
  | SeatsNotModified etag => WriteJSON StatusNotModified (PNotModified etag)
  | SeatsOK etag encoding body => WriteJSON StatusOK (PSeats etag encoding body)
  | SeatsError r => reply_map (fun _ => PFile EmptyString) r
  end.

(** The handlers that routes point to. *)
Inductive Endpoint :=
| Healthz | Readyz | DevLogin | GetEventByID | GetSeatMap | PostWebhook | PostOrder | GetOneOrder | CancelOneOrder | GetOrderTickets | Static.

Section router.
Context {R : Type} `{UuidLib} `{JwtLib} `{Mux}.
Context (url_Parse : string -> option (string * string)) (PNG : string -> res GoErr Bytes).
Context (Decode_order : string -> option CreateRequest) (Decode_login : string -> option Z) (Unmarshal_webhook : Bytes -> option Webhook)
  (Marshal_seats : seatMapResponse -> res GoErr Bytes) (gzipBytes : Bytes -> res GoErr Bytes).
Context (keys : gset UUID -> list UUID) (file_status : Request -> Z) (a : api R) (checks : list (@Check (World R))).
Implicit Types w : World R.

(** [api.routes] *)
Definition api_routes : list (string * string * Endpoint) :=
  (if api_devLogin a then [("POST", "/v1/auth/dev-login", DevLogin)] else []) ++
  [ ("GET", "/v1/events/{eventID}", GetEventByID);
    ("GET", "/v1/events/{eventID}/seats", GetSeatMap);
    ("POST", "/v1/webhooks/fakepay", PostWebhook);
    ("POST", "/v1/orders", PostOrder);
    ("GET", "/v1/orders/{orderID}", GetOneOrder);
    ("POST", "/v1/orders/{orderID}/cancel", CancelOneOrder);
    ("GET", "/v1/orders/{orderID}/tickets", GetOrderTickets) ].

Definition registered : list (string * string * Endpoint) :=
  [("GET", "/healthz", Healthz); ("GET", "/readyz", Readyz)] ++ api_routes ++
  [("GET", "/", Static); ("GET", "/app.js", Static); ("GET", "/style.css", Static)].

Definition URLParam (params : gmap string string) (name : string) : string := default EmptyString (params !! name).

Definition replied {A} (f : A -> Payload) (p : prog (World R) (Reply A * caches)) : prog (World R) (Reply Payload * caches) :=
  let! r := p in Ret (reply_map f r.1, r.2).
Definition uncached {A} (f : A -> Payload) (c : caches) (p : prog (World R) (Reply A)) : prog (World R) (Reply Payload * caches) :=
  let! r := p in Ret (reply_map f r, c).

Definition handler (e : Endpoint) (params : gmap string string) (c : caches) (rq : Request) : prog (World R) (Reply Payload * caches) :=
  let auth := rq_Authorization rq in
  match e with
  | Healthz => Ret (reply_map PHealth Live, c)
  | Readyz => uncached PHealth c (Ready checks)
  | DevLogin => uncached PLogin c (handleDevLogin a Decode_login (rq_Body rq))
  | GetEventByID => uncached PEvent c (handleGetEvent a (URLParam params "eventID"))
  | GetSeatMap =>
      let! r := handleGetSeats Marshal_seats gzipBytes a c (URLParam params "eventID") (rq_IfNoneMatch rq) (rq_AcceptEncoding rq) in
      Ret (seats_reply r.1, r.2)
  | PostWebhook => uncached POutcome c (handleWebhook Unmarshal_webhook a (bytes_of (rq_Body rq)) (rq_Signature rq))
  | PostOrder => replied POrder (postOrders url_Parse Decode_order keys a c auth (rq_Admission rq) (rq_IdempotencyKey rq) (rq_Body rq))
  | GetOneOrder => replied POrder (getOrder url_Parse PNG keys a c auth (URLParam params "orderID"))
  | CancelOneOrder => replied POrder (cancelOrder url_Parse PNG keys a c auth (URLParam params "orderID"))
  | GetOrderTickets => replied (fun r => PTickets r.1 r.2) (getTickets PNG keys a c auth (URLParam params "orderID"))
  | Static => Ret (WriteJSON (file_status rq) (PFile (rq_Path rq)), c)
  end.

(** The endpoint of a request, if there is one. *)
Definition endpoint_of (rq : Request) : option Endpoint :=
  match Find registered.*1 (rq_Method rq) (rq_Path rq) with
  | Matched i _ => snd <$> registered !! i
  | _ => None
  end.

Definition dispatch (c : caches) (rq : Request) : prog (World R) (Reply Payload * caches) :=
  match Find registered.*1 (rq_Method rq) (rq_Path rq) with
  | NoRoute => Ret (NotFound, c)
  | NoMethod => Ret (MethodNotAllowed, c)
  | Matched i params =>
      match registered !! i with
      | Some (_, e) => handler e params c rq
      | None => Ret (NotFound, c)  (* no such index is found *)
      end
  end.

(** The middleware around it: the request id of the response, the handler
    behind [Recover], the line of the access log. *)
Definition newRouter (generated : string) (c : caches) (rq : Request)
  : prog (World R) (string * Served Payload * option LogLine * caches) :=
  let! r := dispatch c rq in
  let s := Recover (mkServed [r.1] None) in
  Ret (RequestID (rq_RequestID rq) generated, s, AccessLog ["/healthz"; "/readyz"] (rq_Method rq) (rq_Path rq) s, r.2).

(** ** What each endpoint may do *)

Context `{!Framed (api_orders a)} `{!InventoryFrame (api_inventory a)}.
Context (Hchecks : Forall (fun ck => keeps_tables (ck_Fn ck)) checks)
  (Hversion : forall v id, api_versioner a = Some v -> keeps_books (v id)).

Lemma endpoint_registered rq e : endpoint_of rq = Some e -> exists m p, (m, p, e) ∈ registered.
Proof.
  unfold endpoint_of. destruct (Find _ _ _) as [i params| |]; [|done..].
  destruct (registered !! i) as [[[m p] e']|] eqn:He; [|done]. intros [= <-]. exists m, p. by apply list_elem_of_lookup_2 with i.
Qed.

Lemma dev_login_registered rq : endpoint_of rq = Some DevLogin -> api_devLogin a = true.
Proof.
  intros (m & p & He)%endpoint_registered. unfold registered, api_routes in He. destruct (api_devLogin a); [done|].
  repeat (apply elem_of_cons in He as [He|He]; [discriminate|]). by apply elem_of_nil in He.
Qed.

Lemma kept_tables {A} (p : prog (World R) A) : keeps_books p -> keeps_tables p.
Proof. apply respects_mono. by intros w1 w2 (HG & _). Qed.

Lemma run_checks_tables (l : list (@Check (World R))) : Forall (fun ck => keeps_tables (ck_Fn ck)) l -> keeps_tables (run_checks l).
Proof.
  induction l as [|ck l IH]; [done|]. intros [Hck Hl]%Forall_cons. cbn [run_checks]. apply respects_bind; [done|]. intros r.
  apply respects_bind; [by apply IH|done].
Qed.

Lemma Ready_tables : keeps_tables (Ready checks).
Proof. unfold Ready. apply respects_bind; [by apply run_checks_tables|]. intros errs. by destruct (collect _ _ _ _). Qed.

Lemma handleGetEvent_tables s : keeps_tables (handleGetEvent a s).
Proof.
  unfold handleGetEvent. destruct (pathEventID s); [|done]. apply respects_bind; [apply kept_tables, Catalog_Event_frame|]. by intros [].
Qed.

Lemma handleGetSeats_tables c s inm ae : keeps_tables (handleGetSeats Marshal_seats gzipBytes a c s inm ae).
Proof.
  unfold handleGetSeats. destruct (pathEventID s) as [id|]; [|done]. apply respects_bind; [|intros [[] ?]; [by repeat case_match|done]].
  assert (keeps_tables (load_entry gzipBytes (api_clock a) seatMapTTL (renderSeatMap Marshal_seats a) (ca_seatMaps c) id)) as Hl.
  { unfold load_entry. apply respects_bind.
    - unfold renderSeatMap. apply respects_bind; [|intros [m|]; [by destruct (Marshal_seats _)|done]]. apply kept_tables. unfold SeatMap.
      apply respects_bind; [apply Catalog_Event_frame|]. intros [ev|]; [|done].
      apply respects_bind; [destruct (api_versioner a) eqn:Hv; [by apply Hversion|done]|]. intros [v|]; [|done].
      apply respects_bind; [apply SeatStatuses_frame|]. by intros [].
    - intros [r|e]; [|done]. destruct (gzipBytes _); [|done]. apply respects_bind; [by apply respects_act|done]. }
  unfold seatMaps_get. apply respects_bind; [by apply respects_act|]. intros now. destruct (_ !! _); [by destruct (_ <? _)|done].
Qed.

Lemma WriteErr_no {A} e status (v : A) : WriteErr e <> WriteJSON status v.
Proof. intros Hr. pose proof (error_silent (A := A) (fun _ _ => False) e) as He. by rewrite Hr in He. Qed.

(** The development login only adds a user. *)
Lemma handleDevLogin_spec body w :
  let r := run (handleDevLogin a Decode_login body) w in
  (pg r.2 = pg w \/ exists u, 0 < u /\ pg r.2 = set_users ({[u]} ∪ db_users (pg w)) (pg w)) /\
  forall status resp, r.1 = WriteJSON status resp -> exists userID,
    status = StatusOK /\ DecodeJSON Decode_login body = Ok userID /\ 0 < userID /\
    pg r.2 = set_users ({[userID]} ∪ db_users (pg w)) (pg w) /\
    Tokens_Issue (api_tokens a) (api_clock a r.2) userID = Ok (dl_AccessToken resp) /\
    dl_ExpiresIn resp = int64_of (Seconds (tk_ttl (api_tokens a))).
Proof.
  cbv zeta. unfold handleDevLogin. destruct (DecodeJSON Decode_login body) as [userID|e]; [|split; [by left|by intros ? ? ?%WriteErr_no]].
  destruct (Z.leb_spec userID 0); [split; [by left|by intros ? ? ?%WriteErr_no]|]. rewrite run_bind, run_act. unfold EnsureUser.
  pose proof (stmt_cases (insert_user userID) w) as (_ & _ & _ & Hs). cbv zeta in Hs.
  assert (pg (stmt (insert_user userID) w).2 = pg w \/ pg (stmt (insert_user userID) w).2 = set_users ({[userID]} ∪ db_users (pg w)) (pg w)) as Hs2.
  { destruct Hs as [Hs|[[] Hq]]; [by left|right]. by injection Hq as <-. }
  destruct (stmt (insert_user userID) w) as [[[]|e] w1] eqn:Hst; cbn [fst snd] in *.
  2:{ split; [destruct Hs2 as [Hp|Hp]; [by left|right; by exists userID]|by intros ? ? ?%WriteErr_no]. }
  apply stmt_ok in Hst as (Hq & _). injection Hq as Hq. rewrite run_bind. cbn [read_clock act run fst snd].
  destruct (Tokens_Issue _ _ _) as [token|e] eqn:Ht; cbn [run fst snd].
  - split; [destruct Hs2 as [Hp|Hp]; [by left|right; by exists userID]|]. intros status resp [= <- <-]. exists userID. by split_and!.
  - split; [destruct Hs2 as [Hp|Hp]; [by left|right; by exists userID]|by intros ? ? ?%WriteErr_no].
Qed.

(** Behind [RequireUser]: nothing happens without a verified user. *)
Lemma authenticated_spec {A} auth (next : Z -> prog (World R) (Reply A * caches)) c w :
  match RequireUser (api_tokens a) (api_clock a w) auth with
  | Ok userID => run (authenticated a auth next c) w = run (next userID) w
  | Err e => run (authenticated a auth next c) w = (WriteErr e, c, w)
  end.
Proof. unfold authenticated. rewrite run_bind. cbn [read_clock act run fst snd]. by destruct (RequireUser _ _ _). Qed.

Lemma handleWebhook_unsigned body signature w :
  VerifySignature (api_webhookSecret a) body signature = false -> (run (handleWebhook Unmarshal_webhook a body signature) w).2 = w.
Proof. intros Hs. unfold handleWebhook. destruct (Nat.ltb _ _); [done|]. by rewrite Hs. Qed.

(** Who a request comes from. *)
Definition user_of (rq : Request) w : res GoErr Z := RequireUser (api_tokens a) (api_clock a w) (rq_Authorization rq).

(** A request that changed the tables to [d'] was entitled to. *)
Definition entitled (e : Endpoint) (rq : Request) w (d' : PG) : Prop :=
  match e with
  | DevLogin => api_devLogin a = true /\ exists u, 0 < u /\ d' = set_users ({[u]} ∪ db_users (pg w)) (pg w)
  | PostWebhook => VerifySignature (api_webhookSecret a) (bytes_of (rq_Body rq)) (rq_Signature rq) = true
  | PostOrder | CancelOneOrder => exists userID, user_of rq w = Ok userID
  | _ => False
  end.

(** What a response says of orders and tickets is the requesting user's, as it
    is stored: the order, its issued tickets, and their QR codes if those in
    the cache [c] were right. *)
Definition private (user : res GoErr Z) (d : PG) (c : caches) (reply : Reply Payload) : Prop :=
  match reply with
  | WriteJSON _ (POrder resp) => exists userID o, user = Ok userID /\ owns d userID o /\
      resp = with_tickets (or_Tickets resp) (with_link (or_PaymentURL resp) (toOrderResponse o)) /\
      (or_PaymentURL resp <> EmptyString -> o_Status o = StatusHeld) /\
      (or_Tickets resp = [] \/ o_Status o = StatusTicketed /\ shown d (o_ID o) (or_Tickets resp) /\ pictured PNG false (or_Tickets resp))
  | WriteJSON _ (PTickets orderID l) => exists userID o, user = Ok userID /\ owns d userID o /\ o_ID o = orderID /\
      shown d orderID l /\ (qrs_true PNG d c -> pictured PNG true l)
  | WriteJSON _ (PLogin _) => api_devLogin a = true
  | _ => True
  end.

Lemma private_error {A} (f : A -> Payload) user d c e : private user d c (reply_map f (WriteErr e)).
Proof. unfold WriteErr. by destruct (list_find _ _) as [[i m]|]. Qed.

Lemma run_replied {A} (f : A -> Payload) p w : run (replied f p) w = (reply_map f (run p w).1.1, (run p w).1.2, (run p w).2).
Proof. unfold replied. rewrite run_bind. by destruct (run p w) as [[r c] w1]. Qed.

Lemma run_uncached {A} (f : A -> Payload) c p w : run (uncached f c p) w = (reply_map f (run p w).1, c, (run p w).2).
Proof. unfold uncached. rewrite run_bind. by destruct (run p w) as [r w1]. Qed.

Lemma one_order_private userID orderID d d' c (reply : Reply orderResponse) user :
  user = Ok userID -> one_order PNG userID orderID d d' reply -> private user d' c (reply_map POrder reply).
Proof.
  intros Hu. destruct reply as [st resp|]; [|done]. intros (_ & o & _ & Ho & Hr & Hl & Ht & Hn). exists userID, o. split_and!; try done.
  destruct (decide (o_Status o = StatusTicketed)) as [Hs|Hs]; [right; by split; [|apply Ht]|left; by apply Hn].
Qed.

Lemma order_answer_private userID key req d d' c (reply : Reply orderResponse) user :
  user = Ok userID -> order_answer userID key req d d' reply -> private user d' c (reply_map POrder reply).
Proof.
  intros Hu. destruct reply as [st resp|]; [|done]. intros (o & created & ev & norm & _ & Ht & _ & Hr & Hl). exists userID, o. split; [done|].
  assert (stored d' userID (uuid_String key) (requestHash norm) o) as (r & Ho & Hru & _ & _ & Hrow).
  { destruct created; [apply Ht|]. destruct Ht as [Hs ->]. done. }
  split; [exists r; split_and!; [done..|rewrite Hrow at 1; by rewrite Hrow]|].
  split; [by rewrite Hr|]. split; [|left; by rewrite Hr]. intros Hne. specialize (Hl Hne). by rewrite Hr in Hl.
Qed.

Lemma handler_guarded e params c rq w :
  books_ok (pg w) -> (e = DevLogin -> api_devLogin a = true) ->
  let r := run (handler e params c rq) w in
  (pg r.2 <> pg w -> entitled e rq w (pg r.2)) /\ private (user_of rq w) (pg r.2) c r.1.1.
Proof.
  intros Hok Hdev. cbv zeta.
  pose proof (fun (A : Type) (next : Z -> prog (World R) (Reply A * caches)) => authenticated_spec (rq_Authorization rq) next c w) as Hauth.
  fold (user_of rq w) in Hauth.
  destruct e; cbn [handler entitled]; rewrite ?run_replied, ?run_uncached; cbn [fst snd].
  - done.
  - rewrite (keeps_tables_run _ w Ready_tables). split; [done|]. by destruct (run (Ready checks) w) as [[] w1].
  - destruct (handleDevLogin_spec (rq_Body rq) w) as [[Hp|Hp] Hr].
    + split; [done|]. destruct (run _ w) as [[] w1]; [by apply Hdev|done].
    + split; [by split; [apply Hdev|]|]. destruct (run _ w) as [[] w1]; [by apply Hdev|done].
  - rewrite (keeps_tables_run _ w (handleGetEvent_tables _)). split; [done|]. by destruct (run _ w) as [[] w1].
  - rewrite run_bind. pose proof (keeps_tables_run _ w (handleGetSeats_tables c (URLParam params "eventID") (rq_IfNoneMatch rq) (rq_AcceptEncoding rq))) as Hp.
    destruct (run _ w) as [[r c'] w1]. cbn [run fst snd] in *. split; [done|]. by destruct r as [| |[]].
  - split; [|by destruct (run _ w) as [[] w1]]. destruct (VerifySignature _ _ _) eqn:Hs; [done|]. by rewrite handleWebhook_unsigned.
  - unfold postOrders. set (next := fun userID => _). specialize (Hauth _ next). destruct (user_of rq w) as [userID|e'] eqn:Hu.
    2:{ rewrite Hauth. split; [done|apply private_error]. }
    split; [by exists userID|]. rewrite Hauth. subst next. cbv beta.
    assert (forall adm, let r := run (handleCreateOrder url_Parse Decode_order keys a c userID adm (rq_IdempotencyKey rq) (rq_Body rq)) w in
      private (Ok userID) (pg r.2) c (reply_map POrder r.1.1)) as Hs.
    { intros adm. pose proof (handleCreateOrder_spec url_Parse keys a Decode_order c userID adm (rq_IdempotencyKey rq) (rq_Body rq) w Hok) as Hs.
      cbv zeta in *. destruct (run (handleCreateOrder _ _ _ _ _ _ _ _ _) w) as [[[st resp|] c'] w1]; cbn [fst snd] in *; [|exact I].
      destruct Hs as (key & req & _ & _ & Ho & _). by eapply order_answer_private. }
    destruct (api_admissions a) as [tokens|]; [|apply Hs].
    rewrite run_bind. cbn [read_clock act run fst snd]. destruct (RequireAdmission _ _ _ _) as [adm|e']; [apply Hs|apply private_error].
  - unfold getOrder. specialize (Hauth _ (fun userID => handleGetOrder url_Parse PNG keys a c userID (URLParam params "orderID"))).
    destruct (user_of rq w) as [userID|e'] eqn:Hu; rewrite Hauth; [|split; [done|apply private_error]].
    destruct (handleGetOrder_spec url_Parse keys a PNG c userID (URLParam params "orderID") w Hok) as [Ho Hp]. split; [done|].
    by eapply one_order_private.
  - unfold cancelOrder. specialize (Hauth _ (fun userID => handleCancelOrder url_Parse PNG keys a c userID (URLParam params "orderID"))).
    destruct (user_of rq w) as [userID|e'] eqn:Hu; rewrite Hauth; [|split; [done|apply private_error]].
    split; [by exists userID|]. eapply one_order_private; [done|by apply handleCancelOrder_spec].
  - unfold getTickets. specialize (Hauth _ (fun userID => handleTickets PNG keys c userID (URLParam params "orderID"))).
    destruct (user_of rq w) as [userID|e'] eqn:Hu; rewrite Hauth; clear Hauth; [|split; [done|apply private_error]].
    destruct (handleTickets_spec keys PNG c userID (URLParam params "orderID") w Hok) as (Hp & _ & Ho). split; [done|].
    destruct (run _ w) as [[[st [id l]|] c'] w1]; cbn [fst snd] in *; [|exact I]. destruct Ho as (_ & _ & (o & Hid & Ho) & Hsh & Hpic).
    rewrite Hp. by exists userID, o.
  - done.
Qed.

(** The cache of QR codes stays right. *)
Lemma handler_qrs e params c rq w :
  books_ok (pg w) -> qrs_true PNG (pg w) c -> qrs_true PNG (pg w) (run (handler e params c rq) w).1.2.
Proof.
  intros Hok Hc. assert (forall A (next : Z -> prog (World R) (Reply A * caches)),
    (forall userID, qrs_true PNG (pg w) (run (next userID) w).1.2) -> qrs_true PNG (pg w) (run (authenticated a (rq_Authorization rq) next c) w).1.2) as Hauth.
  { intros A next Hn. pose proof (authenticated_spec (rq_Authorization rq) next c w) as Hs. by destruct (RequireUser _ _ _); rewrite Hs. }
  destruct e; cbn [handler]; rewrite ?run_replied, ?run_uncached; cbn [fst snd]; try done.
  - rewrite run_bind. pose proof (handleGetSeats_qrs a Marshal_seats gzipBytes c (URLParam params "eventID") (rq_IfNoneMatch rq) (rq_AcceptEncoding rq) w) as Hq.
    destruct (run _ w) as [[r c'] w1]. by eapply qrs_true_same.
  - apply Hauth. intros userID. destruct (api_admissions a) as [tokens|]; [|eapply qrs_true_same; [apply handleCreateOrder_qrs|done]].
    rewrite run_bind. cbn [read_clock act run fst snd]. destruct (RequireAdmission _ _ _ _); [|done]. eapply qrs_true_same; [apply handleCreateOrder_qrs|done].
  - apply Hauth. intros userID. eapply qrs_true_same; [apply withOrder_qrs|done].
  - apply Hauth. intros userID. eapply qrs_true_same; [apply withOrder_qrs|done].
  - apply Hauth. intros userID. by apply handleTickets_spec.
Qed.

Lemma dispatch_guarded c rq w :
  books_ok (pg w) ->
  let r := run (dispatch c rq) w in
  (pg r.2 <> pg w -> exists e, endpoint_of rq = Some e /\ entitled e rq w (pg r.2)) /\
  private (user_of rq w) (pg r.2) c r.1.1 /\
  (qrs_true PNG (pg w) c -> qrs_true PNG (pg w) r.1.2) /\
  (endpoint_of rq = None -> r.2 = w /\ (r.1.1 = NotFound \/ r.1.1 = MethodNotAllowed)).
Proof.
  intros Hok. cbv zeta. pose proof (dev_login_registered rq) as Hdev. unfold dispatch, endpoint_of in *.
  destruct (Find _ _ _) as [i params| |]; [|by split_and!; [..|intros _; split; [|left]]|by split_and!; [..|intros _; split; [|right]]].
  destruct (registered !! i) as [[mp e]|]; cbn [fmap option_fmap option_map snd] in *; [|by split_and!; [..|intros _; split; [|left]]].
  destruct (handler_guarded e params c rq w Hok) as [Hpg Hpriv]; [intros ->; by apply Hdev|].
  split_and!; [by exists e; split; [|apply Hpg]|done| |done]. by apply handler_qrs.
Qed.
End router.

(** ** Properties *)

(** C13. What the router lets through. A request changes the tables only
    through four routes: the development login, mounted only in development,
    which adds one user and nothing else; a webhook that carries the shared
    secret's signature; and the two routes that create and cancel orders, for
    the user of a verified access token. Whatever calls fail, an order is shown
    only to that user, whose order it is, and as it is stored at that moment,
    with a payment link only while HELD; the tickets shown with it, if any, or
    by themselves are the issued tickets of that order, all of them, each once,
    with the seat, time and QR payload stored; and their pictures are those of
    the payloads if the cache held only such pictures before, and then it
    still does. A method and path that are not registered change nothing. Every response is logged, with its status. *)
Theorem router_guards {R : Type} `{UuidLib} `{JwtLib} `{Mux} (url_Parse : string -> option (string * string)) (PNG : string -> res GoErr Bytes)
    (Decode_order : string -> option CreateRequest) (Decode_login : string -> option Z) (Unmarshal_webhook : Bytes -> option Webhook)
    (Marshal_seats : seatMapResponse -> res GoErr Bytes) (gzipBytes : Bytes -> res GoErr Bytes) (keys : gset UUID -> list UUID)
    (file_status : Request -> Z) (a : api R) (checks : list (@Check (World R))) `{!Framed (api_orders a)} `{!InventoryFrame (api_inventory a)}
    (generated : string) (c : caches) (rq : Request) (w : World R)
    (Hchecks : Forall (fun ck => keeps_tables (ck_Fn ck)) checks)
    (Hversion : forall v id, api_versioner a = Some v -> keeps_books (v id)) (Hok : books_ok (pg w)) :
  let r := run (newRouter url_Parse PNG Decode_order Decode_login Unmarshal_webhook Marshal_seats gzipBytes keys file_status a checks generated c rq) w in
  exists reply line,
    r.1 = (RequestID (rq_RequestID rq) generated, mkServed [reply] None, Some line, r.1.2) /\
    (reply_status reply <> 0 -> ll_Status line = reply_status reply) /\
    (pg r.2 <> pg w -> exists e, endpoint_of a rq = Some e /\ entitled a e rq w (pg r.2)) /\
    private PNG a (user_of a rq w) (pg r.2) c reply /\
    (qrs_true PNG (pg w) c -> qrs_true PNG (pg w) r.1.2) /\
    (endpoint_of a rq = None -> r.2 = w /\ (reply = NotFound \/ reply = MethodNotAllowed)).
Proof.
  cbv zeta. unfold newRouter. rewrite run_bind.
  pose proof (dispatch_guarded url_Parse PNG Decode_order Decode_login Unmarshal_webhook Marshal_seats gzipBytes keys file_status a checks
    Hchecks Hversion c rq w Hok) as (Hpg & Hpriv & Hqrs & Hnone).
  destruct (run (dispatch _ _ _ _ _ _ _ _ _ _ _ _ _) w) as [[reply c'] w1]. cbn [fst snd run Recover sv_panic AccessLog sv_writes Middleware.Status] in *.
  exists reply. eexists. split_and!; try done. intros Hst. cbn [ll_Status]. by destruct (Z.eqb_spec (reply_status reply) 0).
Qed.

(** The development login works: the user is stored, nothing else changes, and
    the token answered is that user's on every route behind RequireUser until
    its expiry, in whole seconds. *)
Theorem dev_login_lets_in {R : Type} `{JwtLib} (Decode_login : string -> option Z) (a : api R) (body : string) (status : Z)
    (resp : devLoginResponse) (w w' : World R)
    (Hrun : run (handleDevLogin a Decode_login body) w = (WriteJSON status resp, w'))
    (Hdecode : forall u, Decode_login body = Some u -> in_int64 u = true) :
  exists userID, Decode_login body = Some userID /\ 0 < userID /\ userID ∈ db_users (pg w') /\
    pg w' = set_users ({[userID]} ∪ db_users (pg w)) (pg w) /\
    forall now, now < NumericDate (api_clock a w' + tk_ttl (api_tokens a)) * Second ->
      RequireUser (api_tokens a) now ("Bearer " +:+ dl_AccessToken resp) = Ok userID.
Proof.
  destruct (handleDevLogin_spec Decode_login a body w) as [_ Hr]. rewrite Hrun in Hr. cbn [fst snd] in Hr.
  destruct (Hr _ _ eq_refl) as (userID & _ & Hd & Hu & Hp & Ht & _). unfold DecodeJSON in Hd. destruct (Nat.ltb _ _); [done|].
  destruct (Decode_login body) as [u|] eqn:Hl; [|done]. injection Hd as ->. exists userID. split; [done|]. split; [done|].
  split; [rewrite Hp; apply elem_of_union_l, elem_of_singleton; done|]. split; [done|]. intros now Hnow.
  unfold RequireUser. rewrite CutPrefix_app. unfold Tokens_Issue in Ht. rewrite bool_decide_eq_false_2 by (by eapply signed_nonempty).
  unfold Tokens_Verify. erewrite parse_signed; [|exact Ht|reflexivity|done]. cbn [cl_Subject]. rewrite ParseInt_FormatInt by auto.
  by destruct (Z.leb_spec userID 0); [lia|].
Qed.
