(* ===== verification/Routes.v ===== *)
(** * Finding a route

    What the routers rely on in chi beyond [Mux]: when exactly one of the
    registered routes has the request's method and a pattern that fits its
    path, that route is found, with the path's segments as parameters. *)

From S2P Require Import Prelude GoLib Text World Router.

(** ** Patterns

    A path consists of the segments between its slashes; a segment "{name}" of
    a pattern fits any segment that is not empty. *)

Definition param_name (p : string) : option string :=
  match CutPrefix "{" p with Some rest => Some (String.substring 0 (String.length rest - 1) rest) | None => None end.

Fixpoint match_segments (pattern path : list string) : option (gmap string string) :=
  match pattern, path with
  | [], [] => Some ∅
  | p :: pattern, s :: path =>
      match param_name p with
      | Some name => if bool_decide (s = EmptyString) then None else <[name := s]> <$> match_segments pattern path
      | None => if bool_decide (p = s) then match_segments pattern path else None
      end
  | _, _ => None
  end.

(** The routes that fit: their indices, counted from [i]. *)
Fixpoint fitting (i : nat) (routes : list (string * string)) (method : string) (segments : list string) : list (nat * gmap string string) :=
  match routes with
  | [] => []
  | (m, p) :: routes =>
      match match_segments (Split "/" p) segments with
      | Some params => if bool_decide (m = method) then (i, params) :: fitting (S i) routes method segments else fitting (S i) routes method segments
      | None => fitting (S i) routes method segments
      end
  end.

Class MuxFinds `{Mux} := {
  find_unique routes method path i params :
    fitting 0 routes method (Split "/" path) = [(i, params)] -> Find routes method path = Matched i params;
  (** What is found fits. *)
  find_matches routes method path i params :
    Find routes method path = Matched i params -> (i, params) ∈ fitting 0 routes method (Split "/" path);
}.

Lemma fitting_no i m p routes method segments :
  match_segments (Split "/" p) segments = None -> fitting i ((m, p) :: routes) method segments = fitting (S i) routes method segments.
Proof. intros Hm. cbn [fitting]. by rewrite Hm. Qed.

Lemma fitting_yes i p routes method segments params :
  match_segments (Split "/" p) segments = Some params ->
  fitting i ((method, p) :: routes) method segments = (i, params) :: fitting (S i) routes method segments.
Proof. intros Hm. cbn [fitting]. by rewrite Hm, bool_decide_eq_true_2. Qed.

Lemma match_length pattern path : length pattern <> length path -> match_segments pattern path = None.
Proof.
  revert path. induction pattern as [|p pattern IH]; intros [|s path] Hl; try done. cbn in *.
  rewrite IH by lia. by repeat case_match.
Qed.

(** A pattern with one parameter. *)
Lemma match_static p pattern path : param_name p = None -> match_segments (p :: pattern) (p :: path) = match_segments pattern path.
Proof. intros Hp. cbn [match_segments]. by rewrite Hp, bool_decide_eq_true_2. Qed.

Lemma match_param name before after s :
  Forall (fun p => param_name p = None) before -> Forall (fun p => param_name p = None) after ->
  param_name ("{" +:+ name +:+ "}") = Some name -> s <> EmptyString ->
  match_segments (before ++ ("{" +:+ name +:+ "}") :: after) (before ++ s :: after) = Some {[name := s]}.
Proof.
  intros Hb Ha Hn Hs. induction Hb as [|p before Hp Hb IH]; [|cbn [app]; by rewrite match_static].
  cbn [app match_segments]. rewrite Hn, bool_decide_eq_false_2 by done.
  assert (match_segments after after = Some ∅) as ->; [|done]. clear Hn. induction Ha as [|p after Hp Ha IH]; [done|]. by rewrite match_static.
Qed.

Lemma fitting_elem i routes method segments j params :
  (j, params) ∈ fitting i routes method segments ->
  exists k p, j = (i + k)%nat /\ routes !! k = Some (method, p) /\ match_segments (Split "/" p) segments = Some params.
Proof.
  revert i. induction routes as [|[m p] routes IH]; intros i; cbn [fitting]; [by intros ?%elem_of_nil|].
  assert ((j, params) ∈ fitting (S i) routes method segments -> exists k q, j = (i + k)%nat /\ ((m, p) :: routes) !! k = Some (method, q) /\
    match_segments (Split "/" q) segments = Some params) as Hgo.
  { intros (k & q & -> & Hk & Hq)%IH. exists (S k), q. split_and!; [lia|done..]. }
  destruct (match_segments _ _) as [ps|] eqn:Hm; [|done]. case_bool_decide as Hd; [|done].
  intros [[= -> ->]|Hin]%elem_of_cons; [|by apply Hgo]. exists 0%nat, p. rewrite Hd. split_and!; [lia|done..].
Qed.

Lemma find_fits `{MuxFinds} routes method path i params :
  Find routes method path = Matched i params ->
  exists pattern, routes !! i = Some (method, pattern) /\ match_segments (Split "/" pattern) (Split "/" path) = Some params.
Proof. intros (k & p & -> & Hk & Hp)%find_matches%fitting_elem. by exists p. Qed.

(** ** Splitting paths *)

Definition no_slash (c : ascii) : bool := negb (bool_decide (c = "/"%char)).

Lemma Split_nonempty sep s : Split sep s <> [].
Proof. destruct s as [|c s]; [done|]. cbn [Split]. case_match; [done|]. by destruct (Split sep s). Qed.

Lemma Split_app sep a b : Split sep (a +:+ String sep b) = Split sep a ++ Split sep b.
Proof.
  induction a as [|c a IH]; [change (Split sep (String sep b) = EmptyString :: Split sep b); cbn [Split]; by rewrite bool_decide_eq_true_2|].
  change (String c a +:+ String sep b) with (String c (a +:+ String sep b)). cbn [Split]. rewrite IH.
  case_bool_decide; [done|]. pose proof (Split_nonempty sep a). by destruct (Split sep a).
Qed.

Lemma all_chars_impl (P Q : ascii -> bool) s : (forall c, P c = true -> Q c = true) -> all_chars P s = true -> all_chars Q s = true.
Proof.
  intros HPQ. induction s as [|c s IH]; [done|]. cbn [all_chars]. intros [Hc Hs]%andb_true_iff. by rewrite (HPQ c Hc), IH.
Qed.

Lemma uuid_segment `{UuidLib} id : Split "/" (uuid_String id) = [uuid_String id].
Proof.
  apply Split_single. eapply all_chars_impl; [|apply uuid_String_chars]. intros c Hc. apply negb_true_iff, bool_decide_eq_false.
  by intros ->.
Qed.

(** ** A concrete multiplexer: the first route that fits *)

Module Segments.
Fixpoint find_from (i : nat) (seen : bool) (routes : list (string * string)) (method path : string) : Found :=
  match routes with
  | [] => if seen then NoMethod else NoRoute
  | (m, p) :: routes =>
      match match_segments (Split "/" p) (Split "/" path) with
      | Some params => if bool_decide (m = method) then Matched i params else find_from (S i) true routes method path
      | None => find_from (S i) seen routes method path
      end
  end.

Lemma find_from_spec i seen routes method path j params :
  find_from i seen routes method path = Matched j params -> exists k p, j = (i + k)%nat /\ routes !! k = Some (method, p).
Proof.
  revert i seen. induction routes as [|[m p] routes IH]; intros i seen Hf; cbn [find_from] in Hf; [by destruct seen|].
  destruct (match_segments _ _) as [ps|]; [case_bool_decide as Hm|].
  - injection Hf as <- _. exists 0%nat, p. rewrite Hm. split; [lia|done].
  - destruct (IH _ _ Hf) as (k & q & -> & Hk). exists (S k), q. split; [lia|done].
  - destruct (IH _ _ Hf) as (k & q & -> & Hk). exists (S k), q. split; [lia|done].
Qed.

Lemma find_from_fits i seen routes method path :
  match fitting i routes method (Split "/" path) with
  | (j, params) :: _ => find_from i seen routes method path = Matched j params
  | [] => find_from i seen routes method path = NoRoute \/ find_from i seen routes method path = NoMethod
  end.
Proof.
  revert i seen. induction routes as [|[m p] routes IH]; intros i seen; cbn [fitting find_from]; [destruct seen; auto|].
  destruct (match_segments _ _); [case_bool_decide; [done|]|]; apply IH.
Qed.

#[export] Program Instance segments_mux : Mux := {| Find := find_from 0 false |}.
Next Obligation. intros routes method path i params Hf. apply find_from_spec in Hf as (k & p & -> & Hk). by exists p. Qed.

#[export] Instance segments_finds : MuxFinds.
Proof.
  split; intros routes method path i params; cbn [Find segments_mux]; pose proof (find_from_fits 0 false routes method path) as Hf.
  - intros Hu. by rewrite Hu in Hf.
  - intros Hm. rewrite Hm in Hf. destruct (fitting _ _ _ _) as [|[j ps] l]; [by destruct Hf|]. injection Hf as -> ->. by left.
Qed.
End Segments.
