(* ===== verification/Gate.v ===== *)
(** * The gateway's server and its client (internal/fakepay/fakepay.go [Routes],
      cmd/fakepay/main.go, internal/payment/client.go)

    Fakepay.v has the gateway's handlers, and a call of booking's client as one
    step. Here are the routes in front of the handlers, the page a buyer pays
    on, and the HTTP exchange the client's calls consist of. JSON texts are the
    library's: what decoding an encoded value gives is assumed where needed. *)

From S2P Require Import Prelude GoLib Money Effects Middleware OrderState World Frame OrderDB Payment OrderRefund Auth Http Fakepay Text Router Routes.
Local Open Scope tr_scope.

(** ** The payment page *)

Definition newline : string := String (ascii_of_nat 10) EmptyString.
(** Text between double quotes. *)
Definition quoted (s : string) : string := String (ascii_of_nat 34) (s +:+ String (ascii_of_nat 34) EmptyString).

Definition page (OrderID Amount : string) : string := String.concat newline [
  "<!doctype html>";
  "<html lang=" +:+ quoted "vi" +:+ ">";
  "<head>";
  "<meta charset=" +:+ quoted "utf-8" +:+ ">";
  "<meta name=" +:+ quoted "viewport" +:+ " content=" +:+ quoted "width=device-width, initial-scale=1" +:+ ">";
  "<title>Fakepay – thanh toán</title>";
  "<style>";
  "body{font-family:system-ui,sans-serif;max-width:32rem;margin:3rem auto;padding:0 1rem;color:#1a1a1a}";
  ".amount{font-size:2rem;font-weight:600;margin:.5rem 0 1.5rem}";
  "button{font-size:1rem;padding:.75rem 1.25rem;margin-right:.5rem;border-radius:.5rem;border:1px solid #888;cursor:pointer}";
  ".ok{background:#1f7a3d;color:#fff;border-color:#1f7a3d}";
  "#result{margin-top:1.5rem}";
  "</style>";
  "</head>";
  "<body>";
  "<h1>Fakepay</h1>";
  "<p>Cổng thanh toán giả lập. Đơn hàng <code>" +:+ OrderID +:+ "</code></p>";
  "<div class=" +:+ quoted "amount" +:+ ">" +:+ Amount +:+ " đ</div>";
  "<button class=" +:+ quoted "ok" +:+ " onclick=" +:+ quoted "pay('SUCCEEDED')" +:+ ">Thanh toán thành công</button>";
  "<button onclick=" +:+ quoted "pay('FAILED')" +:+ ">Thanh toán thất bại</button>";
  "<p id=" +:+ quoted "result" +:+ "></p>";
  "<script>";
  "async function pay(result) {";
  "  const out = document.getElementById('result');";
  "  const res = await fetch(location.pathname + '/complete', {";
  "    method: 'POST', headers: {'Content-Type': 'application/json'}, body: JSON.stringify({result})";
  "  });";
  "  const body = await res.json();";
  "  out.textContent = res.ok";
  "    ? 'Đã ghi nhận (' + result + '), mã giao dịch ' + body.provider_txn_id + '. Kết quả sẽ được báo về trang bán vé.'";
  "    : 'Lỗi: ' + (body.error ? body.error.message : res.status);";
  "}";
  "</script>";
  "</body>";
  "</html>"].

(** What an answer of the gateway carries besides its status. *)
Inductive GatewayPayload :=
| GEmpty
| GPaymentURL (url : string)
| GTransaction (txn : string)
| GRefund (status : string)
| GText (text : string)
| GHtml (html : string).

Definition gateway_map {A} (f : A -> GatewayPayload) (r : Reply A) : Reply GatewayPayload :=
  match r with WriteJSON s v => WriteJSON s (f v) | WriteError ra s b => WriteError ra s b end.

Inductive GatewayEndpoint := GHealthz | GCreate | GAuto | GRefundTxn | GPage | GComplete.

(** [Server.Routes] *)
Definition Routes : list (string * string * GatewayEndpoint) :=
  [ ("POST", "/v1/payments", GCreate);
    ("POST", "/v1/payments/auto", GAuto);
    ("POST", "/v1/refunds", GRefundTxn);
    ("GET", "/pay/{orderID}", GPage);
    ("POST", "/pay/{orderID}/complete", GComplete) ].
Definition gateway_registered : list (string * string * GatewayEndpoint) := ("GET", "/healthz", GHealthz) :: Routes.

(** A delivery to run in the background. *)
Abbreviation Scheduled := (option (CreatePaymentRequest * Webhook)).

Section server.
Context {R : Type} `{UuidLib} `{Mux} (url_Parse : string -> option (string * string)) (cfg : Config).
Context (Decode_create : string -> option CreatePaymentRequest) (Decode_auto : string -> option (CreatePaymentRequest * string))
  (Decode_complete : string -> option string) (Decode_refund : string -> option RefundRequest) (json_error : string -> string).
Implicit Types w : World R.

(** [Server.decode]: the value, or the message of the error. *)
Definition gateway_decode {A} (Decode : string -> option A) (body : string) : string + A :=
  match DecodeJSON Decode body with Ok v => inr v | Err _ => inl (json_error body) end.

Definition postPayment (body : string) : prog (World R) (Reply string) :=
  act (fun w => let '(r, g) := handleCreate url_Parse cfg (gateway_decode Decode_create body) (gateway w) in (r, set_gateway g w)).

Definition postRefund (body : string) : prog (World R) (Reply string) :=
  match gateway_decode Decode_refund body with
  | inl message => Ret (badRequest message)
  | inr req =>
      let! ok := act (fun w => let '(ok, g) := handleRefund req (gateway w) in (ok, set_gateway g w)) in
      if ok : bool then Ret (WriteJSON StatusOK StatusSucceeded)
      else Ret (badRequest "invalid request: order_id, provider_txn_id and a positive amount_vnd are required")
  end.

Definition handlePage (orderID : string) : prog (World R) (Reply GatewayPayload) :=
  act (fun w =>
    (match p ← uuid_Parse orderID; gw_payments (gateway w) !! p with
     | Some p => WriteJSON StatusOK (GHtml (page (uuid_String (cp_OrderID p)) (FormatVND (cp_AmountVND p))))
     | None => WriteJSON StatusNotFound (GText "Không có thanh toán cho đơn này")
     end, w)).

(** Refunds: how many distinct transactions were refunded. *)
Definition Refunds (g : Gateway) : nat := size (gw_refunds g).

Definition unscheduled {A} (f : A -> GatewayPayload) (p : prog (World R) (Reply A)) : prog (World R) (Reply GatewayPayload * Scheduled) :=
  let! r := p in Ret (gateway_map f r, None).
Definition scheduling (p : prog (World R) (Reply string * Scheduled)) : prog (World R) (Reply GatewayPayload * Scheduled) :=
  let! r := p in Ret (gateway_map GTransaction r.1, r.2).

Definition gateway_handler (e : GatewayEndpoint) (params : gmap string string) (body : string) : prog (World R) (Reply GatewayPayload * Scheduled) :=
  match e with
  | GHealthz => Ret (WriteJSON StatusOK GEmpty, None)
  | GCreate => unscheduled GPaymentURL (postPayment body)
  | GAuto => scheduling (handleAuto url_Parse cfg (gateway_decode Decode_auto body))
  | GRefundTxn => unscheduled GRefund (postRefund body)
  | GPage => unscheduled id (handlePage (URLParam params "orderID"))
  | GComplete => scheduling (handleComplete (URLParam params "orderID") (gateway_decode Decode_complete body))
  end.

Definition gateway_dispatch (method path body : string) : prog (World R) (Reply GatewayPayload * Scheduled) :=
  match Find gateway_registered.*1 method path with
  | NoRoute => Ret (NotFound, None)
  | NoMethod => Ret (MethodNotAllowed, None)
  | Matched i params =>
      match gateway_registered !! i with
      | Some (_, e) => gateway_handler e params body
      | None => Ret (NotFound, None)  (* no such index is found *)
      end
  end.

(** The server that cmd/fakepay starts. *)
Definition gateway_router (generated : string) (rq : Request) : prog (World R) (string * Served GatewayPayload * option LogLine * Scheduled) :=
  let! r := gateway_dispatch (rq_Method rq) (rq_Path rq) (rq_Body rq) in
  let s := Recover (mkServed [r.1] None) in
  Ret (RequestID (rq_RequestID rq) generated, s, AccessLog ["/healthz"] (rq_Method rq) (rq_Path rq) s, r.2).
End server.

(** ** What the gateway remembers *)

Record gateway_ok (g : Gateway) : Prop := {
  go_payments id p : gw_payments g !! id = Some p -> cp_OrderID p = id /\ id <> uuid_Nil /\ 0 < cp_AmountVND p;
  go_txns txn id : gw_txns g !! txn = Some id -> is_Some (gw_payments g !! id);
  go_refunds txn r : gw_refunds g !! txn = Some r -> rq_ProviderTxnID r = txn /\ rq_OrderID r <> uuid_Nil /\ 0 < rq_AmountVND r;
}.

(** Nothing registered or refunded is forgotten or changed. *)
Record gateway_grows (g g' : Gateway) : Prop := {
  gg_payments id p : gw_payments g !! id = Some p -> gw_payments g' !! id = Some p;
  gg_refunds txn r : gw_refunds g !! txn = Some r -> gw_refunds g' !! txn = Some r;
  gg_log : gw_log g `prefix_of` gw_log g';
}.
#[global] Instance gateway_grows_preorder : PreOrder gateway_grows.
Proof. split; [by split|]. intros g1 g2 g3 [A1 A2 A3] [B1 B2 B3]. split; auto. by etrans. Qed.

(** What the gateway schedules: the webhook of a registered payment, which
    booking finds valid. *)
Record scheduled_ok (g : Gateway) (s : CreatePaymentRequest * Webhook) : Prop := {
  so_payment : gw_payments g !! cp_OrderID s.1 = Some s.1;
  so_order : wh_OrderID s.2 = cp_OrderID s.1;
  so_amount : wh_AmountVND s.2 = cp_AmountVND s.1;
  so_txn : gw_txns g !! wh_ProviderTxnID s.2 = Some (cp_OrderID s.1);
  so_status : wh_Status s.2 = StatusSucceeded \/ wh_Status s.2 = StatusFailed;
}.

Lemma scheduled_valid g s : gateway_ok g -> scheduled_ok g s ->
  wh_ProviderTxnID s.2 <> EmptyString -> (String.length (wh_ProviderTxnID s.2) <= 128)%nat -> Validate s.2 = None.
Proof.
  intros Hg [H1 H2 H3 H4 H5] Hne Hlen. destruct (go_payments _ Hg _ _ H1) as (_ & Hid & Ha). unfold Validate.
  rewrite bool_decide_eq_false_2 by done. destruct (Nat.ltb_spec 128 (String.length (wh_ProviderTxnID s.2))); [lia|]. cbn [orb].
  rewrite H2, bool_decide_eq_false_2 by done. rewrite H3. destruct (Z.ltb_spec (cp_AmountVND s.1) 0), (Z.eqb_spec (cp_AmountVND s.1) 0); try lia.
  rewrite andb_false_r. destruct H5 as [-> | ->]; reflexivity.
Qed.

Lemma register_spec (url_Parse : string -> option (string * string)) cfg req g :
  gateway_ok g -> validCreate url_Parse cfg req = None ->
  let r := register req g in
  gateway_ok r.2 /\ gateway_grows g r.2 /\ cp_OrderID r.1 = cp_OrderID req /\ gw_payments r.2 !! cp_OrderID req = Some r.1 /\
  gw_txns r.2 = gw_txns g /\ (gw_payments g !! cp_OrderID req = None -> r.1 = req).
Proof.
  intros Hg Hv. assert (cp_OrderID req <> uuid_Nil /\ 0 < cp_AmountVND req) as [Hid Ha].
  { unfold validCreate in Hv. case_bool_decide; [done|]. destruct (Z.leb_spec (cp_AmountVND req) 0); [done|]. by split. }
  unfold register. destruct (gw_payments g !! cp_OrderID req) as [p|] eqn:Hp; cbn.
  - split_and!; try done. by destruct (go_payments _ Hg _ _ Hp) as (? & _).
  - split; [|split; [|by rewrite lookup_insert_eq]].
    + split; cbn; [|intros txn id Ht|apply Hg].
      * intros id p [[<- <-]|[_ Hi]]%lookup_insert_Some; [done|]. by apply Hg.
      * destruct (go_txns _ Hg _ _ Ht) as [q Hq]. destruct (decide (cp_OrderID req = id)) as [->|Hne]; [rewrite lookup_insert_eq; eauto|].
        rewrite lookup_insert_ne by done. eauto.
    + split; cbn; [|done..]. intros id p Hi. rewrite lookup_insert_ne by congruence. done.
Qed.

Section gate.
Context {R : Type} `{UuidLib} `{Mux} (url_Parse : string -> option (string * string)) (cfg : Config).
Context (Decode_create : string -> option CreatePaymentRequest) (Decode_auto : string -> option (CreatePaymentRequest * string))
  (Decode_complete : string -> option string) (Decode_refund : string -> option RefundRequest) (json_error : string -> string).
Implicit Types w : World R.

Notation serve := (gateway_dispatch url_Parse cfg Decode_create Decode_auto Decode_complete Decode_refund json_error).

(** A request only touches the gateway's memory, and draws random text. *)
Definition gateway_only w w' : Prop := w' = set_gateway (gateway w') (set_rands (rands w') w).

Lemma gateway_only_refl w : gateway_only w w.
Proof. by destruct w. Qed.

(** What a request may do, and what it may schedule. *)
Definition served_ok w (r : (Reply GatewayPayload * Scheduled) * World R) : Prop :=
  gateway_only w r.2 /\ gateway_ok (gateway r.2) /\ gateway_grows (gateway w) (gateway r.2) /\
  forall s, r.1.2 = Some s -> scheduled_ok (gateway r.2) s /\ r.1.1 = WriteJSON StatusOK (GTransaction (wh_ProviderTxnID s.2)).

Lemma completed_ok p result w :
  gateway_ok (gateway w) -> gw_payments (gateway w) !! cp_OrderID p = Some p -> served_ok w (run (scheduling (completed p result)) w).
Proof.
  intros Hg Hp. unfold scheduling, completed, complete. rewrite !run_bind. destruct (negb _ && negb _) eqn:Hres.
  { cbn. split; [apply gateway_only_refl|]. by split_and!. }
  assert (result = StatusSucceeded \/ result = StatusFailed) as Hst.
  { apply andb_false_iff in Hres as [Hres|Hres]; apply negb_false_iff, bool_decide_eq_true in Hres; auto. }
  rewrite run_bind, run_act. destruct w as [d sh sq rd pn rn lk gw kl ct fl us rs ch].
  assert (exists text rs', (match rand_Text (mkWorld d sh sq rd pn rn lk gw kl ct fl us rs ch) with (Ok s, w) => (s, w) | (Err _, w) => (EmptyString, w) end) =
    (text, mkWorld d sh sq rd pn rn lk gw kl ct fl us rs' ch)) as (text & rs' & ->) by (unfold rand_Text; cbn; destruct rs; eauto).
  cbn in Hg, Hp |- *. split; [done|]. split; [|split; [by split|]].
  - split; cbn; [apply Hg| |apply Hg]. intros txn id [[<- <-]|[_ Ht]]%lookup_insert_Some; [by eexists|by eapply Hg].
  - intros s [= <-]. split; [|done]. split; cbn; try done. by rewrite lookup_insert_eq.
Qed.

Lemma gateway_handler_ok e params body w :
  gateway_ok (gateway w) ->
  served_ok w (run (gateway_handler url_Parse cfg Decode_create Decode_auto Decode_complete Decode_refund json_error e params body) w).
Proof.
  intros Hg. assert (forall r, served_ok w (r, None, w)) as Hnone by (intros r; split; [apply gateway_only_refl|]; by split_and!).
  destruct e; cbn [gateway_handler]; unfold unscheduled; rewrite ?run_bind.
  - apply Hnone.
  - unfold postPayment. rewrite run_act. unfold handleCreate. destruct (gateway_decode _ _ _) as [m|req]; [destruct w; apply Hnone|].
    destruct (validCreate url_Parse cfg req) as [reason|] eqn:Hv; [destruct w; apply Hnone|].
    destruct (register_spec url_Parse cfg req (gateway w) Hg Hv) as (Hok & Hgr & _). destruct (register req (gateway w)) as [p g]. cbn in *.
    split; [by destruct w|]. by split_and!.
  - unfold handleAuto, scheduling. rewrite run_bind. destruct (gateway_decode _ _ _) as [m|[req result]]; [apply Hnone|].
    destruct (validCreate url_Parse cfg req) as [reason|] eqn:Hv; [apply Hnone|]. rewrite run_bind, run_act.
    destruct (register_spec url_Parse cfg req (gateway w) Hg Hv) as (Hok & Hgr & Hid & Hp & _). destruct (register req (gateway w)) as [p g].
    cbn [fst snd] in *. rewrite <- Hid in Hp.
    destruct (completed_ok p (if bool_decide (result = EmptyString) then StatusSucceeded else result) (set_gateway g w) Hok Hp) as (C1 & C2 & C3 & C4).
    unfold scheduling in *. rewrite run_bind in *. destruct (run (completed _ _) _) as [r w']. cbn [run fst snd] in *.
    split; [by destruct w, w'|]. split_and!; [done|by etrans|done].
  - unfold postRefund. destruct (gateway_decode _ _ _) as [m|req]; [apply Hnone|]. rewrite run_bind, run_act. unfold handleRefund.
    destruct (bool_decide (rq_ProviderTxnID req = EmptyString) || _ || _) eqn:Hv; [destruct w; apply Hnone|].
    apply orb_false_iff in Hv as [[_ Hid%bool_decide_eq_false]%orb_false_iff Ha%Z.leb_gt].
    cbn. split; [by destruct w|]. split_and!; [split; cbn; [apply Hg..|]|split; cbn; [done| |by eexists]|done]; case_bool_decide as Hr; try done.
    + apply Hg.
    + intros txn q [[<- <-]|[_ Ht]]%lookup_insert_Some; [done|by apply Hg].
    + intros txn q Ht. rewrite lookup_insert_ne; [done|]. intros <-. apply Hr. eauto.
  - unfold handlePage. rewrite run_act. apply Hnone.
  - unfold scheduling. rewrite run_bind. unfold handleComplete. destruct (uuid_Parse _) as [id|]; [|apply Hnone].
    destruct (gateway_decode _ _ _) as [m|result]; [apply Hnone|]. rewrite run_bind, run_act. destruct (gw_payments (gateway w) !! id) as [p|] eqn:Hp; [|apply Hnone].
    cbn [fst snd]. assert (gw_payments (gateway w) !! cp_OrderID p = Some p) as Hp' by (by destruct (go_payments _ Hg _ _ Hp) as (-> & _)).
    pose proof (completed_ok p result w Hg Hp') as Hc. unfold scheduling in Hc. by rewrite run_bind in Hc.
Qed.

Lemma gateway_dispatch_ok method path body w : gateway_ok (gateway w) -> served_ok w (run (serve method path body) w).
Proof.
  intros Hg. assert (forall r, served_ok w (r, None, w)) as Hnone by (intros r; split; [apply gateway_only_refl|]; by split_and!).
  unfold gateway_dispatch. destruct (Find _ _ _) as [i params| |]; [|apply Hnone..].
  destruct (gateway_registered !! i) as [[mp e]|]; [by apply gateway_handler_ok|apply Hnone].
Qed.
End gate.

(** The memory changes only behind a POST route that fits the path. *)
Lemma gateway_changes {R : Type} `{UuidLib} `{MuxFinds} url_Parse cfg Decode_create Decode_auto Decode_complete Decode_refund json_error method path body (w : World R) :
  gateway (run (gateway_dispatch url_Parse cfg Decode_create Decode_auto Decode_complete Decode_refund json_error method path body) w).2 <> gateway w ->
  method = "POST" /\ exists i pattern params,
    gateway_registered.*1 !! i = Some ("POST", pattern) /\ match_segments (Split "/" pattern) (Split "/" path) = Some params.
Proof.
  unfold gateway_dispatch. destruct (Find _ _ _) as [i params| |] eqn:Hf; [|done..]. apply find_fits in Hf as (pattern & Hi & Hm).
  destruct (gateway_registered !! i) as [[mp e]|] eqn:He; [|done]. intros Hc. rewrite list_lookup_fmap, He in Hi. injection Hi as ->.
  assert (method = "POST") as ->; [|split; [done|]; exists i, pattern, params; split; [by rewrite list_lookup_fmap, He|done]].
  destruct e; try (exfalso; apply Hc; cbn [gateway_handler]; unfold unscheduled; by rewrite ?run_bind).
  all: repeat (destruct i as [|i]; [by injection He|]); done.
Qed.

(** ** The routes that clients and buyers use *)

Section routes.
Context `{UuidLib} `{MuxFinds}.

Lemma find_payments : Find gateway_registered.*1 "POST" "/v1/payments" = Matched 1 ∅.
Proof. by apply find_unique. Qed.

Lemma find_refunds : Find gateway_registered.*1 "POST" "/v1/refunds" = Matched 3 ∅.
Proof. by apply find_unique. Qed.

Lemma find_page id : Find gateway_registered.*1 "GET" ("/pay/" +:+ uuid_String id) = Matched 4 {["orderID" := uuid_String id]}.
Proof.
  apply find_unique. change ("/pay/" +:+ uuid_String id) with ("/pay" +:+ String "/" (uuid_String id)). rewrite Split_app, uuid_segment.
  unfold gateway_registered, Routes. rewrite !fmap_cons. cbn [fst]. rewrite fitting_no, fitting_no, fitting_no, fitting_no by reflexivity. rewrite (fitting_yes _ _ _ _ _ {["orderID" := uuid_String id]}).
  - rewrite fitting_no; [done|by apply match_length].
  - apply (match_param "orderID" [EmptyString; "pay"] []); [by repeat constructor..|done|apply uuid_String_nonempty].
Qed.

Lemma find_complete id : Find gateway_registered.*1 "POST" ("/pay/" +:+ uuid_String id +:+ "/complete") = Matched 5 {["orderID" := uuid_String id]}.
Proof.
  apply find_unique. change ("/pay/" +:+ uuid_String id +:+ "/complete") with ("/pay" +:+ String "/" (uuid_String id +:+ String "/" "complete")).
  rewrite !Split_app, uuid_segment.
  unfold gateway_registered, Routes. rewrite !fmap_cons. cbn [fst]. rewrite fitting_no, fitting_no, fitting_no, fitting_no by reflexivity. rewrite fitting_no by by apply match_length.
  rewrite (fitting_yes _ _ _ _ _ {["orderID" := uuid_String id]}); [done|].
  apply (match_param "orderID" [EmptyString; "pay"] ["complete"]); [by repeat constructor..|done|apply uuid_String_nonempty].
Qed.
End routes.

(** ** Booking's client (internal/payment/client.go) *)

Record HttpResponse := mkHttpResponse { hp_StatusCode : Z; hp_Body : string }.

(** [io.LimitReader(res.Body, 64<<10)] *)
Definition maxResponseBytes : nat := Z.to_nat 65536.

Section client.
Context {R : Type} (Do : string -> string -> M R HttpResponse) (baseURL : string).
Context (Marshal_create : CreatePaymentRequest -> option string) (Unmarshal_create : string -> option string)
  (Marshal_refund : RefundRequest -> option string) (Unmarshal_refund : string -> option string).

(** [Client.post]: [Do] sends a body to a URL and reads the answer. *)
Definition client_post {A B} (Marshal : A -> option string) (Unmarshal : string -> option B) (path : string) (in_ : A) : M R B :=
  match Marshal in_ with
  | None => mfail EInfra
  | Some body =>
      let* res := Do (baseURL +:+ path) body in
      let raw := String.substring 0 maxResponseBytes (hp_Body res) in
      if negb (hp_StatusCode res =? StatusOK) then mfail EInfra
      else match Unmarshal raw with Some out => mret out | None => mfail EInfra end
  end.

Definition Client_CreatePayment (req : CreatePaymentRequest) : M R string := client_post Marshal_create Unmarshal_create "/v1/payments" req.
Definition Client_Refund (req : RefundRequest) : M R unit :=
  let* _ := client_post Marshal_refund Unmarshal_refund "/v1/refunds" req in mret tt.
End client.

Section exchange.
Context {R : Type} `{UuidLib} `{MuxFinds} (url_Parse : string -> option (string * string)) (cfg : Config).
Context (Decode_create : string -> option CreatePaymentRequest) (Decode_auto : string -> option (CreatePaymentRequest * string))
  (Decode_complete : string -> option string) (Decode_refund : string -> option RefundRequest) (json_error : string -> string).
(** The text of an answer. *)
Context (encode : Reply GatewayPayload -> string).
Implicit Types w : World R.

(** A POST to the gateway, listening at [base]. *)
Definition gateway_Do (base url body : string) : M R HttpResponse :=
  call EInfra (fun w =>
    let '(r, w') := run (gateway_dispatch url_Parse cfg Decode_create Decode_auto Decode_complete Decode_refund json_error
                           "POST" (TrimPrefix base url) body) w in
    (Ok (mkHttpResponse (reply_status r.1) (encode r.1)), w')).

Lemma set_gateway_id w : set_gateway (gateway w) w = w.
Proof. by destruct w. Qed.

Lemma postPayment_route body w :
  run (gateway_dispatch url_Parse cfg Decode_create Decode_auto Decode_complete Decode_refund json_error "POST" "/v1/payments" body) w =
    let r := run (postPayment url_Parse cfg Decode_create json_error body) w in ((gateway_map GPaymentURL r.1, None), r.2).
Proof. unfold gateway_dispatch. rewrite find_payments. cbn [gateway_registered Routes lookup list_lookup gateway_handler]. unfold unscheduled. by rewrite run_bind. Qed.

Lemma postRefund_route body w :
  run (gateway_dispatch url_Parse cfg Decode_create Decode_auto Decode_complete Decode_refund json_error "POST" "/v1/refunds" body) w =
    let r := run (postRefund Decode_refund json_error body) w in ((gateway_map GRefund r.1, None), r.2).
Proof. unfold gateway_dispatch. rewrite find_refunds. cbn [gateway_registered Routes lookup list_lookup gateway_handler]. unfold unscheduled. by rewrite run_bind. Qed.

Context (Marshal_create : CreatePaymentRequest -> option string) (Unmarshal_create : string -> option string)
  (Marshal_refund : RefundRequest -> option string) (Unmarshal_refund : string -> option string).

(** A value sent one way, and an answer read back. *)
Definition sends {A} (Marshal : A -> option string) (Decode : string -> option A) (v : A) : Prop :=
  exists body, Marshal v = Some body /\ DecodeJSON Decode body = Ok v.
Definition reads_back (Unmarshal : string -> option string) (f : string -> GatewayPayload) (s : string) : Prop :=
  Unmarshal (String.substring 0 maxResponseBytes (encode (WriteJSON StatusOK (f s)))) = Some s.

Lemma client_create base req w :
  sends Marshal_create Decode_create req -> gateway_ok (gateway w) ->
  reads_back Unmarshal_create GPaymentURL (paymentPage cfg (cp_OrderID req)) ->
  Client_CreatePayment (gateway_Do base) base Marshal_create Unmarshal_create req w = CreatePayment url_Parse cfg req w.
Proof.
  intros (body & Hm & Hd) Hg Hu. unfold Client_CreatePayment, client_post, CreatePayment. rewrite Hm. unfold mbind, gateway_Do, call.
  destruct (pop_fault w) as [fl w0] eqn:Hp. apply pop_fault_spec in Hp as (_ & _ & _ & He). assert (gateway w0 = gateway w) as Hgw by apply He.
  rewrite TrimPrefix_app, postPayment_route. unfold postPayment. rewrite run_act. unfold gateway_decode. rewrite Hd. unfold handleCreate.
  destruct (validCreate url_Parse cfg req) as [reason|] eqn:Hv; [by destruct fl|].
  rewrite <- Hgw in Hg. destruct (register_spec url_Parse cfg req (gateway w0) Hg Hv) as (_ & _ & Hid & _).
  destruct (register req (gateway w0)) as [p g]. cbn [fst snd] in *. rewrite Hid.
  destruct fl; [|done..]. cbn [gateway_map reply_status fst snd hp_StatusCode hp_Body]. change (negb (StatusOK =? StatusOK)) with false. cbv iota.
  unfold reads_back in Hu. by rewrite Hu.
Qed.

Lemma client_refund base req w :
  sends Marshal_refund Decode_refund req -> reads_back Unmarshal_refund GRefund StatusSucceeded ->
  Client_Refund (gateway_Do base) base Marshal_refund Unmarshal_refund req w = Gateway_Refund req w.
Proof.
  intros (body & Hm & Hd) Hu. unfold Client_Refund, client_post, Gateway_Refund. rewrite Hm. unfold mbind, gateway_Do, call.
  destruct (pop_fault w) as [fl w0]. rewrite TrimPrefix_app, postRefund_route. unfold postRefund, gateway_decode. rewrite Hd, run_bind, run_act.
  unfold handleRefund. destruct (bool_decide (rq_ProviderTxnID req = EmptyString) || _ || _);
    cbn [fst snd run gateway_map reply_status]; rewrite ?set_gateway_id; destruct fl; try done; cbn [hp_StatusCode hp_Body];
    change (negb (StatusOK =? StatusOK)) with false; cbv iota; unfold reads_back in Hu; by rewrite Hu.
Qed.
End exchange.

(** ** Properties *)

(** C19. What a request to the gateway can do. Served by the gateway's routes,
    it leaves everything but the gateway's memory and the random text alone;
    the memory stays well formed, keeps every registered payment and every
    refund as it is and the log as far as it was written, and changes only through a POST to a registered route. A
    webhook is scheduled only with the answer 200, for a registered payment
    and with its amount, its transaction is remembered, and booking finds it
    valid when the random text is not overlong. Every answer is logged. *)
Theorem gateway_serves {R : Type} `{UuidLib} `{MuxFinds} (url_Parse : string -> option (string * string)) (cfg : Config)
    (Decode_create : string -> option CreatePaymentRequest) (Decode_auto : string -> option (CreatePaymentRequest * string))
    (Decode_complete : string -> option string) (Decode_refund : string -> option RefundRequest) (json_error : string -> string)
    (generated : string) (rq : Request) (w : World R) (Hg : gateway_ok (gateway w)) :
  let r := run (gateway_router url_Parse cfg Decode_create Decode_auto Decode_complete Decode_refund json_error generated rq) w in
  exists reply line scheduled,
    r.1 = (RequestID (rq_RequestID rq) generated, mkServed [reply] None, Some line, scheduled) /\
    r.2 = set_gateway (gateway r.2) (set_rands (rands r.2) w) /\
    gateway_ok (gateway r.2) /\ gateway_grows (gateway w) (gateway r.2) /\
    (gateway r.2 <> gateway w -> rq_Method rq = "POST" /\ exists i pattern params,
       gateway_registered.*1 !! i = Some ("POST", pattern) /\ match_segments (Split "/" pattern) (Split "/" (rq_Path rq)) = Some params) /\
    forall p wh, scheduled = Some (p, wh) ->
      reply = WriteJSON StatusOK (GTransaction (wh_ProviderTxnID wh)) /\
      gw_payments (gateway r.2) !! wh_OrderID wh = Some p /\ wh_AmountVND wh = cp_AmountVND p /\
      gw_txns (gateway r.2) !! wh_ProviderTxnID wh = Some (wh_OrderID wh) /\
      (wh_ProviderTxnID wh <> EmptyString -> (String.length (wh_ProviderTxnID wh) <= 128)%nat -> Validate wh = None).
Proof.
  cbv zeta. unfold gateway_router. rewrite run_bind.
  set (p := gateway_dispatch _ _ _ _ _ _ _ _ _ _). pose proof (gateway_dispatch_ok url_Parse cfg Decode_create Decode_auto Decode_complete Decode_refund json_error
    (rq_Method rq) (rq_Path rq) (rq_Body rq) w Hg) as (S1 & S2 & S3 & S4). fold p in S1, S2, S3, S4.
  assert (gateway (run p w).2 <> gateway w -> rq_Method rq = "POST" /\ exists i pattern params,
    gateway_registered.*1 !! i = Some ("POST", pattern) /\ match_segments (Split "/" pattern) (Split "/" (rq_Path rq)) = Some params) as Hpost.
  { intros Hc. by eapply gateway_changes. }
  destruct (run p w) as [[reply s] w1]. cbn [fst snd run Recover sv_panic AccessLog sv_writes] in *. exists reply. do 2 eexists.
  split_and!; try done. intros q wh [= ->]. destruct (S4 _ eq_refl) as [[A1 A2 A3 A4 A5] ->]. cbn [fst snd] in *. rewrite A2. split_and!; try done.
  intros Hne Hl. by eapply (scheduled_valid (gateway w1) (q, wh)).
Qed.

(** C18. A call of booking's payment client is the step the model makes of it.
    Encoding the request, posting it to the gateway's address, finding the
    route, decoding, handling, encoding the answer and reading it back comes,
    with every way the call can fail, to [CreatePayment] and to
    [Gateway_Refund], provided that the values survive their encoding. *)
Theorem payment_client_calls {R : Type} `{UuidLib} `{MuxFinds} (url_Parse : string -> option (string * string)) (cfg : Config)
    (Decode_create : string -> option CreatePaymentRequest) (Decode_auto : string -> option (CreatePaymentRequest * string))
    (Decode_complete : string -> option string) (Decode_refund : string -> option RefundRequest) (json_error : string -> string)
    (encode : Reply GatewayPayload -> string) (Marshal_create : CreatePaymentRequest -> option string) (Unmarshal_create : string -> option string)
    (Marshal_refund : RefundRequest -> option string) (Unmarshal_refund : string -> option string)
    (base : string) (req : CreatePaymentRequest) (ref : RefundRequest) (w : World R) (Hg : gateway_ok (gateway w))
    (Hreq : sends Marshal_create Decode_create req) (Hpage : reads_back encode Unmarshal_create GPaymentURL (paymentPage cfg (cp_OrderID req)))
    (Href : sends Marshal_refund Decode_refund ref) (Hst : reads_back encode Unmarshal_refund GRefund StatusSucceeded) :
  let Do := gateway_Do url_Parse cfg Decode_create Decode_auto Decode_complete Decode_refund json_error encode base in
  Client_CreatePayment Do base Marshal_create Unmarshal_create req w = CreatePayment url_Parse cfg req w /\
  Client_Refund Do base Marshal_refund Unmarshal_refund ref w = Gateway_Refund ref w.
Proof. split; [by apply client_create|by apply client_refund]. Qed.
