(* ===== verification/WaitServer.v ===== *)
(** * The waiting room's server (cmd/waitingroom/api.go [routes],
      cmd/waitingroom/main.go [newRouter])

    Which handler of Stream.v runs for a request, and what a request can do to
    the queues: only the user of a verified access token joins one, the event's
    of the path, and nobody's place or token is touched. *)

From S2P Require Import Prelude GoLib Effects Middleware RedisServer RedisQueue CatalogEvent World Auth Frame OrderDB Catalog.
From S2P Require Import Queue Worker Waiting Http Stream Text Router Routes.
Local Open Scope tr_scope.

(** What a request carries besides [Request]: the query's queue_id, and for a
    stream how its turns go. *)
Record WaitRequest := mkWaitRequest { wq_Request : Request; wq_QueueID : string; wq_Turns : list Turn }.

Inductive WaitPayload := WHealth (r : healthResponse) | WJoined (r : joinResponse) | WEvents (evs : list StreamEvent) | WNone.

Definition wait_map {A} (f : A -> WaitPayload) (r : Reply A) : Reply WaitPayload :=
  match r with WriteJSON s v => WriteJSON s (f v) | WriteError ra s b => WriteError ra s b end.

Inductive WaitEndpoint := WHealthz | WReadyz | JoinQueue | StreamQueue.

(** [api.routes] *)
Definition wait_routes : list (string * string * WaitEndpoint) :=
  [("POST", "/v1/queue/{eventID}/join", JoinQueue); ("GET", "/v1/queue/{eventID}/stream", StreamQueue)].
Definition wait_registered : list (string * string * WaitEndpoint) :=
  [("GET", "/healthz", WHealthz); ("GET", "/readyz", WReadyz)] ++ wait_routes.

Section server.
Context {R : Type} `{RedisQueue R} `{UuidLib} `{JwtLib} `{Mux} (a : waitapi R) (checks : list (@Check (World R))).
Implicit Types w : World R.

Definition wait_handler (e : WaitEndpoint) (params : gmap string string) (rq : WaitRequest) : prog (World R) (Reply WaitPayload) :=
  match e with
  | WHealthz => Ret (wait_map WHealth Live)
  | WReadyz => let! r := Ready checks in Ret (wait_map WHealth r)
  | JoinQueue => let! r := postJoin a (rq_Authorization (wq_Request rq)) (URLParam params "eventID") in Ret (wait_map WJoined r)
  | StreamQueue =>
      let! r := handleStream a (URLParam params "eventID") (wq_QueueID rq) (wq_Turns rq) in
      match r with
      | inl r => Ret (wait_map (fun _ => WNone) r)
      | inr evs => Ret (WriteJSON StatusOK (WEvents evs))
      end
  end.

Definition wait_dispatch (rq : WaitRequest) : prog (World R) (Reply WaitPayload) :=
  match Find wait_registered.*1 (rq_Method (wq_Request rq)) (rq_Path (wq_Request rq)) with
  | NoRoute => Ret NotFound
  | NoMethod => Ret MethodNotAllowed
  | Matched i params =>
      match wait_registered !! i with
      | Some (_, e) => wait_handler e params rq
      | None => Ret NotFound  (* no such index is found *)
      end
  end.

(** [newRouter] *)
Definition wait_router (generated : string) (rq : WaitRequest) : prog (World R) (string * Served WaitPayload * option LogLine) :=
  let q := wq_Request rq in
  let! r := wait_dispatch rq in
  let s := Recover (mkServed [r] None) in
  Ret (RequestID (rq_RequestID q) generated, s, AccessLog ["/healthz"; "/readyz"] (rq_Method q) (rq_Path q) s).
End server.

(** ** What a request does to the queues *)

Section queues.
Context {R : Type} `{RedisQueue R} `{UuidLib}.
Implicit Types w : World R.

(** At most the buyer [who] has got a place. *)
Record queue_gains (who : option (Z * Z)) w w' : Prop := {
  qd_books : books_kept w w';
  qd_clock : redis_now w' = redis_now w;
  qd_stay e m : m ∈ (waiters w e).*2 -> m ∈ (waiters w' e).*2;
  qd_new e x : x ∈ waiters w' e ->
    x ∈ waiters w e \/ exists u, who = Some (e, u) /\ x.1 = redis_now w /\ owner w' e x.2 = Some (FormatInt u);
  qd_owner e m : owner w' e m = owner w e m \/ exists u, who = Some (e, u) /\ owner w' e m = Some (FormatInt u);
  qd_token q : token_of w' q = token_of w q;
}.

#[global] Instance queue_gains_preorder who : PreOrder (queue_gains who).
Proof.
  split; [intros w; split; auto; done|]. intros w1 w2 w3 [A1 A2 A3 A4 A5 A6] [B1 B2 B3 B4 B5 B6].
  split; [by etrans|congruence|auto| | |congruence].
  - intros e x Hx. destruct (B4 e x Hx) as [Hx2|(u & Hu & Hn & Ho)]; [|right; exists u; rewrite <- A2; done].
    destruct (A4 e x Hx2) as [|(u & Hu & Hn & Ho)]; [by left|right]. exists u. split_and!; [done..|].
    destruct (B5 e x.2) as [->|(u' & Hu' & ->)]; congruence.
  - intros e m. destruct (B5 e m) as [->|?]; [apply A5|by right].
Qed.

Lemma queue_gains_weaken who w w' : queue_gains None w w' -> queue_gains who w w'.
Proof. intros [A1 A2 A3 A4 A5 A6]. split; try done; [intros e x Hx|intros e m]; [destruct (A4 e x Hx)|destruct (A5 e m)]; naive_solver. Qed.

(** The same tables of Redis. *)
Lemma queue_gains_same w w' : books_kept w w' -> rds w' = rds w -> redis_now w' = redis_now w -> queue_gains None w w'.
Proof. intros Hk Hr Hn. split; try done; unfold waiters, owner, token_of; rewrite ?Hr, ?Hn; auto. Qed.

Lemma redis_queue_gains who (f : Z -> R -> R) w w' :
  books_kept w w' -> redis_now w' = redis_now w -> rds w' = rds w \/ rds w' = f (redis_now w) (rds w) ->
  (forall v, books_kept w v -> redis_now v = redis_now w -> rds v = f (redis_now w) (rds w) -> queue_gains who w v) -> queue_gains who w w'.
Proof. intros Hk Hn [Hr|Hr] Hf; [by apply queue_gains_weaken, queue_gains_same|by apply Hf]. Qed.
End queues.

Notation joins_only who p := (respects (fun _ => True) (queue_gains who) p).

Section moves.
Context {R : Type} `{RedisQueue R} `{UuidLib}.
Implicit Types w : World R.

Lemma moves_weaken {A} who (p : prog (World R) A) : joins_only None p -> joins_only who p.
Proof. apply respects_mono. intros w w'. apply queue_gains_weaken. Qed.

Lemma call_moves {A} who (f : Z -> R -> A * R) :
  (forall w v, books_kept w v -> redis_now v = redis_now w -> rds v = (f (redis_now w) (rds w)).2 -> queue_gains who w v) ->
  joins_only who (act (redis_call f)).
Proof.
  intros Hf. apply respects_act. intros w _. split; [done|]. pose proof (redis_call_cases f w) as Hc. pose proof (redis_call_frame f w) as Hk.
  destruct (redis_call f w) as [res w']. destruct (f (redis_now w) (rds w)) as [x r'] eqn:Hx. destruct Hc as [Hn Hc]. cbn [snd] in *.
  apply (redis_queue_gains who (fun now r => (f now r).2)); [done..| |].
  - rewrite Hx. destruct res; [right; apply Hc|destruct Hc as [_ [Hr|Hr]]; auto].
  - intros v Hkv Hnv Hrv. by apply Hf.
Qed.

Lemma read_moves {A} who (f : Z -> R -> A) : joins_only who (act (redis_call (fun now r => (f now r, r)))).
Proof. apply call_moves. intros w v Hk Hn Hr. by apply queue_gains_weaken, queue_gains_same. Qed.

Lemma Status_moves who e q : joins_only who (Status e q).
Proof. unfold Status. repeat (apply respects_bind; [apply read_moves|intros ?]). by repeat case_match. Qed.

(** The script adds the user at the back of the event's queue, or does nothing. *)
Lemma joined_queue_gains e u new w v :
  books_kept w v -> redis_now v = redis_now w -> rds v = joined e u new (redis_now w) (rds w) -> queue_gains (Some (e, u)) w v.
Proof.
  intros Hk Hn Hr. split; [done..| | | |].
  - intros e' m. unfold waiters. rewrite Hr, joined_waiters. case_decide; [|done]. intros Hm.
    apply list_elem_of_fmap in Hm as (x & -> & Hx). apply list_elem_of_fmap. destruct (decide (x.2 = new)) as [->|Hne].
    + exists (redis_now w, new). split; [done|]. apply elem_of_zadd. by left.
    + exists x. split; [done|]. apply elem_of_zadd. by right.
  - intros e' x. unfold waiters, owner. rewrite Hr, joined_waiters, joined_owner. case_decide as He; [|by left]. subst e'.
    rewrite elem_of_zadd. intros [->|[_ Hx]]; [right; exists u|by left]. by rewrite decide_True.
  - intros e' m. unfold owner. rewrite Hr, joined_owner. case_decide as He; [|by left]. destruct He as [<- _]. right. by exists u.
  - intros q. unfold token_of. rewrite Hr, Hn. apply joined_other; [apply admitted_queueKey|apply admitted_owner|].
    unfold userKey. apply admitted_queue.
Qed.

Lemma join_queue_moves e u spent : joins_only (Some (e, u)) (join_queue e u spent).
Proof.
  apply respects_bind.
  { apply respects_act. intros w _. split; [done|]. apply queue_gains_weaken. destruct (NewV7_rds w) as (Hr & Hn & _).
    apply queue_gains_same; [unfold NewV7; by destruct (ids w) as [|[]]|done..]. }
  intros [id|]; [|done]. apply respects_bind; [|intros [res|]; [by case_match|done]].
  apply call_moves. intros w v Hk Hn. rewrite join_lua_cases.
  destruct (GET _ _ _) as [cur|]; [case_bool_decide|]; cbn [snd]; intros Hr; first [by eapply joined_queue_gains|by apply queue_gains_weaken, queue_gains_same].
Qed.

Lemma Join_moves e u : joins_only (Some (e, u)) (Join e u).
Proof.
  apply respects_bind; [apply read_moves|]. intros [[cur|]|]; [|apply join_queue_moves|done].
  destruct (uuid_Parse cur) as [id|]; [|apply join_queue_moves].
  apply respects_bind; [apply Status_moves|]. intros [st|err]; [done|]. case_err err; try done. apply join_queue_moves.
Qed.
End moves.

(** The catalog reads tables and its own memory. *)
Section catalog.
Context {R : Type} `{RedisQueue R} `{UuidLib}.
Implicit Types w : World R.

Lemma stmt_rds {A} (q : Z -> PG -> res GoErr (A * PG)) w : rds (stmt q w).2 = rds w /\ redis_now (stmt q w).2 = redis_now w.
Proof.
  unfold stmt, call. destruct (pop_fault w) as [fl w0] eqn:Hp. destruct (pop_fault_spec _ _ _ Hp) as (_ & _ & _ & (_ & Hr & _ & Hn & _)).
  destruct fl; cbn; [|by rewrite Hr, Hn|]; destruct (q (pg_now w0) (pg w0)) as [[x d]|e]; cbn; by rewrite Hr, Hn.
Qed.

Lemma frame_moves {A} (p : prog (World R) A) :
  keeps_books p -> respects (fun _ => True) (fun w w' => rds w' = rds w /\ redis_now w' = redis_now w) p -> joins_only None p.
Proof.
  induction p as [x|X f k IH]; intros Hk Hr; [done|]. destruct Hk as [Hk1 Hk2], Hr as [Hr1 Hr2]. split; [|intros x; by apply IH].
  intros w _. split; [done|]. destruct (Hk1 w I) as [_ Hb], (Hr1 w I) as (_ & Hrd & Hn). by apply queue_gains_same.
Qed.

Lemma Catalog_Event_moves proc id : joins_only None (Catalog_Event (R := R) proc id).
Proof.
  apply frame_moves; [apply Catalog_Event_frame|]. unfold Catalog_Event, load.
  assert (forall A (q : Z -> PG -> res GoErr (A * PG)), respects (fun _ => True) (fun w w' => rds w' = rds w /\ redis_now w' = redis_now w) (act (stmt (R := R) q)))
    as Hst by (intros A q; apply respects_act; intros w _; split; [done|apply stmt_rds]).
  assert (PreOrder (fun w w' : World R => rds w' = rds w /\ redis_now w' = redis_now w)) as Hpre.
  { split; [done|]. intros x y z [? ?] [? ?]. split; congruence. }
  apply respects_bind; [by apply respects_act|]. intros [ev|]; [done|]. apply respects_bind.
  - apply respects_bind; [apply Hst|]. intros [row|e]; [|by repeat case_match]. apply respects_bind; [apply Hst|by intros []].
  - intros [ev|]; [|done]. apply respects_bind; [by apply respects_act|done].
Qed.
End catalog.

(** ** Who is told a place has one *)

Section standing.
Context {R : Type} `{RedisQueue R} `{UuidLib}.
Implicit Types w : World R.

Definition same_redis w w' : Prop := rds w' = rds w /\ redis_now w' = redis_now w.

Lemma read_answers {A} (f : Z -> R -> A) w :
  let r := redis_call (fun now r => (f now r, r)) w in
  same_redis w r.2 /\ match r.1 with Ok x => x = f (redis_now w) (rds w) | Err _ => True end.
Proof.
  cbv zeta. pose proof (redis_call_cases (fun now r => (f now r, r)) w) as Hc. cbn in Hc. destruct (redis_call _ w) as [[x|e] w1]; cbn [fst snd].
  - by destruct Hc as (? & ? & ?).
  - by destruct Hc as (? & _ & [?|?]).
Qed.

(** The buyer has a place in the queue, or a token. *)
Definition standing w (e : Z) (q : UUID) : Prop := uuid_String q ∈ (waiters w e).*2 \/ is_Some (token_of w q).

Lemma same_standing w w' e q : same_redis w w' -> standing w e q -> standing w' e q.
Proof. intros [Hr Hn]. unfold standing, waiters, token_of. by rewrite Hr, Hn. Qed.

Lemma Status_standing e q w :
  let r := run (Status e q) w in
  same_redis w r.2 /\ match r.1 with Ok _ => standing r.2 e q | Err _ => True end.
Proof.
  cbv zeta. unfold Status. rewrite run_bind, run_act.
  pose proof (read_answers (fun now r => GET r now (AdmittedKey q)) w) as [[R1 N1] A1]. destruct (redis_call _ w) as [tok w1]. cbn [fst snd] in *.
  rewrite run_bind, run_act. pose proof (read_answers (fun now r => PTTL r now (AdmittedKey q)) w1) as [[R2 N2] _].
  destruct (redis_call _ w1) as [ttl w2]. cbn [fst snd] in *. rewrite run_bind, run_act.
  pose proof (read_answers (fun _ r => zrank (uuid_String q) (ZSET r (queueKey e))) w2) as [[R3 N3] A3].
  destruct (redis_call _ w2) as [rank w3]. cbn [fst snd] in *.
  assert (same_redis w w3) as Hs by (split; congruence).
  assert (match tok with Ok (Some _) => is_Some (token_of w q) | _ => True end) as Htok.
  { destruct tok as [[t|]|]; [|done..]. exists t. by rewrite A1. }
  assert (match rank with Ok (Some _) => uuid_String q ∈ (waiters w e).*2 | _ => True end) as Hrank.
  { destruct rank as [[n|]|]; [|done..]. symmetry in A3. apply zrank_nonneg in A3 as [_ A3]. unfold waiters. by rewrite <- R1, <- R2. }
  clear A1 A3. destruct (first_err _) as [[x|]|]; [done|..];
    (destruct tok as [[t|]|]; [split; [done|by eapply same_standing; [|right]]|..]);
    (destruct rank as [[n|]|]; [split; [done|by eapply same_standing; [|left]]|done..]).
Qed.

Lemma join_queue_standing e u spent w :
  (forall cur, GET (rds w) (redis_now w) (userKey e u) = Some cur -> cur = spent) ->
  let r := run (join_queue e u spent) w in
  match r.1 with Ok en => standing r.2 e (en_QueueID en) | Err _ => True end.
Proof.
  intros Hspent. cbv zeta. unfold join_queue. rewrite run_bind, run_act. destruct (NewV7_rds w) as (Hr & Hn & _).
  destruct (NewV7 w) as [[id|] w1]; cbn [fst snd] in *; [|done]. rewrite run_bind, run_act.
  set (f := join_lua _ _ _ _ _ _ _). pose proof (redis_call_cases f w1) as Hc.
  assert (f (redis_now w1) (rds w1) = ((uuid_String id, default (-1) (zrank (uuid_String id) (ZSET (joined e u (uuid_String id) (redis_now w1) (rds w1)) (queueKey e)))),
    joined e u (uuid_String id) (redis_now w1) (rds w1))) as Hf.
  { unfold f. rewrite join_lua_cases, Hr, Hn. destruct (GET _ _ _) as [cur|] eqn:Hg; [|done]. by rewrite (Hspent cur eq_refl), bool_decide_eq_true_2. }
  rewrite Hf in Hc. destruct (redis_call f w1) as [[res|err] w2]; cbn [fst snd]; [|done]. destruct Hc as (Hn2 & -> & Hr2). cbn [fst snd].
  rewrite uuid_Parse_String. cbn [run fst snd en_QueueID]. left. unfold waiters. rewrite Hr2, joined_waiters, decide_True by done.
  apply list_elem_of_fmap. exists (redis_now w1, uuid_String id). split; [done|]. apply elem_of_zadd. by left.
Qed.

Lemma Join_standing_after e u w :
  let r := run (Join e u) w in
  match r.1 with Ok en => standing r.2 e (en_QueueID en) | Err _ => True end.
Proof.
  cbv zeta. unfold Join. rewrite run_bind, run_act. pose proof (read_answers (fun now r => GET r now (userKey e u)) w) as [[R1 N1] A1].
  destruct (redis_call _ w) as [[cur|err] w1]; cbn [fst snd] in *; [|done].
  assert (forall v spent, same_redis w1 v -> cur = None \/ cur = Some spent -> match (run (join_queue e u spent) v).1 with
    Ok en => standing (run (join_queue e u spent) v).2 e (en_QueueID en) | Err _ => True end) as Hjoin.
  { intros v spent [Rv Nv] Hcur. apply join_queue_standing. intros c. rewrite Rv, Nv, R1, N1, <- A1. intros ->. by destruct Hcur as [?|[= ->]]. }
  destruct cur as [cur|]; [|by apply Hjoin; [|left]]. destruct (uuid_Parse cur) as [id|]; [|by apply Hjoin; [|right]].
  rewrite run_bind. destruct (Status_standing e id w1) as [Hs Ha]. destruct (run (Status e id) w1) as [[st|err] w2]; cbn [fst snd] in *; [done|].
  destruct (decide (err = ErrNotQueued)) as [->|Hne]; [by apply Hjoin; [|right]|]. by destruct err.
Qed.
End standing.

(** ** The routes *)

(** A request of the user [u], to join the queue of the event [e]. *)
Definition may_join {R} `{JwtLib} (a : waitapi R) (q : Request) (w : World R) (e u : Z) : Prop :=
  rq_Method q = "POST" /\ RequireUser (wa_tokens a) (wa_clock a w) (rq_Authorization q) = Ok u /\ 0 < e /\
  exists params, match_segments (Split "/" "/v1/queue/{eventID}/join") (Split "/" (rq_Path q)) = Some params /\
    pathEventID (URLParam params "eventID") = Some e.

Section routes.
Context {R : Type} `{RedisQueue R} `{UuidLib} `{JwtLib} `{MuxFinds} (a : waitapi R) (checks : list (@Check (World R))).
Context (Hevents : forall e, joins_only None (wa_events a e)) (Hchecks : Forall (fun ck => joins_only None (ck_Fn ck)) checks).
Implicit Types w : World R.

Lemma Ready_moves : joins_only None (Ready checks).
Proof.
  unfold Ready. apply respects_bind; [|intros errs; by destruct (collect _ _ _ _)]. induction Hchecks as [|ck l Hck Hl IH]; [done|].
  cbn [run_checks]. apply respects_bind; [done|]. intros r. apply respects_bind; [|done]. by apply IH.
Qed.

Lemma stream_loop_moves e q st turns : joins_only None (stream_loop a e q st turns).
Proof.
  revert st. induction turns as [|t turns IH]; intros st; cbn [stream_loop]; [done|]. destruct (send a st) as [ended ev].
  destruct (negb (tn_written t)), ended, (negb (tn_tick t)); try done.
  apply respects_bind; [apply Status_moves|]. intros [st'|err]; [by apply respects_bind|].
  case_err err; try done; by apply respects_bind.
Qed.

Lemma handleStream_moves s queueID turns : joins_only None (handleStream a s queueID turns).
Proof.
  unfold handleStream. destruct (pathEventID s), (uuid_Parse queueID); try done. apply respects_bind; [apply Status_moves|].
  intros [st|err]; [|done]. apply respects_bind; [apply stream_loop_moves|done].
Qed.

(** What the join endpoint does. *)
Lemma postJoin_spec auth s w :
  let r := run (postJoin a auth s) w in
  exists who, queue_gains who w r.2 /\
    (forall e u, who = Some (e, u) -> RequireUser (wa_tokens a) (wa_clock a w) auth = Ok u /\ 0 < e /\ pathEventID s = Some e) /\
    (forall status jr, r.1 = WriteJSON status jr -> status = StatusOK /\ exists e u, who = Some (e, u) /\ standing r.2 e (jr_QueueID jr)).
Proof.
  cbv zeta. unfold postJoin. rewrite run_bind. cbn [act run fst snd].
  assert (forall e, exists who, queue_gains who w w /\ (forall e u, who = Some (e, u) -> RequireUser (wa_tokens a) (wa_clock a w) auth = Ok u /\ 0 < e /\ pathEventID s = Some e) /\
    (forall status jr, WriteErr (A := joinResponse) e = WriteJSON status jr -> status = StatusOK /\ exists e u, who = Some (e, u) /\ standing w e (jr_QueueID jr))) as Hno.
  { intros err. exists None. split_and!; [done..|]. by intros status jr ?%WriteErr_no. }
  destruct (RequireUser _ _ _) as [u|err]; [|apply Hno]. unfold handleJoin. destruct (pathEventID s) as [e|] eqn:He; [|apply Hno]. clear Hno.
  assert (0 < e) as Hpos by (unfold pathEventID in He; destruct (ParseInt s) as [z|]; [|done]; destruct (Z.ltb_spec 0 z); [|done]; congruence).
  exists (Some (e, u)). rewrite run_bind.
  destruct (respects_run (fun _ => True) (queue_gains None) (wa_events a e) w (Hevents e) I) as [_ J1]. destruct (run (wa_events a e) w) as [[ev|err] w1]; cbn [fst snd] in *.
  2:{ cbn [run fst snd]. split; [by apply queue_gains_weaken|]. split; [by intros ? ? [= <- <-]|]. by intros status jr ?%WriteErr_no. }
  rewrite run_bind. destruct (respects_run (fun _ => True) (queue_gains (Some (e, u))) (Join e u) w1 (Join_moves e u) I) as [_ J2].
  pose proof (Join_standing_after e u w1) as Hst. cbv zeta in Hst. destruct (run (Join e u) w1) as [res w2]. cbn [fst snd] in *.
  assert (queue_gains (Some (e, u)) w w2) as Hq by (etrans; [by apply queue_gains_weaken|exact J2]).
  destruct res as [en|err]; cbn [run fst snd]; (split; [done|]; split; [by intros ? ? [= <- <-]|]).
  - intros status jr [= <- <-]. split; [done|]. by exists e, u.
  - by intros status jr ?%WriteErr_no.
Qed.

Lemma wait_dispatch_spec rq w :
  let q := wq_Request rq in
  let r := run (wait_dispatch a checks rq) w in
  exists who, queue_gains who w r.2 /\
    (forall e u, who = Some (e, u) -> may_join a q w e u) /\
    (forall status jr, r.1 = WriteJSON status (WJoined jr) -> status = StatusOK /\ exists e u, who = Some (e, u) /\ standing r.2 e (jr_QueueID jr)).
Proof.
  intros q. cbv zeta. unfold wait_dispatch. fold q.
  assert (forall r : prog (World R) (Reply WaitPayload), joins_only None r -> (forall s jr, (run r w).1 <> WriteJSON s (WJoined jr)) ->
    exists who, queue_gains who w (run r w).2 /\ (forall e u, who = Some (e, u) -> may_join a q w e u) /\
    (forall status jr, (run r w).1 = WriteJSON status (WJoined jr) -> status = StatusOK /\ exists e u, who = Some (e, u) /\ standing (run r w).2 e (jr_QueueID jr))) as Hnone.
  { intros r Hm Hj. exists None. split_and!; [|done|by intros s jr ?%Hj]. apply (respects_run (fun _ => True) (queue_gains None) r w Hm I). }
  destruct (Find _ _ _) as [i params| |] eqn:Hf; [|by apply Hnone..]. apply find_fits in Hf as (pattern & Hi & Hm).
  destruct (wait_registered !! i) as [[mp e]|] eqn:He; [|by apply Hnone]. rewrite list_lookup_fmap, He in Hi. injection Hi as ->.
  destruct e; cbn [wait_handler].
  - by apply Hnone.
  - apply Hnone; [apply respects_bind; [by apply Ready_moves|done]|]. intros s jr. rewrite run_bind. cbn [run fst]. by destruct (run (Ready checks) w).1.
  - assert (rq_Method q = "POST" /\ pattern = "/v1/queue/{eventID}/join") as [Hpost Hpat] by (do 4 (destruct i as [|i]; [by injection He|]); done).
    rewrite run_bind. destruct (postJoin_spec (rq_Authorization q) (URLParam params "eventID") w) as (who & J1 & J2 & J3).
    destruct (run (postJoin _ _ _) w) as [r w1]. cbn [run fst snd] in *. exists who. split; [done|]. split.
    + intros e u Hw. destruct (J2 e u Hw) as (? & ? & ?). rewrite Hpat in Hm. split_and!; [done..|]. by exists params.
    + intros status jr Hr. destruct r as [s v|]; [|done]. injection Hr as -> ->. by apply J3.
  - apply Hnone; [apply respects_bind; [apply handleStream_moves|by intros []]|]. intros s jr. rewrite run_bind.
    destruct (run (handleStream _ _ _ _) w) as [[[]|evs] w1]; cbn [run fst snd wait_map]; done.
Qed.
End routes.

(** ** Properties *)

(** C20. What a request to the waiting room can do, whichever calls to Redis and
    PostgreSQL fail. It never touches booking's tables, takes nobody out of a
    queue and changes nobody's token. A place in a queue is given only by a
    POST to the join route with a verified access token: with the current time, in the
    queue of the path's event, and to the token's user. A 200 to a join names a
    queue entry that has a place in this queue, or a token already. Every other
    request leaves the queues as they are, and every answer is logged. *)
Theorem waiting_room_guards {R : Type} `{RedisQueue R} `{UuidLib} `{JwtLib} `{MuxFinds} (a : waitapi R) (checks : list (@Check (World R)))
    (generated : string) (rq : WaitRequest) (w : World R) (Hevents : forall e, joins_only None (wa_events a e))
    (Hchecks : Forall (fun ck => joins_only None (ck_Fn ck)) checks) :
  let q := wq_Request rq in
  let r := run (wait_router a checks generated rq) w in
  exists reply line who,
    r.1 = (RequestID (rq_RequestID q) generated, mkServed [reply] None, Some line) /\ queue_gains who w r.2 /\
    (forall e u, who = Some (e, u) -> may_join a q w e u) /\
    (forall status jr, reply = WriteJSON status (WJoined jr) ->
       status = StatusOK /\ exists e u, who = Some (e, u) /\ standing r.2 e (jr_QueueID jr)).
Proof.
  cbv zeta. unfold wait_router. rewrite run_bind. set (q := wq_Request rq). set (p := wait_dispatch _ _ _).
  assert (exists who, queue_gains who w (run p w).2 /\
    (forall e u, who = Some (e, u) -> may_join a q w e u) /\
    (forall status jr, (run p w).1 = WriteJSON status (WJoined jr) -> status = StatusOK /\ exists e u, who = Some (e, u) /\ standing (run p w).2 e (jr_QueueID jr)))
    as (who & W1 & W2 & W3) by by apply wait_dispatch_spec.
  destruct (run p w) as [reply w1]. cbn [fst snd run Recover sv_panic AccessLog sv_writes] in *. exists reply. eexists. exists who. by split_and!.
Qed.
