(* ===== verification/Door.v ===== *)
(** * From the queue to the door

    The waiting room's worker and booking's [RequireAdmission] have only the
    token in common: the worker with the real issuer fits the interface of
    Admission.v, and the token a buyer gets in turn opens the door of the event
    the buyer queued for, to that buyer. *)

From S2P Require Import Prelude GoLib Effects RedisServer RedisQueue World Auth Frame Locker Queue Worker Waiting Place Admission Http.
Local Open Scope tr_scope.

Section door.
Context {R : Type} `{RedisQueue R} `{JwtLib} `{UuidLib}.
Implicit Types w : World R.

(** The real issuer works while ids can be drawn and the library signs. *)
Lemma admission_worker_works t (clock : World R -> Z) events batch instance :
  (forall secret c, is_ok (SignedString secret c) = true) -> 1000000 <= at_ttl t -> 0 < batch ->
  Works (mkWorker R (AdmissionIssuer t clock) events batch instance).
Proof.
  intros Hsign Httl Hb. split; [apply _| |done..]. intros u e q w j l Hi. cbn. unfold AdmissionTokens_Issue, mbind, NewV7. rewrite Hi.
  set (c := mkClaims _ _ _ _ _ _). pose proof (Hsign (at_secret t) c) as Hs. by destruct (SignedString _ c).
Qed.
(** A round of the worker opens the door. *)
Lemma admitted_gets_in (t : AdmissionTokens) (clock : World R -> Z) (start : Z)
    (k : Worker R) (e u : Z) (q : UUID) (l : list (option UUID)) (w : World R)
    (Hsign : forall secret c, is_ok (SignedString secret c) = true) (Httl : 1000000 <= at_ttl t) (Hbatch : 0 < wk_batch k)
    (Hissuer : wk_tokens k = AdmissionIssuer t clock) (Hclock : forall v, start <= clock v)
    (Hf : faults w = []) (Hl : leasable k w e) (Hw : well_formed w e)
    (Hids : ids_ahead (length (take (Z.to_nat (wk_batch k)) (waiters w e))) l w)
    (He : 0 < e) (Hu : 0 < u) (Hu64 : in_int64 u = true) (Howner : owner w e (uuid_String q) = Some (FormatInt u))
    (Hq : uuid_String q ∈ (take (Z.to_nat (wk_batch k)) (waiters w e)).*2) (Hnew : token_of w q = None) :
  exists token expires, token_of (run (Admit k e) w).2 q = Some token /\ start + at_ttl t - Second < expires /\
    forall now, now < expires ->
      (exists jti, RequireAdmission t now u token = Ok (mkAdmission u e q jti expires)) /\
      (forall u', u' <> u -> RequireAdmission t now u' token = Err ErrAdmissionRequired).
Proof.
  assert (Works k) as Hk.
  { pose proof (admission_worker_works t clock (wk_events k) (wk_batch k) (wk_instance k) Hsign Httl Hbatch) as Hk.
    rewrite <- Hissuer in Hk. by destruct k. }
  destruct (Admit_calm k e l w Hk Hf Hl Hw Hids) as (_ & _ & _ & _ & _ & _ & _ & Hin & _ & _ & Hmade).
  destruct (Hin q Hq) as [token Ht]. destruct (Hmade q token Hnew Ht) as (s & u0 & Hs & Hu0 & v & Hiss).
  rewrite Howner in Hs. injection Hs as <-. rewrite ParseInt_FormatInt in Hu0 by done. injection Hu0 as <-.
  rewrite Hissuer in Hiss. cbn in Hiss. destruct (AdmissionTokens_Issue t (clock v) u e q v) as [[[tok a]|] v'] eqn:Hi;
    unfold mbind in Hiss; rewrite Hi in Hiss; [|done]. injection Hiss as ->.
  destruct (issue_verify t (clock v) u e q v v' token a Hu64 Hu He Hi) as ((A1 & A2 & A3 & A4) & (c & Hc) & Hver).
  exists token, (adm_ExpiresAt a). split; [done|]. split; [specialize (Hclock v); lia|]. intros now Hnow. apply signed_nonempty in Hc.
  unfold RequireAdmission. rewrite bool_decide_eq_false_2, Hver, A1 by done. split.
  - exists (adm_JTI a). rewrite bool_decide_eq_true_2 by done. destruct a; simpl in *. by subst.
  - intros u' Hne. by rewrite bool_decide_eq_false_2.
Qed.
End door.

(** ** Properties *)

(** Who is admitted in turn gets in. The waiting room and booking share
    the admission secret; Redis answers and the library signs. A round of the
    worker that holds the lease stores for every buyer at the head who had no
    token one that booking's [RequireAdmission] accepts for this buyer, event
    and queue entry until the token's lifetime, counted from when the worker
    signed it and cut to whole seconds, is over; presented by any other user
    it is refused. *)
Theorem admitted_buyer_gets_in `{RedisQueue R} `{JwtLib} `{UuidLib} (t : AdmissionTokens) (clock : World R -> Z) (start : Z)
    (k : Worker R) (e u : Z) (q : UUID) (l : list (option UUID)) (w : World R)
    (Hsign : forall secret c, is_ok (SignedString secret c) = true) (Httl : 1000000 <= at_ttl t) (Hbatch : 0 < wk_batch k)
    (Hissuer : wk_tokens k = AdmissionIssuer t clock) (Hclock : forall v, start <= clock v)
    (Hf : faults w = []) (Hl : leasable k w e) (Hw : well_formed w e)
    (Hids : ids_ahead (length (take (Z.to_nat (wk_batch k)) (waiters w e))) l w)
    (He : 0 < e) (Hu : 0 < u) (Hu64 : in_int64 u = true) (Howner : owner w e (uuid_String q) = Some (FormatInt u))
    (Hq : uuid_String q ∈ (take (Z.to_nat (wk_batch k)) (waiters w e)).*2) (Hnew : token_of w q = None) :
  exists token expires, token_of (run (Admit k e) w).2 q = Some token /\ start + at_ttl t - Second < expires /\
    forall now, now < expires ->
      (exists jti, RequireAdmission t now u token = Ok (mkAdmission u e q jti expires)) /\
      (forall u', u' <> u -> RequireAdmission t now u' token = Err ErrAdmissionRequired).
Proof. by eapply admitted_gets_in. Qed.
