(* ===== verification/Loops.v ===== *)
(** * The loops of the background services

    [Run] of the relay (internal/outbox/relay.go), the expirer
    (internal/order/expiry.go) and the admitting worker (internal/queue/worker.go):
    one turn after another until the process is told to stop. A turn's data say
    whether that has not happened when the pause after it ends, and for the
    relay also which rows other relays hold. Pauses move the clocks; the commands
    of a turn take no time of their own. *)

From S2P Require Import Prelude GoLib Effects RedisServer RedisQueue OrderState World Auth Frame OrderDB Inventory Catalog Outbox.
From S2P Require Import OrderService OrderExpiry OrderBooks OrderRefine System Flows Background Locker Queue Worker Waiting Place Admission Fakepay.
Local Open Scope tr_scope.

(** ** The relay *)

Definition idleWait : Z := 100 * 1000000.
Definition errorWait : Z := Second.
Definition cleanupEvery : Z := 600 * Second.

Definition relay_wait (r : res GoErr nat) : Z :=
  match r with
  | Err _ => errorWait
  | Ok n => if Nat.ltb 0 n then if Nat.ltb n RelayBatchSize then idleWait else 0 else idleWait
  end.

Section relay.
Context {R : Type} (clock : World R -> Z).
Implicit Types w : World R.

Definition time_Now : prog (World R) Z := act (fun w => (clock w, w)).

(** What each batch answered. *)
Fixpoint Relay_Run (fuel : nat) (nextCleanup : Z) (turns : list (gset Z * bool)) : prog (World R) (list (res GoErr nat)) :=
  match turns with
  | [] => Ret []
  | (skip, alive) :: turns =>
      let! r := Relay_RunOnce skip in
      let! now := time_Now in
      let! nextCleanup :=
        if nextCleanup <? now then
          let! _ := discard (Cleanup fuel) in
          let! now := time_Now in
          Ret (now + cleanupEvery)
        else Ret nextCleanup in
      let! alive := sleep (relay_wait r) alive in
      if alive : bool then
        let! rs := Relay_Run fuel nextCleanup turns in Ret (r :: rs)
      else Ret [r]
  end.

(** [r.Run(ctx)] *)
Definition Relay_Start (fuel : nat) (turns : list (gset Z * bool)) : prog (World R) (list (res GoErr nat)) :=
  let! now := time_Now in Relay_Run fuel (now + cleanupEvery) turns.

Lemma keep_recent_backlog now (d : PG) : backlog (keep_recent now d) = backlog d.
Proof.
  apply backlog_unique; [apply backlog_sorted|apply backlog_NoDup|]. intros id r. rewrite backlog_elem. cbn. rewrite map_lookup_filter_Some.
  unfold too_old, published_before. cbn. split; [intros [Hr Hp]; rewrite Hp; tauto|tauto].
Qed.

(** Old rows are rows. *)
Lemma old_count_size now (d : PG) : (old_count now d <= size (outbox d))%nat.
Proof. unfold old_count. apply map_subseteq_size, map_filter_subseteq. Qed.

Lemma marked_size now rows (d : PG) : size (outbox (marked now rows d)) = size (outbox d).
Proof.
  rewrite <- !size_dom. f_equal. apply set_eq. intros id. rewrite !elem_of_dom. cbn. rewrite mark_all_lookup.
  case_decide; [by rewrite fmap_is_Some|done].
Qed.

(** One turn when no call fails. *)
Lemma Relay_turn fuel next turns w :
  faults w = [] -> (size (outbox (pg w)) < fuel * cleanupMaxBatch)%nat ->
  let n := length (take RelayBatchSize (backlog (pg w))) in
  exists next' w1,
    run (Relay_Run fuel next ((∅, true) :: turns)) w =
      (Ok n :: (run (Relay_Run fuel next' turns) w1).1, (run (Relay_Run fuel next' turns) w1).2) /\
    faults w1 = [] /\ (size (outbox (pg w1)) < fuel * cleanupMaxBatch)%nat /\
    backlog (pg w1) = drop RelayBatchSize (backlog (pg w)) /\
    klog w1 = klog w ++ (record_of <$> take RelayBatchSize (backlog (pg w))) /\
    redis_now w1 = redis_now w + Milliseconds (relay_wait (Ok n)).
Proof.
  intros Hf Hfuel n. cbn [Relay_Run]. rewrite run_bind, Relay_calm by done. fold n. cbn [fst snd]. rewrite run_bind. cbn [time_Now act run fst snd].
  assert (exists next' v, run (if next <? clock (after_relay w)
      then (let! _ := discard (Cleanup fuel) in let! now := time_Now in Ret (now + cleanupEvery)) else Ret next) (after_relay w) = (next', v) /\
    faults v = [] /\ (size (outbox (pg v)) < fuel * cleanupMaxBatch)%nat /\ backlog (pg v) = backlog (pg (after_relay w)) /\
    klog v = klog (after_relay w) /\ redis_now v = redis_now w) as (next' & v & Hc & Hf' & Hs & Hb & Hk & Hn).
  { assert (size (outbox (pg (after_relay w))) = size (outbox (pg w))) as Hsize by apply marked_size.
    destruct (next <? _); [|exists next, (after_relay w); split_and!; try done; lia].
    unfold discard, Cleanup. rewrite !run_bind, cleanup_loop_calm; [|done|].
    2:{ eapply Nat.le_lt_trans; [apply old_count_size|]. by rewrite Hsize. }
    cbn [fst snd run time_Now act]. do 2 eexists. split; [reflexivity|].
    split; [done|]. split; [|split; [apply keep_recent_backlog|done]]. eapply Nat.le_lt_trans; [|exact Hfuel]. rewrite <- Hsize. apply map_subseteq_size, map_filter_subseteq. }
  rewrite run_bind, Hc. cbn [fst snd]. rewrite run_bind.
  assert (backlog (pg (after_relay w)) = drop RelayBatchSize (backlog (pg w))) as Hdrop by apply backlog_marked.
  unfold sleep. destruct (Z.leb_spec (relay_wait (Ok n)) 0) as [Hz|Hz]; cbn [run act fst snd].
  - exists next', v. rewrite run_bind. destruct (run (Relay_Run fuel next' turns) v) as [rs w2] eqn:Hr. cbn [run fst snd].
    split; [done|]. split_and!; try done; [congruence..|]. rewrite Hn. assert (relay_wait (Ok n) = 0) as ->; [|by rewrite Z.add_0_r].
    unfold relay_wait, idleWait in *. destruct (Nat.ltb 0 n), (Nat.ltb n RelayBatchSize); lia.
  - exists next', (set_clocks (pg_now v + Microseconds (relay_wait (Ok n))) (redis_now v + Milliseconds (relay_wait (Ok n))) v).
    rewrite run_bind. destruct (run (Relay_Run fuel next' turns) _) as [rs w2]. cbn [run fst snd].
    split; [done|]. split_and!; cbn [faults pg klog redis_now set_clocks]; try done; congruence.
Qed.

(** How often the relay pauses. *)
Lemma Relay_Run_calm fuel next n w :
  faults w = [] -> (size (outbox (pg w)) < fuel * cleanupMaxBatch)%nat ->
  let r := run (Relay_Run fuel next (replicate n (∅, true))) w in
  let full := (length (backlog (pg w)) / RelayBatchSize)%nat in
  faults r.2 = [] /\ length r.1 = n /\ Forall (fun x => is_ok x = true) r.1 /\
  backlog (pg r.2) = drop (n * RelayBatchSize) (backlog (pg w)) /\
  klog r.2 = klog w ++ (record_of <$> take (n * RelayBatchSize) (backlog (pg w))) /\
  redis_now r.2 = redis_now w + 100 * Z.of_nat (n - full).
Proof.
  revert next w. induction n as [|n IH]; intros next w Hf Hfuel; cbn [replicate].
  { cbn. split_and!; try done; [by rewrite app_nil_r|lia]. }
  destruct (Relay_turn fuel next (replicate n (∅, true)) w Hf Hfuel) as (next' & w1 & -> & Hf1 & Hs1 & Hb1 & Hk1 & Hn1).
  specialize (IH next' w1 Hf1 Hs1). cbv zeta in IH. destruct (run (Relay_Run fuel next' _) w1) as [rs w2]. cbn [fst snd] in *.
  destruct IH as (A1 & A2 & A3 & A4 & A5 & A6). split; [done|]. split; [cbn; by f_equal|]. split; [by constructor|].
  split; [rewrite A4, Hb1, drop_drop; f_equal; lia|]. split.
  - rewrite A5, Hk1, Hb1, <- app_assoc. f_equal. rewrite <- fmap_app, take_take_drop. done.
  - rewrite A6, Hn1, Hb1, length_drop. rewrite length_take. set (N := length (backlog (pg w))).
    assert (relay_wait (Ok (Nat.min RelayBatchSize N)) = if (N <? RelayBatchSize)%nat then idleWait else 0) as ->.
    { unfold relay_wait, RelayBatchSize. destruct (Nat.ltb_spec N 500); [rewrite Nat.min_r by lia|by rewrite Nat.min_l by lia].
      destruct (Nat.ltb_spec 0 N); [|done]. destruct (Nat.ltb_spec N 500); [done|lia]. }
    destruct (Nat.ltb_spec N RelayBatchSize) as [Hlt|Hge].
    + rewrite (Nat.div_small N) by done. replace (N - RelayBatchSize)%nat with 0%nat by lia. change (Milliseconds idleWait) with 100.
      change (0 / RelayBatchSize)%nat with 0%nat. lia.
    + replace N with (N - RelayBatchSize + 1 * RelayBatchSize)%nat at 2 by lia. rewrite Nat.div_add by done.
      change (Milliseconds 0) with 0. lia.
Qed.
End relay.

(** ** The expirer *)

Section expirer.
Context {R : Type} `{UuidLib} (inv : Inventory R) (interval : Z).

Definition expirer_wait (r : res GoErr nat) : Z :=
  match r with Ok n => if Nat.eqb n ExpiryBatchSize then 0 else interval | Err _ => interval end.

Fixpoint Expirer_Run (turns : list bool) : prog (World R) (list (res GoErr nat)) :=
  match turns with
  | [] => Ret []
  | alive :: turns =>
      let! r := Expirer_RunOnce inv in
      let! alive := sleep (expirer_wait r) alive in
      if alive : bool then
        let! rs := Expirer_Run turns in Ret (r :: rs)
      else Ret [r]
  end.
End expirer.

(** ** The worker *)

Section worker.
Context `{RedisQueue R} `{UuidLib}.
Implicit Types w : World R.

(** The ticker fires every [interval]. *)
Fixpoint Worker_Run (k : Worker R) (interval : Z) (turns : list bool) : prog (World R) (list (Z * res GoErr unit)) :=
  match turns with
  | [] => Ret []
  | alive :: turns =>
      let! r := Tick k in
      let! alive := sleep interval alive in
      if alive : bool then
        let! rs := Worker_Run k interval turns in Ret (r :: rs)
      else Ret [r]
  end.

Lemma issue_tokens_frame (i : Issuer R) e entries : IssuerFrame i -> keeps_books (issue_tokens i e entries).
Proof.
  intros Hi. induction entries as [|[m o] entries IH]; [done|]. cbn [issue_tokens]. destruct (uuid_Parse m) as [q|]; [|done].
  destruct o as [s|]; [|done]. destruct (ParseInt s) as [u|]; [|done].
  apply respects_bind; [apply respects_act; intros w _; split; [done|apply Issue_frame]|]. intros [t|]; [|done].
  apply respects_bind; [done|]. by intros [].
Qed.

Lemma set_tokens_frame ttl tokens : keeps_books (set_tokens (R := R) ttl tokens).
Proof.
  induction tokens as [|[q t] tokens IH]; [done|]. cbn [set_tokens]. apply respects_bind; [apply act_redis_call_frame|]. intros ok.
  apply respects_bind; [done|]. done.
Qed.

Lemma Admit_frame (k : Worker R) e : IssuerFrame (wk_tokens k) -> keeps_books (Admit k e).
Proof.
  intros Hi. unfold Admit. apply respects_bind; [apply act_redis_call_frame|]. intros [h|]; [|done]. destruct (negb _); [done|].
  apply respects_bind; [apply act_redis_call_frame|]. intros [head|]; [|done]. case_bool_decide; [done|]. unfold admit_head.
  apply respects_bind; [apply act_redis_call_frame|]. intros [owners|]; [|done].
  apply respects_bind; [by apply issue_tokens_frame|]. intros [tokens|]; [|done].
  apply respects_bind; [apply set_tokens_frame|]. intros stored. apply respects_bind; [apply act_redis_call_frame|]. intros left.
  apply respects_bind; [apply act_redis_call_frame|]. intros forgot. by repeat case_match.
Qed.

(** A later world in which nothing but the clocks has changed. *)
Lemma sleep_leasable (k : Worker R) e d w : leasable k w e -> leasable k (run (sleep d true) w).2 e.
Proof.
  unfold sleep. destruct (Z.leb_spec d 0) as [|Hd]; [done|]. intros Hl v Hv. cbn in Hv. apply Hl. eapply GET_mono; [|exact Hv].
  unfold Milliseconds. pose proof (Z.quot_pos d 1000000 ltac:(lia) ltac:(lia)). lia.
Qed.
End worker.

(** ** Properties *)

(** C31. The relay keeps up. When no call fails and no other relay holds rows,
    [n] turns of its loop publish the first [500 n] unpublished rows, each
    once and in the order of their ids, and leave exactly the rest; cleaning
    up in between takes nothing from them, given fuel for the rows of the
    table. While batches are full it does not pause: however long the backlog,
    the pauses of the [n] turns add up to 100 ms for every turn after the full
    batches. *)
Theorem relay_keeps_up {R : Type} (clock : World R -> Z) (fuel n : nat) (w : World R)
    (Hf : faults w = []) (Hfuel : (size (outbox (pg w)) < fuel * cleanupMaxBatch)%nat) :
  let r := run (Relay_Start clock fuel (replicate n (∅, true))) w in
  let full := (length (backlog (pg w)) / RelayBatchSize)%nat in
  klog r.2 = klog w ++ (record_of <$> take (n * RelayBatchSize) (backlog (pg w))) /\
  backlog (pg r.2) = drop (n * RelayBatchSize) (backlog (pg w)) /\
  Forall (fun x => is_ok x = true) r.1 /\
  redis_now r.2 = redis_now w + 100 * Z.of_nat (n - full).
Proof.
  intros r full. subst r. unfold Relay_Start. rewrite run_bind. cbn [time_Now act run fst snd].
  destruct (Relay_Run_calm clock fuel (clock w + cleanupEvery) n w Hf Hfuel) as (_ & _ & H1 & H2 & H3 & H4). done.
Qed.
