(* ===== verification/Pace.v ===== *)
(** * The pace of the worker

    What the worker's loop does when Redis answers and nobody else acts, with
    any number of sales open at once: every tick takes one batch off the queue
    of every open event, and no event's queue is touched by another's turn. *)

From S2P Require Import Prelude GoLib Effects RedisServer RedisQueue World Frame OrderDB Flows Catalog Locker Queue Worker Waiting Place Admission Fakepay Loops.
Local Open Scope tr_scope.

(** ** One event at a time *)

Section elsewhere.
Context `{RedisQueue R} `{UuidLib}.
Implicit Types w : World R.

(** The queue of [e], its owners and its lease are as they were. *)
Record elsewhere (e : Z) w w' : Prop := {
  el_now : redis_now w' = redis_now w;
  el_waiters : waiters w' e = waiters w e;
  el_owner m : owner w' e m = owner w e m;
  el_lease t : GET (rds w') t (lockKey e) = GET (rds w) t (lockKey e);
}.

#[global] Instance elsewhere_preorder e : PreOrder (elsewhere e).
Proof. split; [by split|]. intros w1 w2 w3 [] []. split; intros; congruence. Qed.

Lemma elsewhere_leasable k e w w' : elsewhere e w w' -> leasable k w e -> leasable k w' e.
Proof. intros [Hn _ _ Hl] Hk v. rewrite Hn, Hl. apply Hk. Qed.

Lemma elsewhere_formed e w w' : elsewhere e w w' -> well_formed w e -> well_formed w' e.
Proof.
  intros [_ Hq Ho _] Hw m Hm. rewrite Hq in Hm. destruct (Hw m Hm) as (q & -> & o & u & Ho' & Hu). exists q. split; [done|].
  exists o, u. by rewrite Ho.
Qed.

Lemma lockKey_ne e e' : e <> e' -> lockKey e <> lockKey e'.
Proof.
  intros Hne He. apply Hne. unfold lockKey in He. apply string_app_inv_head in He.
  apply (sep_unique int_char "}"%char) in He as [He _]; [by apply (inj FormatInt) in He|done|apply FormatInt_chars..].
Qed.

Lemma call_elsewhere {A} e (f : Z -> R -> A * R) :
  (forall now r, ZSET (f now r).2 (queueKey e) = ZSET r (queueKey e) /\
     (forall m, HGET (f now r).2 (ownerKey e) m = HGET r (ownerKey e) m) /\
     forall t, GET (f now r).2 t (lockKey e) = GET r t (lockKey e)) ->
  respects (fun _ => True) (elsewhere e) (act (redis_call f)).
Proof.
  intros Hf. apply respects_act. intros w _. split; [done|]. pose proof (redis_call_cases f w) as Hc.
  destruct (Hf (redis_now w) (rds w)) as (F1 & F2 & F3). destruct (redis_call f w) as [res w'].
  destruct (f (redis_now w) (rds w)) as [x r']. destruct Hc as [Hn Hc]. cbn [fst snd] in *.
  assert (rds w' = rds w \/ rds w' = r') as Hr by (destruct res; [destruct Hc as [_ ->]|destruct Hc as [_ [-> | ->]]]; auto).
  split; [done|..]; unfold waiters, owner; destruct Hr as [-> | ->]; auto.
Qed.

Lemma read_elsewhere {A} e (f : Z -> R -> A) : respects (fun _ => True) (elsewhere e) (act (redis_call (fun now r => (f now r, r)))).
Proof. by apply call_elsewhere. Qed.

Lemma issue_tokens_elsewhere k e e' entries :
  IssuerFrame (wk_tokens k) -> respects (fun _ => True) (elsewhere e') (issue_tokens (wk_tokens k) e entries).
Proof.
  intros Hi. induction entries as [|[member o] entries IH]; cbn [issue_tokens]; [done|].
  destruct (uuid_Parse member) as [qid|]; [|done]. destruct o as [uid|]; [|done]. destruct (ParseInt uid) as [u|]; [|done].
  apply respects_bind; [|intros [token|]; [|done]; apply respects_bind; [done|by intros [|]]].
  apply respects_act. intros w _. split; [done|]. destruct (Issue_frame u e qid w) as (Hr & Hn & _).
  split; [done|..]; intros; unfold waiters, owner; by rewrite Hr.
Qed.

Lemma set_tokens_elsewhere e ttl l : respects (fun _ => True) (elsewhere e) (set_tokens (R := R) ttl l).
Proof.
  induction l as [|[q token] l IH]; cbn [set_tokens]; [done|]. apply respects_bind; [|intros ?; by apply respects_bind].
  apply call_elsewhere. intros now r. split; [apply setnx_waiters|]. split; [intros m; apply setnx_owner|].
  intros t. unfold setnx. destruct (GET r now (AdmittedKey q)); [done|]. apply GET_SET_ne. apply admitted_lock.
Qed.

Lemma Admit_elsewhere k e e' : e <> e' -> IssuerFrame (wk_tokens k) -> respects (fun _ => True) (elsewhere e') (Admit k e).
Proof.
  intros Hne Hi. pose proof (lockKey_ne e e' Hne) as Hlock. apply respects_bind.
  { apply call_elsewhere. intros now r. split; [apply lease_lua_waiters|]. split; [intros m; apply lease_lua_owner|]. intros t.
    unfold lease_lua. destruct (GET r now (lockKey e)); [case_bool_decide|]; cbn [snd]; [by rewrite GET_PEXPIRE_ne|done|by rewrite GET_SET_ne]. }
  intros [held|]; [|done]. case_match; [done|]. apply respects_bind; [apply read_elsewhere|]. intros [head|]; [|done].
  case_match; [done|]. unfold admit_head. apply respects_bind; [apply read_elsewhere|]. intros [owners|]; [|done].
  apply respects_bind; [by apply issue_tokens_elsewhere|]. intros [tokens|]; [|done].
  apply respects_bind; [apply set_tokens_elsewhere|intros stored]. apply respects_bind; [|intros left].
  - apply call_elsewhere. intros now r. cbn [snd]. split; [by rewrite zrem_waiters, decide_False|].
    split; [intros m; apply HGET_ZREM; keys|intros t; apply GET_ZREM; keys].
  - apply respects_bind; [|intros ?; by repeat case_match].
    apply call_elsewhere. intros now r. cbn [snd]. split; [apply ZSET_HDEL; keys|].
    split; [intros m; apply HGET_HDEL_ne; left; by intros ?%(inj ownerKey)|intros t; apply GET_HDEL; keys].
Qed.

Lemma admit_events_elsewhere k es e total :
  e ∉ es -> IssuerFrame (wk_tokens k) -> respects (fun _ => True) (elsewhere e) (admit_events k es total).
Proof.
  intros He Hi. revert total. induction es as [|e' es IH]; intros total; cbn [admit_events]; [done|].
  apply not_elem_of_cons in He as [Hne He]. apply respects_bind; [by apply Admit_elsewhere|]. intros [n|]; [by apply IH|done].
Qed.
(** How many buyers stand among the first [n] of their queue. *)
Definition heads (n : nat) (es : list Z) w : nat := sum_list_with (fun e => length (take n (waiters w e))) es.

Lemma heads_le n m es w : (heads n es w <= heads (n + m) es w)%nat.
Proof. unfold heads. induction es as [|e es IH]; cbn; [done|]. rewrite !length_take. lia. Qed.

Lemma heads_ext n es w w' : (forall e, e ∈ es -> waiters w' e = waiters w e) -> heads n es w' = heads n es w.
Proof.
  intros He. unfold heads. induction es as [|e es IH]; cbn; [done|]. rewrite He by set_solver. f_equal. apply IH. set_solver.
Qed.

Lemma heads_add n m es w w' :
  (forall e, e ∈ es -> waiters w' e = drop n (waiters w e)) -> heads (n + m) es w = (heads n es w + heads m es w')%nat.
Proof.
  intros He. unfold heads. induction es as [|e es IH]; cbn; [done|]. rewrite IH, He by set_solver. rewrite !length_take, length_drop. lia.
Qed.
End elsewhere.

(** ** A tick over all open sales *)

Section pace.
Context `{RedisQueue R} `{UuidLib} (k : Worker R) `{!Works k}.
Implicit Types (w : World R) (es : list Z).

Abbreviation b := (Z.to_nat (wk_batch k)).

(** Redis answers, and every queue is ready for this worker. *)
Definition queues_ready es w : Prop := faults w = [] /\ forall e, e ∈ es -> leasable k w e /\ well_formed w e.

(** One batch of every queue of [es] has left, with tokens; nobody else has
    got or lost one. *)
Record batch_left es w w' : Prop := {
  bl_ready : queues_ready es w';
  bl_now : redis_now w' = redis_now w;
  bl_waiters e : e ∈ es -> waiters w' e = drop b (waiters w e);
  bl_kept q tok : token_of w q = Some tok -> token_of w' q = Some tok;
  bl_tokens e q : e ∈ es -> uuid_String q ∈ (take b (waiters w e)).*2 -> is_Some (token_of w' q);
  bl_nobody q : (forall e, e ∈ es -> uuid_String q ∉ (take b (waiters w e)).*2) -> token_of w' q = token_of w q;
}.

Lemma admit_events_calm es total l w :
  NoDup es -> queues_ready es w -> ids_ahead (heads b es w) l w ->
  let r := run (admit_events k es total) w in
  r.1 = (total + Z.of_nat (heads b es w), Ok tt) /\ ids r.2 = l /\ batch_left es w r.2.
Proof.
  intros Hd. revert total w. induction Hd as [|e es He Hd IH]; intros total w [Hf Hq] Hids; cbn [admit_events].
  { destruct Hids as ([|] & Hlen & Hids); [|done]. cbn. split; [f_equal; lia|]. split; [done|].
    split; [split; [done|intros e []%elem_of_nil]|done|intros e []%elem_of_nil|done|intros e q []%elem_of_nil|done]. }
  destruct (Hq e) as [Hl Hw]; [by left|].
  change (heads b (e :: es) w) with (length (take b (waiters w e)) + heads b es w)%nat in *.
  apply ids_ahead_app in Hids as (l1 & Hids & Hnext). rewrite run_bind.
  destruct (Admit_calm k e l1 w _ Hf Hl Hw Hids) as (A1 & A2 & A3 & A4 & A5 & A6 & A7 & A8 & A9 & A10 & _).
  assert (forall e', e' ∈ es -> elsewhere e' w (run (Admit k e) w).2) as Helse.
  { intros e' He'. eapply (respects_run (fun _ => True) (elsewhere e')); [|done]. apply Admit_elsewhere; [set_solver|apply works_frame]. }
  destruct (run (Admit k e) w) as [r1 w1]. cbn [fst snd] in *. subst r1.
  assert (queues_ready es w1) as Hq1.
  { split; [done|]. intros e' He'. destruct (Hq e') as [? ?]; [by right|].
    split; [eapply elsewhere_leasable; [by apply Helse|done]|eapply elsewhere_formed; [by apply Helse|done]]. }
  assert (forall e', e' ∈ es -> waiters w1 e' = waiters w e') as Hwait by (intros e' He'; by apply Helse).
  rewrite <- (heads_ext b es w w1 Hwait) in Hnext |- *. destruct (IH (total + Z.of_nat (length (take b (waiters w e)))) w1 Hq1 (Hnext w1 A10)) as (B1 & B2 & B3).
  assert (elsewhere e w1 (run (admit_events k es (total + Z.of_nat (length (take b (waiters w e))))) w1).2) as Hback.
  { eapply (respects_run (fun _ => True) (elsewhere e)); [|done]. apply admit_events_elsewhere; [done|apply works_frame]. }
  destruct (run (admit_events k es _) w1) as [r2 w2]. cbn [fst snd] in *. split; [rewrite B1; f_equal; lia|]. split; [done|].
  destruct B3 as [[C0 C1] C2 C3 C4 C5 C6]. split.
  - split; [done|]. intros e' [->|He']%elem_of_cons; [|by apply C1].
    split; [by eapply elsewhere_leasable|by eapply elsewhere_formed].
  - congruence.
  - intros e' [->|He']%elem_of_cons; [by rewrite (el_waiters _ _ _ Hback)|by rewrite C3, Hwait].
  - auto.
  - intros e' q [->|He']%elem_of_cons Hin; [destruct (A8 q Hin) as [t Ht]; exists t; auto|]. apply (C5 e'); [done|]. by rewrite Hwait.
  - intros q Hno. rewrite C6, A9; [done|apply Hno; by left|]. intros e' He'. rewrite Hwait by done. apply Hno. by right.
Qed.

(** The open sales of [w], also later on. *)
Definition open_sales es w : Prop :=
  forall v, faults v = [] -> pg v = pg w -> pg_now w <= pg_now v -> run (wk_events k) v = (Ok es, v).

(** The catalog lists its events once all their sales are open. *)
Lemma all_open w :
  wk_events k = OpenEventIDs -> (forall e row, db_events (pg w) !! e = Some row -> e_SaleOpensAt row <= pg_now w) ->
  open_sales (merge_sort Z.le (map_to_list (db_events (pg w))).*1) w.
Proof.
  intros Hk Ho v Hf Hp Hn. rewrite Hk. unfold OpenEventIDs. rewrite run_act. apply select_calm; [done|].
  unfold ListOpenEventIDs, select. rewrite Hp. do 5 f_equal. apply map_filter_id. intros e row Hrow. specialize (Ho e row Hrow). cbn. lia.
Qed.

Lemma open_sales_NoDup w : NoDup (merge_sort Z.le (map_to_list (db_events (pg w))).*1).
Proof. rewrite merge_sort_Permutation. apply NoDup_fst_map_to_list. Qed.

Lemma Tick_all es w : open_sales es w -> faults w = [] -> run (Tick k) w = run (admit_events k es 0) w.
Proof. intros Ho Hf. unfold Tick. by rewrite run_bind, (Ho w). Qed.

Lemma admit_events_frame es total : keeps_books (admit_events k es total).
Proof.
  revert total. induction es as [|e es IH]; intros total; cbn [admit_events]; [done|].
  apply respects_bind; [apply Admit_frame, works_frame|]. intros [n|]; [apply IH|done].
Qed.

(** Waiting for the ticker. *)
Lemma sleep_keeps d es w :
  0 < d -> let w' := (run (sleep d true) w).2 in
  (run (sleep d true) w).1 = true /\ redis_now w' = redis_now w + Milliseconds d /\ ids w' = ids w /\
  (forall e, waiters w' e = waiters w e) /\ (queues_ready es w -> queues_ready es w') /\ (open_sales es w -> open_sales es w').
Proof.
  intros Hd. assert (run (sleep d true) w = (true, set_clocks (pg_now w + Microseconds d) (redis_now w + Milliseconds d) w)) as Hs.
  { unfold sleep. by destruct (Z.leb_spec d 0); [lia|]. }
  pose proof (fun e => sleep_leasable k e d w) as Hl. rewrite Hs in Hl |- *. cbn [fst snd] in *. split_and!; try done.
  - intros [Hf Hq]. split; [done|]. intros e He. destruct (Hq e He). split; [by apply Hl|done].
  - intros Ho v Hf Hp Hn. apply Ho; [done..|]. cbn in Hn. unfold Microseconds in Hn. pose proof (Z.quot_pos d 1000 ltac:(lia) ltac:(lia)). lia.
Qed.

(** One turn of the worker. *)
Lemma Worker_turn es interval turns l w :
  NoDup es -> open_sales es w -> queues_ready es w -> 0 < interval -> ids_ahead (heads b es w) l w ->
  exists r w1, run (Worker_Run k interval (true :: turns)) w =
      (r :: (run (Worker_Run k interval turns) w1).1, (run (Worker_Run k interval turns) w1).2) /\
    open_sales es w1 /\ queues_ready es w1 /\ (forall e, e ∈ es -> waiters w1 e = drop b (waiters w e)) /\
    redis_now w1 = redis_now w + Milliseconds interval /\ ids w1 = l.
Proof.
  intros Hd Ho Hq Hi Hids. cbn [Worker_Run]. rewrite run_bind, (Tick_all es w Ho) by apply Hq.
  destruct (admit_events_calm es 0 l w Hd Hq Hids) as (_ & A1 & [A2 A3 A4 _ _ _]).
  destruct (keeps_books_run _ w (admit_events_frame es 0)) as (P1 & _ & _ & _ & P2).
  destruct (run (admit_events k es 0) w) as [r v]. cbn [fst snd] in *. rewrite run_bind.
  destruct (sleep_keeps interval es v Hi) as (S1 & S2 & S3 & S4 & S5 & S6).
  destruct (run (sleep interval true) v) as [alive w1]. cbn [fst snd] in *. subst alive.
  exists r, w1. split; [rewrite run_bind; by destruct (run (Worker_Run k interval turns) w1)|].
  split; [apply S6; intros u Hf Hp Hn; apply Ho; congruence|]. split; [by apply S5|].
  split; [intros e He; rewrite S4; by apply A4|]. split; congruence.
Qed.

Lemma Worker_Run_calm es interval n l w :
  NoDup es -> open_sales es w -> queues_ready es w -> 0 < interval -> ids_ahead (heads (n * b) es w) l w ->
  let v := (run (Worker_Run k interval (replicate n true)) w).2 in
  open_sales es v /\ queues_ready es v /\ (forall e, e ∈ es -> waiters v e = drop (n * b) (waiters w e)) /\
  redis_now v = redis_now w + Z.of_nat n * Milliseconds interval /\ ids v = l.
Proof.
  intros Hd. revert w. induction n as [|n IH]; intros w Ho Hq Hi Hids.
  { replace (heads (0 * b) es w) with 0%nat in Hids by (unfold heads; clear; induction es; cbn; [done|by rewrite take_0]).
    destruct Hids as ([|] & Hlen & Hids); [|done]. cbn in *. split_and!; try done. lia. }
  cbn [Nat.mul] in Hids. rewrite <- (Nat.sub_add _ _ (heads_le b (n * b) es w)), Nat.add_comm in Hids.
  apply ids_ahead_app in Hids as (l1 & Hids1 & Hnext).
  change (replicate (S n) true) with (true :: replicate n true).
  destruct (Worker_turn es interval (replicate n true) l1 w Hd Ho Hq Hi Hids1) as (r & w1 & Hr & B1 & B2 & B3 & B4 & B5). rewrite Hr. cbn [snd].
  destruct (IH w1 B1 B2 Hi) as (C1 & C2 & C3 & C4 & C5); [pose proof (heads_add b (n * b) es w w1 B3) as Hh; specialize (Hnext w1 B5); by replace (heads (n * b) es w1) with (heads (b + n * b) es w - heads b es w)%nat by lia|].
  split_and!; try done.
  - intros e He. rewrite C3, B3, drop_drop by done. f_equal; lia.
  - rewrite C4, B4. lia.
Qed.
End pace.

(** ** Properties *)

(** C25. The worker keeps the pace it announces, for every open sale. When
    Redis answers and nobody else acts, then after [n] turns of the worker's
    loop [n] intervals have passed, the first [n] batches of every open event
    have left its queue and the rest stand in their order; the next tick gives
    a token to every buyer of the batches that are then at the heads, and to
    nobody else. So a buyer who was at position [p] of the queue is admitted by
    tick number ceil(p / batch), however many sales are open. *)
Theorem worker_keeps_pace `{RedisQueue R} `{UuidLib} (k : Worker R) (es : list Z) (interval : Z) (n : nat) (l : list (option UUID)) (w : World R)
    (Hk : Works k) (Hes : NoDup es) (Hopen : open_sales k es w) (Hq : queues_ready k es w) (Hi : 0 < interval)
    (Hids : ids_ahead (heads (S n * Z.to_nat (wk_batch k)) es w) l w) :
  let b := Z.to_nat (wk_batch k) in
  let v := (run (Worker_Run k interval (replicate n true)) w).2 in
  let v' := (run (Tick k) v).2 in
  redis_now v = redis_now w + Z.of_nat n * Milliseconds interval /\
  (forall e, e ∈ es ->
     waiters v e = drop (n * b) (waiters w e) /\ waiters v' e = drop (S n * b) (waiters w e) /\
     forall q i, (waiters w e).*2 !! i = Some (uuid_String q) -> (n * b <= i < S n * b)%nat -> is_Some (token_of v' q)) /\
  forall q, (forall e, e ∈ es -> uuid_String q ∉ (take b (waiters v e)).*2) -> token_of v' q = token_of v q.
Proof.
  intros b v v'. assert (S n * b = n * b + b)%nat as Hsn by lia. fold b in Hids. rewrite Hsn in Hids.
  rewrite <- (Nat.sub_add _ _ (heads_le (n * b) b es w)), Nat.add_comm in Hids. apply ids_ahead_app in Hids as (l1 & Hids & Hnext).
  destruct (Worker_Run_calm k es interval n l1 w Hes Hopen Hq Hi Hids) as (C1 & C2 & C3 & C4 & C5). fold v b in C1, C2, C3, C4, C5.
  specialize (Hnext v C5). pose proof (heads_add (n * b) b es w v C3) as Hh.
  replace (heads (n * b + b) es w - heads (n * b) es w)%nat with (heads b es v) in Hnext by lia.
  destruct (admit_events_calm k es 0 l v Hes C2 Hnext) as (_ & _ & [_ _ D3 _ D5 D6]).
  rewrite <- (Tick_all k es v C1) in D3, D5, D6 by apply C2. fold v' b in D3, D5, D6.
  split; [done|]. split; [|exact D6]. intros e He. split; [by apply C3|]. split; [rewrite D3, C3, drop_drop by done; f_equal; lia|].
  intros q i Hr Hin. apply (D5 e q He). rewrite (C3 e He), fmap_take, fmap_drop. apply list_elem_of_lookup. exists (i - n * b)%nat.
  rewrite lookup_take_lt by lia. rewrite lookup_drop. by replace (n * b + (i - n * b))%nat with i by lia.
Qed.
