(* ===== verification/Expiring.v ===== *)
(** * The expirer catches up (internal/order/expiry.go, [Run])

    Turn after turn of [Expirer_Run] against any seat inventory that answers:
    the batches that are full follow each other without a pause, every order
    that was due becomes EXPIRED, and its seats are no longer held for it. *)

From S2P Require Import Prelude GoLib Effects RedisServer OrderState World Frame OrderDB Inventory InventoryRedis InventoryPG.
From S2P Require Import Outbox OrderService OrderExpiry OrderBooks OrderRefine System Flows Background Consumer Fakepay Loops.
Local Open Scope tr_scope.

(** ** The orders that are due *)

(** The orders a batch takes from: HELD, past the deadline, not locked. *)
Definition overdue {R} (w : World R) : gmap UUID OrderRow := filter (due (pg_now w) (locked w)) (orders (pg w)).

Lemma batch_facts {R} (w : World R) :
  let l := due_orders ExpiryBatchSize (locked w) (pg_now w) (pg w) in
  NoDup l.*1 /\ length l = Nat.min ExpiryBatchSize (size (overdue w)) /\
  forall id r, (id, r) ∈ l -> overdue w !! id = Some r.
Proof.
  intros l. split; [apply due_orders_spec|]. unfold l, due_orders, overdue. set (k := merge_sort _ _).
  assert (k ≡ₚ map_to_list (filter (due (pg_now w) (locked w)) (orders (pg w)))) as Hp by apply merge_sort_Permutation.
  split; [by rewrite length_take, Hp, length_map_to_list|]. intros id r Hin. apply elem_of_map_to_list. rewrite <- Hp.
  rewrite <- (take_drop ExpiryBatchSize k). apply elem_of_app. by left.
Qed.

(** ** What the expirer needs of an inventory *)

(** No seat has an owner it did not have before. *)
Definition owners_fade (v v' : Owners) : Prop := forall e s x, v' e s = Some x -> v e s = Some x.

#[global] Instance owners_fade_preorder : PreOrder owners_fade.
Proof. split; [by intros v e s x|]. intros v1 v2 v3 H1 H2 e s x Hx. by apply H1, H2. Qed.

#[global] Instance owners_fade_proper : Proper (same_owners ==> same_owners ==> iff) owners_fade.
Proof.
  intros v1 v1' H1 v2 v2' H2. split; intros H e s x; [rewrite <- (H1 e s), <- (H2 e s)|rewrite (H1 e s), (H2 e s)]; apply H.
Qed.

Lemma release_fades v e ss o : owners_fade v (release_own v e ss o).
Proof. intros e' s x. unfold release_own. by case_decide. Qed.

Lemma release_frees v e ss o s : s ∈ ss -> release_own v e ss o e s <> Some (HeldBy o).
Proof. intros Hs. unfold release_own. case_decide as Hd; naive_solver. Qed.

Lemma fade_free v v' e s o : owners_fade v v' -> v e s <> Some (HeldBy o) -> v' e s <> Some (HeldBy o).
Proof. intros Hf Hn Hv. by apply Hn, Hf. Qed.

(** A backend that answers when no call fails. Its owners are those of Redis,
    the holds and the tickets, and time only takes holds away. *)
Class InventoryAnswers {R} (inv : Inventory R) (inv_ok : World R -> Prop) `{!InventorySpec inv inv_ok} := {
  Release_answers e ss o w :
    faults w = [] -> let r := run (Release inv e ss o) w in
    r.1 = Ok tt /\ faults r.2 = [] /\ locked r.2 = locked w /\ redis_now r.2 = redis_now w;
  ok_tickets w w' : tickets (pg w') = tickets (pg w) -> inv_ok w -> inv_ok w';
  owners_later w w' :
    tickets (pg w') = tickets (pg w) -> seat_holds w' = seat_holds w -> rds w' = rds w ->
    pg_now w <= pg_now w' -> redis_now w <= redis_now w' -> owners_fade (owners w) (owners w');
}.

Section redis.
Context {R : Type} `{RedisServer R} `{UuidLib}.

#[global] Instance redis_answers : InventoryAnswers RedisInventory (fun _ => True).
Proof.
  split; [|done|].
  - intros e ss o w Hf. cbn [RedisInventory Release]. unfold redis_Release. rewrite run_bind, run_act, redis_call_calm by done. cbn [fst snd].
    destruct (0 <? _); [|done]. unfold bumpVersion, discard. rewrite !run_bind, run_act, redis_call_calm by done. done.
  - intros w w' _ _ Hr _ Hn e s x. change (owners (inv := RedisInventory)) with (@redis_owners R _ _). unfold redis_owners, r_owner. rewrite Hr.
    destruct (GET (rds w) (redis_now w') (seatKey e s)) as [v|] eqn:Hg; [|done]. by rewrite (GET_mono _ _ _ _ _ Hn Hg).
Qed.
End redis.

#[global] Instance pg_answers {R} : InventoryAnswers (@PGInventory R) (fun w => tickets_unique (pg w)).
Proof.
  split.
  - intros e ss o w Hf. cbn [PGInventory Release]. unfold pg_Release, delete_holds, stmt_holds, call. rewrite run_act, pop_fault_nil by done. done.
  - intros w w' Ht. unfold tickets_unique. by rewrite Ht.
  - intros w w' Ht Hh _ Hn _ e s x. change (owners (inv := PGInventory)) with (@pg_owners R). unfold pg_owners, pg_owner, ticket_of. rewrite Ht, Hh.
    destruct (head _) as [y|]; [done|]. cbn. destruct (seat_holds w !! (e, s)) as [h|]; [|done]. unfold live_hold.
    destruct (Z.ltb_spec (pg_now w') (h_ExpiresAt h)); [|done]. by rewrite (proj2 (Z.ltb_lt _ _)) by lia.
Qed.

Section expirer.
Context {R : Type} `{UuidLib} (inv : Inventory R) (inv_ok : World R -> Prop).
Context `{!InventoryFrame inv} `{!InventorySpec inv inv_ok} `{!InventoryAnswers inv inv_ok}.
Implicit Types w : World R.

(** What giving seats back leaves as it is, besides the tables. *)
Record released w w' : Prop := {
  rl_books : books_kept w w';
  rl_faults : faults w' = [];
  rl_locked : locked w' = locked w;
  rl_clock : redis_now w' = redis_now w;
  rl_owners : owners_fade (owners (inv := inv) w) (owners (inv := inv) w');
}.

Lemma released_refl w : faults w = [] -> released w w.
Proof. by split. Qed.

Lemma released_trans w1 w2 w3 : released w1 w2 -> released w2 w3 -> released w1 w3.
Proof. intros [] []. split; [by etrans|done|congruence..|by etrans]. Qed.

Lemma released_ok w w' : released w w' -> inv_ok w -> inv_ok w'.
Proof. intros [(Hpg & _) _ _ _ _]. apply ok_tickets. by rewrite Hpg. Qed.

Lemma releaseSeats_calm e ss o w :
  faults w = [] -> inv_ok w -> NoDup ss ->
  let w' := (run (releaseSeats inv e ss o) w).2 in
  released w w' /\ forall s, s ∈ ss -> owners (inv := inv) w' e s <> Some (HeldBy o).
Proof.
  intros Hf Hok Hnd. cbv zeta. unfold releaseSeats, discard. rewrite run_bind. cbn [run snd].
  pose proof (Release_answers (inv := inv) e ss o w Hf) as (Hr & Hf' & Hl & Hn). pose proof (Release_spec (inv := inv) e ss o w Hok Hnd) as Hs.
  pose proof (keeps_books_run _ w (Release_frame (inv := inv) e ss o)) as Hk.
  destruct (run (Release inv e ss o) w) as [r w']. cbn [fst snd] in *. subst r. cbn in Hs.
  split; [split; [done..|]; rewrite Hs; apply release_fades|]. intros s Hin. rewrite (Hs e s). by apply release_frees.
Qed.

(** Every order of the list that is neither PAID nor TICKETED gives its seats back. *)
Lemma release_unpaid_calm status l w :
  faults w = [] -> inv_ok w -> Forall (fun o => NoDup (SeatIDs o)) l -> Forall (fun o => status !! o_ID o = Some StatusExpired) l ->
  let w' := (run (release_unpaid inv status l) w).2 in
  released w w' /\ forall o s, o ∈ l -> s ∈ SeatIDs o -> owners (inv := inv) w' (o_EventID o) s <> Some (HeldBy (o_ID o)).
Proof.
  cbv zeta. revert w. induction l as [|o l IH]; intros w Hf Hok Hnd Hst.
  { split; [by apply released_refl|]. by intros o s Ho%elem_of_nil. }
  apply Forall_cons in Hnd as [Hnd Hnds], Hst as [Hst Hsts]. cbn [release_unpaid]. rewrite Hst, run_bind.
  destruct (releaseSeats_calm (o_EventID o) (SeatIDs o) (o_ID o) w Hf Hok Hnd) as [Hr Hfree].
  destruct (run (releaseSeats _ _ _ _) w) as [u w1]. cbn [fst snd] in *.
  destruct (IH w1 (rl_faults _ _ Hr) (released_ok _ _ Hr Hok) Hnds Hsts) as [Hr1 Hfree1].
  split; [by eapply released_trans|]. intros o' s [->|Ho]%elem_of_cons Hs; [|by apply Hfree1].
  eapply fade_free; [apply Hr1|by apply Hfree].
Qed.

(** The statuses are read with the rows locked: they are those of the rows. *)
Lemma releaseExpired_calm os w :
  faults w = [] -> inv_ok w -> Forall (fun o => NoDup (SeatIDs o)) os ->
  (forall o, o ∈ os -> exists r, orders (pg w) !! o_ID o = Some r /\ r_Status r = StatusExpired) ->
  let w' := (run (releaseExpired inv os) w).2 in
  released w w' /\ forall o s, o ∈ os -> s ∈ SeatIDs o -> owners (inv := inv) w' (o_EventID o) s <> Some (HeldBy (o_ID o)).
Proof.
  intros Hf Hok Hnd Hst. cbv zeta. unfold releaseExpired. rewrite run_act. set (ids := o_ID <$> os).
  set (rows := omap (fun id => (fun r => (id, r_Status r)) <$> orders (pg w) !! id) (merge_sort N.le (remove_dups ids))).
  assert (Forall (fun o => (list_to_map rows : gmap UUID Status) !! o_ID o = Some StatusExpired) os) as Hmap.
  { apply Forall_forall. intros o Ho. destruct (Hst o Ho) as (r & Hr & He). apply elem_of_list_to_map_1'.
    - intros st Hin. apply list_elem_of_omap in Hin as (id & _ & Hin). apply fmap_Some in Hin as (r' & Hr' & Heq). injection Heq as <- ->.
      congruence.
    - apply list_elem_of_omap. exists (o_ID o). rewrite merge_sort_Permutation, elem_of_remove_dups, Hr. cbn. rewrite He. split; [|done].
      apply list_elem_of_fmap. by exists o. }
  pose proof (release_unpaid_calm (list_to_map rows) os w Hf Hok Hnd Hmap) as [Hr Hfree].
  erewrite BeginFunc_calm; [by split| |unfold releaseExpired_tx; erewrite mbind_eq; [reflexivity|by apply select_calm]|]; [done|apply Hr].
Qed.

(** ** One turn *)

(** The state of the expirer between its turns. *)
Record ready w : Prop := {
  rd_calm : calm w;
  rd_ok : inv_ok w;
  rd_ids : forall id r, orders (pg w) !! id = Some r -> r_ID r = id;
}.

(** What a turn does with the batch [l], the pause [d] after it included. *)
Record expired_now (l : list (UUID * OrderRow)) (d : Z) w w' : Prop := {
  en_orders id : orders (pg w') !! id =
    if decide (id ∈ l.*1) then set_status StatusExpired (pg_now w) <$> orders (pg w) !! id else orders (pg w) !! id;
  en_seats : order_seats (pg w') = order_seats (pg w);
  en_locked : locked w' = locked w;
  en_pg_now : pg_now w' = pg_now w + Microseconds d;
  en_owners : owners_fade (owners (inv := inv) w) (owners (inv := inv) w');
  en_freed id r s : (id, r) ∈ l -> is_Some (order_seats (pg w) !! (id, s)) -> owners (inv := inv) w' (r_EventID r) s <> Some (HeldBy id);
}.

Lemma view_seats d r s : s ∈ SeatIDs (expired_view d r) <-> is_Some (order_seats d !! (r_ID r, s)).
Proof.
  unfold SeatIDs, expired_view, seat_list. cbn. rewrite <- list_fmap_compose, list_elem_of_fmap. split.
  - intros ([s' x] & -> & Hs). exists x. by apply seats_of_elem in Hs.
  - intros [x Hx]. exists (s, x). split; [done|]. by apply seats_of_elem.
Qed.

Lemma view_NoDup d r : NoDup (SeatIDs (expired_view d r)).
Proof. unfold SeatIDs, expired_view, seat_list. cbn. rewrite <- list_fmap_compose. apply seats_of_NoDup. Qed.

Lemma Expirer_turn_calm w :
  ready w ->
  let l := due_orders ExpiryBatchSize (locked w) (pg_now w) (pg w) in
  exists w', run (Expirer_RunOnce inv) w = (Ok (length l), w') /\ ready w' /\ expired_now l 0 w w'.
Proof.
  intros [Hc Hok Hid] l. destruct (Expirer_calm_run inv w Hc Hid) as (n & d & Hr & Hb & Ht & Hs & Ho & _). fold l in Hr, Ho.
  set (os := expired_view (pg w) <$> (snd <$> l)) in Hr. set (w1 := put n d w) in *.
  destruct (due_orders_spec ExpiryBatchSize (locked w) (pg_now w) (pg w)) as [Hnd Hl]. fold l in Hnd, Hl.
  assert (owners_fade (owners (inv := inv) w) (owners (inv := inv) w1)) as Hfade by by apply owners_later.
  assert (inv_ok w1) as Hok1 by by apply (ok_tickets w).
  assert (exists w', run (Expirer_RunOnce inv) w = (Ok (length l), w') /\ released w1 w' /\
    forall o s, o ∈ os -> s ∈ SeatIDs o -> owners (inv := inv) w' (o_EventID o) s <> Some (HeldBy (o_ID o))) as (w' & Hrun & Hrel & Hfree).
  { eexists. split; [exact Hr|]. destruct os as [|o os'] eqn:Hos; [split; [by apply released_refl, Hc|by intros o s Ho'%elem_of_nil]|].
    apply releaseExpired_calm; [apply Hc|done|..]; rewrite <- Hos.
    - apply Forall_fmap, Forall_forall. intros r _. apply view_NoDup.
    - intros o' (r & -> & Hin)%list_elem_of_fmap. apply list_elem_of_fmap in Hin as ([id r'] & -> & Hin). destruct (Hl id r' Hin) as (Hlk & _).
      cbn [expired_view o_ID snd]. rewrite (Hid id r' Hlk), Ho, decide_True, Hlk; [by eexists|]. apply list_elem_of_fmap. by exists (id, r'). }
  exists w'. split; [done|]. pose proof (rl_books _ _ Hrel) as (Hpg & Hseq & _ & _ & Hn). split; split.
  - split; [apply Hrel|]. rewrite Hpg, Hseq. exact Hb.
  - by eapply released_ok.
  - intros id r. rewrite Hpg, Ho. case_decide; [|apply Hid]. intros (r0 & Hr0 & ->)%fmap_Some. by apply Hid in Hr0.
  - intros id. by rewrite Hpg.
  - by rewrite Hpg.
  - by rewrite (rl_locked _ _ Hrel).
  - rewrite Hn. symmetry. apply Z.add_0_r.
  - etrans; [exact Hfade|apply Hrel].
  - intros id r s Hin Hx. destruct (Hl id r Hin) as (Hlk & _). apply Hid in Hlk as Hrid.
    specialize (Hfree (expired_view (pg w) r) s). cbn [expired_view o_EventID o_ID] in Hfree. rewrite Hrid in Hfree. apply Hfree.
    + apply list_elem_of_fmap. exists r. split; [done|]. apply list_elem_of_fmap. by exists (id, r).
    + apply view_seats. by rewrite Hrid.
Qed.

Context (interval : Z) (Hinterval : 0 <= interval).

Lemma expirer_wait_pos r : 0 <= expirer_wait interval r.
Proof. unfold expirer_wait. by repeat case_match. Qed.

(** A pause: the clocks move, and holds may run out meanwhile. *)
Lemma pause_calm d w :
  0 <= d -> ready w -> exists w', run (sleep d true) w = (true, w') /\ ready w' /\ pg w' = pg w /\ locked w' = locked w /\
    pg_now w' = pg_now w + Microseconds d /\ owners_fade (owners (inv := inv) w) (owners (inv := inv) w').
Proof.
  intros Hd [Hc Hok Hid]. unfold sleep. destruct (Z.leb_spec d 0) as [Hz|Hz].
  - exists w. assert (d = 0) as -> by lia. split_and!; try done. by rewrite Z.add_0_r.
  - eexists. split; [reflexivity|]. cbn [snd]. set (w' := set_clocks _ _ w).
    assert (pg_now w <= pg_now w' /\ redis_now w <= redis_now w') as [Hp Hn].
    { cbn. unfold Microseconds, Milliseconds. pose proof (Z.quot_pos d 1000 ltac:(lia) ltac:(lia)).
      pose proof (Z.quot_pos d 1000000 ltac:(lia) ltac:(lia)). lia. }
    split; [split; [done|by apply (ok_tickets w)|done]|]. split_and!; try done. by apply owners_later.
Qed.

Lemma Expirer_next turns w :
  ready w ->
  let l := due_orders ExpiryBatchSize (locked w) (pg_now w) (pg w) in
  exists w', run (Expirer_Run inv interval (true :: turns)) w =
      (Ok (length l) :: (run (Expirer_Run inv interval turns) w').1, (run (Expirer_Run inv interval turns) w').2) /\
    ready w' /\ expired_now l (expirer_wait interval (Ok (length l))) w w'.
Proof.
  intros Hw l. destruct (Expirer_turn_calm w Hw) as (w1 & Hrun & Hw1 & He). fold l in Hrun, He.
  destruct (pause_calm (expirer_wait interval (Ok (length l))) w1 (expirer_wait_pos _) Hw1) as (w2 & Hp & Hw2 & Hpg & Hl & Hn & Hf).
  exists w2. cbn [Expirer_Run]. rewrite run_bind, Hrun. cbn [fst snd]. rewrite run_bind, Hp. cbn [fst snd]. rewrite run_bind.
  destruct (run (Expirer_Run inv interval turns) w2) as [rs w3]. cbn [run fst snd]. split_and!; [done..|]. split.
  - intros id. rewrite Hpg. apply He.
  - rewrite Hpg. apply He.
  - rewrite Hl. apply He.
  - rewrite Hn, (en_pg_now _ _ _ _ He). change (Microseconds 0) with 0. lia.
  - etrans; [apply He|exact Hf].
  - intros id r s Hin Hs. eapply fade_free; [exact Hf|]. by eapply He.
Qed.

(** ** Many turns *)

(** An order either stays as it is, or it was HELD and expires after its
    deadline. *)
Definition expire_in_time w w' : Prop := forall id row, orders (pg w) !! id = Some row ->
  orders (pg w') !! id = Some row \/
  r_Status row = StatusHeld /\ id ∉ locked w /\ exists t, r_HoldExpiresAt row < t /\ pg_now w <= t <= pg_now w' /\
    orders (pg w') !! id = Some (set_status StatusExpired t row).

Lemma in_time_trans w1 w2 w3 :
  locked w2 = locked w1 -> pg_now w1 <= pg_now w2 -> pg_now w2 <= pg_now w3 ->
  expire_in_time w1 w2 -> expire_in_time w2 w3 -> expire_in_time w1 w3.
Proof.
  intros Hl H12 H23 Ha Hb id row Hr. destruct (Ha id row Hr) as [Hr2|(Hst & Hnl & t & Ht & Hle & Hr2)].
  - destruct (Hb id row Hr2) as [|(Hst & Hnl & t & Ht & Hle & Hr3)]; [by left|]. right. rewrite <- Hl. split_and!; [done..|]. exists t. split_and!; [done|lia..|done].
  - right. split_and!; [done..|]. exists t. destruct (Hb _ _ Hr2) as [Hr3|(Hst2 & _)]; [|done]. split_and!; [done|lia..|done].
Qed.

Lemma expired_now_in_time d w w' :
  0 <= d -> expired_now (due_orders ExpiryBatchSize (locked w) (pg_now w) (pg w)) d w w' -> expire_in_time w w'.
Proof.
  intros Hd He id row Hr. rewrite (en_orders _ _ _ _ He), (en_pg_now _ _ _ _ He). case_decide as Hin; [right|by left].
  apply list_elem_of_fmap in Hin as ([i r] & -> & Hin).
  apply batch_facts, map_lookup_filter_Some in Hin as (Hr' & Hst & Hdl & Hs). cbn in *. assert (r = row) as -> by congruence.
  assert (0 <= Microseconds d) by (apply Z.quot_pos; lia).
  split_and!; [done..|]. exists (pg_now w). cbn [fst]. rewrite Hr. split_and!; [done|lia..|done].
Qed.

Record expirer_ran (n : nat) (rs : list (res GoErr nat)) w w' : Prop := {
  er_ready : ready w';
  er_results : length rs = n /\ Forall (fun r => is_ok r = true) rs;
  er_seats : order_seats (pg w') = order_seats (pg w);
  er_locked : locked w' = locked w;
  er_clock : pg_now w <= pg_now w' <= pg_now w + Microseconds interval * Z.of_nat n;
  er_owners : owners_fade (owners (inv := inv) w) (owners (inv := inv) w');
  er_in_time : expire_in_time w w';
}.

Lemma Expirer_Run_calm n w :
  ready w -> let r := run (Expirer_Run inv interval (replicate n true)) w in expirer_ran n r.1 w r.2.
Proof.
  cbv zeta. revert w. induction n as [|n IH]; intros w Hw; cbn [replicate].
  { cbn. split; [done..|lia|done|]. intros id row Hr. by left. }
  destruct (Expirer_next (replicate n true) w Hw) as (w1 & -> & Hw1 & He). cbn [fst snd].
  set (d := expirer_wait interval _) in He. specialize (IH w1 Hw1). destruct (run (Expirer_Run _ _ _) w1) as [rs w2]. cbn [fst snd] in *.
  assert (0 <= d) as Hd by apply expirer_wait_pos. assert (0 <= Microseconds d <= Microseconds interval) as Hm.
  { split; [by apply Z.quot_pos|]. apply Z.quot_le_mono; [lia|]. unfold d, expirer_wait. case_match; lia. }
  pose proof (en_pg_now _ _ _ _ He) as Hn. pose proof (er_clock _ _ _ _ IH) as Hc. split.
  - apply IH.
  - destruct (er_results _ _ _ _ IH) as [Hlen Hall]. split; [cbn; by f_equal|by constructor].
  - rewrite (er_seats _ _ _ _ IH). apply He.
  - rewrite (er_locked _ _ _ _ IH). apply He.
  - lia.
  - etrans; [apply He|apply IH].
  - eapply in_time_trans; [apply He|lia..|by eapply expired_now_in_time|apply IH].
Qed.

(** A full batch takes 500 orders away, and no time. *)
Lemma overdue_after w w' :
  let l := due_orders ExpiryBatchSize (locked w) (pg_now w) (pg w) in
  expired_now l 0 w w' -> overdue w' = filter (fun kv => kv.1 ∉ l.*1) (overdue w) /\
    size (overdue w') = (size (overdue w) - length l)%nat.
Proof.
  intros l He. pose proof (batch_facts w) as (Hnd & _ & Hl). fold l in Hnd, Hl.
  assert (overdue w' = filter (fun kv => kv.1 ∉ l.*1) (overdue w)) as Heq.
  { apply map_eq. intros id. apply option_eq. intros r. unfold overdue. rewrite !map_lookup_filter_Some, (en_orders _ _ _ _ He), (en_locked _ _ _ _ He), (en_pg_now _ _ _ _ He).
    change (Microseconds 0) with 0. rewrite Z.add_0_r. cbn. case_decide as Hin; [|naive_solver]. split; [|naive_solver].
    intros [(r0 & _ & ->)%fmap_Some (Hst & _)]. done. }
  split; [done|]. rewrite Heq, <- !size_dom.
  assert (dom (filter (fun kv : UUID * OrderRow => kv.1 ∉ l.*1) (overdue w)) = dom (overdue w) ∖ (list_to_set l.*1 : gset UUID)) as ->.
  { apply set_eq. intros id. rewrite elem_of_difference, elem_of_list_to_set, !elem_of_dom. split.
    - intros [r [Hr Hn]%map_lookup_filter_Some]. by split; [exists r|].
    - intros [[r Hr] Hn]. exists r. by apply map_lookup_filter_Some. }
  rewrite size_difference; [by rewrite size_list_to_set, length_fmap|]. intros id Hin%elem_of_list_to_set.
  apply list_elem_of_fmap in Hin as ([i r] & -> & Hin). apply elem_of_dom. exists r. by apply Hl.
Qed.

Lemma Expirer_catches_up n w :
  ready w -> (size (overdue w) <= n * ExpiryBatchSize)%nat ->
  let r := run (Expirer_Run inv interval (replicate n true)) w in
  (forall id row, overdue w !! id = Some row ->
     orders (pg r.2) !! id = Some (set_status StatusExpired (pg_now w) row) /\
     forall s, is_Some (order_seats (pg w) !! (id, s)) -> owners (inv := inv) r.2 (r_EventID row) s <> Some (HeldBy id)) /\
  pg_now r.2 <= pg_now w + Microseconds interval * Z.of_nat (n - size (overdue w) / ExpiryBatchSize).
Proof.
  cbv zeta. revert w. induction n as [|n IH]; intros w Hw Hsize.
  { cbn. split; [|lia]. intros id row Hr. exfalso. destruct (map_size_ne_0_lookup_2 (overdue w) id); [by exists row|lia]. }
  cbn [replicate]. destruct (Expirer_next (replicate n true) w Hw) as (w1 & -> & Hw1 & He). cbn [fst snd].
  set (l := due_orders _ _ _ _) in He. pose proof (batch_facts w) as (Hnd & Hlen & Hl). fold l in Hnd, Hlen, Hl.
  pose proof (Expirer_Run_calm n w1 Hw1) as Hran.
  assert (forall id row, overdue w !! id = Some row -> id ∈ l.*1 ->
    let r := run (Expirer_Run inv interval (replicate n true)) w1 in
    orders (pg r.2) !! id = Some (set_status StatusExpired (pg_now w) row) /\
    forall s, is_Some (order_seats (pg w) !! (id, s)) -> owners (inv := inv) r.2 (r_EventID row) s <> Some (HeldBy id)) as Hbatch.
  { intros id row Hr Hin. cbv zeta. apply map_lookup_filter_Some in Hr as [Hr _]. split.
    - destruct (er_in_time _ _ _ _ Hran id (set_status StatusExpired (pg_now w) row)) as [|(Hst & _)]; [by rewrite (en_orders _ _ _ _ He), decide_True, Hr|done|done].
    - intros s Hs. eapply fade_free; [apply Hran|]. apply list_elem_of_fmap in Hin as ([i r] & -> & Hin). apply Hl in Hin as Hlk.
      apply map_lookup_filter_Some in Hlk as [Hlk _]. cbn [fst] in *. assert (r = row) as -> by congruence. by eapply (en_freed _ _ _ _ He). }
  destruct (decide (size (overdue w) < ExpiryBatchSize)%nat) as [Hlt|Hge].
  - split.
    + intros id row Hr. apply Hbatch; [done|]. pose proof Hr as Hr'. apply map_lookup_filter_Some in Hr' as [Hr1 Hd].
      destruct (due_orders_complete ExpiryBatchSize _ _ _ id row Hr1 Hd) as [|Hfull]; [done|]. fold l in Hfull. lia.
    + rewrite (Nat.div_small _ _ Hlt). pose proof (er_clock _ _ _ _ Hran). pose proof (en_pg_now _ _ _ _ He) as Hn.
      assert (Microseconds (expirer_wait interval (Ok (length l))) <= Microseconds interval); [|lia].
      apply Z.quot_le_mono; [lia|]. unfold expirer_wait. case_match; lia.
  - assert (length l = ExpiryBatchSize) as Hfull by lia. rewrite Hfull in He. change (expirer_wait interval (Ok ExpiryBatchSize)) with 0 in He.
    destruct (overdue_after w w1 He) as [Heq Hsz]. fold l in Heq, Hsz. rewrite Hfull in Hsz.
    pose proof (en_pg_now _ _ _ _ He) as Hn. change (Microseconds 0) with 0 in Hn. rewrite Z.add_0_r in Hn.
    destruct (IH w1 Hw1 ltac:(lia)) as [IH1 IH2]. rewrite Hn in IH1, IH2. split.
    + intros id row Hr. destruct (decide (id ∈ l.*1)) as [Hin|Hni]; [by apply Hbatch|].
      rewrite <- (en_seats _ _ _ _ He). apply IH1. rewrite Heq. by apply map_lookup_filter_Some.
    + rewrite Hsz in IH2. pose proof (Nat.div_add (size (overdue w) - ExpiryBatchSize) 1 ExpiryBatchSize ltac:(unfold ExpiryBatchSize; lia)) as Hdiv.
      rewrite Nat.mul_1_l, Nat.sub_add in Hdiv by lia. rewrite Hdiv. replace (S n - _)%nat with (n - (size (overdue w) - ExpiryBatchSize) / ExpiryBatchSize)%nat by lia. done.
Qed.
End expirer.

(** ** Properties *)

(** C21. The expirer catches up. Against a seat inventory that answers, with no
    call failing: after as many turns as it takes batches of 500, every order
    that was HELD, past its deadline and not locked at the start is EXPIRED as
    of the start, and none of its seats is held for it any more; only turns
    beyond the full batches pause. An order is only ever changed in that way,
    when it was HELD and its deadline has passed. Every turn succeeds. *)
Theorem expirer_catches_up {R} `{UuidLib} (inv : Inventory R) (inv_ok : World R -> Prop) `{!InventoryFrame inv} `{!InventorySpec inv inv_ok}
    `{!InventoryAnswers inv inv_ok} (interval : Z) (n : nat) (w : World R) (Hinterval : 0 <= interval) (Hcalm : calm w) (Hok : inv_ok w)
    (Hids : forall id r, orders (pg w) !! id = Some r -> r_ID r = id) (Hn : (size (overdue w) <= n * ExpiryBatchSize)%nat) :
  let r := run (Expirer_Run inv interval (replicate n true)) w in
  length r.1 = n /\ Forall (fun r => is_ok r = true) r.1 /\
  (forall id row, overdue w !! id = Some row ->
     orders (pg r.2) !! id = Some (set_status StatusExpired (pg_now w) row) /\
     forall s, is_Some (order_seats (pg w) !! (id, s)) -> owners (inv := inv) r.2 (r_EventID row) s <> Some (HeldBy id)) /\
  expire_in_time w r.2 /\
  pg_now r.2 <= pg_now w + Microseconds interval * Z.of_nat (n - size (overdue w) / ExpiryBatchSize).
Proof.
  assert (ready inv_ok w) as Hw by done. pose proof (Expirer_Run_calm inv inv_ok interval Hinterval n w Hw) as Hran.
  pose proof (Expirer_catches_up inv inv_ok interval Hinterval n w Hw Hn) as [Hdone Hclock].
  split_and!; [apply Hran..|exact Hdone|apply Hran|exact Hclock].
Qed.
