(* ===== verification/Platform.v ===== *)
(** * Platform helpers (internal/platform)

    Creating the Kafka topics before the relay starts
    (internal/platform/kafka/kafka.go, cmd/relay/main.go), the per-request
    timing statistics (internal/platform/timing/timing.go), the attributes a
    context adds to log records (internal/platform/logging/logging.go) and the
    outcome of serving (internal/platform/httpserver/server.go). *)

From S2P Require Import Prelude GoLib Effects Float World Outbox.
Local Open Scope tr_scope.

(** ** Topics *)

(** The broker as its administrator sees it: the topics with their partitions,
    and what the calls to come meet. *)
Record Broker := mkBroker { br_topics : gmap string Z; br_faults : list Fault }.

Inductive TopicErr := TopicAlreadyExists | TopicFailed.
#[global] Instance TopicErr_eq_dec : EqDecision TopicErr.
Proof. solve_decision. Defined.

(** One request to create a topic. *)
Definition CreateTopic (n : Z) (topic : string) (b : Broker) : option TopicErr * Broker :=
  let create (rest : list Fault) :=
    match br_topics b !! topic with
    | Some _ => (Some TopicAlreadyExists, mkBroker (br_topics b) rest)
    | None => (None, mkBroker (<[topic := n]> (br_topics b)) rest)
    end in
  match br_faults b with
  | [] => create []
  | FOk :: rest => create rest
  | FErr :: rest => (Some TopicFailed, mkBroker (br_topics b) rest)
  | FLost :: rest => (Some TopicFailed, (create rest).2)
  end.

(** The map's entries in the order Go visits them. *)
Fixpoint EnsureTopics (partitions : list (string * Z)) : prog Broker (res TopicErr unit) :=
  match partitions with
  | [] => Ret (Ok tt)
  | (topic, n) :: partitions =>
      let! err := act (CreateTopic n topic) in
      match err with
      | Some e => if bool_decide (e = TopicAlreadyExists) then EnsureTopics partitions else Ret (Err e)
      | None => EnsureTopics partitions
      end
  end.

Definition TopicPartitions : gmap string Z := {[TopicOrders := 6; TopicTickets := 6]}.

(** The relay's start: attempts until one succeeds; every attempt visits the
    topics in some order, and [alive] says whether the process still runs after
    the pause that follows a failure. The result is whether the relay starts. *)
Fixpoint await_topics (attempts : list (list (string * Z) * bool)) : prog Broker bool :=
  match attempts with
  | [] => Ret false
  | (order, alive) :: attempts =>
      let! r := EnsureTopics order in
      match r with
      | Ok _ => Ret true
      | Err _ => if alive : bool then await_topics attempts else Ret false
      end
  end.

(** [b'] is [b] with some of the wanted topics added. *)
Definition topics_added (wanted : list (string * Z)) (b b' : Broker) : Prop :=
  (forall t n, br_topics b !! t = Some n -> br_topics b' !! t = Some n) /\
  (forall t n, br_topics b' !! t = Some n -> br_topics b !! t = Some n \/ (t, n) ∈ wanted).

#[global] Instance topics_added_preorder wanted : PreOrder (topics_added wanted).
Proof.
  split; [intros b; split; auto|]. intros b1 b2 b3 [A1 A2] [B1 B2]. split; [auto|]. intros t n Ht. destruct (B2 t n Ht); auto.
Qed.

Lemma CreateTopic_spec n topic wanted b :
  (topic, n) ∈ wanted ->
  let r := CreateTopic n topic b in
  topics_added wanted b r.2 /\ (r.1 <> Some TopicFailed -> is_Some (br_topics r.2 !! topic)) /\
  br_faults r.2 = tail (br_faults b) /\ (r.1 = Some TopicFailed -> br_faults b <> []).
Proof.
  intros Hin.
  assert (forall rest, let r := match br_topics b !! topic with
    | Some _ => (Some TopicAlreadyExists, mkBroker (br_topics b) rest)
    | None => (None, mkBroker (<[topic := n]> (br_topics b)) rest)
    end in topics_added wanted b r.2 /\ is_Some (br_topics r.2 !! topic) /\ br_faults r.2 = rest /\ r.1 <> Some TopicFailed) as Hc.
  { intros rest. destruct (br_topics b !! topic) as [m|] eqn:Ht; cbn; [split_and!; try done; split; auto|].
    split_and!; [|by rewrite lookup_insert_eq|done..]. split; intros t k Hk; cbn in *.
    - rewrite lookup_insert_ne; [done|]. congruence.
    - apply lookup_insert_Some in Hk as [[<- <-]|[_ Hk]]; auto. }
  unfold CreateTopic. destruct (br_faults b) as [|[] rest]; cbn [tail fst snd].
  - destruct (Hc []) as (H1 & H2 & H3 & H4). by split_and!.
  - destruct (Hc rest) as (H1 & H2 & H3 & H4). by split_and!.
  - split_and!; try done. split; auto.
  - destruct (Hc rest) as (H1 & H2 & H3 & H4). by split_and!.
Qed.

Lemma EnsureTopics_spec wanted l b :
  (forall x, x ∈ l -> x ∈ wanted) ->
  let r := run (EnsureTopics l) b in
  topics_added wanted b r.2 /\
  match r.1 with
  | Ok _ => forall t n, (t, n) ∈ l -> is_Some (br_topics r.2 !! t)
  | Err _ => (length (br_faults r.2) < length (br_faults b))%nat
  end /\ (length (br_faults r.2) <= length (br_faults b))%nat.
Proof.
  revert b. induction l as [|[topic n] l IH]; intros b Hl; cbn [EnsureTopics run fst snd].
  { split_and!; [done|by intros t n Hin%elem_of_nil|done]. }
  rewrite run_bind, run_act. destruct (CreateTopic_spec n topic wanted b) as (H1 & H2 & H3 & H4); [apply Hl; by left|].
  destruct (CreateTopic n topic b) as [err b1]. cbn [fst snd] in *.
  assert (length (br_faults b1) <= length (br_faults b))%nat as Hlen by (rewrite H3; destruct (br_faults b); cbn; lia).
  destruct (IH b1) as (I1 & I2 & I3); [intros x Hx; apply Hl; by right|].
  assert (err <> Some TopicFailed -> let r := run (EnsureTopics l) b1 in topics_added wanted b r.2 /\
    match r.1 with
    | Ok _ => forall t m, (t, m) ∈ (topic, n) :: l -> is_Some (br_topics r.2 !! t)
    | Err _ => (length (br_faults r.2) < length (br_faults b))%nat
    end /\ (length (br_faults r.2) <= length (br_faults b))%nat) as Hgo.
  { intros He. cbv zeta. split; [by etrans|]. split; [|lia]. destruct (run _ b1).1; [|lia].
    intros t m [[= -> ->]|Hin]%elem_of_cons; [|by eapply I2]. destruct (H2 He) as [k Hk]. exists k. by apply I1. }
  destruct err as [e|]; [|by apply Hgo]. case_bool_decide as He; [apply Hgo; by subst e|].
  destruct e; [done|]. cbn [run fst snd]. split; [done|]. assert (br_faults b <> []) by auto. rewrite H3.
  destruct (br_faults b); [done|]. cbn. lia.
Qed.

(** The relay starts with its topics. Whatever fails, the topics that were
    there keep their partitions, and no topic is created but the wanted ones
    with their partitions; if the relay starts, every wanted topic exists; and
    it does start after at most as many failed attempts as calls fail. *)
Theorem relay_has_topics (attempts : list (list (string * Z) * bool)) (b : Broker)
    (Horders : Forall (fun a => a.1 ≡ₚ map_to_list TopicPartitions) attempts) :
  let r := run (await_topics attempts) b in
  topics_added (map_to_list TopicPartitions) b r.2 /\
  (r.1 = true -> forall t, is_Some (TopicPartitions !! t) -> is_Some (br_topics r.2 !! t)) /\
  (Forall (fun a => a.2 = true) attempts -> (length (br_faults b) < length attempts)%nat -> r.1 = true).
Proof.
  revert b. induction attempts as [|[order alive] attempts IH]; intros b; cbn [await_topics run fst snd].
  { split_and!; [done..|]. cbn. lia. }
  apply Forall_cons in Horders as [Ho Horders]. cbn in Ho. rewrite run_bind.
  destruct (EnsureTopics_spec (map_to_list TopicPartitions) order b) as (H1 & H2 & H3); [intros x; by rewrite Ho|].
  destruct (run (EnsureTopics order) b) as [[[]|e] b1]; cbn [run fst snd] in *.
  - split; [done|]. split; [|done]. intros _ t [n Hn]. apply (H2 t n). rewrite Ho. by apply elem_of_map_to_list.
  - destruct alive; cbn [run fst snd]; [|split; [done|split; [done|intros [Hf _]%Forall_cons; done]]].
    destruct (IH Horders b1) as (I1 & I2 & I3). split; [by etrans|]. split; [done|]. intros [_ Hall]%Forall_cons Hlen.
    apply I3; [done|]. cbn in Hlen. lia.
Qed.

(** ** Timing *)

(** [timing.Stats]: nanoseconds and counts. *)
Record Stats := mkStats {
  st_dbAcquire : Z; st_dbAcquires : Z; st_dbQuery : Z; st_dbQueries : Z; st_redis : Z; st_redisCmds : Z; st_payment : Z; st_paymentCalls : Z;
}.
Definition newStats : Stats := mkStats 0 0 0 0 0 0 0 0.

(** The context's stats; outside a request there are none. *)
Definition AddDBAcquire (d : Z) (s : option Stats) : option Stats :=
  (fun s => mkStats (add64 (st_dbAcquire s) d) (add64 (st_dbAcquires s) 1) (st_dbQuery s) (st_dbQueries s) (st_redis s) (st_redisCmds s)
    (st_payment s) (st_paymentCalls s)) <$> s.
Definition AddDBQuery (d : Z) (s : option Stats) : option Stats :=
  (fun s => mkStats (st_dbAcquire s) (st_dbAcquires s) (add64 (st_dbQuery s) d) (add64 (st_dbQueries s) 1) (st_redis s) (st_redisCmds s)
    (st_payment s) (st_paymentCalls s)) <$> s.
Definition AddRedis (d : Z) (s : option Stats) : option Stats :=
  (fun s => mkStats (st_dbAcquire s) (st_dbAcquires s) (st_dbQuery s) (st_dbQueries s) (add64 (st_redis s) d) (add64 (st_redisCmds s) 1)
    (st_payment s) (st_paymentCalls s)) <$> s.
Definition AddPayment (d : Z) (s : option Stats) : option Stats :=
  (fun s => mkStats (st_dbAcquire s) (st_dbAcquires s) (st_dbQuery s) (st_dbQueries s) (st_redis s) (st_redisCmds s)
    (add64 (st_payment s) d) (add64 (st_paymentCalls s) 1)) <$> s.

Inductive Attr := AFloat (key : string) (v : float64) | AInt (key : string) (n : Z).

Definition ms (ns : Z) : float64 := fdiv (float64_of (Z.quot ns 1000)) (float64_of 1000).

Definition attrs_of (sum count : string) (total n : Z) : list Attr := if 0 <? n then [AFloat sum (ms total); AInt count n] else [].
Definition LogAttrs (s : Stats) : list Attr :=
  attrs_of "db_acquire_ms" "db_acquires" (st_dbAcquire s) (st_dbAcquires s) ++
  attrs_of "db_query_ms" "db_queries" (st_dbQuery s) (st_dbQueries s) ++
  attrs_of "redis_ms" "redis_cmds" (st_redis s) (st_redisCmds s) ++
  attrs_of "payment_ms" "payment_calls" (st_payment s) (st_paymentCalls s).

(** A request that made one query of 1.5 ms and one Redis command. *)
Example log_attrs :
  LogAttrs <$> AddRedis 2000000 (AddDBQuery 1500999 (Some newStats)) =
    Some [AFloat "db_query_ms" (ms 1500999); AInt "db_queries" 1; AFloat "redis_ms" (ms 2000000); AInt "redis_cmds" 1].
Proof. reflexivity. Qed.
Example ms_truncates : ms 1500999 = fdiv (float64_of 3) (float64_of 2).
Proof. vm_compute. reflexivity. Qed.

(** ** Log records *)

(** [logging.With]: attributes are added to those the context has. *)
Definition With {A} (attrs : list A) (ctx : list A) : list A := match attrs with [] => ctx | _ => ctx ++ attrs end.
(** [contextHandler.Handle]: what is written of a record with attributes [r]. *)
Definition Handle {A} (ctx r : list A) : list A := match ctx with [] => r | _ => r ++ ctx end.

(** ** Serving *)

(** What stops [srv.Serve]: an error of its own or the cancelled context, then
    the errors of [Shutdown] and of [Serve] after it ([None]: ErrServerClosed). *)
Inductive ServerEnd := Broke (e : GoErr) | Stopped (shutdown serve : option GoErr).
Definition Serve (how : ServerEnd) : option GoErr :=
  match how with
  | Broke e => Some e
  | Stopped (Some e) _ => Some e
  | Stopped None serve => serve
  end.
