(* ===== verification/Wiring.v ===== *)
(** * The services as deployed (cmd/booking, cmd/waitingroom, cmd/expiry: main.go)

    What [run] builds from a loaded configuration, and what follows when the
    services and the gateway are configured by one environment: their secrets,
    lifetimes and addresses fit together. *)

From S2P Require Import Prelude GoLib Effects Float Settings.
From S2P Require Import Middleware RedisServer RedisQueue OrderState CatalogEvent World Auth Frame OrderDB.
From S2P Require Import Locker Ledger Inventory InventoryRedis InventoryPG Catalog Payment OrderRequest OrderService OrderBooks System.
From S2P Require Import Queue Worker Waiting Place Admission Http Fakepay Deployed Stream Text Caches Booking Endpoints Door Loops.
Local Open Scope tr_scope.

Section wiring.
Context `{RedisQueue R} `{UuidLib} `{JwtLib}.
Implicit Types w : World R.

(** [inventory.New], with the backend's version counter, if it has one. *)
Definition inventory_New (backend : string) : res GoErr (Inventory R * option (Z -> prog (World R) (res GoErr Z))) :=
  if bool_decide (backend = "pg") then Ok (PGInventory, None)
  else if bool_decide (backend = "redis") then Ok (RedisInventory, Some SeatMapVersion)
  else Err (EOther ("unknown inventory backend " +:+ backend)).

Definition booking_admissions (cfg : Settings.Config) : option AdmissionTokens :=
  if Settings.RequireAdmission cfg then Some (mkAdmissionTokens (AdmissionSecret cfg) (AdmissionTTL cfg)) else None.

Definition booking_service (proc : nat) (inv : Inventory R) (cfg : Settings.Config) : Service R :=
  mkService R proc inv RedisLocker (HoldTTL cfg) (HoldGrace cfg)
    (if Settings.RequireAdmission cfg then Some (RedisLedger (AdmissionTTL cfg)) else None).

(** booking's [run]; [gw] is the gateway that FAKEPAY_URL names. *)
Definition booking_api (proc : nat) (clock : World R -> Z) (gw : Fakepay.Config) (cfg : Settings.Config) : res GoErr (api R) :=
  match inventory_New (InventoryBackend cfg) with
  | Err e => Err e
  | Ok (inv, versioner) =>
      Ok (mkApi R (mkTokens (JWTSecret cfg) AccessTokenTTL) (booking_service proc inv cfg) inv versioner (Some gw) (WebhookSecret cfg)
            (PublicBaseURL cfg +:+ "/v1/webhooks/fakepay") (IsDev cfg) (booking_admissions cfg) clock)
  end.

(** waitingroom's [run]; [instance] is the worker's random name. *)
Definition waiting_worker (clock : World R -> Z) (instance : string) (cfg : Settings.Config) : Worker R :=
  mkWorker R (AdmissionIssuer (mkAdmissionTokens (AdmissionSecret cfg) (AdmissionTTL cfg)) clock) OpenEventIDs (AdmitBatch cfg) instance.
Definition waiting_api (proc : nat) (clock : World R -> Z) (cfg : Settings.Config) : waitapi R :=
  mkWaitApi R (mkTokens (JWTSecret cfg) AccessTokenTTL) (Catalog_Event proc) (AdmitBatch cfg) (AdmitInterval cfg) clock.

(** expiry's [run]: the loop over the same inventory. *)
Definition expiry_service (cfg : Settings.Config) (turns : list bool) : res GoErr (prog (World R) (list (res GoErr nat))) :=
  match inventory_New (InventoryBackend cfg) with
  | Err e => Err e
  | Ok (inv, _) => Ok (Expirer_Run inv (ExpiryInterval cfg) turns)
  end.

(** ** What fits together *)

Lemma SeatMapVersion_frame e : keeps_books (SeatMapVersion (R := R) e).
Proof. unfold SeatMapVersion. apply respects_bind; [apply act_redis_call_frame|]. intros [[s|]|]; [by destruct (ParseInt s)|done..]. Qed.

(** net/url reads a URL with a host also with the callback path behind it: the
    scheme and the host stay. (The path has no escapes, so nothing in it can
    be refused.) *)
Definition reads_callback (url_Parse : string -> option (string * string)) : Prop :=
  forall u scheme host, url_Parse u = Some (scheme, host) -> host <> EmptyString ->
    url_Parse (u +:+ "/v1/webhooks/fakepay") = Some (scheme, host).

Section environment.
Context (url_Parse : string -> option (string * string)) (lookup : string -> option string) (ParseFloat : string -> option float64).
Context (cfg : Settings.Config) (gw : Settings.Fakepay).
Context (Hload : Load url_Parse lookup = Ok cfg).

Lemma load_valid : Valid url_Parse lookup cfg.
Proof.
  unfold Load in Hload. rewrite parse_config_run in Hload. pose proof (elem_of_found url_Parse lookup) as Hf.
  destruct (found url_Parse lookup) as [|p ps]; [|done]. injection Hload as <-. apply as_read_valid. by intros p Hp%Hf%not_elem_of_nil.
Qed.

Lemma booking_starts proc clock g : exists a, booking_api proc clock g cfg = Ok a /\
  InventoryFrame (api_inventory a) /\ Framed (api_orders a) /\ api_inventory a = svc_inv (api_orders a) /\
  (forall v id, api_versioner a = Some v -> keeps_books (v id)).
Proof.
  destruct (va_InventoryBackend _ _ _ load_valid) as [_ Hb]. unfold booking_api, inventory_New.
  assert (forall l, svc_admissions (booking_service proc (if bool_decide (InventoryBackend cfg = "pg") then PGInventory else RedisInventory) cfg) = Some l ->
    LedgerFrame l) as Hledger.
  { unfold booking_service. cbn. intros l. destruct (Settings.RequireAdmission cfg); [|done]. intros [= <-]. apply _. }
  apply elem_of_cons in Hb as [Hb|[Hb| []%not_elem_of_nil]%elem_of_cons]; rewrite Hb in *; cbn in *; eexists; (split; [reflexivity|]);
    cbn [api_inventory api_orders api_versioner booking_service svc_inv]; (split; [apply _|]); (split; [split; try apply _; exact Hledger|]); (split; [done|]).
  - done.
  - intros v id [= <-]. apply SeatMapVersion_frame.
Qed.

Context (Hgate : LoadFakepay url_Parse lookup ParseFloat = Ok gw).

Lemma same_secret : fp_WebhookSecret gw = WebhookSecret cfg.
Proof.
  destruct (va_secrets _ _ _ load_valid) as (_ & _ & [Hs1 _] & _). destruct (fv_secret _ _ _ (LoadFakepay_valid _ _ _ _ Hgate)) as [Hs2 _]. congruence.
Qed.

Lemma same_base : fp_CallbackPrefix gw = PublicBaseURL cfg /\ is_http url_Parse (PublicBaseURL cfg) = true.
Proof.
  destruct (va_urls _ _ _ load_valid) as [_ [Hs1 Hh]]. destruct (fv_urls _ _ _ (LoadFakepay_valid _ _ _ _ Hgate)) as [_ [Hs2 _]].
  split; [congruence|done].
Qed.

(** The gateway accepts what booking registers. *)
Lemma callback_accepted (Hpath : reads_callback url_Parse) id amount :
  id <> uuid_Nil -> 0 < amount ->
  validCreate url_Parse (New (gateway_config gw)) (mkCreatePayment id amount (PublicBaseURL cfg +:+ "/v1/webhooks/fakepay")) = None.
Proof.
  intros Hid Ha. destruct same_base as [Hp Hh]. unfold validCreate, New, gateway_config.
  cbn [fc_CallbackPrefix cp_OrderID cp_AmountVND cp_CallbackURL]. rewrite bool_decide_eq_false_2 by done. destruct (Z.leb_spec amount 0); [lia|].
  unfold is_http in Hh. destruct (url_Parse (PublicBaseURL cfg)) as [[scheme host]|] eqn:Hu; [|done]. apply andb_prop in Hh as [Hs Hhost].
  apply negb_true_iff, bool_decide_eq_false in Hhost.
  rewrite (Hpath _ _ _ Hu Hhost).
  rewrite (bool_decide_eq_false_2 (host = _)) by done. rewrite orb_false_r.
  replace (negb _ && negb _) with false; [|by destruct (bool_decide (scheme = "http")), (bool_decide (scheme = "https"))].
  change "/v1/webhooks/fakepay" with ("/" +:+ "v1/webhooks/fakepay"). rewrite Hp, <- string_app_assoc, HasPrefix_app. by rewrite andb_false_r.
Qed.

Lemma registered_answers (Hpath : reads_callback url_Parse) id amount (w : World R) :
  faults w = [] -> id <> uuid_Nil -> 0 < amount -> exists p,
  (CreatePayment url_Parse (New (gateway_config gw)) (mkCreatePayment id amount (PublicBaseURL cfg +:+ "/v1/webhooks/fakepay")) w).1 =
    Ok (paymentPage (New (gateway_config gw)) p).
Proof.
  intros Hf Hid Ha. unfold CreatePayment, call. rewrite (pop_fault_nil w Hf). unfold handleCreate. rewrite callback_accepted by done.
  destruct (register _ _) as [p g]. by exists (cp_OrderID p).
Qed.

(** A HELD order gets a link. *)
Lemma held_linked (Hpath : reads_callback url_Parse) keys proc clock a o (w : World R) :
  booking_api proc clock (New (gateway_config gw)) cfg = Ok a ->
  faults w = [] -> o_ID o <> uuid_Nil -> 0 < o_TotalVND o -> o_Status o = StatusHeld ->
  exists p, (run (paymentURL url_Parse keys a newCaches o) w).1.1 = paymentPage (New (gateway_config gw)) p.
Proof.
  intros Ha Hf Hid Htotal Hst. assert (api_payments a = Some (New (gateway_config gw)) /\ api_callbackURL a = PublicBaseURL cfg +:+ "/v1/webhooks/fakepay") as [Hg Hc].
  { unfold booking_api in Ha. destruct (inventory_New _) as [[inv v]|]; [|done]. by injection Ha as <-. }
  unfold paymentURL. rewrite Hg, Hst. cbn [negb]. rewrite bool_decide_eq_true_2 by done. cbn [negb]. rewrite run_bind. cbn [read_clock act run fst snd].
  replace (links_get (ca_links newCaches) (api_clock a w) (o_ID o)) with (@None string) by (unfold links_get, newCaches; cbn [ca_links links newPaymentLinkCache]; by rewrite lookup_empty).
  rewrite Hc, run_bind, run_act. destruct (registered_answers Hpath (o_ID o) (o_TotalVND o) w Hf Hid Htotal) as [p Hp].
  destruct (CreatePayment _ _ _ w) as [r w1]. cbn [fst snd] in *. subst r. exists p. rewrite run_bind. by cbn [read_clock act run fst snd].
Qed.
End environment.
End wiring.

(** ** A concrete url.Parse

    The scheme ends at the first colon, the host at the first slash behind it. *)

Fixpoint cut_at (c : ascii) (s : string) : option (string * string) :=
  match s with
  | EmptyString => None
  | String d t => if Ascii.eqb c d then Some (EmptyString, t) else '(u, r) ← cut_at c t; Some (String d u, r)
  end.
Definition host_url (s : string) : option (string * string) :=
  match cut_at ":" s with
  | None => None
  | Some (scheme, rest) =>
      match CutPrefix "//" rest with
      | None => None
      | Some t => Some (scheme, match cut_at "/" t with Some (host, _) => host | None => t end)
      end
  end.

Lemma cut_at_more c s u r x : cut_at c s = Some (u, r) -> cut_at c (s +:+ x) = Some (u, r +:+ x).
Proof.
  revert u. induction s as [|d s IH]; intros u Hc; [done|]. change (String d s +:+ x) with (String d (s +:+ x)). cbn in *.
  destruct (Ascii.eqb c d); [by injection Hc as <- <-|].
  destruct (cut_at c s) as [[u' r']|]; [|done]. cbn in Hc. injection Hc as <- ->. by rewrite (IH u' eq_refl).
Qed.

Lemma cut_at_here c s x : cut_at c s = None -> cut_at c (s +:+ String c x) = Some (s, x).
Proof.
  induction s as [|d s IH]; intros Hc; [change (cut_at c (String c x) = Some (EmptyString, x)); cbn; by rewrite Ascii.eqb_refl|].
  change (String d s +:+ String c x) with (String d (s +:+ String c x)). cbn in *. destruct (Ascii.eqb c d); [done|].
  destruct (cut_at c s) as [[u' r']|]; [done|]. by rewrite IH.
Qed.

Lemma host_url_callback : reads_callback host_url.
Proof.
  intros u scheme host Hu _. change "/v1/webhooks/fakepay" with ("/" +:+ "v1/webhooks/fakepay"). set (path := "v1/webhooks/fakepay"). unfold host_url in *. destruct (cut_at ":" u) as [[sc rest]|] eqn:Hc; [|done].
  rewrite (cut_at_more _ _ _ _ ("/" +:+ path) Hc). destruct (CutPrefix "//" rest) as [t|] eqn:Ht; [|done].
  apply CutPrefix_Some in Ht as ->. rewrite string_app_assoc, CutPrefix_app. injection Hu as <- <-.
  destruct (cut_at "/" t) as [[h r]|] eqn:Hh; [by rewrite (cut_at_more _ _ _ _ ("/" +:+ path) Hh)|].
  change ("/" +:+ path) with (String "/" path). by rewrite (cut_at_here "/" t path Hh).
Qed.

(** ** Properties *)

(** C28. One environment for all services. If Load and LoadFakepay accept the
    same environment, booking starts with whichever seat inventory it names,
    and what the services share fits: booking checks webhooks with the secret
    the gateway signs them with; users' tokens are the same for booking and
    the waiting room; booking verifies admission tokens with the secret and
    the lifetime they are issued with, and remembers a used one for that
    lifetime; a hold lasts a positive time; the expirer releases the seats of
    dead orders in the inventory booking holds them in, pausing a positive
    time between its rounds; and the gateway, when it answers,
    gives a payment link for every HELD order with a positive total, because
    it accepts booking's callback address. *)
Theorem one_environment `{RedisQueue R} `{UuidLib} `{JwtLib} (url_Parse : string -> option (string * string)) (lookup : string -> option string)
    (ParseFloat : string -> option float64) (cfg : Settings.Config) (gw : Settings.Fakepay)
    (keys : gset UUID -> list UUID) (proc proc' : nat) (clock clock' : World R -> Z) (instance : string)
    (Hpath : reads_callback url_Parse) (Hload : Load url_Parse lookup = Ok cfg) (Hgate : LoadFakepay url_Parse lookup ParseFloat = Ok gw) :
  let g := New (gateway_config gw) in
  exists a, booking_api proc clock g cfg = Ok a /\ InventoryFrame (api_inventory a) /\ Framed (api_orders a) /\
    fc_WebhookSecret g = api_webhookSecret a /\
    api_tokens a = wa_tokens (waiting_api proc' clock' cfg) /\
    match api_admissions a with
    | Some t => wk_tokens (waiting_worker clock' instance cfg) = AdmissionIssuer t clock' /\ svc_admissions (api_orders a) = Some (RedisLedger (at_ttl t)) /\ 0 < at_ttl t
    | None => Settings.RequireAdmission cfg = false /\ svc_admissions (api_orders a) = None
    end /\
    0 < svc_holdTTL (api_orders a) /\ 0 <= svc_holdGrace (api_orders a) /\
    (forall turns, expiry_service cfg turns = Ok (Expirer_Run (svc_inv (api_orders a)) (ExpiryInterval cfg) turns)) /\
    0 < ExpiryInterval cfg /\
    forall o w, faults w = [] -> o_ID o <> uuid_Nil -> 0 < o_TotalVND o -> o_Status o = StatusHeld ->
      exists p, (run (paymentURL url_Parse keys a newCaches o) w).1.1 = paymentPage g p.
Proof.
  intros g. pose proof (load_valid _ _ _ Hload) as Hv. destruct (booking_starts _ _ _ Hload proc clock g) as (a & Ha & Hi & Hfr & _).
  exists a. split; [done|]. split; [done|]. split; [done|]. pose proof (held_linked _ _ _ _ _ Hload Hgate Hpath keys proc clock a) as Hlink.
  assert (0 < HoldTTL cfg /\ 0 <= HoldGrace cfg /\ 0 < AdmissionTTL cfg) as (Ht & Hg & Hadm).
  { destruct (va_HoldTTL _ _ _ Hv) as (_ & [|[_ ?]] & _), (va_HoldGrace _ _ _ Hv) as (_ & ? & _), (va_AdmissionTTL _ _ _ Hv) as (_ & [|[_ ?]] & _);
      try done. lia. }
  assert (0 < ExpiryInterval cfg) as Hexp by (destruct (va_ExpiryInterval _ _ _ Hv) as (_ & [|[_ ?]] & _); done).
  pose proof Ha as Ha2. unfold booking_api in Ha2. destruct (inventory_New _) as [[inv v]|] eqn:Hinv; [|done]. injection Ha2 as <-.
  cbn [api_webhookSecret api_tokens api_admissions api_orders svc_holdTTL svc_holdGrace booking_service]. split; [by eapply same_secret|]. split; [done|].
  split; [unfold booking_admissions; cbn; by destruct (Settings.RequireAdmission cfg)|]. split; [done|]. split; [done|].
  split; [intros turns; unfold expiry_service; by rewrite Hinv|]. split; [done|]. intros o w Hf Hid Htot Hst. by apply Hlink.
Qed.

(** C24. From the queue to an order, as deployed. The waiting room and booking
    load the same environment, with REQUIRE_ADMISSION on; Redis answers and the
    library signs. A round of the worker over an event whose lease it holds
    stores a token for every buyer at the head who had none. Until its lifetime
    is over (counted from when the worker signed it, cut to whole seconds),
    POST /v1/orders with that token is refused, changing nothing, for every
    other user with a valid access token, and for the buyer it runs the order
    handler with the admission of this buyer, event and queue entry. *)
Theorem queue_to_order `{RedisQueue R} `{UuidLib} `{JwtLib} (url_Parse url_Parse' : string -> option (string * string)) (lookup : string -> option string)
    (Decode_order : string -> option CreateRequest) (keys : gset UUID -> list UUID) (cfg : Settings.Config) (a : api R)
    (proc : nat) (clock clock' : World R -> Z) (g : Fakepay.Config) (instance : string) (start e u : Z) (q : UUID) (l : list (option UUID)) (w : World R)
    (Hload : Load url_Parse lookup = Ok cfg) (Hreq : Settings.RequireAdmission cfg = true) (Hms : 1000000 <= AdmissionTTL cfg)
    (Hapi : booking_api proc clock g cfg = Ok a) (Hsign : forall secret c, is_ok (SignedString secret c) = true)
    (Hclock : forall v, start <= clock' v) (Hf : faults w = []) :
  let k := waiting_worker clock' instance cfg in
  let head := take (Z.to_nat (AdmitBatch cfg)) (waiters w e) in
  leasable k w e -> well_formed w e -> ids_ahead (length head) l w ->
  0 < e -> 0 < u -> in_int64 u = true -> owner w e (uuid_String q) = Some (FormatInt u) ->
  uuid_String q ∈ head.*2 -> token_of w q = None ->
  exists token expires, token_of (run (Admit k e) w).2 q = Some token /\ start + AdmissionTTL cfg - Second < expires /\
    forall v c authorization idempotencyKey body u',
      api_clock a v < expires -> RequireUser (api_tokens a) (api_clock a v) authorization = Ok u' ->
      let r := run (postOrders url_Parse' Decode_order keys a c authorization token idempotencyKey body) v in
      (u' <> u -> r = (WriteErr ErrAdmissionRequired, c, v)) /\
      (u' = u -> exists jti,
         r = run (handleCreateOrder url_Parse' Decode_order keys a c u (Some (mkAdmission u e q jti expires)) idempotencyKey body) v).
Proof.
  intros k head Hl Hw Hids He Hu Hu64 Howner Hq Hnew.
  assert (0 < AdmitBatch cfg) as Hbatch by (destruct (va_AdmitBatch _ _ _ (load_valid _ _ _ Hload)) as [_ Hb]; lia).
  set (t := mkAdmissionTokens (AdmissionSecret cfg) (AdmissionTTL cfg)).
  destruct (admitted_gets_in t clock' start k e u q l w) as (token & expires & Ht & Hexp & Hdoor); try done.
  exists token, expires. split; [done|]. split; [done|]. intros v c authorization idempotencyKey body u' Hv Huser r.
  assert (api_admissions a = Some t) as Hadm.
  { unfold booking_api in Hapi. destruct (inventory_New _) as [[inv ve]|]; [|done]. injection Hapi as <-. cbn. unfold booking_admissions. by rewrite Hreq. }
  assert (r = match RequireAdmission t (api_clock a v) u' token with
              | Err e => (WriteErr e, c, v)
              | Ok adm => run (handleCreateOrder url_Parse' Decode_order keys a c u' (Some adm) idempotencyKey body) v
              end) as Hr.
  { subst r. unfold postOrders, authenticated. rewrite run_bind. cbn [read_clock act run fst snd]. rewrite Huser, Hadm, run_bind.
    cbn [read_clock act run fst snd]. by destruct (RequireAdmission _ _ _ _). }
  destruct (Hdoor _ Hv) as [[jti Hok] Hno]. split.
  - intros Hne. by rewrite Hr, (Hno u' Hne).
  - intros ->. exists jti. by rewrite Hr, Hok.
Qed.
