(* ===== verification/Checkout.v ===== *)
(** * From the order to its payment

    The link booking puts in a HELD order's response leads to the gateway's
    page for that order; paying there schedules a webhook; and a webhook that
    was delivered is in booking's books. Booking, the gateway's routes and the
    delivery, configured by one environment, in one statement. *)

From S2P Require Import Prelude GoLib Crypto Money Effects Float Settings.
From S2P Require Import Middleware RedisServer RedisQueue OrderState CatalogEvent World Auth Frame OrderDB.
From S2P Require Import Locker Ledger Inventory InventoryRedis InventoryPG Catalog Payment OrderRequest OrderService OrderPayment OrderRefund OrderTickets OrderBooks.
From S2P Require Import OrderRefine PaymentRefine System Flows PaymentFlow CreateFlow.
From S2P Require Import Http Fakepay Deployed Text Caches Booking Endpoints Router Routes Gate Wiring.
Local Open Scope tr_scope.

Lemma URLParam_single name s : URLParam {[name := s]} name = s.
Proof. unfold URLParam. by rewrite lookup_singleton_eq. Qed.

Section checkout.
Context {R : Type} `{UuidLib} `{MuxFinds} (url_Parse : string -> option (string * string)) (cfg : Fakepay.Config).
Context (Decode_create : string -> option CreatePaymentRequest) (Decode_auto : string -> option (CreatePaymentRequest * string))
  (Decode_complete : string -> option string) (Decode_refund : string -> option RefundRequest) (json_error : string -> string).
Implicit Types w : World R.

Notation serve := (gateway_dispatch url_Parse cfg Decode_create Decode_auto Decode_complete Decode_refund json_error).

(** The path of an order's payment page. *)
Definition pay_path (id : UUID) : string := "/pay/" +:+ uuid_String id.

(** Registering answers the page's address. *)
Lemma CreatePayment_calm req w :
  faults w = [] -> gateway_ok (gateway w) -> validCreate url_Parse cfg req = None ->
  exists p w', CreatePayment url_Parse cfg req w = (Ok (fc_PublicURL cfg +:+ pay_path (cp_OrderID req)), w') /\
    gateway_ok (gateway w') /\ gateway_grows (gateway w) (gateway w') /\ gw_payments (gateway w') !! cp_OrderID req = Some p /\
    (gw_payments (gateway w) !! cp_OrderID req = None -> p = req).
Proof.
  intros Hf Hg Hv. unfold CreatePayment, call. rewrite (pop_fault_nil w Hf). unfold handleCreate. rewrite Hv.
  destruct (register_spec url_Parse cfg req (gateway w) Hg Hv) as (G1 & G2 & G3 & G4 & _ & G5). destruct (register req (gateway w)) as [p g].
  cbn [fst snd] in *. exists p, (set_gateway g w). rewrite <- G3 in G4, G5 |- *. by split_and!.
Qed.

(** The page of a registered order. *)
Lemma page_shown id p w :
  gateway_ok (gateway w) -> gw_payments (gateway w) !! id = Some p ->
  run (serve "GET" (pay_path id) EmptyString) w = ((WriteJSON StatusOK (GHtml (page (uuid_String id) (FormatVND (cp_AmountVND p)))), None), w).
Proof.
  intros Hg Hp. unfold gateway_dispatch, pay_path. rewrite find_page. cbn [gateway_registered Routes lookup list_lookup gateway_handler].
  unfold unscheduled, handlePage. rewrite run_bind, run_act. cbn [fst snd run]. rewrite URLParam_single, uuid_Parse_String. cbn. rewrite Hp. by destruct (go_payments _ Hg _ _ Hp) as (-> & _).
Qed.

(** Paying on the page. *)
Lemma page_pays id p body w :
  gateway_ok (gateway w) -> gw_payments (gateway w) !! id = Some p -> DecodeJSON Decode_complete body = Ok StatusSucceeded ->
  exists txn w', run (serve "POST" (pay_path id +:+ "/complete") body) w =
      ((WriteJSON StatusOK (GTransaction txn), Some (p, mkWebhook txn id (cp_AmountVND p) StatusSucceeded)), w') /\ HasPrefix "fp_" txn = true.
Proof.
  intros Hg Hp Hb. unfold gateway_dispatch, pay_path. rewrite string_app_assoc, find_complete.
  cbn [gateway_registered Routes lookup list_lookup gateway_handler].
  unfold scheduling, handleComplete. rewrite run_bind. rewrite URLParam_single, uuid_Parse_String.
  unfold gateway_decode. rewrite Hb, run_bind, run_act. cbn [fst snd]. rewrite Hp. unfold completed, complete. rewrite run_bind.
  change (negb (bool_decide (StatusSucceeded = StatusSucceeded)) && negb (bool_decide (StatusSucceeded = StatusFailed))) with false. cbv iota.
  rewrite run_bind, run_act. destruct (match rand_Text w with (Ok s, w) => (s, w) | (Err _, w) => (EmptyString, w) end) as [text w1].
  cbn. destruct (go_payments _ Hg _ _ Hp) as (-> & _). do 2 eexists. split; [done|]. apply (HasPrefix_app "fp_").
Qed.
End checkout.

(** The link of a HELD order, and what the gateway remembers then. *)
Lemma link_registered {R} `{RedisQueue R} `{UuidLib} `{JwtLib} (url_Parse : string -> option (string * string)) keys (a : api R) g c o (w : World R) :
  api_payments a = Some g -> faults w = [] -> gateway_ok (gateway w) -> o_Status o = StatusHeld ->
  links_get (ca_links c) (api_clock a w) (o_ID o) = None ->
  validCreate url_Parse g (mkCreatePayment (o_ID o) (o_TotalVND o) (api_callbackURL a)) = None ->
  let r := run (paymentURL url_Parse keys a c o) w in
  exists p, r.1.1 = fc_PublicURL g +:+ pay_path (o_ID o) /\ gateway_ok (gateway r.2) /\ gateway_grows (gateway w) (gateway r.2) /\
    gw_payments (gateway r.2) !! o_ID o = Some p /\
    (gw_payments (gateway w) !! o_ID o = None -> p = mkCreatePayment (o_ID o) (o_TotalVND o) (api_callbackURL a)).
Proof.
  intros Hpay Hf Hg Hst Hc Hv. cbv zeta. unfold paymentURL. rewrite Hpay, Hst. change (negb (bool_decide (StatusHeld = StatusHeld))) with false. cbv iota.
  rewrite run_bind. cbn [read_clock act run fst snd]. rewrite Hc, run_bind, run_act.
  destruct (CreatePayment_calm url_Parse g _ w Hf Hg Hv) as (p & w1 & -> & C1 & C2 & C3 & C4). cbn [fst snd]. rewrite run_bind.
  cbn [read_clock act run fst snd]. by exists p.
Qed.

(** ** Properties *)

(** C10. From the link to the books, as deployed. Booking and the gateway load
    the same environment. For a HELD order with a positive total that the
    gateway does not know yet, booking's response carries, when no call fails,
    the gateway's address with the path of the order's page. From then on,
    whatever else the gateway is asked: that path shows the page with the
    order's id and total; completing the payment there is answered with a
    transaction and schedules the webhook for exactly that order and total, to
    booking's callback address; and if a delivery of that webhook, signed by the
    gateway, stops because it was delivered - posts and answers getting lost,
    booking's calls failing, forced resends - then the payment is recorded in
    booking's tables, with this order and total if it was not there before. *)
Theorem link_to_books `{RedisQueue R} `{UuidLib} `{JwtLib} `{MuxFinds} (url_Parse : string -> option (string * string)) (lookup : string -> option string)
    (ParseFloat : string -> option float64) (Decode_create : string -> option CreatePaymentRequest)
    (Decode_auto : string -> option (CreatePaymentRequest * string)) (Decode_complete : string -> option string)
    (Decode_refund : string -> option RefundRequest) (json_error : string -> string) (Unmarshal_webhook : Bytes -> option Webhook)
    (keys : gset UUID -> list UUID) (cfg : Settings.Config) (gw : Settings.Fakepay) (proc : nat) (clock : World R -> Z) (a : api R) (o : Order) (w : World R)
    (Hpath : reads_callback url_Parse) (Hload : Load url_Parse lookup = Ok cfg) (Hgate : LoadFakepay url_Parse lookup ParseFloat = Ok gw)
    (Ha : booking_api proc clock (New (gateway_config gw)) cfg = Ok a) (Hf : faults w = []) (Hg : gateway_ok (gateway w))
    (Hid : o_ID o <> uuid_Nil) (Htotal : 0 < o_TotalVND o) (Hheld : o_Status o = StatusHeld) (Hnew : gw_payments (gateway w) !! o_ID o = None) :
  let g := New (gateway_config gw) in
  let serve := gateway_dispatch (R := R) url_Parse g Decode_create Decode_auto Decode_complete Decode_refund json_error in
  let r := run (paymentURL url_Parse keys a newCaches o) w in
  let p := mkCreatePayment (o_ID o) (o_TotalVND o) (api_callbackURL a) in
  r.1.1 = fc_PublicURL g +:+ pay_path (o_ID o) /\
  forall w2, gateway_ok (gateway w2) -> gateway_grows (gateway r.2) (gateway w2) ->
    run (serve "GET" (pay_path (o_ID o)) EmptyString) w2 =
      ((WriteJSON StatusOK (GHtml (page (uuid_String (o_ID o)) (FormatVND (o_TotalVND o)))), None), w2) /\
    forall body, DecodeJSON Decode_complete body = Ok StatusSucceeded ->
      exists txn w3, let wh := mkWebhook txn (o_ID o) (o_TotalVND o) StatusSucceeded in
        run (serve "POST" (pay_path (o_ID o) +:+ "/complete") body) w2 = ((WriteJSON StatusOK (GTransaction txn), Some (p, wh)), w3) /\
        forall text post forced awake w4, (String.length txn <= 128)%nat -> (length text <= maxWebhookBytes)%nat -> Unmarshal_webhook text = Some wh ->
          posts_to post (handleWebhook Unmarshal_webhook a text (Sign (fc_WebhookSecret g) text)) -> winv w4 -> is_Some (orders (pg w4) !! o_ID o) ->
          let d := run (sendWithRetry post (Z.to_nat (fc_MaxResends g)) (fc_RetryBase g) forced awake) w4 in
          d.1.2 = DeliveredOK -> exists row, payments (pg d.2) !! txn = Some row /\
            (payments (pg w4) !! txn = None -> exists oc, row = payment_row wh oc).
Proof.
  intros g serve r p. destruct (booking_starts _ _ _ Hload proc clock g) as (a' & Ha' & Hinv & _). assert (a' = a) as -> by (unfold g in *; congruence).
  assert (api_payments a = Some g /\ api_callbackURL a = PublicBaseURL cfg +:+ "/v1/webhooks/fakepay" /\ api_webhookSecret a = WebhookSecret cfg) as (Hpay & Hcb & Hsec).
  { unfold booking_api in Ha. destruct (inventory_New _) as [[inv v]|]; [|done]. by injection Ha as <-. }
  destruct (link_registered url_Parse keys a g newCaches o w Hpay Hf Hg Hheld) as (q & Hu & _ & _ & Hq & Hfirst).
  { unfold links_get, newCaches. cbn [ca_links links newPaymentLinkCache]. by rewrite lookup_empty. }
  { rewrite Hcb. by eapply callback_accepted. }
  fold r in Hu, Hq. rewrite (Hfirst Hnew) in Hq. fold p in Hq. split; [done|]. intros w2 Hok2 Hgrow.
  assert (gw_payments (gateway w2) !! o_ID o = Some p) as Hp2 by by apply Hgrow. split.
  { exact (page_shown url_Parse g Decode_create Decode_auto Decode_complete Decode_refund json_error (o_ID o) p w2 Hok2 Hp2). }
  intros body Hbody. destruct (page_pays url_Parse g Decode_create Decode_auto Decode_complete Decode_refund json_error (o_ID o) p body w2 Hok2 Hp2 Hbody)
    as (txn & w3 & Hrun & Hpre). exists txn, w3. split; [done|]. intros text post forced awake w4 Htxn Hlen Hun Hpost Hw Ho d Hd.
  assert (Validate (mkWebhook txn (o_ID o) (o_TotalVND o) StatusSucceeded) = None) as Hv.
  { unfold Validate. cbn [wh_ProviderTxnID wh_OrderID wh_AmountVND wh_Status]. rewrite (bool_decide_eq_false_2 (txn = _)) by by intros ->.
    destruct (Nat.ltb_spec 128 (String.length txn)); [lia|]. cbn [orb]. rewrite (bool_decide_eq_false_2 (o_ID o = _)) by done.
    rewrite (bool_decide_eq_true_2 (StatusSucceeded = _)) by done. destruct (Z.ltb_spec (o_TotalVND o) 0); [lia|]. by destruct (Z.eqb_spec (o_TotalVND o) 0); [lia|]. }
  destruct (delivery_in_books a Unmarshal_webhook (gateway_config gw) (mkWebhook txn (o_ID o) (o_TotalVND o) StatusSucceeded) text post forced awake w4)
    as (_ & row & Hrow & Hnew4); try assumption.
  { rewrite Hsec. exact (same_secret _ _ _ _ _ Hload Hgate). }
  by exists row.
Qed.
