(* ===== verification/Scenario.v ===== *)
(** * A concrete run

    One process sells two seats of one event out of a fresh world, with the
    Redis backends: an order is held, paid twice, its tickets issued, the
    double payment refunded and the messages published. The witnesses of the
    system's guarantees are read off the worlds it reaches. *)

From S2P Require Import Prelude GoLib Effects History RedisServer OrderState CatalogEvent World Frame OrderDB Inventory InventoryRedis InventoryPG Locker Ledger Catalog Outbox Payment.
From S2P Require Import OrderRequest OrderService OrderPayment OrderRefund OrderTickets OrderBooks PaymentRefine OrderExpiry System Guarantees Flows PaymentFlow CreateFlow Background Consumer Delivery Pipeline Notifier Buyers Loops Expiring.
Import MapRedis DecimalUuid.

(** ** The scenario *)

Definition tables : PG :=
  mkPG ∅ ∅ ∅ ∅ ∅ ∅ {[7 := mkEventRow "Concert" "Hall" 100 0 4]}
    {[(7, "A1") := mkSeatRow "A" "A" 1 500; (7, "A2") := mkSeatRow "A" "A" 2 300]} ∅.

Definition start : World store :=
  mkWorld tables ∅ 1 ∅ 1000 1000 ∅ (mkGateway ∅ ∅ ∅ []) [] ∅ [] [Some 11%N; Some 12%N; Some 13%N; Some 14%N] ["t1"; "t2"] [].

Definition box_office : Service store :=
  mkService store 0 RedisInventory RedisLocker (300 * Second) (60 * Second) (Some (RedisLedger (600 * Second))).

#[global] Instance box_office_framed : Framed box_office.
Proof. split; try apply _. intros l [= <-]. apply _. Qed.

Definition buy : prog (World store) unit := discard (Create box_office 1 5%N (mkCreateRequest 7 ["A2"; "A1"])).
Definition webhook (txn : string) : Webhook := mkWebhook txn 11%N 800 StatusSucceeded.

Definition sale : list (prog (World store) unit) :=
  [buy; discard (ApplyPayment RedisInventory (webhook "txn1")); discard (Issue "secret" 11%N);
   discard (ApplyPayment RedisInventory (webhook "txn2")); discard (Process "txn2"); discard (Relay_RunOnce ∅)].

Lemma sale_handlers : Forall Handler sale.
Proof.
  unfold sale. rewrite !Forall_cons. split_and!; [apply h_Create, _|by apply h_ApplyPayment; [apply _|]|apply h_Issue
    |by apply h_ApplyPayment; [apply _|]|apply h_Process|apply h_Relay|constructor].
Qed.

Lemma start_fresh : fresh start.
Proof. done. Qed.

(** The world where two seats were sold to one order, TICKETED, with a refunded
    double payment and five published messages. *)
Definition sold_out : World store := run_all sale start.

Lemma sold_out_reached : exists l, reaches ([], start) (l, sold_out).
Proof. apply (run_all_reaches Handler environment sale ([], start)), sale_handlers. Qed.

(** The world where the order is held. *)
Definition held : World store := run_all [buy] start.

Lemma held_reached : exists l, reaches ([], start) (l, held).
Proof. apply (run_all_reaches Handler environment [buy] ([], start)). apply Forall_singleton, h_Create, _. Qed.

Abbreviation config := (list (prog (World store) unit) * World store)%type.

(** A handler that starts with the action [f], requested and stepped once. *)
Lemma step_reached l w {X A} (f : World store -> X * World store) (q : X -> prog (World store) A) :
  Handler (discard (pbind (act f) q)) -> reaches ([], start) (l, w) ->
  exists c c' : config, reaches ([], start) c /\ sys_step Handler environment c c' /\ c.2 = w /\ c'.2 = (f w).2.
Proof.
  intros Hh Hr. set (k := fun x => pbind (q x) (fun _ => Ret tt)).
  exists (Act f k :: l, w), (k (f w).1 :: l, (f w).2). split_and!; try done.
  - etrans; [exact Hr|]. by apply rtc_once, step_request.
  - apply (step_act _ _ X f k [] l w).
Qed.

(** The user cancels the held order: CANCELLED, with its message. *)
Definition cancelled : World store := (BeginFunc (Cancel_tx 1 11%N) held).2.

Lemma cancel_step :
  exists c c' : config, reaches ([], start) c /\ sys_step Handler environment c c' /\ c.2 = held /\ c'.2 = cancelled.
Proof.
  destruct held_reached as [l Hl]. eapply step_reached; [|exact Hl].
  pose proof (h_Cancel box_office 1 11%N _) as Hh. unfold Cancel in Hh. exact Hh.
Qed.

(** The relay publishes the message of the held order. *)
Definition published : World store := (BeginFunc (RunOnce_tx ∅) held).2.

Lemma relay_step :
  exists c c' : config, reaches ([], start) c /\ sys_step Handler environment c c' /\ c.2 = held /\ c'.2 = published.
Proof.
  destruct held_reached as [l Hl]. eapply (step_reached l held _ (fun r => Ret r)); [|exact Hl].
  pose proof (h_Relay (R := store) ∅) as Hh. unfold Relay_RunOnce in Hh. exact Hh.
Qed.

(** ** The guarantees at work *)

(** Both seats of the sold-out hall have their one ticket. *)
Lemma no_seat_sold_twice_witness : exists c : config,
  size (tickets (pg c.2)) = 2%nat /\
  forall i j t u, tickets (pg c.2) !! i = Some t -> tickets (pg c.2) !! j = Some u ->
    t_EventID t = t_EventID u -> t_SeatID t = t_SeatID u -> i = j.
Proof.
  destruct sold_out_reached as [l Hl]. exists (l, sold_out). split; [vm_compute; reflexivity|].
  apply (no_seat_sold_twice start (l, sold_out) start_fresh Hl).
Defined.

(** Two payments of 800, one for the order and one refunded. *)
Lemma payments_balance_witness : exists (c : config) r,
  orders (pg c.2) !! 11%N = Some r /\ r_TotalVnd r = 800 /\ sum_amounts (refunds_of (pg c.2) 11%N) = 800 /\
  sum_amounts (paid_in (pg c.2) 11%N) =
    (if is_sold (r_Status r) then r_TotalVnd r else 0) + sum_amounts (refunds_of (pg c.2) 11%N).
Proof.
  destruct sold_out_reached as [l Hl].
  destruct (orders (pg sold_out) !! 11%N) as [r|] eqn:Hr; [|exfalso; vm_compute in Hr; discriminate Hr].
  exists (l, sold_out), r. split; [exact Hr|]. split; [vm_compute in Hr; injection Hr as <-; reflexivity|].
  split; [vm_compute; reflexivity|].
  exact (proj1 (payments_balance start (l, sold_out) start_fresh Hl 11%N r Hr)).
Defined.

Lemma one_order_per_key_witness : exists (c : config) r,
  orders (pg c.2) !! 11%N = Some r /\ r_Status r = StatusHeld /\
  forall j q, orders (pg c.2) !! j = Some q -> r_UserID r = r_UserID q -> r_IdempotencyKey r = r_IdempotencyKey q -> 11%N = j.
Proof.
  destruct held_reached as [l Hl].
  destruct (orders (pg held) !! 11%N) as [r|] eqn:Hr; [|exfalso; vm_compute in Hr; discriminate Hr].
  exists (l, held), r. split; [exact Hr|]. split; [vm_compute in Hr; injection Hr as <-; reflexivity|].
  intros j q Hj Hu Hk. exact (one_order_per_key start (l, held) start_fresh Hl 11%N j r q Hr Hj Hu (or_introl Hk)).
Defined.

Lemma status_changes_announced_witness : exists (c : World store) q,
  orders (pg held) !! 11%N <> Some q /\ orders (pg c) !! 11%N = Some q /\ r_Status q = StatusCancelled /\
  (orders (pg held) !! 11%N = Some q \/
   exists n m, outbox_seq held <= n < outbox_seq c /\ outbox (pg held) !! n = None /\ outbox (pg c) !! n = Some m /\
     ob_EventType m = event_type_of (r_Status q) /\ ob_MsgKey m = uuid_String 11%N /\ ev_OrderID (ob_Payload m) = 11%N /\
     ob_PublishedAt m = None).
Proof.
  destruct (orders (pg cancelled) !! 11%N) as [q|] eqn:Hq; [|exfalso; vm_compute in Hq; discriminate Hq].
  exists cancelled, q. split; [|split; [exact Hq|split]].
  - vm_compute in Hq. injection Hq as <-. vm_compute. intros Hc. discriminate Hc.
  - vm_compute in Hq. injection Hq as <-. reflexivity.
  - destruct cancel_step as (c & c' & Hr & Hs & <- & Hc'). rewrite <- Hc' in *.
    exact (proj2 (status_changes_announced start c c' 11%N q start_fresh Hr Hs Hq)).
Defined.

Lemma outbox_never_lost_witness : exists c : config,
  length (klog c.2) = 5%nat /\
  (forall id m, outbox (pg c.2) !! id = Some m -> is_Some (ob_PublishedAt m) -> record_of (id, m) ∈ klog c.2).
Proof.
  destruct sold_out_reached as [l Hl]. exists (l, sold_out). split; [vm_compute; reflexivity|].
  apply (outbox_never_lost start (l, sold_out) (l, sold_out) start_fresh Hl). reflexivity.
Defined.

(** One record reaches the log: the message of the held order. *)
Lemma log_only_outbox_witness :
  klog held = [] /\ length (klog published) = 1%nat /\
  exists ks, klog published = klog held ++ ks /\
    forall k, k ∈ ks -> exists id m, outbox (pg held) !! id = Some m /\ ob_PublishedAt m = None /\ k = record_of (id, m).
Proof.
  split; [vm_compute; reflexivity|]. split; [vm_compute; reflexivity|].
  destruct relay_step as (c & c' & Hr & Hs & <- & <-). exact (log_only_outbox start c c' start_fresh Hr Hs).
Defined.

(** The double payment of "txn2" is refunded: the gateway pays it back, the
    commit that would mark the row fails, the gateway is restarted, and the
    redelivered request makes it pay the same refund again. *)
Definition paid_twice : World store := run_all (take 4 sale) start.
Definition commit_failed : World store := run_all [discard (Process "txn2")] (set_faults [FOk; FOk; FErr] paid_twice).
Definition restarted : World store := set_gateway (gateway_restart (gateway commit_failed)) commit_failed.
Definition refunded_twice : World store := run_all [discard (Process "txn2")] restarted.

Lemma environment_faults fs (w : World store) : environment w (set_faults fs w).
Proof. unfold environment. split_and!; [done..|by left]. Qed.

Lemma environment_restart (w : World store) : environment w (set_gateway (gateway_restart (gateway w)) w).
Proof. unfold environment. split_and!; [done..|by right]. Qed.

Lemma refunded_twice_reached : exists l, reaches ([], start) (l, refunded_twice).
Proof.
  destruct (run_all_reaches Handler environment (take 4 sale) ([], start)) as [l1 H1]; [apply Forall_take, sale_handlers|].
  assert (forall (v : World store) l, exists l', reaches (l, v) (l', run_all [discard (Process "txn2")] v)) as Hp.
  { intros v l. apply (run_all_reaches Handler environment [discard (Process "txn2")] (l, v)), Forall_singleton, h_Process. }
  destruct (Hp (set_faults [FOk; FOk; FErr] paid_twice) l1) as [l2 H2]. destruct (Hp restarted l2) as [l3 H3]. exists l3.
  etrans; [exact H1|]. etrans; [apply rtc_once, step_env|etrans; [exact H2|etrans; [apply rtc_once, step_env|exact H3]]].
  - apply (environment_faults _ paid_twice).
  - apply (environment_restart commit_failed).
Qed.

Lemma refunds_paid_back_once_witness : exists c : config,
  let q := mkRefundRequest 11%N "txn2" 800 in
  gw_log (gateway c.2) = [RefundUnknown q; Refunded q false; GatewayStarted; RefundUnknown q; Refunded q false] /\
  (forall before between after,
     gw_log (gateway c.2) = before ++ Refunded q false :: between ++ Refunded q false :: after -> GatewayStarted ∈ between) /\
  forall txn f, refunds (pg c.2) !! txn = Some f -> f_Status f = RefundSucceeded ->
    Refunded (mkRefundRequest (f_OrderID f) txn (f_AmountVnd f)) false ∈ gw_log (gateway c.2).
Proof.
  destruct refunded_twice_reached as [l Hl]. exists (l, refunded_twice). cbv zeta. split; [vm_compute; reflexivity|].
  destruct (refunds_paid_back_once start (l, refunded_twice) (l, refunded_twice) start_fresh Hl ltac:(reflexivity)) as (_ & H2 & H3 & _).
  split; [|intros txn f Hf Hst; exact (proj1 (H3 txn f Hf Hst))].
  intros before between after Hlog. exact (H2 _ _ _ _ _ Hlog eq_refl).
Defined.

(** From HELD to CANCELLED, the order keeps the rest. *)
Lemma records_only_evolve_witness : exists r q,
  orders (pg held) !! 11%N = Some r /\ orders (pg cancelled) !! 11%N = Some q /\ same_order r q.
Proof.
  destruct (orders (pg held) !! 11%N) as [r|] eqn:Hq; [|exfalso; vm_compute in Hq; discriminate Hq].
  destruct cancel_step as (c & c' & Hr & Hs & Hc & Hc'). rewrite <- Hc in Hq. rewrite <- Hc'.
  destruct (proj1 (records_only_evolve start c c' start_fresh Hr (rtc_once _ _ Hs)) 11%N r Hq) as (q & Hq' & Hso & _).
  exists r, q. split; [reflexivity|split; [exact Hq'|exact Hso]].
Defined.

(** ** The components at work *)

(** While a token holds a lock, another request tries it in vain. *)
Definition locked_by_me : World store := (run (redis_TryLock "idem:1:5" (30 * Second)) start).2.

Lemma lock_exclusive_witness : exists c : config,
  c.2 = run_all [discard (redis_TryLock "idem:1:5" (30 * Second))] locked_by_me /\
  GET (rds c.2) (redis_now c.2) "idem:1:5" = Some "t1".
Proof.
  destruct (run_all_reaches (other_lock "t1") redis_tick [discard (redis_TryLock "idem:1:5" (30 * Second))] ([], locked_by_me))
    as [l Hl]; [apply Forall_singleton; constructor|]. eexists (l, _). split; [reflexivity|].
  apply (lock_exclusive start locked_by_me "idem:1:5" "t1" (30 * Second)) with (c := (l, _)); [done|vm_compute; reflexivity|exact Hl|vm_compute; reflexivity].
Defined.

(** A token claimed by order 11 is refused to order 12. *)
Definition claimed : World store := (run (redis_Claim (600 * Second) 3%N 11%N) start).2.

Lemma admission_single_use_witness : exists c : config,
  c.2 = run_all [discard (redis_Claim (600 * Second) 3%N 12%N)] claimed /\
  (run (redis_Claim (600 * Second) 3%N 12%N) c.2).1 = Ok false.
Proof.
  destruct (run_all_reaches (other_claim 11%N) redis_tick [discard (redis_Claim (600 * Second) 3%N 12%N)] ([], claimed))
    as [l Hl]; [apply Forall_singleton; by constructor|]. eexists (l, _). split; [reflexivity|].
  apply (admission_single_use (600 * Second) start claimed 3%N 11%N) with (c := (l, _)) (o' := 12%N);
    [done|vm_compute; reflexivity|vm_compute; reflexivity|exact Hl|vm_compute; reflexivity|vm_compute; reflexivity].
Defined.

(** Two seats held by order 11 withstand order 12. *)
Definition seats_held : World store := (run (redis_Hold 7 ["A1"; "A2"] 11%N (300 * Second)) start).2.

Lemma redis_hold_exclusive_witness : exists c : config,
  c.2 = run_all [discard (redis_Hold 7 ["A2"] 12%N (300 * Second))] seats_held /\ redis_owners c.2 7 "A2" = Some (HeldBy 11%N).
Proof.
  destruct (run_all_reaches (other_op 11%N) redis_tick [discard (redis_Hold 7 ["A2"] 12%N (300 * Second))] ([], seats_held))
    as [l Hl]; [apply Forall_singleton; by constructor|]. eexists (l, _). split; [reflexivity|].
  apply (redis_hold_exclusive start seats_held 7 ["A1"; "A2"] 11%N (300 * Second)) with (c := (l, _));
    [vm_compute; reflexivity|exact Hl|vm_compute; reflexivity|set_solver].
Defined.

Lemma pg_inventory_contract_witness :
  (run (pg_Hold 7 ["A1"; "A2"] 11%N (300 * Second)) start).1 = Ok [] /\
  hold_spec (pg_owners start) (pg_owners (run (pg_Hold 7 ["A1"; "A2"] 11%N (300 * Second)) start).2) 7 ["A1"; "A2"] 11%N
    (run (pg_Hold 7 ["A1"; "A2"] 11%N (300 * Second)) start).1.
Proof.
  split; [vm_compute; reflexivity|]. apply (pg_inventory_contract start 7 ["A1"; "A2"] 11%N (300 * Second)); [done| |done].
  repeat constructor; set_solver.
Defined.

Lemma catalog_cache_transparent_witness : exists w',
  run (SaleOpen 0 7) start = (Ok true, w') /\ pg w' = pg start /\ catalog_ok w'.
Proof. apply (catalog_cache_transparent 0 7 start); [done|reflexivity]. Defined.

(** The same seats in another order are the same request. *)
Definition hall : Event := event_of 7 (mkEventRow "Concert" "Hall" 100 0 4) (map (fun s => (s, mkSeatRow "A" "A" 1 500)) ["A1"; "A2"]).

Lemma request_hash_canonical_witness :
  normalize (mkCreateRequest 7 ["A2"; "A1"]) hall = Ok (mkCreateRequest 7 ["A1"; "A2"]) /\
  requestHash (mkCreateRequest 7 ["A1"; "A2"]) = requestHash (mkCreateRequest 7 ["A1"; "A2"]).
Proof.
  split; [vm_compute; reflexivity|].
  apply (request_hash_canonical (mkCreateRequest 7 ["A2"; "A1"]) (mkCreateRequest 7 ["A1"; "A2"]) hall hall);
    [vm_compute; reflexivity|vm_compute; reflexivity|reflexivity|]. cbn [cr_SeatIDs]. constructor.
Defined.

(** ** The operations at work *)

Lemma reached_calm l w : reaches ([], start) (l, w) -> faults w = [] -> calm w /\ books_ok (pg w).
Proof. intros Hr Hf. pose proof (reachable_winv _ _ start_fresh Hr) as Hw. split; [split; [done|apply (wi_below _ Hw)]|apply (wi_books _ Hw)]. Qed.

(** On the way: paid once. *)
Definition paid : World store := run_all (take 2 sale) start.

Lemma take_reached n : exists l, reaches ([], start) (l, run_all (take n sale) start).
Proof. apply (run_all_reaches Handler environment (take n sale) ([], start)), Forall_take, sale_handlers. Qed.

Lemma held_calm : calm held /\ books_ok (pg held).
Proof. destruct held_reached as [l Hl]. apply (reached_calm l held Hl). vm_compute. reflexivity. Qed.
Lemma paid_calm : calm paid /\ books_ok (pg paid).
Proof. destruct (take_reached 2) as [l Hl]. apply (reached_calm l paid Hl). vm_compute. reflexivity. Qed.
Lemma paid_twice_calm : calm paid_twice /\ books_ok (pg paid_twice).
Proof. destruct (take_reached 4) as [l Hl]. apply (reached_calm l paid_twice Hl). vm_compute. reflexivity. Qed.

(** Read a fact off a concrete world. *)
Ltac read_off := vm_compute; reflexivity.

Lemma cancel_order_witness :
  (exists r, orders (pg held) !! 11%N = Some r /\ r_UserID r = 1 /\ r_Status r = StatusHeld) /\
  match orders (pg held) !! 11%N with
  | None => run (Cancel box_office 2 11%N) held = (Err ErrNotFound, held)
  | Some r => if bool_decide (r_UserID r = 2) then True else run (Cancel box_office 2 11%N) held = (Err ErrNotFound, held)
  end.
Proof.
  split; [eexists; split; [read_off|split; reflexivity]|].
  pose proof (cancel_order box_office 2 11%N held (proj1 held_calm) (fun r Hr => ok_id _ (proj2 held_calm) 11%N r Hr)) as Hc.
  cbv zeta in Hc. destruct (orders (pg held) !! 11%N) as [r|]; [|exact Hc]. destruct (bool_decide _); [exact I|exact Hc].
Defined.

Lemma get_hides_orders_witness : faults held = [] /\ (run (Get 2 11%N) held).1 = Err ErrNotFound.
Proof. split; [read_off|]. rewrite (get_hides_orders 2 11%N held ltac:(read_off)). read_off. Defined.

Lemma issue_tickets_once_witness : exists r,
  orders (pg paid) !! 11%N = Some r /\ r_Status r = StatusPaid /\
  run (Issue "secret" 11%N) paid = (Ok StatusTicketed, after_issue "secret" paid 11%N r).
Proof.
  pose proof (issue_tickets_once "secret" 11%N paid (proj1 paid_calm) (proj2 paid_calm)) as Hi. cbv zeta in Hi.
  destruct (orders (pg paid) !! 11%N) as [r|] eqn:Hr; [|exfalso; vm_compute in Hr; discriminate Hr].
  assert (r_Status r = StatusPaid) as Hs by (vm_compute in Hr; injection Hr as <-; reflexivity).
  rewrite bool_decide_eq_true_2 in Hi by exact Hs. exists r. split; [reflexivity|]. split; [exact Hs|exact (proj1 Hi)].
Defined.

Lemma process_completes_refund_witness : exists f,
  refunds (pg paid_twice) !! "txn2" = Some f /\ f_Status f = RefundPending /\ (run (Process "txn2") paid_twice).1 = Ok tt.
Proof.
  pose proof (process_completes_refund "txn2" paid_twice (proj1 paid_twice_calm) (proj2 paid_twice_calm)) as Hp.
  destruct (refunds (pg paid_twice) !! "txn2") as [f|] eqn:Hr; [|exfalso; vm_compute in Hr; discriminate Hr].
  assert (f_Status f = RefundPending) as Hs by (vm_compute in Hr; injection Hr as <-; reflexivity).
  rewrite bool_decide_eq_false_2 in Hp by (rewrite Hs; discriminate). exists f. split; [reflexivity|]. split; [exact Hs|].
  destruct Hp as (r & g & w' & _ & _ & _ & -> & _). reflexivity.
Defined.

Lemma apply_payment_plan_witness :
  (run (ApplyPayment RedisInventory (webhook "txn1")) held).1 = Ok (mkPaymentResult OutcomeApplied EmptyString (Some StatusPaid)).
Proof.
  destruct (orders (pg held) !! 11%N) as [r|] eqn:Hr; [|exfalso; vm_compute in Hr; discriminate Hr].
  set (w0 := put (outbox_seq held) (recorded (webhook "txn1") (pg held)) held).
  assert (exists w3, run (Hold RedisInventory (r_EventID r) (seat_list (pg held) 11%N).*1 11%N latePaymentHoldTTL) w0 = (Ok [], w3) /\
    faults w3 = [] /\ ids w3 = ids held) as (w3 & Hh & Hf & Hi).
  { assert (r_EventID r = 7) as -> by (vm_compute in Hr; injection Hr as <-; reflexivity).
    assert ((run (Hold RedisInventory 7 (seat_list (pg held) 11%N).*1 11%N latePaymentHoldTTL) w0).1 = Ok []) as H1 by read_off.
    assert (faults (run (Hold RedisInventory 7 (seat_list (pg held) 11%N).*1 11%N latePaymentHoldTTL) w0).2 = []) as H2 by read_off.
    assert (ids (run (Hold RedisInventory 7 (seat_list (pg held) 11%N).*1 11%N latePaymentHoldTTL) w0).2 = ids held) as H3 by read_off.
    destruct (run _ w0) as [t w3]. cbn [fst snd] in *. subst t. exists w3. split; [reflexivity|split; assumption]. }
  pose proof (apply_payment_plan RedisInventory (webhook "txn1") r [] held w3 (proj1 held_calm) (proj2 held_calm) eq_refl Hr) as Hp.
  destruct Hp as [Hp _]; [read_off| |exact Hh|exact Hf|exact Hi|].
  - exists [12%N; 13%N], [Some 14%N]. split; [read_off|]. split; [read_off|]. split; [apply (proj1 (bool_decide_eq_true _)); read_off|].
    intros i _. read_off.
  - rewrite Hp. vm_compute in Hr. injection Hr as <-. read_off.
Defined.

Lemma webhook_replay_harmless_witness :
  (run (ApplyPayment RedisInventory (webhook "txn1")) paid_twice).1 =
    Ok (mkPaymentResult OutcomeDuplicate EmptyString (Some StatusTicketed)) /\
  pg (run (ApplyPayment RedisInventory (webhook "txn1")) paid_twice).2 = pg paid_twice.
Proof.
  assert (is_Some (payments (pg paid_twice) !! wh_ProviderTxnID (webhook "txn1"))) as Hs by (eexists; read_off).
  destruct (webhook_replay_harmless RedisInventory (webhook "txn1") paid_twice Hs (proj2 paid_twice_calm)) as [H1 H2].
  split; [|exact H1]. rewrite (H2 ltac:(read_off) ltac:(read_off)). read_off.
Defined.

(** The same request again is answered with the stored order. *)
Lemma create_answers_truth_witness : exists o,
  (run (create box_office 1 5%N (mkCreateRequest 7 ["A1"; "A2"]) None) held).1 = Ok (o, false) /\
  pg (run (create box_office 1 5%N (mkCreateRequest 7 ["A1"; "A2"]) None) held).2 = pg held.
Proof.
  pose proof (create_answers_truth box_office 1 5%N (mkCreateRequest 7 ["A1"; "A2"]) None held (proj2 held_calm)) as Hc.
  cbv zeta in Hc. destruct (run (create box_office 1 5%N (mkCreateRequest 7 ["A1"; "A2"]) None) held) as [ans w'] eqn:Hr.
  assert (exists o, ans = Ok (o, false)) as [o ->].
  { assert (ans = (run (create box_office 1 5%N (mkCreateRequest 7 ["A1"; "A2"]) None) held).1) as -> by (rewrite Hr; reflexivity).
    eexists. read_off. }
  exists o. split; [reflexivity|]. cbn [fst snd] in *. destruct Hc as (ev & norm & _ & _ & Hc). exact Hc.
Defined.

(** The relay publishes the message of the held order. *)
Lemma relay_drains_witness :
  length (backlog (pg held)) = 1%nat /\
  klog (relay_rounds 1 held) = klog held ++ (record_of <$> take (1 * RelayBatchSize) (backlog (pg held))).
Proof.
  split; [read_off|]. assert (faults held = []) as Hf by read_off. revert Hf. generalize held as w. intros w Hf.
  exact (proj1 (relay_drains 1 w Hf)).
Defined.

(** Three turns of its loop pause three times. *)
Lemma relay_keeps_up_witness :
  let r := run (Relay_Start (fun w => 1000 * pg_now w) 1 (replicate 3 (∅, true))) held in
  klog r.2 = klog held ++ (record_of <$> backlog (pg held)) /\ redis_now r.2 = redis_now held + 300.
Proof.
  assert (faults held = [] /\ (size (outbox (pg held)) < 1 * cleanupMaxBatch)%nat /\ length (backlog (pg held)) = 1%nat) as (Hf & Hs & Hl)
    by (split; [read_off|split; [apply Nat.ltb_lt; read_off|read_off]]).
  revert Hf Hs Hl. generalize held as w. intros w Hf Hs Hl.
  destruct (relay_keeps_up (fun w => 1000 * pg_now w) 1 3 w Hf Hs) as (H1 & _ & _ & H4). rewrite Hl in H4. rewrite take_ge in H1 by (rewrite Hl; unfold RelayBatchSize; lia).
  split; [exact H1|exact H4].
Defined.

(** Thirty days later the five messages of the sale are deleted. *)
Definition later (days : Z) (w : World store) : World store :=
  set_clocks (pg_now w + days * 24 * 3600 * 1000000) (redis_now w) w.

Lemma cleanup_deletes_old_witness :
  (run (Cleanup 1) (later 30 sold_out)).1 = (5%nat, None) /\ outbox (pg (run (Cleanup 1) (later 30 sold_out)).2) = ∅.
Proof.
  assert (old_count (pg_now (later 30 sold_out)) (pg (later 30 sold_out)) = 5%nat) as Hc by read_off.
  assert (faults (later 30 sold_out) = []) as Hf by read_off.
  assert (outbox (keep_recent (pg_now (later 30 sold_out)) (pg (later 30 sold_out))) = ∅) as Hk by read_off.
  revert Hc Hf Hk. generalize (later 30 sold_out) as w. intros w Hc Hf Hk.
  destruct (cleanup_deletes_old 1 w) as (_ & _ & _ & _ & Hcalm). destruct (Hcalm Hf) as [Hr _]; [rewrite Hc; unfold cleanupMaxBatch; lia|].
  rewrite Hr, Hc. split; [reflexivity|exact Hk].
Defined.

Lemma later_calm d w : calm w -> calm (later d w).
Proof. done. Qed.
Lemma later_books d w : books_ok (pg w) -> books_ok (pg (later d w)).
Proof. done. Qed.

(** A day later the held order has expired. *)
Lemma expirer_round_witness : exists w',
  run (Expirer_RunOnce RedisInventory) (later 1 held) = (Ok 1%nat, w') /\ status_at (pg w') 11%N = Some StatusExpired.
Proof.
  assert (length (due_orders ExpiryBatchSize (locked (later 1 held)) (pg_now (later 1 held)) (pg (later 1 held))) = 1%nat) as Hl by read_off.
  assert (option_map (fun o => r_Status (set_status StatusExpired 0 o)) (orders (pg (later 1 held)) !! 11%N) = Some StatusExpired) as Ho1 by read_off.
  assert (bool_decide (11%N ∈ (due_orders ExpiryBatchSize (locked (later 1 held)) (pg_now (later 1 held)) (pg (later 1 held))).*1) = true) as Hd by read_off.
  pose proof (later_calm 1 held (proj1 held_calm)) as Hcalm.
  pose proof (ok_id _ (later_books 1 held (proj2 held_calm))) as Hid.
  revert Hl Ho1 Hd Hcalm Hid. generalize (later 1 held) as w. intros w Hl Ho1 Hd Hcalm Hid.
  destruct (expirer_round RedisInventory w _ Hcalm Hid) as (w' & Hr & (Ho & _) & _).
  exists w'. split; [rewrite Hr, Hl; reflexivity|]. unfold status_at. rewrite Ho.
  rewrite decide_True by (apply (proj1 (bool_decide_eq_true _)); exact Hd).
  destruct (orders (pg w) !! 11%N); [reflexivity|discriminate Ho1].
Defined.

(** Its seats go back on sale: Redis would have held them on. *)
Lemma expirer_catches_up_witness :
  owners (inv := RedisInventory) (later 1 held) 7 "A1" = Some (HeldBy 11%N) /\
  let r := run (Expirer_Run RedisInventory (10 * Second) [true]) (later 1 held) in
  status_at (pg r.2) 11%N = Some StatusExpired /\ owners (inv := RedisInventory) r.2 7 "A1" <> Some (HeldBy 11%N).
Proof.
  assert (bool_decide (redis_owners (later 1 held) 7 "A1" = Some (HeldBy 11%N)) = true) as Hheld by read_off.
  split; [exact (proj1 (bool_decide_eq_true _) Hheld)|]. cbv zeta.
  assert (option_map r_EventID (overdue (later 1 held) !! 11%N) = Some 7) as Ho by read_off.
  assert (bool_decide (is_Some (order_seats (pg (later 1 held)) !! (11%N, "A1"))) = true) as Hs by read_off.
  assert (size (overdue (later 1 held)) = 1%nat) as Hsize by read_off.
  pose proof (later_calm 1 held (proj1 held_calm)) as Hcalm.
  pose proof (ok_id _ (later_books 1 held (proj2 held_calm))) as Hid. clear Hheld.
  revert Ho Hs Hsize Hcalm Hid. generalize (later 1 held) as w. intros w Ho Hs Hsize Hcalm Hid.
  destruct (expirer_catches_up RedisInventory (fun _ => True) (10 * Second) 1 w ltac:(unfold Second; lia) Hcalm I Hid) as (_ & _ & Hdone & _);
    [rewrite Hsize; unfold ExpiryBatchSize; lia|].
  destruct (overdue w !! 11%N) as [row|] eqn:Hrow; [|discriminate Ho]. injection Ho as He.
  destruct (Hdone _ _ Hrow) as [Hst' Hfree]. rewrite He in Hfree. unfold status_at. cbn [replicate] in *. rewrite Hst'. split; [reflexivity|].
  apply Hfree. exact (proj1 (bool_decide_eq_true _) Hs).
Defined.

(** ** The consumers at work *)

Definition decoded (r : KRecord) : option OrderEvent := Some (k_Value r).
Definition committed (rs : list KRecord) (w : World store) : res GoErr unit * World store := (Ok tt, w).

#[global] Instance committed_offsets : OffsetCommit committed.
Proof. by split. Qed.

(** Two records were published by the sale up to the payment; one poll. *)
Definition first_poll (w : World store) : list (list KRecord) := [klog (relay_rounds 1 w)].

(** What the topic of the orders has in it, in the order of the log. *)
Definition first_poll_of (s : Subscription store) (w : World store) : list (list KRecord) :=
  [filter (subscribed s) (klog (relay_rounds 1 w))].

Lemma first_poll_all s w : read_all s (first_poll_of s w) (klog (relay_rounds 1 w)).
Proof. unfold read_all, first_poll_of. cbn. by rewrite app_nil_r. Qed.

Lemma paid_orders_get_tickets_witness : exists r q,
  orders (pg paid) !! 11%N = Some r /\ r_Status r = StatusPaid /\
  orders (pg (run (kafka_Run committed 0 (ticket_service decoded "secret") (first_poll_of (ticket_service decoded "secret") paid)) (relay_rounds 1 paid)).2) !! 11%N = Some q /\
  r_Status q = StatusTicketed.
Proof.
  destruct (take_reached 2) as [l Hl]. fold paid in Hl.
  destruct (orders (pg paid) !! 11%N) as [r|] eqn:Hr; [|exfalso; vm_compute in Hr; discriminate Hr].
  assert (r_Status r = StatusPaid) as Hs by (vm_compute in Hr; injection Hr as <-; reflexivity).
  assert (faults paid = []) as Hf by read_off.
  assert (Nat.leb (length (backlog (pg paid))) (1 * RelayBatchSize) = true) as Hn by read_off.
  revert Hl Hr Hf Hn. generalize paid as w. intros w Hl Hr Hf Hn. apply Nat.leb_le in Hn.
  destruct (paid_orders_get_tickets decoded committed (fun _ _ => eq_refl) "secret" start (l, w) 1 0 (first_poll_of _ w) start_fresh Hl Hf Hn
    (first_poll_all _ w) 11%N r Hr Hs) as (q & Hq & _ & Hqs).
  exists r, q. split; [reflexivity|]. split; [exact Hs|]. split; [exact Hq|exact Hqs].
Defined.

Lemma owed_refunds_are_paid_witness : exists f g,
  refunds (pg paid_twice) !! "txn2" = Some f /\ f_Status f = RefundPending /\
  refunds (pg (run (kafka_Run committed 0 (refunder_service decoded) (first_poll_of (refunder_service decoded) paid_twice)) (relay_rounds 1 paid_twice)).2) !! "txn2" = Some g /\
  f_Status g = RefundSucceeded.
Proof.
  destruct (take_reached 4) as [l Hl]. fold paid_twice in Hl.
  destruct (refunds (pg paid_twice) !! "txn2") as [f|] eqn:Hr; [|exfalso; vm_compute in Hr; discriminate Hr].
  assert (f_Status f = RefundPending) as Hs by (vm_compute in Hr; injection Hr as <-; reflexivity).
  assert (faults paid_twice = []) as Hf by read_off.
  assert (Nat.leb (length (backlog (pg paid_twice))) (1 * RelayBatchSize) = true) as Hn by read_off.
  revert Hl Hr Hf Hn. generalize paid_twice as w. intros w Hl Hr Hf Hn. apply Nat.leb_le in Hn.
  destruct (owed_refunds_are_paid decoded committed (fun _ _ => eq_refl) start (l, w) 1 0 (first_poll_of _ w) start_fresh Hl Hf Hn
    (first_poll_all _ w) "txn2" f Hr Hs) as (g & Hg & _ & Hgs & _).
  exists f, g. split; [reflexivity|]. split; [exact Hs|]. split; [exact Hg|exact Hgs].
Defined.

(** The next two calls fail; two waits are enough. *)
Definition shaky (w : World store) : World store := set_faults [FErr; FLost] w.

Lemma shaky_reached l w : reaches ([], start) (l, w) -> reaches ([], start) (l, shaky w).
Proof. intros Hl. etrans; [exact Hl|]. apply rtc_once, step_env, environment_faults. Qed.

Lemma ticket_consumer_live_witness :
  length (first_poll paid) = 1%nat /\ bad (shaky paid) = 2%nat /\
  exists w', run (Consume committed 2 (TicketIssuer_Handler decoded "secret") (first_poll paid)) (shaky paid) = (1%nat, w').
Proof.
  destruct (take_reached 2) as [l Hl]. fold paid in Hl. apply shaky_reached in Hl. split; [reflexivity|]. split; [reflexivity|].
  assert ((bad (shaky paid) <= 2)%nat) as Hb by reflexivity. revert Hl Hb. generalize (shaky paid) as v. intros v Hl Hb.
  generalize paid as w. intros w.
  destruct (ticket_consumer_live decoded committed "secret" start (l, v) 2 (first_poll w) start_fresh Hl Hb) as (w' & Hr & _).
  exists w'. exact Hr.
Defined.

Lemma refund_consumer_live_witness :
  length (first_poll paid_twice) = 1%nat /\ bad (shaky paid_twice) = 2%nat /\
  exists w', run (Consume committed 2 (RefundProcessor_Handler decoded) (first_poll paid_twice)) (shaky paid_twice) = (1%nat, w').
Proof.
  destruct (take_reached 4) as [l Hl]. fold paid_twice in Hl. apply shaky_reached in Hl. split; [reflexivity|]. split; [reflexivity|].
  assert ((bad (shaky paid_twice) <= 2)%nat) as Hb by reflexivity. revert Hl Hb. generalize (shaky paid_twice) as v. intros v Hl Hb.
  generalize paid_twice as w. intros w.
  destruct (refund_consumer_live decoded committed start (l, v) 2 (first_poll w) start_fresh Hl Hb) as (w' & Hr & _).
  exists w'. exact Hr.
Defined.

(** ** A commit whose answer is lost *)

(** Every call succeeds but the COMMIT of the new order, whose answer is lost. *)
Definition lossy : World store := set_faults (replicate 11 FOk ++ [FLost]) start.

(** When the COMMIT of the new order takes effect and its answer is lost,
    Create reports an error and gives the seats back, but the order stays HELD:
    a buyer with a live order whose seats anybody can take. *)
Theorem lost_commit_frees_seats :
  let r := run (Create box_office 1 5%N (mkCreateRequest 7 ["A2"; "A1"])) lossy in
  r.1 = Err (EPg Infra) /\ status_at (pg r.2) 11%N = Some StatusHeld /\
  redis_owners r.2 7 "A1" = None /\ redis_owners r.2 7 "A2" = None.
Proof. split_and!; read_off. Qed.

(** The message of the issued tickets of the sold-out hall reaches the buyer. *)
Lemma buyers_are_told_witness : exists k,
  k ∈ klog sold_out /\ ev_EventType (k_Value k) = TicketIssued /\
  told_about (DedupeKey (k_Value k)) (run (Consume committed 3 (Notifier_Handler decoded Telegram_Send) [klog sold_out]) sold_out).2.
Proof.
  destruct (list_find (fun k => ev_EventType (k_Value k) = TicketIssued) (klog sold_out)) as [[i k]|] eqn:Hf;
    [|exfalso; vm_compute in Hf; discriminate Hf].
  assert (Header k HeaderEventType = TicketIssued /\ ~ marked (DedupeKey (k_Value k)) sold_out) as [Hh Hm].
  { vm_compute in Hf. injection Hf as _ <-. split; [vm_compute; reflexivity|]. apply (bool_decide_eq_false_1 _). vm_compute. reflexivity. }
  apply list_find_Some in Hf as (Hi & Ht & _). apply list_elem_of_lookup_2 in Hi. exists k. split; [exact Hi|]. split; [exact Ht|].
  assert (bad sold_out <= 3)%nat as Hb by (apply Nat.leb_le; vm_compute; reflexivity).
  destruct (buyers_are_told decoded committed 3 [klog sold_out] sold_out Hb) as (_ & _ & Hd & _).
  assert (k ∈ mjoin [klog sold_out]) as Hin by (apply (elem_of_app (klog sold_out) []); left; exact Hi).
  destruct (Hd k (k_Value k) Hin) as [Hx|Hx]; [|destruct (Hm Hx)|exact Hx]. split; [right; rewrite Hh; constructor|].
  split; [reflexivity|rewrite Ht; constructor].
Defined.

(** The order is paid for twice before its tickets are issued. *)
Definition paid_again : World store :=
  run_all [buy; discard (ApplyPayment RedisInventory (webhook "txn1")); discard (ApplyPayment RedisInventory (webhook "txn2"))] start.

Lemma paid_again_reached : exists l, reaches ([], start) (l, paid_again).
Proof.
  apply (run_all_reaches Handler environment _ ([], start)). rewrite !Forall_cons.
  split_and!; [apply h_Create, _|by apply h_ApplyPayment; [apply _|]..|constructor].
Qed.

(** The services go through their topics once, after the double payment. *)
Definition tickets_issued (w : World store) : World store :=
  (run (kafka_Run committed 0 (ticket_service decoded "secret") (first_poll_of (ticket_service decoded "secret") w)) (relay_rounds 1 w)).2.
Definition refunds_paid (w : World store) : World store :=
  (run (kafka_Run committed 0 (refunder_service decoded) (first_poll_of (refunder_service decoded) w)) (tickets_issued w)).2.
Definition buyers_told (w : World store) : World store :=
  (run (kafka_Run committed 0 (notifier_service decoded "token") (first_poll_of (notifier_service decoded "token") w)) (relay_rounds 1 w)).2.

Lemma buyers_hear_witness :
  status_at (pg paid_again) 11%N = Some StatusPaid /\
  let w' := buyers_told (refunds_paid paid_again) in
  (exists q, orders (pg w') !! 11%N = Some q /\ r_Status q = StatusTicketed) /\
  told_about (tickets_notice 11%N) w' /\ told_about (refund_notice 11%N "txn2") w'.
Proof.
  split; [vm_compute; reflexivity|]. cbv zeta.
  destruct paid_again_reached as [l Hl].
  destruct (orders (pg paid_again) !! 11%N) as [r|] eqn:Hr; [|exfalso; vm_compute in Hr; discriminate Hr].
  assert (r_Status r = StatusPaid) as Hs by (vm_compute in Hr; injection Hr as <-; reflexivity).
  destruct (refunds (pg paid_again) !! "txn2") as [f|] eqn:Hrf; [|exfalso; vm_compute in Hrf; discriminate Hrf].
  assert (f_OrderID f = 11%N) as Hid by (vm_compute in Hrf; injection Hrf as <-; reflexivity).
  assert (faults paid_again = []) as Hf by read_off.
  assert (Nat.leb (length (backlog (pg paid_again))) (1 * RelayBatchSize) = true) as Hn by read_off.
  set (w4 := refunds_paid paid_again).
  assert (faults w4 = []) as Hf4 by read_off.
  assert (Nat.leb (length (backlog (pg w4))) (1 * RelayBatchSize) = true) as Hn4 by read_off.
  assert (bool_decide (marked (tickets_notice 11%N) (relay_rounds 1 w4)) = false) as Hm1 by read_off.
  assert (bool_decide (marked (refund_notice 11%N "txn2") (relay_rounds 1 w4)) = false) as Hm2 by read_off.
  assert (w4 = refunds_paid paid_again) as He by reflexivity.
  clearbody w4. revert Hl Hr Hrf Hf Hn He. generalize paid_again as w. intros w Hl Hr Hrf Hf Hn He.
  apply Nat.leb_le in Hn, Hn4. apply bool_decide_eq_false in Hm1, Hm2.
  assert (environment (refunds_paid w) w4) as He'.
  { rewrite He. unfold environment. split_and!; [reflexivity..|left; reflexivity]. }
  destruct (buyers_hear decoded committed (fun _ _ => eq_refl) "secret" "token" start (l, w) w4 1 1 0 0 0 _ _ _ start_fresh Hl Hf ltac:(done) Hn
    (first_poll_all _ w) (first_poll_all _ w) He' Hf4 Hn4 (first_poll_all _ w4)) as [H1 H2].
  destruct (H1 11%N r Hr (or_introl Hs)) as [Hq [Hx|Ht]]; [destruct (Hm1 Hx)|].
  destruct (H2 "txn2" f Hrf) as (_ & _ & Hh). rewrite Hid in Hh. destruct Hh as [Hx|Hh]; [destruct (Hm2 Hx)|].
  split; [exact Hq|]. split; [exact Ht|exact Hh].
Defined.
