(* ===== verification/Lobby.v ===== *)
(** * A concrete waiting room

    Three buyers join the queue of one event and one worker admits them one by
    one; the booking endpoints get an order and a webhook. The witnesses of the
    properties of the waiting room, the tokens, the endpoints and the gateway
    are read off this run. *)

From S2P Require Import Prelude Float Settings.
From S2P Require Import GoLib Crypto Effects History RedisServer RedisQueue OrderState CatalogEvent World Auth Frame OrderDB.
From S2P Require Import Inventory InventoryRedis Locker Ledger Catalog Payment OrderRequest OrderService OrderPayment OrderBooks System PaymentFlow CreateFlow.
From S2P Require Import Queue Worker Waiting Place Admission Http Fakepay Deployed Stream Text Caches Booking Endpoints Router Routes Gate WaitServer Door Loops Pace Wiring Checkout Scenario.
Import MapQueue DecimalUuid Segments.
Local Open Scope tr_scope.

(** ** A JWT library

    A token is the secret and the claims, encoded; no other text is one. *)

Module CodedJwt.
Fixpoint bits (p : positive) : string :=
  match p with xH => EmptyString | xO p => String "0" (bits p) | xI p => String "1" (bits p) end.
Fixpoint unbits (s : string) : positive :=
  match s with
  | EmptyString => xH
  | String c s => if Ascii.eqb c "1" then xI (unbits s) else xO (unbits s)
  end.

Lemma unbits_bits p : unbits (bits p) = p.
Proof. induction p; simpl; congruence. Qed.

Definition to_tuple (c : Claims) := (cl_Subject c, cl_ID c, cl_IssuedAt c, cl_ExpiresAt c, cl_EventID c, cl_QueueID c).
Definition of_tuple (t : string * string * option Z * option Z * Z * string) : Claims :=
  let '(a, b, c, d, e, f) := t in mkClaims a b c d e f.

Definition sign (secret : string) (c : Claims) : res GoErr string := Ok ("jwt." +:+ bits (encode (secret, to_tuple c))).

Definition parse (secret : string) (now : Z) (token : string) : option Claims :=
  match CutPrefix "jwt." token with
  | None => None
  | Some text =>
      match decode (A := string * _) (unbits text) with
      | None => None
      | Some (s, t) =>
          let c := of_tuple t in
          if bool_decide (s = secret) && match cl_ExpiresAt c with Some exp => now <? exp * Second | None => false end
          then Some c else None
      end
  end.

Lemma parse_sign secret now c token exp :
  sign secret c = Ok token -> cl_ExpiresAt c = Some exp -> now < exp * Second -> parse secret now token = Some c.
Proof.
  intros [= <-] He Hn. unfold parse. rewrite CutPrefix_app, unbits_bits, decode_encode. destruct c as [a b i x e q]. simpl in *.
  subst x. rewrite bool_decide_eq_true_2 by done. by destruct (Z.ltb_spec now (exp * Second)); [|lia].
Qed.

#[export] Program Instance coded_jwt : JwtLib := {| SignedString := sign; ParseWithClaims := parse |}.
Next Obligation. intros. by eapply parse_sign. Qed.
Next Obligation. by intros secret c token [= <-]. Qed.
Next Obligation.
  intros secret now now' token c c'. unfold parse. destruct (CutPrefix _ _) as [text|]; [|done]. destruct (decode _) as [[s t]|]; [|done].
  destruct (_ && _); [|done]. destruct (_ && _); congruence.
Qed.
Next Obligation.
  intros secret now token c. unfold parse. destruct (CutPrefix _ _) as [text|]; [|done]. destruct (decode _) as [[s t]|]; [|done].
  destruct (bool_decide _); [|done]. cbn [andb]. destruct (cl_ExpiresAt (of_tuple t)) as [exp|] eqn:He; [|done].
  destruct (Z.ltb_spec now (exp * Second)); [|done]. intros [= <-]. by exists exp.
Qed.
End CodedJwt.
Import CodedJwt.

(** ** Three buyers *)

Definition lobby : World store :=
  mkWorld tables ∅ 1 (∅, (∅, ∅)) 1000 1000 ∅ (mkGateway ∅ ∅ ∅ []) [] ∅ []
    [Some 11%N; Some 12%N; Some 13%N; Some 21%N; Some 22%N; Some 23%N] [] [].

Definition joins : list (prog (World store) unit) := [discard (Join 7 1); discard (Join 7 2); discard (Join 7 3)].
(** The buyers 1, 2 and 3 wait with the entries 11, 12 and 13. *)
Definition lined_up : World store := set_clocks 2000 2000 (run_all joins lobby).

Definition pass : AdmissionTokens := mkAdmissionTokens "secret" (600 * Second).
Definition clerk : Worker store := mkWorker store (AdmissionIssuer pass (fun _ => 5 * Second)) (Ret (Ok [7])) 1 "a".

Lemma clerk_works : Works clerk.
Proof. by apply admission_worker_works. Qed.

(** The first of them is admitted. *)
Definition moved_up : World store := (run (discard (Admit clerk 7)) lined_up).2.

Lemma clerk_request : waiting_room (discard (Admit clerk 7)).
Proof. by apply wr_Admit; [apply _|]. Qed.

Lemma moved_up_reached : exists l, rtc (sys_step waiting_room redis_tick) ([], lined_up) (l, moved_up).
Proof. apply (run_reaches waiting_room redis_tick ([], lined_up)), clerk_request. Qed.

Lemma lined_up_waiters : waiters lined_up 7 = [(1000, "11"); (1000, "12"); (1000, "13")].
Proof. vm_compute. reflexivity. Qed.

(** The entries of a queue, with their users. *)
Lemma formed_by (w : World store) e (l : list (UUID * Z)) :
  (waiters w e).*2 = uuid_String <$> l.*1 ->
  Forall (fun x => owner w e (uuid_String x.1) = Some (FormatInt x.2) /\ in_int64 x.2 = true) l -> well_formed w e.
Proof.
  intros Hw Hl m. rewrite Hw. intros (q & -> & Hq)%list_elem_of_fmap. apply list_elem_of_fmap in Hq as ([q' u] & -> & Hin).
  rewrite Forall_forall in Hl. destruct (Hl _ Hin) as [Ho Hu]. exists q'. split; [done|]. exists (FormatInt u), u.
  by rewrite ParseInt_FormatInt.
Qed.

Lemma lined_up_formed : well_formed lined_up 7.
Proof.
  apply (formed_by lined_up 7 [(11%N, 1); (12%N, 2); (13%N, 3)]); [by rewrite lined_up_waiters|].
  repeat constructor; vm_compute; reflexivity.
Qed.

Lemma lined_up_leasable : leasable clerk lined_up 7.
Proof. intros v Hv. vm_compute in Hv. discriminate Hv. Qed.

(** ** The properties at work *)

(** The third buyer moves from the third to the second place. *)
Lemma nobody_overtakes_witness : exists c : list (prog (World store) unit) * World store,
  zrank "13" (waiters lined_up 7) = Some 2 /\ zrank "13" (waiters c.2 7) = Some 1 /\
  ahead "13" (waiters c.2 7) ⊆ ahead "13" (waiters lined_up 7).
Proof.
  destruct moved_up_reached as [l Hl]. exists (l, moved_up). split; [vm_compute; reflexivity|]. split; [vm_compute; reflexivity|].
  assert ((1000, "13") ∈ waiters lined_up 7) as H1 by (rewrite lined_up_waiters; repeat constructor).
  assert (waiters moved_up 7 = [(1000, "12"); (1000, "13")]) as H2 by (vm_compute; reflexivity).
  apply (nobody_overtakes lined_up 7 1000 "13" H1 ltac:(reflexivity) (l, moved_up) Hl). cbn [snd]. rewrite H2. repeat constructor.
Defined.

(** The first buyer is out of the queue, with a token stored on the way. *)
Lemma place_not_lost_witness : exists past : list (World store),
  ~ queued moved_up 7 (uuid_String 11%N) /\
  (queued moved_up 7 (uuid_String 11%N) /\ owned moved_up 7 (uuid_String 11%N) \/
   exists v, v ∈ moved_up :: past /\ is_Some (token_of v 11%N)).
Proof.
  destruct (run_hist waiting_room redis_tick (discard (Admit clerk 7)) [] lined_up [] clerk_request) as (l & past & Hr).
  exists past. split; [vm_compute; intros Hq; repeat (apply elem_of_cons in Hq as [Hq|Hq]; [discriminate Hq|]); by apply elem_of_nil in Hq|].
  refine (place_not_lost lined_up 7 11%N _ _ _ _ l moved_up past Hr).
  - unfold queued. rewrite lined_up_waiters. constructor.
  - destruct (lined_up_formed (uuid_String 11%N)) as (q & Hq & Ho); [rewrite lined_up_waiters; constructor|exact Ho].
  - apply (bool_decide_eq_false_1 _). vm_compute. reflexivity.
  - constructor.
Defined.

(** Two rounds admit the first two buyers. *)
Lemma admitted_in_turn_witness :
  waiters (run (admit_rounds 2 clerk 7) lined_up).2 7 = [(1000, "13")] /\
  is_Some (token_of (run (admit_rounds 2 clerk 7) lined_up).2 11%N) /\
  is_Some (token_of (run (admit_rounds 2 clerk 7) lined_up).2 12%N).
Proof.
  assert (ids_ahead (length (take (2 * Z.to_nat (wk_batch clerk)) (waiters lined_up 7))) [Some 23%N] lined_up) as Hids.
  { exists [21%N; 22%N]. split; vm_compute; reflexivity. }
  destruct (admitted_in_turn clerk 7 2 [Some 23%N] lined_up clerk_works eq_refl lined_up_leasable lined_up_formed Hids) as (H1 & H2 & _).
  rewrite lined_up_waiters in H1, H2. split; [exact H1|split; apply H2]; cbn; repeat constructor.
Defined.

(** Two sales are open; two buyers wait for the first and one for the second. *)
Definition two_sales : World store :=
  let d := tables in
  let open := mkPG (orders d) (order_seats d) (tickets d) (payments d) (refunds d) (outbox d)
    (<[8 := mkEventRow "Match" "Stadium" 100 0 4]> (db_events d)) (db_seats d) (db_users d) in
  set_clocks 2000 2000 (run_all [discard (Join 7 1); discard (Join 7 2); discard (Join 8 3)] (set_pg open lobby)).

(** An interval after the first tick, which admitted one of each, the last
    buyer's tick comes. *)
Lemma worker_keeps_pace_witness :
  let k := mkWorker store (AdmissionIssuer pass (fun _ => 5 * Second)) OpenEventIDs 1 "a" in
  let v := (run (Worker_Run k (3 * Second) (replicate 1 true)) two_sales).2 in
  redis_now v = 5000 /\ waiters v 7 = [(1000, "12")] /\ waiters v 8 = [] /\ is_Some (token_of (run (Tick k) v).2 12%N).
Proof.
  intros k v.
  assert (ids_ahead (heads (2 * Z.to_nat (wk_batch k)) [7; 8] two_sales) [] two_sales) as Hids.
  { exists [21%N; 22%N; 23%N]. split; vm_compute; reflexivity. }
  assert (Works k) as Hk by (by apply admission_worker_works).
  assert (merge_sort Z.le (map_to_list (db_events (pg two_sales))).*1 = [7; 8]) as Hes by (vm_compute; reflexivity).
  assert (open_sales k [7; 8] two_sales) as Hopen.
  { rewrite <- Hes. apply all_open; [reflexivity|]. intros e row Hrow.
    assert (map_Forall (fun _ r => e_SaleOpensAt r <= 2000) (db_events (pg two_sales))) as Hall by (apply (bool_decide_eq_true_1 _); vm_compute; reflexivity).
    exact (Hall e row Hrow). }
  assert (waiters two_sales 7 = [(1000, "11"); (1000, "12")] /\ waiters two_sales 8 = [(1000, "13")]) as [Hw7 Hw8] by (split; vm_compute; reflexivity).
  assert (queues_ready k [7; 8] two_sales) as Hq.
  { split; [vm_compute; reflexivity|]. intros e He. rewrite !elem_of_cons, elem_of_nil in He.
    destruct He as [->|[->|[]]]; (split; [intros x Hx; vm_compute in Hx; discriminate Hx|]).
    - apply (formed_by two_sales 7 [(11%N, 1); (12%N, 2)]); [by rewrite Hw7|]. repeat constructor; vm_compute; reflexivity.
    - apply (formed_by two_sales 8 [(13%N, 3)]); [by rewrite Hw8|]. repeat constructor; vm_compute; reflexivity. }
  assert (NoDup [7; 8]) as Hd by (rewrite <- Hes; apply open_sales_NoDup).
  destruct (worker_keeps_pace k [7; 8] (3 * Second) 1 [] two_sales Hk Hd Hopen Hq ltac:(reflexivity) Hids) as (H1 & H2 & _).
  fold v in H1, H2. destruct (H2 7) as (Q7 & _ & T7); [constructor|]. destruct (H2 8) as (Q8 & _); [repeat constructor|].
  split; [rewrite H1; reflexivity|]. split; [rewrite Q7, Hw7; reflexivity|]. split; [rewrite Q8, Hw8; reflexivity|].
  apply (T7 12%N 1%nat); [rewrite Hw7; reflexivity|cbn; lia].
Defined.

(** A fourth buyer gets the fourth place. *)
Lemma join_answers_witness :
  (run (Join 7 4) lined_up).1 = Ok (mkEntry 21%N 4).
Proof.
  pose proof (join_answers 7 4 lined_up 21%N [Some 22%N; Some 23%N] eq_refl ltac:(vm_compute; reflexivity) ltac:(vm_compute; reflexivity)) as Hj.
  assert (entry_of lined_up 7 4 = None) as Hn by (vm_compute; reflexivity). rewrite Hn in Hj.
  destruct (run (Join 7 4) lined_up) as [r w']. hnf in Hj. destruct Hj as (p & -> & _ & _ & _ & _ & _ & Hp). cbn [fst].
  rewrite Hp; [rewrite lined_up_waiters; reflexivity|]. intros x. rewrite lined_up_waiters. intros Hx.
  rewrite !elem_of_cons, elem_of_nil in Hx. destruct Hx as [->|[->|[->|[]]]]; (split; [apply (bool_decide_eq_true_1 _); vm_compute; reflexivity|discriminate]).
Defined.

(** The first buyer loses the place to a refused SETNX. *)
Lemma redis_errors_cost_the_place_witness :
  let w' := (run (Admit clerk 7) (set_faults [FOk; FOk; FOk; FErr] lined_up)).2 in
  waiters w' 7 = [(1000, "12"); (1000, "13")] /\ token_of w' 11%N = None /\ (run (Status 7 11%N) w').1 = Err ErrNotQueued.
Proof.
  refine (proj1 (redis_errors_cost_the_place clerk 7 1000 11%N 21%N [Some 22%N; Some 23%N] [(1000, "12"); (1000, "13")] lined_up
    clerk_works _ eq_refl eq_refl lined_up_leasable lined_up_formed lined_up_waiters _)); vm_compute; reflexivity.
Defined.

(** *** The stream

    The second buyer watches while the worker admits two. *)

(** [p] with the [steps] of others before its actions; the pairs of worlds
    the others moved between. *)
Fixpoint weave {W A : Type} (steps : list (W -> W)) (p : prog W A) (w : W) : list (W * W) * (A * W) :=
  match p with
  | Ret x => ([], (x, w))
  | Act f k =>
      let w1 := match steps with [] => w | g :: _ => g w end in
      let '(moves, r) := weave (tail steps) (k (f w1).1) (f w1).2 in
      ((w, w1) :: moves, r)
  end.

Lemma weave_among {W A} (others : W -> W -> Prop) steps (p : prog W A) w :
  Forall (uncurry others) (weave steps p w).1 -> among others p w (weave steps p w).2.1 (weave steps p w).2.2.
Proof.
  revert steps w. induction p as [a|X f k IH]; intros steps w; cbn [weave among]; [done|].
  set (w1 := match steps with [] => w | g :: _ => g w end). specialize (IH (f w1).1 (tail steps) (f w1).2).
  destruct (weave _ _ _) as [moves [r w']]. cbn [fst snd] in *. intros [Hw Hm]%Forall_cons. exists w1. split; [by apply rtc_once|by apply IH].
Qed.

Definition othersb (e : Z) (q : UUID) (tok : string) (w w' : World store) : bool :=
  (redis_now w <=? redis_now w') &&
  forallb (fun x => bool_decide (x ∈ waiters w e) || (redis_now w <=? x.1) && negb (bool_decide (x.2 = uuid_String q))) (waiters w' e) &&
  match token_of w' q with Some t => bool_decide (token_of w q = Some t) || bool_decide (t = tok) | None => true end.

Lemma othersb_sound e q tok w w' : othersb e q tok w w' = true -> others e q (fun t => t = tok) w w'.
Proof.
  unfold othersb. intros [[Hc Hq]%andb_prop Ht]%andb_prop. split.
  - by apply Z.leb_le.
  - intros x Hx. rewrite forallb_forall in Hq. specialize (Hq x (proj1 (list_elem_of_In _ _) Hx)).
    apply orb_prop in Hq as [Hq|[H1 H2]%andb_prop]; [left; by apply bool_decide_eq_true_1 in Hq|right].
    split; [by apply Z.leb_le|]. apply negb_true_iff in H2. by apply bool_decide_eq_false_1 in H2.
  - intros t Hw. rewrite Hw in Ht. apply orb_prop in Ht as [Ht|Ht]; apply bool_decide_eq_true_1 in Ht; auto.
Qed.

Lemma othersb_among {A : Type} (e : Z) (q : UUID) (tok : string) (steps : list (World store -> World store)) (p : prog (World store) A) (w : World store) r a :
  weave steps p w = r -> forallb (uncurry (othersb e q tok)) r.1 = true -> r.2.1 = a ->
  among (others e q (fun t => t = tok)) p w a r.2.2.
Proof.
  intros <- Hb <-. apply weave_among. induction (weave steps p w).1 as [|[u v] l IH]; [done|].
  apply andb_prop in Hb as [Hm Hl]. constructor; [by apply othersb_sound|by apply IH].
Qed.

Definition desk : waitapi store := mkWaitApi _ (mkTokens "users" AccessTokenTTL) (fun _ => Ret (Err EInfra)) 1 (5 * Second) (fun _ => 0).
Definition admit_one (w : World store) : World store := (run (discard (Admit clerk 7)) w).2.
Definition watching : prog (World store) (Reply unit + list StreamEvent) :=
  handleStream desk "7" (uuid_String 12%N) (repeat (mkTurn true true) 5).
Definition watch := weave [id; id; id; admit_one; id; id; admit_one] watching lined_up.
Definition pass_of_12 : string := default EmptyString (token_of watch.2.2 12%N).
Definition told_12 : list StreamEvent := match watch.2.1 with inr evs => evs | inl _ => [] end.

Lemma watch_moves : forallb (uncurry (othersb 7 12%N pass_of_12)) watch.1 = true.
Proof. vm_compute. reflexivity. Qed.

Lemma watch_among : among (others 7 12%N (fun t => t = pass_of_12)) watching lined_up (inr told_12) watch.2.2.
Proof.
  apply (othersb_among 7 12%N pass_of_12 [id; id; id; admit_one; id; id; admit_one] watching lined_up watch (inr told_12) eq_refl watch_moves).
  vm_compute. reflexivity.
Qed.

(** They are told position 2, position 1, and then get the token. *)
Lemma stream_tells_witness : exists exp,
  told_12 = [PositionEvent 2 (Some 10); PositionEvent 1 (Some 5); AdmittedEvent pass_of_12 exp] /\
  honest 7 12%N (fun t => t = pass_of_12) lined_up told_12.
Proof.
  eexists. split; [vm_compute; reflexivity|].
  refine (stream_tells desk 7 12%N (fun t => t = pass_of_12) lined_up 1000 "7" (uuid_String 12%N) (repeat (mkTurn true true) 5) watch.2.2 told_12
    eq_refl eq_refl _ eq_refl _ _ _).
  - rewrite lined_up_waiters. repeat constructor.
  - intros t ->. vm_compute. discriminate.
  - intros t Ht. vm_compute in Ht. discriminate Ht.
  - exact watch_among.
Defined.

(** *** Tokens *)

Definition issued_pass : res GoErr (string * Admission) := (AdmissionTokens_Issue pass (5 * Second) 1 7 11%N start).1.

Lemma admission_token_roundtrip_witness : exists token a,
  issued_pass = Ok (token, a) /\ AdmissionTokens_Verify pass (6 * Second) token = Ok a /\
  AdmissionTokens_Verify pass (700 * Second) token = Err ErrInvalidAdmission.
Proof.
  destruct (AdmissionTokens_Issue pass (5 * Second) 1 7 11%N start) as [[[token a]|e] w'] eqn:Hi;
    [|exfalso; vm_compute in Hi; discriminate Hi].
  destruct (admission_token_roundtrip pass (5 * Second) 1 7 11%N start w' token a eq_refl eq_refl eq_refl Hi) as ((_ & _ & _ & Hexp) & Hv & Hx & _).
  exists token, a. unfold issued_pass. rewrite Hi. split; [reflexivity|]. cbn [at_ttl pass] in Hexp. unfold Second in *.
  split; [apply Hv; lia|apply Hx; lia].
Defined.

(** The first buyer's token opens the door to them. *)
Lemma admitted_buyer_gets_in_witness : exists token expires,
  token_of (run (Admit clerk 7) lined_up).2 11%N = Some token /\ 604 * Second < expires /\
  exists jti, RequireAdmission pass (600 * Second) 1 token = Ok (mkAdmission 1 7 11%N jti expires).
Proof.
  assert (ids_ahead (length (take (Z.to_nat (wk_batch clerk)) (waiters lined_up 7))) [Some 22%N; Some 23%N] lined_up) as Hids.
  { exists [21%N]. split; vm_compute; reflexivity. }
  destruct (admitted_buyer_gets_in pass (fun _ => 5 * Second) (5 * Second) clerk 7 1 11%N [Some 22%N; Some 23%N] lined_up)
    as (token & expires & H1 & H2 & H3); [reflexivity|done|reflexivity|reflexivity|reflexivity|reflexivity|apply lined_up_leasable
    |apply lined_up_formed|exact Hids|reflexivity|reflexivity|reflexivity|vm_compute; reflexivity
    |rewrite lined_up_waiters; constructor|vm_compute; reflexivity|].
  exists token, expires. split; [exact H1|]. split; [exact H2|]. apply H3. cbn [at_ttl pass] in H2. unfold Second in *. lia.
Defined.

(** *** The booking endpoints *)

Definition counter : api MapRedis.store :=
  mkApi _ (mkTokens "users" AccessTokenTTL) box_office RedisInventory None None "shared" "http://booking" false (Some pass) (fun _ => 6 * Second).
Definition bearer : string := match Tokens_Issue (mkTokens "users" AccessTokenTTL) (5 * Second) 1 with Ok t => "Bearer " +:+ t | Err _ => EmptyString end.
Definition ticket_in : string := match issued_pass with Ok (t, _) => t | Err _ => EmptyString end.

Definition order_in : prog (World MapRedis.store) (Reply orderResponse * caches) :=
  postOrders (fun _ => None) (fun _ => Some (mkCreateRequest 7 ["A2"; "A1"])) elements counter newCaches bearer ticket_in "5" "{}".

Lemma start_ok : winv start.
Proof. apply fresh_winv, start_fresh. Qed.

Definition is_json {A} (r : Reply A) : bool := match r with WriteJSON _ _ => true | WriteError _ _ _ => false end.

(** User 1 gets a new order for both seats. *)
Lemma orders_endpoint_witness : exists key req,
  reply_status (run order_in start).1.1 = StatusCreated /\
  order_answer 1 key req (pg start) (pg (run order_in start).2) (run order_in start).1.1.
Proof.
  pose proof (orders_endpoint (fun _ => None) (fun _ => Some (mkCreateRequest 7 ["A2"; "A1"])) elements counter newCaches bearer ticket_in
    "5" "{}" start (wi_books _ start_ok)) as Ho. cbv zeta in Ho. change (postOrders _ _ _ _ _ _ _ _ _) with order_in in Ho.
  assert (RequireUser (api_tokens counter) (api_clock counter start) bearer = Ok 1) as Hu by (vm_compute; reflexivity).
  assert (reply_status (run order_in start).1.1 = StatusCreated /\ is_json (run order_in start).1.1 = true) as [Hs Hj]
    by (split; vm_compute; reflexivity).
  destruct (run order_in start) as [[[status v|r status b] c'] w']; [|discriminate Hj]. cbn [fst snd] in *.
  destruct Ho as (userID & key & req & H1 & _ & _ & _ & H2). rewrite Hu in H1. injection H1 as <-.
  exists key, req. split; [exact Hs|exact H2].
Defined.

(** The payment of the held order. *)
Definition wire : Bytes := bytes_of "txn1".
Definition decode_wire (b : Bytes) : option Webhook := if bool_decide (b = wire) then Some (webhook "txn1") else None.
Definition shop : Config := mkConfig "shared" "http://pay" Second (5 * Second) (60 * Second) 0 0 EmptyString.
Definition endpoint : prog (World MapRedis.store) (Reply Outcome) :=
  handleWebhook decode_wire counter wire (Sign (fc_WebhookSecret shop) wire).

Lemma reached_winv w l : reaches ([], start) (l, w) -> winv w.
Proof. intros Hl. exact (reachable_winv start (l, w) start_fresh Hl). Qed.
Lemma held_winv : winv held.
Proof. destruct held_reached as [l Hl]. exact (reached_winv held l Hl). Qed.

Lemma webhook_endpoint_witness : exists p,
  Validate p = None /\ payments (pg (run endpoint held).2) !! wh_ProviderTxnID p = Some (payment_row p OutcomeApplied).
Proof.
  unfold endpoint. pose proof (webhook_endpoint decode_wire counter wire (Sign (fc_WebhookSecret shop) wire) held (wi_books _ held_winv)) as Ho.
  cbv zeta in Ho. apply proj1 in Ho.
  assert ((run (handleWebhook decode_wire counter wire (Sign (fc_WebhookSecret shop) wire)) held).1 = WriteJSON StatusOK OutcomeApplied) as Hr
    by (vm_compute; reflexivity).
  revert Ho Hr. generalize (run (handleWebhook decode_wire counter wire (Sign (fc_WebhookSecret shop) wire)) held). intros r Ho Hr. rewrite Hr in Ho.
  destruct Ho as (_ & _ & _ & p & (_ & Hv) & [(_ & Hx & _)|[(_ & Hx & _)|(_ & _ & Hp)]]); [discriminate Hx|discriminate Hx|].
  exists p. split; [exact Hv|exact Hp].
Defined.

(** *** The router *)

Definition login : string -> option Z := fun _ => Some 5.
Definition picture (qr : string) : res GoErr Bytes := Ok (bytes_of qr).
Definition gate (rq : Request) :=
  newRouter (fun _ => None) picture (fun _ => Some (mkCreateRequest 7 ["A2"; "A1"])) login decode_wire (fun _ => Ok []) Ok elements (fun _ => StatusOK) counter []
    "gen" newCaches rq.
Definition ask (method path auth : string) : Request := mkRequest method path auth EmptyString EmptyString EmptyString EmptyString EmptyString "req-1" "{}".

Definition answered (method path auth : string) := (run (gate (ask method path auth)) held).1.1.1.
Example not_found : answered "GET" "/v2" "" = ("req-1", Middleware.mkServed [NotFound] None).
Proof. vm_compute. reflexivity. Qed.
Example not_in_dev : answered "POST" "/v1/auth/dev-login" "" = ("req-1", Middleware.mkServed [NotFound] None).
Proof. vm_compute. reflexivity. Qed.
Example wrong_method : answered "DELETE" "/v1/orders" bearer = ("req-1", Middleware.mkServed [MethodNotAllowed] None).
Proof. vm_compute. reflexivity. Qed.

(** User 1 looks at the tickets of the order that was sold: both are shown, as
    stored, with the pictures of their payloads. *)
Lemma sold_out_winv : winv sold_out.
Proof. destruct sold_out_reached as [l Hl]. exact (reached_winv sold_out l Hl). Qed.

Lemma router_guards_witness : exists l,
  Middleware.sv_writes (run (gate (ask "GET" "/v1/orders/11/tickets" bearer)) sold_out).1.1.1.2 = [WriteJSON StatusOK (PTickets 11%N l)] /\
  length l = 2%nat /\ (exists o, owns (pg (run (gate (ask "GET" "/v1/orders/11/tickets" bearer)) sold_out).2) 1 o /\ o_ID o = 11%N) /\
  shown (pg (run (gate (ask "GET" "/v1/orders/11/tickets" bearer)) sold_out).2) 11%N l /\ pictured picture true l.
Proof.
  destruct (router_guards (fun _ => None) picture (fun _ => Some (mkCreateRequest 7 ["A2"; "A1"])) login decode_wire (fun _ => Ok []) Ok elements
    (fun _ => StatusOK) counter [] "gen" newCaches (ask "GET" "/v1/orders/11/tickets" bearer) sold_out (List.Forall_nil _)) as (reply & line & Hr & _ & _ & Hp & _).
  - intros v id Hv. discriminate Hv.
  - exact (wi_books _ sold_out_winv).
  - change (newRouter _ _ _ _ _ _ _ _ _ _ _ _ _ _) with (gate (ask "GET" "/v1/orders/11/tickets" bearer)) in *.
    assert (exists l, Middleware.sv_writes (run (gate (ask "GET" "/v1/orders/11/tickets" bearer)) sold_out).1.1.1.2 = [WriteJSON StatusOK (PTickets 11%N l)] /\
      length l = 2%nat) as (l & Hw & Hlen) by (eexists; split; [vm_compute; reflexivity|reflexivity]).
    assert (user_of counter (ask "GET" "/v1/orders/11/tickets" bearer) sold_out = Ok 1) as Hu by (vm_compute; reflexivity).
    rewrite Hu in Hp. clear Hu. revert Hr Hp Hw. generalize (run (gate (ask "GET" "/v1/orders/11/tickets" bearer)) sold_out). intros r Hr Hp Hw.
    exists l. rewrite Hr in Hw. cbn [fst snd Middleware.sv_writes] in Hw. injection Hw as ->.
    destruct Hp as (userID & o & Hid & Ho & Heq & Hsh & Hpic). injection Hid as <-.
    split; [rewrite Hr; reflexivity|]. split; [exact Hlen|]. split; [exists o; split; [exact Ho|exact Heq]|]. split; [exact Hsh|].
    apply Hpic. intros id png Hg. discriminate Hg.
Defined.

(** *** Deliveries *)

(** The first post is counted as failed, the second is answered DUPLICATE. *)
Definition way : prog (World MapRedis.store) (res GoErr Z) := let! r := endpoint in Ret (Ok (reply_status r)).

Lemma way_posts : posts_to way (handleWebhook decode_wire counter wire (Sign (fc_WebhookSecret shop) wire)).
Proof. intros w. left. unfold way, endpoint. rewrite run_bind. reflexivity. Qed.

Lemma delivery_recorded_witness : exists row oc,
  payments (pg (run (sendWithRetry way 8 Second [true; false] []) held).2) !! "txn1" = Some row /\ row = payment_row (webhook "txn1") oc.
Proof.
  destruct (delivery_recorded counter decode_wire shop (webhook "txn1") wire way [true; false] [] held) as (_ & row & Hrow & Hp);
    [reflexivity|apply Nat.leb_le; vm_compute; reflexivity|vm_compute; reflexivity|vm_compute; reflexivity|exact way_posts|exact held_winv
    |vm_compute; eauto|vm_compute; reflexivity|].
  destruct Hp as [oc ->]; [vm_compute; reflexivity|]. exists (payment_row (webhook "txn1") oc), oc. split; [exact Hrow|reflexivity].
Defined.

(** Booking never answers: nine posts. *)
Lemma delivery_bounds_witness :
  let r := run (sendWithRetry (Ret (Err EInfra)) 8 Second [] []) start in
  1 <= Z.of_nat r.1.1 <= 9 /\ 1000000 * (redis_now r.2 - redis_now start) <= Second * (2 ^ 8 - 1).
Proof.
  destruct (delivery_bounds shop (mkDraws Second true (Some 2) true) (Ret (Err EInfra)) [] [] start) as (_ & _ & H1 & _ & H2);
    [unfold shop, Second; simpl; lia|unfold shop, Second; simpl; lia|unfold shop, Second, int64_max; simpl; lia|unfold shop, Second; simpl; lia|intros n [= <-]; lia|done|reflexivity|].
  split; [exact H1|exact H2].
Defined.

(** *** One environment *)

Definition stack : string -> option string :=
  Settings.environment [("DATABASE_URL", "postgres://db"); ("JWT_SECRET", secret_a); ("ADMISSION_SECRET", secret_b); ("WEBHOOK_SECRET", secret_c);
    ("TICKET_SECRET", secret_d); ("ADMISSION_TTL", "10m"); ("ADMIT_BATCH", "1")].

Lemma one_environment_witness : exists cfg gw a,
  Load host_url stack = Ok cfg /\ LoadFakepay host_url stack (fun _ => None) = Ok gw /\
  booking_api 0 (fun _ : World MapQueue.store => 6 * Second) (New (gateway_config gw)) cfg = Ok a /\
  fc_WebhookSecret (New (gateway_config gw)) = api_webhookSecret a.
Proof.
  destruct (Load host_url stack) as [cfg|] eqn:Hload; [|vm_compute in Hload; discriminate Hload].
  destruct (LoadFakepay host_url stack (fun _ => None)) as [gw|] eqn:Hgate; [|vm_compute in Hgate; discriminate Hgate].
  destruct (one_environment (R := MapQueue.store) host_url stack (fun _ => None) cfg gw elements 0 1 (fun _ : World MapQueue.store => 6 * Second)
    (fun _ : World MapQueue.store => 5 * Second) "a" host_url_callback Hload Hgate) as (a & Ha & _ & _ & Hs & _).
  exists cfg, gw, a. split; [reflexivity|]. split; [reflexivity|]. split; [exact Ha|exact Hs].
Defined.

(** The first buyer is admitted and orders; anybody else with their token is
    turned away. *)
Lemma queue_to_order_witness : exists cfg a token expires,
  Load host_url stack = Ok cfg /\ booking_api 0 (fun _ : World MapQueue.store => 6 * Second) shop cfg = Ok a /\
  token_of (run (Admit (waiting_worker (fun _ => 5 * Second) "a" cfg) 7) lined_up).2 11%N = Some token /\ 604 * Second < expires /\
  forall v c auth key body, RequireUser (api_tokens a) (api_clock a v) auth = Ok 2 ->
    run (postOrders (fun _ => None) (fun _ => None) elements a c auth token key body) v = (WriteErr ErrAdmissionRequired, c, v).
Proof.
  destruct (Load host_url stack) as [cfg|] eqn:Hload; [|vm_compute in Hload; discriminate Hload].
  destruct (booking_api 0 (fun _ : World MapQueue.store => 6 * Second) shop cfg) as [a|] eqn:Hapi;
    [|destruct (booking_starts (R := MapQueue.store) host_url stack cfg Hload 0 (fun _ : World MapQueue.store => 6 * Second) shop) as (a & Ha & _); congruence].
  assert (AdmitBatch cfg = 1 /\ AdmissionTTL cfg = 600 * Second /\ Settings.RequireAdmission cfg = true) as (Hbatch & Httl & Hreq)
    by (pose proof Hload as Hl; vm_compute in Hl; injection Hl as <-; split; [|split]; reflexivity).
  assert (ids_ahead (length (take (Z.to_nat (AdmitBatch cfg)) (waiters lined_up 7))) [Some 22%N; Some 23%N] lined_up) as Hids.
  { rewrite Hbatch. exists [21%N]. split; vm_compute; reflexivity. }
  destruct (queue_to_order (R := MapQueue.store) host_url (fun _ => None) stack (fun _ => None) elements cfg a 0 (fun _ => 6 * Second) (fun _ => 5 * Second) shop "a"
    (5 * Second) 7 1 11%N [Some 22%N; Some 23%N] lined_up Hload Hreq) as (token & expires & H1 & H2 & H3);
    [rewrite Httl; vm_compute; discriminate|exact Hapi|reflexivity|reflexivity|reflexivity|exact lined_up_leasable|exact lined_up_formed|exact Hids
    |reflexivity|reflexivity|reflexivity|vm_compute; reflexivity|rewrite Hbatch, lined_up_waiters; constructor|vm_compute; reflexivity|].
  exists cfg, a, token, expires. split; [reflexivity|]. split; [exact Hapi|]. split; [exact H1|]. rewrite Httl in H2. unfold Second in *. split; [lia|].
  intros v c auth key body Hu. apply (H3 v c auth key body 2); [|exact Hu|discriminate].
  assert (api_clock a v = 6000000000) as ->; [|lia].
  unfold booking_api in Hapi. destruct (inventory_New _) as [[inv ve]|]; [|discriminate Hapi]. injection Hapi as <-. reflexivity.
Defined.

(** *** Caches *)

Lemma caches_bounded_witness :
  let c := mkLinks 1 {[1%N := mkLink "a" 10]} in
  (size (links (links_put c 5 [1%N] 2%N "b" 20)) <= 1)%nat /\ links_get (links_put c 5 [1%N] 2%N "b" 20) 15 2%N = Some "b".
Proof.
  destruct (caches_bounded (mkLinks 1 {[1%N := mkLink "a" 10]}) (mkQRs 1 ∅) 5 20 [1%N] 2%N "b" []) as (H1 & _ & H2 & _).
  - cbn. lia.
  - reflexivity.
  - intros i [l Hl]. cbn [links] in Hl. apply lookup_singleton_Some in Hl as [<- _]. constructor.
  - cbn. lia.
  - intros i [l Hl]. discriminate Hl.
  - split; [exact H1|]. exact (H2 15).
Defined.

Lemma seat_map_fresh_witness :
  let load (_ : Z) : prog (World MapRedis.store) (res GoErr renderedSeatMap) := Ret (Ok (mkRendered [] "v1")) in
  let clock (w : World MapRedis.store) := 1000000 * redis_now w in
  let '(r, entries, w') := run (seatMaps_get (fun b => Ok b) clock seatMapTTL load ∅ 7) start in
  exists e, r = Ok e /\ clock start < sme_expires e <= clock w' + seatMapTTL.
Proof.
  intros load clock.
  pose proof (seat_map_fresh (fun b => Ok b) clock seatMapTTL load ∅ 7 start (fun _ _ => Z.le_refl _) eq_refl) as Hs.
  specialize (Hs ltac:(intros id e He; discriminate He)).
  destruct (run _ start) as [[r es] w'] eqn:Hr. destruct Hs as [_ Hs].
  assert (r = Ok (mkSeatMapEntry [] [] "v1" 1500000000)) as -> by (vm_compute in Hr; injection Hr as <- _ _; reflexivity).
  eexists. split; [reflexivity|]. apply (proj1 (Hs _ eq_refl)).
Defined.

(** *** The gateway's page

    A JSON library: requests are encoded numbers, a text is its own encoding. *)

Definition create_text (req : CreatePaymentRequest) : option string :=
  Some (CodedJwt.bits (encode (cp_OrderID req, cp_AmountVND req, cp_CallbackURL req))).
Definition text_create (s : string) : option CreatePaymentRequest :=
  match decode (CodedJwt.unbits s) with Some (id, amount, url) => Some (mkCreatePayment id amount url) | None => None end.
Definition refund_text (req : RefundRequest) : option string :=
  Some (CodedJwt.bits (encode (rq_OrderID req, rq_ProviderTxnID req, rq_AmountVND req))).
Definition text_refund (s : string) : option RefundRequest :=
  match decode (CodedJwt.unbits s) with Some (id, txn, amount) => Some (mkRefundRequest id txn amount) | None => None end.
Definition answer_text (r : Reply GatewayPayload) : string :=
  match r with WriteJSON _ (GPaymentURL s) | WriteJSON _ (GTransaction s) | WriteJSON _ (GRefund s) => s | _ => EmptyString end.

Definition bill : CreatePaymentRequest := mkCreatePayment 11%N 800 "http://booking/v1/webhooks/fakepay".
Definition money_back : RefundRequest := mkRefundRequest 11%N "fp_1" 800.

Lemma lobby_gateway : gateway_ok (gateway lobby).
Proof. split; intros ? ? Hl; discriminate Hl. Qed.

(** The client gets the page's address; the answer to a refund is lost. *)
Lemma payment_client_calls_witness :
  let Do := gateway_Do host_url shop text_create (fun _ => None) (fun _ => None) text_refund (fun s => s) answer_text "http://pay" in
  (Client_CreatePayment Do "http://pay" create_text Some bill lobby).1 = Ok "http://pay/pay/11" /\
  (Client_Refund Do "http://pay" refund_text Some money_back (set_faults [FLost] lobby)).1 = Err EInfra.
Proof.
  assert (sends create_text text_create bill) as H1 by (eexists; split; [reflexivity|vm_compute; reflexivity]).
  assert (sends refund_text text_refund money_back) as H2 by (eexists; split; [reflexivity|vm_compute; reflexivity]).
  assert (reads_back answer_text Some GPaymentURL (paymentPage shop 11%N)) as H3 by (vm_compute; reflexivity).
  assert (reads_back answer_text Some GRefund StatusSucceeded) as H4 by (vm_compute; reflexivity).
  split.
  - rewrite (proj1 (payment_client_calls host_url shop text_create (fun _ => None) (fun _ => None) text_refund (fun s => s) answer_text
      create_text Some refund_text Some "http://pay" bill money_back lobby lobby_gateway H1 H3 H2 H4)). vm_compute. reflexivity.
  - rewrite (proj2 (payment_client_calls host_url shop text_create (fun _ => None) (fun _ => None) text_refund (fun s => s) answer_text
      create_text Some refund_text Some "http://pay" bill money_back (set_faults [FLost] lobby) lobby_gateway H1 H3 H2 H4)). vm_compute. reflexivity.
Defined.

(** The development's load test registers and pays in one request. *)
Definition auto_request : Request :=
  mkRequest "POST" "/v1/payments/auto" EmptyString EmptyString EmptyString EmptyString EmptyString EmptyString "req-1" "auto".
Definition cashier (rq : Request) : prog (World MapQueue.store) _ :=
  gateway_router host_url shop text_create (fun _ => Some (bill, EmptyString)) (fun _ => None) text_refund (fun s => s) "gen" rq.

Lemma gateway_serves_witness : exists wh,
  (run (cashier auto_request) lobby).1.2 = Some (bill, wh) /\ wh_AmountVND wh = 800 /\ Validate wh = None /\
  pg (run (cashier auto_request) lobby).2 = pg lobby.
Proof.
  destruct (gateway_serves host_url shop text_create (fun _ => Some (bill, EmptyString)) (fun _ => None) text_refund (fun s => s) "gen" auto_request lobby lobby_gateway)
    as (reply & line & scheduled & Hr & Hw & _ & _ & _ & Hs).
  change (gateway_router _ _ _ _ _ _ _ _ _) with (cashier auto_request) in *.
  exists (mkWebhook "fp_" 11%N 800 StatusSucceeded).
  assert ((run (cashier auto_request) lobby).1.2 = Some (bill, mkWebhook "fp_" 11%N 800 StatusSucceeded)) as Hsch by (vm_compute; reflexivity).
  assert (scheduled = Some (bill, mkWebhook "fp_" 11%N 800 StatusSucceeded)) as Hsch2 by (rewrite Hr in Hsch; exact Hsch).
  destruct (Hs _ _ Hsch2) as (_ & _ & Ha & _ & Hv). split; [exact Hsch|]. split; [exact Ha|]. split; [apply Hv; [discriminate|vm_compute; lia]|].
  rewrite Hw. reflexivity.
Defined.

(** A buyer follows the link of a held order and pays. *)
Definition reserved : Order := mkOrder 11%N 7 1 StatusHeld 800 0 0 0 [("A1", 500); ("A2", 300)].

Lemma link_to_books_witness : exists cfg gw a,
  let g := New (gateway_config gw) in
  let serve := gateway_dispatch (R := MapQueue.store) host_url g text_create (fun _ => None) (fun s => Some s) text_refund (fun s => s) in
  let r := run (paymentURL host_url elements a newCaches reserved) lobby in
  Load host_url stack = Ok cfg /\ r.1.1 = fc_PublicURL g +:+ "/pay/11" /\
  (run (serve "GET" "/pay/11" EmptyString) r.2).1.1 = WriteJSON StatusOK (GHtml (page "11" "800")) /\
  exists txn p, (run (serve "POST" "/pay/11/complete" StatusSucceeded) r.2).1 =
    (WriteJSON StatusOK (GTransaction txn), Some (p, mkWebhook txn 11%N 800 StatusSucceeded)).
Proof.
  destruct (Load host_url stack) as [cfg|] eqn:Hload; [|vm_compute in Hload; discriminate Hload].
  destruct (LoadFakepay host_url stack (fun _ => None)) as [gw|] eqn:Hgate; [|vm_compute in Hgate; discriminate Hgate].
  destruct (booking_api 0 (fun _ : World MapQueue.store => 6 * Second) (New (gateway_config gw)) cfg) as [a|] eqn:Hapi;
    [|destruct (booking_starts (R := MapQueue.store) host_url stack cfg Hload 0 (fun _ : World MapQueue.store => 6 * Second) (New (gateway_config gw))) as (a & Ha & _); congruence].
  exists cfg, gw, a. intros g serve r.
  assert (r.2 = r.2 /\ gateway_ok (gateway r.2)) as [_ Hok].
  { split; [reflexivity|]. destruct (link_registered host_url elements a g newCaches reserved lobby) as (p & _ & Hok & _); try reflexivity; try exact Hok; [|exact lobby_gateway|];
    unfold booking_api in Hapi; destruct (inventory_New _) as [[inv v]|]; try discriminate Hapi; injection Hapi as <-; [reflexivity|].
    apply (callback_accepted host_url stack (fun _ => None) cfg gw Hload Hgate host_url_callback); [discriminate|reflexivity]. }
  destruct (link_to_books (R := MapQueue.store) host_url stack (fun _ => None) text_create (fun _ => None) (fun s => Some s) text_refund (fun s => s)
    (fun _ => None) elements cfg gw 0 (fun _ => 6 * Second) a reserved lobby host_url_callback Hload Hgate Hapi eq_refl lobby_gateway
    ltac:(discriminate) ltac:(reflexivity) eq_refl eq_refl) as [Hu Hnext].
  destruct (Hnext r.2 Hok ltac:(reflexivity)) as [Hpage Hpay].
  destruct (Hpay StatusSucceeded ltac:(vm_compute; reflexivity)) as (txn & w3 & Hcomplete & _).
  split; [reflexivity|]. split; [exact Hu|]. split.
  - change (run (serve "GET" "/pay/11" EmptyString) r.2) with (run (serve "GET" (pay_path (o_ID reserved)) EmptyString) r.2). unfold serve, g. rewrite Hpage. reflexivity.
  - exists txn. eexists. change (run (serve "POST" "/pay/11/complete" StatusSucceeded) r.2) with (run (serve "POST" (pay_path (o_ID reserved) +:+ "/complete") StatusSucceeded) r.2).
    unfold serve, g. rewrite Hcomplete. reflexivity.
Defined.

(** *** The waiting room's routes *)

Definition lounge : waitapi MapQueue.store :=
  mkWaitApi _ (mkTokens "users" AccessTokenTTL) (Catalog_Event 0) 1 (5 * Second) (fun _ => 6 * Second).
Definition join_7 : WaitRequest := mkWaitRequest (ask "POST" "/v1/queue/7/join" bearer) EmptyString [].

(** User 1 gets the first place in the queue of event 7. *)
Lemma waiting_room_guards_witness : exists jr,
  Middleware.sv_writes (run (wait_router lounge [] "gen" join_7) lobby).1.1.2 = [WriteJSON StatusOK (WJoined jr)] /\
  standing (run (wait_router lounge [] "gen" join_7) lobby).2 7 (jr_QueueID jr).
Proof.
  destruct (waiting_room_guards lounge [] "gen" join_7 lobby (Catalog_Event_moves 0) (List.Forall_nil _)) as (reply & line & who & Hr & _ & Hwho & Hjr).
  assert (exists jr, Middleware.sv_writes (run (wait_router lounge [] "gen" join_7) lobby).1.1.2 = [WriteJSON StatusOK (WJoined jr)]) as [jr Hw]
    by (eexists; vm_compute; reflexivity).
  exists jr. split; [exact Hw|]. rewrite Hr in Hw. cbn [fst snd Middleware.sv_writes] in Hw. injection Hw as Hw.
  destruct (Hjr _ _ Hw) as (_ & e & u & He & Hst). destruct (Hwho _ _ He) as (_ & _ & _ & params & Hm & Hp).
  assert (e = 7) as ->; [|exact Hst].
  assert (match_segments (Split "/" "/v1/queue/{eventID}/join") (Split "/" (rq_Path (wq_Request join_7))) = Some {["eventID" := "7"]}) as Hm2
    by (vm_compute; reflexivity).
  rewrite Hm2 in Hm. injection Hm as <-. assert (Stream.pathEventID (URLParam {["eventID" := "7"]} "eventID") = Some 7) as Hp2 by (vm_compute; reflexivity).
  rewrite Hp2 in Hp. injection Hp as <-. reflexivity.
Defined.
